(* ===== verification/_CoqProject ===== *)
-Q . S2P
Prelude.v
Mem.v
Csr.v
Vm.v
Device.v
Console.v
Cpu.v
CpuType.v
CpuTrap.v
Isa.v
FdTable.v
Block.v
Loader.v
MiniFs.v
FsLayout.v
FsFile.v
FsWrite.v
FsOps.v
FsInv.v
FsFiles.v
AddrSpace.v
UserMem.v
Task.v
Process.v
Lifecycle.v
Sched.v
Sync.v
Exec.v
ExecSpec.v
Isolation.v
Syscall.v
SyscallSpec.v
Trap.v
SystemSpec.v
TrapSpec.v
Kernel.v
KernelSpec.v
