(* ===== verification/Prelude.v ===== *)
(** * MiniOS on the cemu machine: a verification library

    ** The program

    The repository holds a small operating system (src/os, C) and the RISC-V machine
    it runs on (src/cemu/src, C++).  The kernel is built for supervisor mode with
    MINIOS_USE_S_MODE and without MINIOS_BOOT_DIAGNOSTICS; it is entered from machine
    mode by the boot loader, sets up a page allocator, Sv39 page tables and the
    MiniFS disk, creates the shell as process 1 and waits for it.  Everything else
    happens in traps: the timer drives the scheduler, [ecall] the system calls.

    ** The files

    Machine, from the bottom:
    - [Csr]: the control registers (csr.cpp) with the kernel's accessors
      (include/csr.h) and timer.c on top of them;
    - [Vm]: the Sv39 walk (mmu.cpp) and the kernel's page tables (vm.c);
    - [Device]: DRAM, bus, CLINT, PLIC, UART, disk (dram.cpp, bus.cpp, clint.cpp,
      plic.cpp, uart.cpp, block_device.cpp);
    - [Cpu]: fetch, decode, execute, traps and the main loop (cpu.cpp,
      instructions.cpp, main.cpp); [CpuType] (every value keeps its C++ width),
      [CpuTrap] (trap entry and return) and [Isa] (comparison with RV64I).

    Kernel:
    - [Mem]: mem.c; [AddrSpace]: the address spaces of user.c, [UserMem] its theorems;
    - [FdTable]: the descriptors of minifs.c; [Block]: block.c against the emulated
      disk, and the classes [BlockOps] and [BlockDriver] through which the file
      system sees it; [MiniFs]: the rest of minifs.c; [FsLayout], [FsFile],
      [FsWrite]: theorems on the sectors, on block allocation and on file contents;
    - [Task]: task.c; [Process] (the invariant of the process table), [Lifecycle]
      (fork, exit, kill, wait) and [Sched] (policies, quantum, context switch).

    [Prelude] (this file) holds record update, the conversions between integer
    widths, arrays with the C index behaviour ([aget], [aset]), little-endian byte
    lists and the shared tactics.

    ** How C is modelled

    An unsigned w-bit integer is a [Z] with [u8], [u32], [u64] written where the
    code wraps, a signed one with [i32], [i64].  Static variables are the fields of a
    record that an operation takes and returns; a pointer into a static table is an
    index, NULL is [None] or 0.  A function that returns -1 for failure returns
    [None] or -1, with the state reached, since partial effects stay.  A loop with a
    fixed bound is a fold over its range ([fold_for], [find_from]); a loop without
    one takes fuel, and a lemma says which fuel is always enough: [walk] has one
    unit per character of the path, [pread_loop] and [write_loop] one per byte,
    [climb] one per inode, the copies of [AddrSpace] one per byte.  C++ methods run
    in a monad with exceptions and with a separate outcome for undefined behaviour.

    ** What is shown

    - the machine conforms to RV64I except for the divergences that are listed and
      proved, keeps its values in range, and its traps can be relied on;
    - the page allocator refines a set of free pages; page tables map exactly what
      vm.c promises; a process reaches exactly its own pages; fork copies them;
      copies between kernel and user memory move exactly the requested bytes;
    - the process table invariant holds in every reachable state; fork, exit, kill
      and wait do what their callers expect; both policies are fair in their sense
      and a task that is switched out finds its registers again;
    - descriptors are counted correctly in every reachable state; the block driver
      implements sector storage on the emulated disk; file contents are written and
      read back.

    ** Not modelled

    The assembly files (trap.S, switch.S, start.S, crt0.S) enter only through what
    their C callers declare: a trap frame is the list of the 32 saved registers.
    The host side of the emulator (terminal settings, the file behind the disk,
    logging) is input and output.  The user programs other than the shell are short
    sequences of library calls.  Interrupts arrive between operations of the
    kernel: the code that masks them is modelled with the masking, and the
    transition systems interleave at the points where they are enabled. *)

From stdpp Require Export prelude gmap.
From Stdlib Require Export ZArith Lia.
From Stdlib Require Export (notations) String.

#[global] Open Scope Z_scope.
#[export] Set Default Goal Selector "!".
#[export] Unset Printing Records.

Declare Scope minios_scope.
Delimit Scope minios_scope with minios.
#[global] Open Scope minios_scope.

(** ** Record update

    [r <| f := v |>] is [r] with field [f] replaced by [v].  A record type
    declares its eta-expansion once with [settable]; the update term of a
    field is found by abstracting that field out of the eta-expansion. *)

Class Settable (R : Type) := eta_of : R → R.

Class Setter {R T : Type} (proj : R → T) := set_field : (T → T) → R → R.
Arguments set_field {R T} proj {_} _ _ /.

Ltac solve_setter :=
  match goal with
  | |- @Setter ?R ?T ?proj =>
      let s := constr:(_ : Settable R) in
      let e := eval cbv beta delta [eta_of] in (@eta_of R s) in
      let e := eval hnf in e in
      let b := eval pattern proj in e in
      match b with
      | ?f _ => exact (fun (g : T → T) (r : R) => f (fun x => g (proj x)) r)
      end
  end.
#[global] Hint Extern 1 (Setter _) => solve_setter : typeclass_instances.

Notation "r <| f := v |>" := (set_field f (fun _ => v) r)
  (at level 1, f at level 200, left associativity, format "r <| f  :=  v |>")
  : minios_scope.

(** ** Fixed-width integers

    An unsigned [w]-bit C integer is a [Z] reduced modulo [2 ^ w] where the
    source computes it; [i32] is the conversion to [int]. *)

Definition u8 (z : Z) : Z := z mod 2 ^ 8.
Definition u16 (z : Z) : Z := z mod 2 ^ 16.
Definition u32 (z : Z) : Z := z mod 2 ^ 32.
Definition u64 (z : Z) : Z := z mod 2 ^ 64.
Definition i32 (z : Z) : Z := (z + 2 ^ 31) mod 2 ^ 32 - 2 ^ 31.
Definition i64 (z : Z) : Z := (z + 2 ^ 63) mod 2 ^ 64 - 2 ^ 63.

Abbreviation is_u8 z := (0 ≤ z < 256).
Abbreviation is_u32 z := (0 ≤ z < 4294967296).
Abbreviation is_u64 z := (0 ≤ z < 18446744073709551616).

Lemma u64_small z : is_u64 z → u64 z = z.
Proof. intros. by apply Z.mod_small. Qed.
Lemma u32_small z : is_u32 z → u32 z = z.
Proof. intros. by apply Z.mod_small. Qed.
Lemma i32_small z : - 2147483648 ≤ z < 2147483648 → i32 z = z.
Proof. intros. unfold i32. rewrite Z.mod_small; lia. Qed.
Lemma u64_range z : is_u64 (u64 z).
Proof. apply Z.mod_pos_bound. lia. Qed.
Lemma u32_range z : is_u32 (u32 z).
Proof. apply Z.mod_pos_bound. lia. Qed.
Lemma i32_range z : - 2147483648 ≤ i32 z < 2147483648.
Proof. unfold i32. pose proof (Z.mod_pos_bound (z + 2 ^ 31) (2 ^ 32)). lia. Qed.

(** A 64-bit word is a number without bits above bit 63. *)
Lemma is_u64_bits z : is_u64 z ↔ ∀ n, 64 ≤ n → Z.testbit z n = false.
Proof.
  split.
  - intros Hz n Hn. rewrite <- (Z.mod_small z (2 ^ 64)) by lia.
    by apply Z.mod_pow2_bits_high.
  - intros Hb. assert (z = u64 z) as ->; [|apply u64_range].
    apply Z.bits_inj'. intros n Hn. unfold u64. destruct (decide (n < 64)).
    + by rewrite Z.mod_pow2_bits_low.
    + rewrite Z.mod_pow2_bits_high by lia. apply Hb. lia.
Qed.

(** Setting low bits of a multiple of [2 ^ k] is an addition. *)
Lemma lor_low a b k : 0 ≤ k → a mod 2 ^ k = 0 → 0 ≤ b < 2 ^ k → Z.lor a b = a + b.
Proof.
  intros Hk Ha Hb. symmetry. apply Z.add_nocarry_lor. apply Z.bits_inj'. intros n Hn.
  rewrite Z.land_spec, Z.bits_0. destruct (decide (n < k)).
  - rewrite <- (Z.mod_pow2_bits_low a k n), Ha, Z.bits_0 by lia. done.
  - rewrite <- (Z.mod_small b (2 ^ k)), (Z.mod_pow2_bits_high b k n) by lia. apply andb_false_r.
Qed.

(** ** Decisions on boolean tests *)

(** [bsimp] turns boolean tests in the context and the goal into [Prop]s. *)
Ltac bsimp :=
  repeat match goal with
  | H : _ && _ = true |- _ => apply andb_true_iff in H as [? ?]
  | H : _ || _ = false |- _ => apply orb_false_iff in H as [? ?]
  | H : negb _ = true |- _ => apply negb_true_iff in H
  | H : negb _ = false |- _ => apply negb_false_iff in H
  | H : (_ =? _) = true |- _ => apply Z.eqb_eq in H
  | H : (_ =? _) = false |- _ => apply Z.eqb_neq in H
  | H : (_ <? _) = true |- _ => apply Z.ltb_lt in H
  | H : (_ <? _) = false |- _ => apply Z.ltb_ge in H
  | H : (_ <=? _) = true |- _ => apply Z.leb_le in H
  | H : (_ <=? _) = false |- _ => apply Z.leb_gt in H
  | H : (_ >? _) = _ |- _ => rewrite Z.gtb_ltb in H
  | H : (_ >=? _) = _ |- _ => rewrite Z.geb_leb in H
  end.

(** [bcase] splits on the first boolean test found under an [if]. *)
Ltac bcase :=
  match goal with
  | |- context [if ?b then _ else _] =>
      lazymatch type of b with bool => destruct b eqn:?; bsimp end
  end.

(** ** Arrays

    A C array is a list; [aget d l i] reads index [i] (with a default that is
    never reached inside the array) and [aset l i v] is the assignment. *)

Definition aget {A} (d : A) (l : list A) (i : Z) : A := default d (l !! Z.to_nat i).
Definition aset {A} (l : list A) (i : Z) (v : A) : list A := <[Z.to_nat i := v]> l.

Section arrays.
Context {A : Type}.
Implicit Types (l : list A) (d v : A) (i j : Z).

Lemma aget_aset_eq d l i v :
  0 ≤ i < Z.of_nat (length l) → aget d (aset l i v) i = v.
Proof. intros. unfold aget, aset. rewrite list_lookup_insert_eq; [done|lia]. Qed.

Lemma aget_aset_ne d l i j v :
  0 ≤ i → 0 ≤ j → i ≠ j → aget d (aset l i v) j = aget d l j.
Proof. intros. unfold aget, aset. rewrite list_lookup_insert_ne; [done|lia]. Qed.

Lemma length_aset l i v : length (aset l i v) = length l.
Proof. apply length_insert. Qed.

Lemma aget_lookup d l i x : l !! Z.to_nat i = Some x → aget d l i = x.
Proof. intros H. unfold aget. by rewrite H. Qed.

Lemma lookup_aget d l i :
  0 ≤ i < Z.of_nat (length l) → l !! Z.to_nat i = Some (aget d l i).
Proof.
  intros. unfold aget. destruct (lookup_lt_is_Some_2 l (Z.to_nat i)) as [x Hx];
    [lia | by rewrite Hx].
Qed.

Lemma aget_elem_of d l i : 0 ≤ i < Z.of_nat (length l) → aget d l i ∈ l.
Proof. intros. eapply list_elem_of_lookup. eauto using lookup_aget. Qed.

Lemma aset_aget d l i : 0 ≤ i < Z.of_nat (length l) → aset l i (aget d l i) = l.
Proof. intros. apply list_insert_id. by apply lookup_aget. Qed.

Lemma list_eq_aget d l1 l2 :
  length l1 = length l2 →
  (∀ i, 0 ≤ i < Z.of_nat (length l1) → aget d l1 i = aget d l2 i) → l1 = l2.
Proof.
  intros Hlen Hget. apply (list_eq_same_length _ _ (length l1)); [done..|].
  intros n x y Hn Hx Hy. specialize (Hget (Z.of_nat n)). unfold aget in Hget.
  rewrite Nat2Z.id, Hx, Hy in Hget. simpl in Hget. apply Hget. lia.
Qed.

Lemma aget_replicate d n v i :
  0 ≤ i < Z.of_nat n → aget d (replicate n v) i = v.
Proof. intros. unfold aget. rewrite lookup_replicate_2; [done|lia]. Qed.
End arrays.

(** ** Bounded search: [for (i = lo; i < hi; i++) if (p(i)) return i;] *)

Fixpoint find_from (n : nat) (i : Z) (p : Z → bool) : option Z :=
  match n with
  | O => None
  | S n' => if p i then Some i else find_from n' (i + 1) p
  end.

Lemma find_from_Some n i p k :
  find_from n i p = Some k →
  i ≤ k < i + Z.of_nat n ∧ p k = true ∧ ∀ j, i ≤ j < k → p j = false.
Proof.
  revert i. induction n as [|n IH]; intros i; simpl; [done|].
  destruct (p i) eqn:Hp.
  - intros [= <-]. split_and!; [lia..| done |]. intros. lia.
  - intros (Hk & Hpk & Hmin)%IH. split_and!; [lia..| done |].
    intros j Hj. destruct (decide (j = i)) as [->|]; [done|]. apply Hmin. lia.
Qed.

Lemma find_from_None n i p :
  find_from n i p = None ↔ ∀ j, i ≤ j < i + Z.of_nat n → p j = false.
Proof.
  revert i. induction n as [|n IH]; intros i; simpl.
  - split; [|done]. intros _ j Hj. lia.
  - destruct (p i) eqn:Hp.
    + split; [done|]. intros H. rewrite H in Hp; [done|lia].
    + rewrite IH. split; intros H j Hj.
      * destruct (decide (j = i)) as [->|]; [done|]. apply H. lia.
      * apply H. lia.
Qed.

Lemma find_from_ext n i p q :
  (∀ j, i ≤ j < i + Z.of_nat n → p j = q j) → find_from n i p = find_from n i q.
Proof.
  revert i. induction n as [|n IH]; intros i H; simpl; [done|].
  rewrite (H i) by lia. destruct (q i); [done|]. apply IH. intros. apply H. lia.
Qed.

Lemma find_from_complete n i p k :
  i ≤ k < i + Z.of_nat n → p k = true →
  ∃ j, find_from n i p = Some j ∧ i ≤ j ≤ k ∧ p j = true.
Proof.
  intros Hk Hp. destruct (find_from n i p) as [j|] eqn:E.
  - apply find_from_Some in E as (? & ? & Hmin). exists j. split_and!; [done|lia| |done].
    destruct (decide (j ≤ k)); [done|]. rewrite Hmin in Hp; [done|lia].
  - rewrite find_from_None in E. rewrite E in Hp; [done|lia].
Qed.

Lemma find_from_exact n i p k :
  i ≤ k < i + Z.of_nat n → p k = true → (∀ j, i ≤ j < k → p j = false) →
  find_from n i p = Some k.
Proof.
  intros Hk Hp Hmin. destruct (find_from_complete n i p k) as (j & -> & Hj & Hpj); [done..|].
  f_equal. destruct (decide (j = k)); [done|]. rewrite Hmin in Hpj; [done|lia].
Qed.

Lemma find_from_snoc n i p :
  find_from (S n) i p =
    match find_from n i p with
    | Some k => Some k
    | None => if p (i + Z.of_nat n) then Some (i + Z.of_nat n) else None
    end.
Proof.
  revert i. induction n as [|n IH]; intros i.
  - simpl. by rewrite Z.add_0_r.
  - change (find_from (S (S n)) i p) with (if p i then Some i else find_from (S n) (i + 1) p).
    rewrite IH. replace (i + Z.of_nat (S n)) with (i + 1 + Z.of_nat n) by lia.
    cbn [find_from]. by destruct (p i).
Qed.

(** ** Little-endian words and bytes *)

Fixpoint le_encode (n : nat) (v : Z) : list Z :=
  match n with
  | O => []
  | S n' => v mod 256 :: le_encode n' (v / 256)
  end.

Definition le_decode (bs : list Z) : Z := foldr (λ b acc, b + 256 * acc) 0 bs.

Definition le32 : Z → list Z := le_encode 4.
Definition le64 : Z → list Z := le_encode 8.

Abbreviation bytes bs := (Forall (λ b : Z, is_u8 b) bs).

Lemma length_le_encode n v : length (le_encode n v) = n.
Proof. revert v. induction n as [|n IH]; intros v; simpl; [done|]. by rewrite IH. Qed.

Lemma le_encode_bytes n v : bytes (le_encode n v).
Proof.
  revert v. induction n as [|n IH]; intros v; simpl; constructor; [|apply IH].
  pose proof (Z.mod_pos_bound v 256). lia.
Qed.

Lemma le_decode_range bs : bytes bs → 0 ≤ le_decode bs < 256 ^ Z.of_nat (length bs).
Proof.
  induction 1 as [|b bs Hb _ IH]; [done|]. cbn [length le_decode foldr].
  fold (le_decode bs). rewrite Nat2Z.inj_succ, Z.pow_succ_r by lia. lia.
Qed.

Lemma le_decode_encode n v : le_decode (le_encode n v) = v mod 256 ^ Z.of_nat n.
Proof.
  revert v. induction n as [|n IH]; intros v; [by rewrite Z.mod_1_r|].
  cbn [le_encode le_decode foldr]. fold (le_decode (le_encode n (v / 256))). rewrite IH.
  rewrite Nat2Z.inj_succ, Z.pow_succ_r by lia.
  by rewrite Z.rem_mul_r by lia.
Qed.

Lemma le_encode_decode bs : bytes bs → le_encode (length bs) (le_decode bs) = bs.
Proof.
  induction 1 as [|b bs Hb _ IH]; [done|]. cbn [length le_encode le_decode foldr].
  fold (le_decode bs).
  assert ((b + 256 * le_decode bs) mod 256 = b) as ->
    by (symmetry; apply (Z.mod_unique_pos _ _ (le_decode bs)); lia).
  assert ((b + 256 * le_decode bs) / 256 = le_decode bs) as ->
    by (symmetry; apply (Z.div_unique_pos _ _ _ b); lia).
  by rewrite IH.
Qed.

Lemma le64_decode v : is_u64 v → le_decode (le64 v) = v.
Proof. intros. unfold le64. rewrite le_decode_encode. by apply Z.mod_small. Qed.

Lemma le32_decode v : is_u32 v → le_decode (le32 v) = v.
Proof. intros. unfold le32. rewrite le_decode_encode. by apply Z.mod_small. Qed.

(** The characters of a string literal. *)
Definition chars (s : String.string) : list Z :=
  map (λ a, Z.of_N (Ascii.N_of_ascii a)) (String.list_ascii_of_string s).

(** ** Byte buffers

    [slice off n l] is [l[off .. off+n)]; [splice off bs l] overwrites [l] from
    [off] with [bs] (the effect of [copy_bytes(l + off, bs, length bs)]). *)

Definition slice {A} (off n : Z) (l : list A) : list A :=
  take (Z.to_nat n) (drop (Z.to_nat off) l).

Definition splice {A} (off : Z) (bs l : list A) : list A :=
  take (Z.to_nat off) l ++ bs ++ drop (Z.to_nat off + length bs) l.

Section buffers.
Context {A : Type}.
Implicit Types (l bs : list A) (off n : Z).

Lemma length_slice off n l :
  0 ≤ off → 0 ≤ n → off + n ≤ Z.of_nat (length l) →
  length (slice off n l) = Z.to_nat n.
Proof. intros. unfold slice. rewrite length_take, length_drop. lia. Qed.

Lemma length_splice off bs l :
  0 ≤ off → off + Z.of_nat (length bs) ≤ Z.of_nat (length l) →
  length (splice off bs l) = length l.
Proof. intros. unfold splice. rewrite !length_app, length_take, length_drop. lia. Qed.

Lemma slice_splice_eq off bs l :
  0 ≤ off → off + Z.of_nat (length bs) ≤ Z.of_nat (length l) →
  slice off (Z.of_nat (length bs)) (splice off bs l) = bs.
Proof.
  intros. unfold slice, splice. rewrite drop_app_length' by (rewrite length_take; lia).
  rewrite Nat2Z.id. apply take_app_length.
Qed.

Lemma lookup_splice off bs l (i : nat) :
  0 ≤ off → off + Z.of_nat (length bs) ≤ Z.of_nat (length l) →
  splice off bs l !! i =
    if decide (Z.to_nat off ≤ i < Z.to_nat off + length bs)%nat
    then bs !! (i - Z.to_nat off)%nat else l !! i.
Proof.
  intros. unfold splice. case_decide as Hi.
  - rewrite lookup_app_r by (rewrite length_take; lia).
    rewrite length_take, Nat.min_l by lia. apply lookup_app_l. lia.
  - destruct (decide (i < Z.to_nat off)%nat).
    + rewrite lookup_app_l by (rewrite length_take; lia). by apply lookup_take_lt.
    + rewrite lookup_app_r, lookup_app_r by (rewrite ?length_take; lia).
      rewrite length_take, lookup_drop. f_equal. lia.
Qed.

Lemma slice_splice_ne off bs l off' n :
  0 ≤ off → off + Z.of_nat (length bs) ≤ Z.of_nat (length l) →
  0 ≤ off' → 0 ≤ n → off' + n ≤ off ∨ off + Z.of_nat (length bs) ≤ off' →
  slice off' n (splice off bs l) = slice off' n l.
Proof.
  intros Ho Hl Ho' Hn Hd. unfold slice. apply list_eq. intros i.
  destruct (decide (i < Z.to_nat n)%nat).
  - rewrite !lookup_take_lt, !lookup_drop, lookup_splice by lia.
    rewrite decide_False; [done|lia].
  - by rewrite !lookup_take_ge by lia.
Qed.

Lemma splice_slice_id off n l :
  0 ≤ off → 0 ≤ n → off + n ≤ Z.of_nat (length l) → splice off (slice off n l) l = l.
Proof.
  intros. apply list_eq. intros i.
  rewrite lookup_splice by (rewrite ?length_slice; lia).
  rewrite length_slice by lia. case_decide as Hi; [|done].
  unfold slice. rewrite lookup_take_lt, lookup_drop by lia. f_equal. lia.
Qed.

Lemma Forall_splice (P : A → Prop) off bs l :
  Forall P bs → Forall P l → Forall P (splice off bs l).
Proof.
  intros. unfold splice.
  repeat apply Forall_app_2; auto using Forall_take, Forall_drop.
Qed.

Lemma Forall_slice (P : A → Prop) off n l : Forall P l → Forall P (slice off n l).
Proof. intros. unfold slice. auto using Forall_take, Forall_drop. Qed.

Lemma slice_app_split off n1 n2 l :
  0 ≤ off → 0 ≤ n1 → 0 ≤ n2 →
  slice off (n1 + n2) l = slice off n1 l ++ slice (off + n1) n2 l.
Proof.
  intros. unfold slice. rewrite Z2Nat.inj_add by lia. rewrite <- take_take_drop.
  by rewrite drop_drop, <- Z2Nat.inj_add by lia.
Qed.
End buffers.

(** ** Physical memory: a byte map, bytes never written read as 0 *)

Abbreviation ram_t := (gmap Z Z).

Definition load8 (m : ram_t) (a : Z) : Z := default 0 (m !! a).

Definition load_bytes (m : ram_t) (a : Z) (n : nat) : list Z :=
  (λ i, load8 m (a + Z.of_nat i)) <$> seq 0 n.

Fixpoint store_bytes (m : ram_t) (a : Z) (bs : list Z) : ram_t :=
  match bs with
  | [] => m
  | b :: bs' => store_bytes (<[a := b]> m) (a + 1) bs'
  end.

Definition load64 (m : ram_t) (a : Z) : Z := le_decode (load_bytes m a 8).
Definition store64 (m : ram_t) (a v : Z) : ram_t := store_bytes m a (le64 v).

Lemma lookup_store_bytes m a bs x :
  store_bytes m a bs !! x =
    if decide (a ≤ x < a + Z.of_nat (length bs))
    then bs !! Z.to_nat (x - a) else m !! x.
Proof.
  revert m a. induction bs as [|b bs IH]; intros m a; simpl.
  - rewrite decide_False; [done|lia].
  - rewrite IH. repeat case_decide; try lia.
    + replace (Z.to_nat (x - a)) with (S (Z.to_nat (x - (a + 1)))) by lia. done.
    + replace x with a by lia. by rewrite Z.sub_diag, lookup_insert_eq.
    + by rewrite lookup_insert_ne by lia.
Qed.

Lemma length_load_bytes m a n : length (load_bytes m a n) = n.
Proof. unfold load_bytes. by rewrite length_fmap, length_seq. Qed.

Lemma lookup_load_bytes m a n i :
  (i < n)%nat → load_bytes m a n !! i = Some (load8 m (a + Z.of_nat i)).
Proof.
  intros. unfold load_bytes. rewrite list_lookup_fmap, lookup_seq_lt by lia. done.
Qed.

Lemma load_bytes_ext m m' a n :
  (∀ x, a ≤ x < a + Z.of_nat n → m !! x = m' !! x) → load_bytes m a n = load_bytes m' a n.
Proof.
  intros H. apply list_eq_same_length with n; rewrite ?length_load_bytes; [done..|].
  intros i x y Hi. rewrite !lookup_load_bytes by done. unfold load8. rewrite H by lia.
  congruence.
Qed.

Lemma load_bytes_store_eq m a bs : load_bytes (store_bytes m a bs) a (length bs) = bs.
Proof.
  apply list_eq_same_length with (length bs); rewrite ?length_load_bytes; [done..|].
  intros i x y Hi. rewrite lookup_load_bytes by done. unfold load8.
  rewrite lookup_store_bytes, decide_True by lia.
  replace (Z.to_nat _) with i by lia. intros [= <-] Hy. by rewrite Hy.
Qed.

Lemma load_bytes_store_ne m a bs a' n :
  a' + Z.of_nat n ≤ a ∨ a + Z.of_nat (length bs) ≤ a' →
  load_bytes (store_bytes m a bs) a' n = load_bytes m a' n.
Proof.
  intros H. apply load_bytes_ext. intros x Hx. rewrite lookup_store_bytes.
  rewrite decide_False; [done|lia].
Qed.

Lemma load64_store64_eq m a v : is_u64 v → load64 (store64 m a v) a = v.
Proof.
  intros. unfold load64, store64. change 8%nat with (length (le64 v)).
  rewrite load_bytes_store_eq. by apply le64_decode.
Qed.

Lemma load64_store_ne m a bs a' :
  a' + 8 ≤ a ∨ a + Z.of_nat (length bs) ≤ a' →
  load64 (store_bytes m a bs) a' = load64 m a'.
Proof. intros. unfold load64. by rewrite load_bytes_store_ne by lia. Qed.

Lemma load64_store64_ne m a v a' :
  a' + 8 ≤ a ∨ a + 8 ≤ a' → load64 (store64 m a v) a' = load64 m a'.
Proof. intros. apply load64_store_ne. unfold le64. rewrite length_le_encode. lia. Qed.

(** Memory holds bytes. *)
Definition ram_ok (m : ram_t) : Prop := map_Forall (λ _ b, is_u8 b) m.

Lemma ram_ok_empty : ram_ok ∅.
Proof. apply map_Forall_empty. Qed.

Lemma ram_ok_load8 m x : ram_ok m → is_u8 (load8 m x).
Proof. intros H. unfold load8. destruct (m !! x) eqn:E; [exact (H _ _ E)|simpl; lia]. Qed.

Lemma ram_ok_load_bytes m a n : ram_ok m → bytes (load_bytes m a n).
Proof. intros H. apply Forall_fmap, Forall_true. intros. by apply ram_ok_load8. Qed.

Lemma ram_ok_store_bytes m a bs : ram_ok m → bytes bs → ram_ok (store_bytes m a bs).
Proof.
  intros Hm Hb x b. rewrite lookup_store_bytes. case_decide; [|apply Hm].
  intros Hx. by eapply (proj1 (Forall_lookup _ _) Hb).
Qed.

Lemma ram_ok_store64 m a v : ram_ok m → ram_ok (store64 m a v).
Proof. intros. apply ram_ok_store_bytes; [done|apply le_encode_bytes]. Qed.

Lemma load8_store_bytes m a bs x :
  load8 (store_bytes m a bs) x =
    if decide (a ≤ x < a + Z.of_nat (length bs)) then aget 0 bs (x - a) else load8 m x.
Proof. unfold load8, aget. rewrite lookup_store_bytes. by case_decide. Qed.

Lemma load_bytes_shift m m' a a' n :
  (∀ k, 0 ≤ k < Z.of_nat n → load8 m (a + k) = load8 m' (a' + k)) →
  load_bytes m a n = load_bytes m' a' n.
Proof.
  intros H. apply list_eq_same_length with n; rewrite ?length_load_bytes; [done..|].
  intros i x y Hi. rewrite !lookup_load_bytes, H by lia. congruence.
Qed.

Lemma aget_load_bytes m a n k :
  0 ≤ k < Z.of_nat n → aget 0 (load_bytes m a n) k = load8 m (a + k).
Proof.
  intros. unfold aget. rewrite lookup_load_bytes by lia. simpl. f_equal. lia.
Qed.

(** Copying a word copies its eight bytes. *)
Lemma load8_copy64 m a b x :
  ram_ok m →
  load8 (store64 m a (load64 m b)) x =
    if decide (a ≤ x < a + 8) then load8 m (b + (x - a)) else load8 m x.
Proof.
  intros Hm. unfold store64, load64, le64.
  rewrite <- (length_load_bytes m b 8) at 1.
  rewrite le_encode_decode by (by apply ram_ok_load_bytes).
  rewrite load8_store_bytes, length_load_bytes. change (Z.of_nat 8) with 8.
  case_decide; [|done]. rewrite aget_load_bytes by lia. done.
Qed.

(** ** State monad

    [M S A] is a C function over the static variables collected in [S].  The
    notation [x ← m; k] is stdpp's. *)

Definition M (S A : Type) : Type := S → A * S.

#[global] Instance M_ret {S} : MRet (M S) := λ A a s, (a, s).
#[global] Instance M_bind {S} : MBind (M S) :=
  λ A B k m s, let '(a, s') := m s in k a s'.

Definition gets {S A} (f : S → A) : M S A := λ s, (f s, s).
Definition modify {S} (f : S → S) : M S unit := λ s, (tt, f s).

(** [for_each n i body]: a loop over [i, i+1, .., i+n-1] whose body leaves the
    loop early by producing [Some r] (a [return] or [break]). *)
Fixpoint for_each {S R} (n : nat) (i : Z) (body : Z → M S (option R)) : M S (option R) :=
  match n with
  | O => mret None
  | S n' =>
      r ← body i;
      match r with
      | Some v => mret (Some v)
      | None => for_each n' (i + 1) body
      end
  end.

(** [fold_for n i body s]: a loop without early exit over explicit state. *)
Fixpoint fold_for {S} (n : nat) (i : Z) (body : Z → S → S) (s : S) : S :=
  match n with
  | O => s
  | S n' => fold_for n' (i + 1) body (body i s)
  end.

Lemma fold_for_ind {S} (I : Z → S → Prop) n i (body : Z → S → S) s :
  I i s →
  (∀ j t, i ≤ j < i + Z.of_nat n → I j t → I (j + 1) (body j t)) →
  I (i + Z.of_nat n) (fold_for n i body s).
Proof.
  revert i s. induction n as [|n IH]; intros i s Hi Hs; simpl.
  - by rewrite Z.add_0_r.
  - replace (i + Z.of_nat (Datatypes.S n)) with ((i + 1) + Z.of_nat n) by lia.
    apply IH; [apply Hs; [lia|done]|]. intros j t Hj. apply Hs. lia.
Qed.

(** The state reached by a loop over [M] satisfies [I] at the index where the
    loop stops, and the value returned early satisfies [Q]. *)
Lemma for_each_ind {S R} (I : Z → S → Prop) (Q : R → S → Prop) n i
    (body : Z → M S (option R)) s r s' :
  for_each n i body s = (r, s') →
  I i s →
  (∀ j t o t', i ≤ j < i + Z.of_nat n → I j t → body j t = (o, t') →
     match o with Some v => Q v t' | None => I (j + 1) t' end) →
  match r with Some v => Q v s' | None => I (i + Z.of_nat n) s' end.
Proof.
  revert i s. induction n as [|n IH]; intros i s Hf Hi Hb; simpl in Hf.
  - injection Hf as <- <-. by rewrite Z.add_0_r.
  - unfold mbind, M_bind in Hf. destruct (body i s) as [o t] eqn:E.
    specialize (Hb i s o t) as Hb0. destruct o as [v|].
    + injection Hf as <- <-. apply Hb0; [lia|done..].
    + replace (i + Z.of_nat (Datatypes.S n)) with ((i + 1) + Z.of_nat n) by lia.
      eapply IH; [exact Hf | apply Hb0; [lia|done..] |].
      intros j u o' u' Hj. apply Hb. lia.
Qed.

(** Unfolding a bind whose first computation has a known result. *)
Lemma bind_run {S A B} (m : M S A) (k : A → M S B) s a s' :
  m s = (a, s') → (m ≫= k) s = k a s'.
Proof. unfold mbind, M_bind. by intros ->. Qed.

Create HintDb minios.
Create Rewrite HintDb minios.
#[export] Hint Resolve u64_range u32_range : minios.
#[export] Hint Rewrite @length_aset length_le_encode length_load_bytes : minios.

Lemma NoDup_three {A} (a b c : A) : a ≠ b → a ≠ c → b ≠ c → NoDup [a; b; c].
Proof.
  intros Hab Hac Hbc. apply NoDup_ListNoDup.
  constructor; [|constructor; [|constructor; [|constructor]]]; simpl; intuition congruence.
Qed.

(** ** Sums over lists *)

Section sums.
Context {A : Type}.
Implicit Types (f : A → nat) (l : list A).

Lemma sum_list_with_insert f l i x y :
  l !! i = Some x →
  (sum_list_with f (<[i := y]> l) + f x = sum_list_with f l + f y)%nat.
Proof.
  revert i. induction l as [|z l IH]; intros [|i] H; simplify_eq/=; [lia|].
  specialize (IH _ H). lia.
Qed.

Lemma sum_list_with_lookup f l i x :
  l !! i = Some x → (f x ≤ sum_list_with f l)%nat.
Proof.
  revert i. induction l as [|z l IH]; intros [|i] H; simplify_eq/=; [lia|].
  specialize (IH _ H). lia.
Qed.

Lemma sum_list_with_zero f l :
  (∀ x, x ∈ l → f x = 0%nat) → sum_list_with f l = 0%nat.
Proof.
  induction l as [|z l IH]; intros H; simpl; [done|].
  rewrite H, IH by set_solver. done.
Qed.

Lemma sum_list_with_pos f l :
  sum_list_with f l ≠ 0%nat → ∃ i x, l !! i = Some x ∧ f x ≠ 0%nat.
Proof.
  induction l as [|z l IH]; simpl; [done|]. intros H.
  destruct (decide (f z = 0%nat)) as [Hz|Hz].
  - destruct IH as (i & x & ? & ?); [lia|]. by exists (S i), x.
  - by exists 0%nat, z.
Qed.
End sums.
