(* ===== verification/Mem.v ===== *)
(** * Physical page allocator (os/kernel/mem.c)

    The allocator keeps a free list threaded through the first eight bytes of
    the free pages and a bump pointer into the untouched rest of the heap.
    [mem_state] holds the static variables of mem.c together with physical
    memory [ram].  The linker symbol [_kernel_end] is a parameter ([kernel_end]);
    [_kernel_start] and [_stack_top] are the constants of os/linker.ld.

    [Spec] is the promise made to the callers: a finite set of free pages from
    which [alloc] takes one and to which [free] gives one back.  [mem_rep]
    relates the linked list and the bump region to such a set. *)

From S2P Require Import Prelude.

Definition PAGE_SIZE : Z := 4096.
Definition STACK_GUARD : Z := 256 * 1024.
Definition _kernel_start : Z := 0x80200000.
Definition _stack_top : Z := 0x80200000 + 126 * 1024 * 1024.

Record mem_state := MkMem {
  ram : ram_t;
  free_list : Z;
  total_free : Z;
  bump_ptr : Z;
  heap_end : Z;
}.
#[global] Instance mem_state_eta : Settable mem_state := λ s,
  MkMem (ram s) (free_list s) (total_free s) (bump_ptr s) (heap_end s).

(** [struct free_page]: the successor pointer stored in a free page. *)
Definition free_page_next (m : ram_t) (page : Z) : Z := load64 m page.

(** [(addr + align - 1) & ~(align - 1)] on [uintptr_t]. *)
Definition align_up (addr align : Z) : Z :=
  Z.land (u64 (addr + align - 1)) (u64 (Z.lnot (align - 1))).

Definition mem_init (kernel_end : Z) (s : mem_state) : mem_state :=
  let bump := align_up kernel_end PAGE_SIZE in
  let hend := Z.land (u64 (_stack_top - STACK_GUARD)) (u64 (Z.lnot (PAGE_SIZE - 1))) in
  let free := if bump <? hend then (hend - bump) / PAGE_SIZE else 0 in
  s <| bump_ptr := bump |> <| heap_end := hend |>
    <| free_list := 0 |> <| total_free := free |>.

(** The page handed out; [0] is [NULL]. *)
Definition kalloc (s : mem_state) : Z * mem_state :=
  if negb (free_list s =? 0) then
    let page := free_list s in
    (page, s <| free_list := free_page_next (ram s) page |>
             <| total_free := u64 (total_free s - 1) |>)
  else if heap_end s <? u64 (bump_ptr s + PAGE_SIZE) then (0, s)
  else
    let page := bump_ptr s in
    (page, s <| bump_ptr := u64 (bump_ptr s + PAGE_SIZE) |>
             <| total_free := u64 (total_free s - 1) |>).

Definition kfree (ptr : Z) (s : mem_state) : mem_state :=
  if ptr =? 0 then s
  else if negb (Z.land ptr (PAGE_SIZE - 1) =? 0) then s
  else if (ptr <? _kernel_start) || (_stack_top <=? ptr) then s
  else
    s <| ram := store64 (ram s) ptr (free_list s) |>
      <| free_list := ptr |>
      <| total_free := u64 (total_free s + 1) |>.

Definition mem_free_pages (s : mem_state) : Z := total_free s.

(** ** Abstract specification *)

Module Spec.
(** The free pages. *)
Abbreviation state := (gset Z).

Inductive alloc : state → Z → state → Prop :=
| alloc_page F p : p ∈ F → alloc F p (F ∖ {[p]})
| alloc_none : alloc ∅ 0 ∅.

Definition free (p : Z) (F : state) : state := {[p]} ∪ F.
End Spec.

Lemma alloc_removes F p F' : Spec.alloc F p F' → p ≠ 0 → p ∉ F'.
Proof. intros H Hp. destruct H; [set_solver|done]. Qed.

(** ** Representation *)

(** [chain m p pages]: following the successor pointers from [p] visits
    exactly [pages] and ends at [NULL]. *)
Fixpoint chain (m : ram_t) (p : Z) (pages : list Z) : Prop :=
  match pages with
  | [] => p = 0
  | q :: pages' => p = q ∧ p ≠ 0 ∧ chain m (free_page_next m p) pages'
  end.

(** The pages of the heap [lo, hi) by ascending address. *)
Definition pages_between (lo hi : Z) : list Z :=
  (λ i, lo + PAGE_SIZE * Z.of_nat i) <$> seq 0 (Z.to_nat ((hi - lo) / PAGE_SIZE)).

Definition is_page (start : Z) (p : Z) : Prop :=
  start ≤ p < _stack_top - STACK_GUARD ∧ p mod PAGE_SIZE = 0.

(** [mem_rep start F s]: [s] represents the set [F] of free pages of the heap
    that begins at [start]. *)
Record mem_rep (start : Z) (F : Spec.state) (s : mem_state) : Prop := {
  rep_start : _kernel_start ≤ start ∧ start mod PAGE_SIZE = 0;
  rep_end : heap_end s = _stack_top - STACK_GUARD;
  rep_bump : start ≤ bump_ptr s ≤ heap_end s ∧ bump_ptr s mod PAGE_SIZE = 0;
  rep_count : total_free s = Z.of_nat (size F);
  rep_list : ∃ pages,
    chain (ram s) (free_list s) pages ∧ NoDup pages ∧
    Forall (λ p, is_page start p ∧ p < bump_ptr s) pages ∧
    F = list_to_set pages ∪ list_to_set (pages_between (bump_ptr s) (heap_end s));
}.

Lemma chain_null m pages : chain m 0 pages → pages = [].
Proof. destruct pages; simpl; [done|]. intros (_ & ? & _). done. Qed.

(** Only the first eight bytes of the listed pages matter to the list. *)
Lemma chain_frame m m' p pages :
  (∀ q, q ∈ pages → load64 m' q = load64 m q) → chain m p pages → chain m' p pages.
Proof.
  revert p. induction pages as [|q pages IH]; intros p Hm; simpl; [done|].
  intros (-> & Hq & Hc). split_and!; [done..|]. unfold free_page_next in *.
  rewrite Hm by set_solver. apply IH; [set_solver|done].
Qed.

Lemma elem_of_pages_between lo hi p :
  p ∈ pages_between lo hi ↔
  lo ≤ p ∧ p + PAGE_SIZE ≤ hi ∧ (p - lo) mod PAGE_SIZE = 0.
Proof.
  unfold pages_between. rewrite list_elem_of_fmap. setoid_rewrite elem_of_seq.
  unfold PAGE_SIZE. split.
  - intros (i & -> & Hi). Z.div_mod_to_equations. lia.
  - intros (Hlo & Hhi & Hm). exists (Z.to_nat ((p - lo) / 4096)).
    Z.div_mod_to_equations. lia.
Qed.

Lemma pages_between_NoDup lo hi : NoDup (pages_between lo hi).
Proof.
  unfold pages_between. apply NoDup_fmap_2; [|apply NoDup_seq].
  intros i j. unfold PAGE_SIZE. lia.
Qed.

Lemma length_pages_between lo hi :
  length (pages_between lo hi) = Z.to_nat ((hi - lo) / PAGE_SIZE).
Proof. unfold pages_between. by rewrite length_fmap, length_seq. Qed.

Lemma pages_between_cons lo hi :
  lo + PAGE_SIZE ≤ hi → pages_between lo hi = lo :: pages_between (lo + PAGE_SIZE) hi.
Proof.
  intros H. unfold pages_between, PAGE_SIZE in *.
  replace (Z.to_nat ((hi - lo) / 4096)) with (S (Z.to_nat ((hi - (lo + 4096)) / 4096)))
    by (Z.div_mod_to_equations; lia).
  cbn [seq fmap list_fmap]. f_equal; [lia|]. rewrite <- fmap_S_seq, <- list_fmap_compose.
  apply list_fmap_ext. intros i x _. simpl. lia.
Qed.

Lemma pages_between_nil lo hi : hi < lo + PAGE_SIZE → pages_between lo hi = [].
Proof.
  intros H. unfold pages_between, PAGE_SIZE in *.
  replace (Z.to_nat ((hi - lo) / 4096)) with 0%nat by (Z.div_mod_to_equations; lia). done.
Qed.

(** Aligning with the page mask. *)
Lemma land_page_offset a : 0 ≤ a → Z.land a (PAGE_SIZE - 1) = a mod PAGE_SIZE.
Proof. intros. unfold PAGE_SIZE. change (4096 - 1) with (Z.ones 12). by apply Z.land_ones. Qed.

Lemma land_page_mask a :
  is_u64 a → Z.land a (u64 (Z.lnot (PAGE_SIZE - 1))) = PAGE_SIZE * (a / PAGE_SIZE).
Proof.
  intros Ha. unfold u64, PAGE_SIZE.
  change (Z.lnot (4096 - 1)) with (Z.lnot (Z.ones 12)).
  assert (Z.land a (Z.lnot (Z.ones 12) mod 2 ^ 64) = Z.land a (Z.lnot (Z.ones 12))) as ->.
  { rewrite <- Z.land_ones by lia. rewrite (Z.land_comm (Z.lnot _)), Z.land_assoc.
    rewrite (Z.land_ones a) by lia. by rewrite (Z.mod_small a) by lia. }
  rewrite <- Z.ldiff_land, Z.ldiff_ones_r by lia.
  rewrite Z.shiftl_mul_pow2, Z.shiftr_div_pow2 by lia. change (2 ^ 12) with 4096. lia.
Qed.

Lemma align_up_spec a :
  0 ≤ a < 2 ^ 63 → align_up a PAGE_SIZE = PAGE_SIZE * ((a + 4095) / PAGE_SIZE).
Proof.
  intros. unfold align_up. rewrite land_page_mask by apply u64_range.
  unfold u64. rewrite Z.mod_small by (unfold PAGE_SIZE; lia).
  unfold PAGE_SIZE. do 3 f_equal. lia.
Qed.

(** ** Refinement *)

Section refinement.
Context (start : Z).
Implicit Types (F : Spec.state) (s : mem_state) (p : Z).

Lemma rep_free_page F s p : mem_rep start F s → p ∈ F → is_page start p.
Proof.
  intros [[Hs Hsa] He [Hb Hba] _ (pages & _ & _ & Hall & ->)].
  rewrite elem_of_union, !elem_of_list_to_set, elem_of_pages_between.
  rewrite Forall_forall in Hall.
  intros [Hp|(? & ? & Hm)]; [by apply Hall|].
  unfold is_page, PAGE_SIZE in *. rewrite He in *. split; [lia|].
  Z.div_mod_to_equations. lia.
Qed.

(** A page of the heap that is not free lies below the bump pointer. *)
Lemma rep_used_below_bump F s p :
  mem_rep start F s → is_page start p → p ∉ F → p < bump_ptr s.
Proof.
  intros [[Hs Hsa] He [Hb Hba] _ (pages & _ & _ & _ & ->)] [Hp Hpa].
  rewrite not_elem_of_union, !elem_of_list_to_set, elem_of_pages_between.
  intros [_ Hn]. unfold PAGE_SIZE, STACK_GUARD, _stack_top, _kernel_start in *.
  destruct (decide (p < bump_ptr s)); [done|]. exfalso. apply Hn.
  rewrite He. Z.div_mod_to_equations. lia.
Qed.

Lemma rep_count_bound F s : mem_rep start F s → 0 ≤ total_free s < 2 ^ 32.
Proof.
  intros [[Hs Hsa] He [Hb Hba] Hc (pages & Hch & Hnd & Hall & ->)]. rewrite Hc.
  assert (list_to_set pages ∪ list_to_set (pages_between (bump_ptr s) (heap_end s))
          ⊆@{gset Z} list_to_set (pages_between start (_stack_top - STACK_GUARD))) as Hsub.
  { intros p. rewrite elem_of_union, !elem_of_list_to_set, !elem_of_pages_between.
    rewrite Forall_forall in Hall. rewrite He in *.
    unfold is_page, PAGE_SIZE, STACK_GUARD, _stack_top in *.
    intros [Hp|Hp]; [apply Hall in Hp|]; Z.div_mod_to_equations; lia. }
  apply subseteq_size in Hsub.
  rewrite (size_list_to_set (C:=gset Z) (pages_between start _)) in Hsub
    by apply pages_between_NoDup.
  rewrite length_pages_between in Hsub.
  assert ((_stack_top - STACK_GUARD - start) / PAGE_SIZE < 2 ^ 32); [|lia].
  unfold PAGE_SIZE, STACK_GUARD, _stack_top, _kernel_start in *.
  apply Z.div_lt_upper_bound; lia.
Qed.

(** Writes that keep the link words of the free pages keep the allocator. *)
Lemma mem_rep_ram F s m' :
  mem_rep start F s → (∀ q, q ∈ F → load64 m' q = load64 (ram s) q) →
  mem_rep start F (s <| ram := m' |>).
Proof.
  intros [? ? ? ? (pages & Hch & ? & ? & HF)] Hm. split; simpl; try done.
  exists pages. split_and!; try done. eapply chain_frame; [|exact Hch].
  intros q Hq. apply Hm. rewrite HF. set_solver.
Qed.

Lemma kalloc_list F s page pages :
  mem_rep start F s → chain (ram s) (free_list s) (page :: pages) →
  NoDup (page :: pages) →
  Forall (λ p, is_page start p ∧ p < bump_ptr s) (page :: pages) →
  F = list_to_set (page :: pages) ∪ list_to_set (pages_between (bump_ptr s) (heap_end s)) →
  mem_rep start (F ∖ {[page]})
    (s <| free_list := free_page_next (ram s) page |>
       <| total_free := u64 (total_free s - 1) |>).
Proof.
  intros Hrep (Hp & Hnz & Hch) Hnd Hall HF. subst page.
  pose proof (rep_count_bound _ _ Hrep) as Hbound.
  destruct Hrep as [? ? Hb Hc _].
  apply NoDup_cons in Hnd as [Hnin Hnd]. apply Forall_cons in Hall as [[Hpg Hlt] Hall].
  assert (free_list s ∈ F) as HinF by (rewrite HF; set_solver).
  split; simpl; try done.
  - assert (size (F ∖ {[free_list s]}) = size F - 1)%nat as ->.
    { rewrite size_difference by set_solver. by rewrite size_singleton. }
    assert (size F ≠ 0%nat) by (intros ?%size_empty_inv; set_solver).
    rewrite u64_small; lia.
  - exists pages. split_and!; try done. rewrite HF. cbn [list_to_set].
    apply set_eq. intros x. rewrite elem_of_difference, !elem_of_union, !elem_of_list_to_set,
      elem_of_singleton, elem_of_pages_between.
    split; [naive_solver|]. intros [Hx|Hx]; split; [set_solver| |set_solver|].
    + intros ->. done.
    + intros ->. lia.
Qed.

Lemma kalloc_bump F s :
  mem_rep start F s → free_list s = 0 → bump_ptr s + PAGE_SIZE ≤ heap_end s →
  bump_ptr s ∈ F ∧
  mem_rep start (F ∖ {[bump_ptr s]})
    (s <| bump_ptr := u64 (bump_ptr s + PAGE_SIZE) |>
       <| total_free := u64 (total_free s - 1) |>).
Proof.
  intros Hrep Hnull Hfit.
  pose proof (rep_count_bound _ _ Hrep) as Hbound.
  destruct Hrep as [Hs He [Hb Hba] Hc (pages & Hch & Hnd & Hall & HF)].
  rewrite Hnull in Hch. apply chain_null in Hch as ->.
  assert (bump_ptr s ∈ F) as HinF.
  { rewrite HF, pages_between_cons by done. set_solver. }
  split; [done|].
  assert (u64 (bump_ptr s + PAGE_SIZE) = bump_ptr s + PAGE_SIZE) as Hw.
  { apply u64_small. unfold _stack_top, STACK_GUARD, _kernel_start, PAGE_SIZE in *. lia. }
  split; simpl; rewrite ?Hw; try done.
  - unfold PAGE_SIZE in *. split; [lia|]. Z.div_mod_to_equations. lia.
  - assert (size (F ∖ {[bump_ptr s]}) = size F - 1)%nat as ->.
    { rewrite size_difference by set_solver. by rewrite size_singleton. }
    assert (size F ≠ 0%nat) by (intros ?%size_empty_inv; set_solver).
    rewrite u64_small; lia.
  - exists []. split_and!; [done|constructor|constructor|].
    rewrite HF, pages_between_cons by done. cbn [list_to_set].
    apply set_eq. intros x. rewrite elem_of_difference, !elem_of_union, !elem_of_list_to_set,
      elem_of_singleton, elem_of_pages_between. unfold PAGE_SIZE.
    split; [naive_solver|]. intros [Hx|Hx]; [set_solver|]. split; [naive_solver|]. lia.
Qed.

Lemma kalloc_refines_aux F s p s' :
  mem_rep start F s → kalloc s = (p, s') →
  ∃ F', Spec.alloc F p F' ∧ mem_rep start F' s' ∧ ram s' = ram s.
Proof.
  intros Hrep Hk. unfold kalloc in Hk.
  destruct (free_list s =? 0) eqn:Hfl; bsimp; cbn [negb] in Hk.
  - destruct (heap_end s <? u64 (bump_ptr s + PAGE_SIZE)) eqn:Hfull; bsimp;
      injection Hk as <- <-.
    all: assert (u64 (bump_ptr s + PAGE_SIZE) = bump_ptr s + PAGE_SIZE) as Hw
      by (destruct Hrep as [? ? [? ?] ? _]; apply u64_small;
          unfold _stack_top, STACK_GUARD, _kernel_start, PAGE_SIZE in *; lia).
    all: rewrite Hw in Hfull.
    + destruct (Hrep) as [? ? ? ? (pages & Hch & _ & _ & HF)].
      rewrite Hfl in Hch. apply chain_null in Hch as ->.
      rewrite pages_between_nil in HF by done.
      assert (F = ∅) as -> by set_solver.
      exists ∅. split_and!; [apply Spec.alloc_none|done..].
    + destruct (kalloc_bump F s) as [? ?]; [done..|].
      exists (F ∖ {[bump_ptr s]}). split_and!; [by constructor|done..].
  - injection Hk as <- <-.
    destruct (Hrep) as [? ? ? ? ([|q pages] & Hch & ? & ? & HF)].
    { by simpl in Hch. }
    pose proof Hch as (<- & _ & _).
    exists (F ∖ {[free_list s]}). split_and!; [|by eapply kalloc_list|done].
    constructor. rewrite HF. set_solver.
Qed.

Lemma kfree_refines_aux F s p :
  mem_rep start F s → is_page start p → p ∉ F →
  mem_rep start (Spec.free p F) (kfree p s).
Proof.
  intros Hrep Hpage Hused.
  pose proof (rep_count_bound _ _ Hrep) as Hbound.
  pose proof (rep_used_below_bump _ _ _ Hrep Hpage Hused) as Hlt.
  destruct Hpage as [Hp Hpa].
  destruct Hrep as [[Hs Hsa] He Hb Hc (pages & Hch & Hnd & Hall & HF)].
  assert (0 < p ∧ p < _stack_top ∧ _kernel_start ≤ p) as (Hnz & Htop & Hlo).
  { unfold _stack_top, STACK_GUARD, _kernel_start in *. lia. }
  unfold kfree. rewrite land_page_offset, Hpa by lia.
  rewrite (proj2 (Z.eqb_neq p 0)), (proj2 (Z.ltb_ge p _)), (proj2 (Z.leb_gt _ p)) by lia.
  simpl. assert (is_u64 (free_list s)) as Hu64.
  { destruct pages as [|q pages]; simpl in Hch; [lia|]. destruct Hch as (-> & _ & _).
    apply Forall_cons in Hall as [[[? ?] ?] _]. unfold _stack_top, STACK_GUARD, _kernel_start in *. lia. }
  split; simpl; try done.
  - unfold Spec.free. rewrite size_union by set_solver. rewrite size_singleton.
    rewrite u64_small by lia. lia.
  - exists (p :: pages). split; [|split; [|split]].
    + split_and!; [done|lia|]. unfold free_page_next. rewrite load64_store64_eq by done.
      eapply chain_frame; [|exact Hch]. intros q Hq. apply load64_store64_ne.
      rewrite Forall_forall in Hall. destruct (Hall _ Hq) as [[_ Hqa] _].
      assert (p ≠ q) by (intros ->; apply Hused; rewrite HF; set_solver).
      unfold PAGE_SIZE in *. Z.div_mod_to_equations. lia.
    + constructor; [|done]. rewrite HF in Hused. set_solver.
    + constructor; [|done]. done.
    + rewrite HF. unfold Spec.free. cbn [list_to_set]. set_solver.
Qed.
End refinement.

(** ** Clients of the allocator

    [client_step start] is one action of the kernel on memory: taking a page,
    giving back a page it holds, or writing bytes inside a page it holds. The
    second component is the set of pages held. *)

Inductive client_step (start : Z) : mem_state * gset Z → mem_state * gset Z → Prop :=
| step_alloc s A p s' :
    kalloc s = (p, s') → p ≠ 0 → client_step start (s, A) (s', {[p]} ∪ A)
| step_full s A s' :
    kalloc s = (0, s') → client_step start (s, A) (s', A)
| step_free s A p :
    p ∈ A → client_step start (s, A) (kfree p s, A ∖ {[p]})
| step_write s A p off bs :
    p ∈ A → 0 ≤ off → off + Z.of_nat (length bs) ≤ PAGE_SIZE →
    client_step start (s, A) (s <| ram := store_bytes (ram s) (p + off) bs |>, A).

(** All pages of the heap that begins at [start]. *)
Definition heap_pages (start : Z) : gset Z :=
  list_to_set (pages_between start (_stack_top - STACK_GUARD)).

(** The allocator and its clients partition the heap. *)
Definition heap_inv (start : Z) (c : mem_state * gset Z) : Prop :=
  c.2 ⊆ heap_pages start ∧ mem_rep start (heap_pages start ∖ c.2) c.1.

Lemma elem_of_heap_pages start p :
  start mod PAGE_SIZE = 0 → p ∈ heap_pages start ↔ is_page start p.
Proof.
  intros Hs. unfold heap_pages, is_page. rewrite elem_of_list_to_set, elem_of_pages_between.
  unfold PAGE_SIZE, _stack_top, STACK_GUARD in *. split; intros; Z.div_mod_to_equations; lia.
Qed.

Lemma heap_page_nonzero start p :
  _kernel_start ≤ start → start mod PAGE_SIZE = 0 → p ∈ heap_pages start → p ≠ 0.
Proof.
  intros Hs Ha Hp%elem_of_heap_pages; [|done]. destruct Hp as [Hp _].
  unfold _kernel_start in *. lia.
Qed.

Lemma client_step_inv start c c' :
  client_step start c c' → heap_inv start c → heap_inv start c'.
Proof.
  intros Hstep [HA Hrep]. pose proof (rep_start _ _ _ Hrep) as [Hs Ha].
  destruct Hstep as [s A p s' Hk Hp | s A s' Hk | s A p Hp | s A p off bs Hp Ho Hl];
    unfold heap_inv; simpl in *.
  - destruct (kalloc_refines_aux _ _ _ _ _ Hrep Hk) as (F' & Hal & Hrep' & _).
    inversion Hal; subst; [|done]. split; [set_solver|].
    by replace (heap_pages start ∖ ({[p]} ∪ A)) with (heap_pages start ∖ A ∖ {[p]}) by set_solver.
  - destruct (kalloc_refines_aux _ _ _ _ _ Hrep Hk) as (F' & Hal & Hrep' & _).
    split; [done|]. inversion Hal as [? ? Hin|]; subst; [|by destruct Hal].
    exfalso. apply (heap_page_nonzero start 0); [done..| |done]. set_solver.
  - split; [set_solver|].
    replace (heap_pages start ∖ (A ∖ {[p]})) with (Spec.free p (heap_pages start ∖ A)).
    + apply kfree_refines_aux; [done| |set_solver]. apply elem_of_heap_pages; set_solver.
    + unfold Spec.free. apply set_eq. intros x. destruct (decide (x = p)); set_solver.
  - split; [done|]. apply mem_rep_ram; [done|]. intros q Hq. apply load64_store_ne.
    assert (is_page start q) as [_ Hqa] by (eapply rep_free_page; eauto).
    assert (is_page start p) as [_ Hpa] by (apply elem_of_heap_pages; set_solver).
    assert (p ≠ q) by set_solver. unfold PAGE_SIZE in *. Z.div_mod_to_equations. lia.
Qed.

Lemma mem_init_inv kernel_end s :
  _kernel_start ≤ kernel_end ≤ _stack_top - STACK_GUARD →
  heap_inv (align_up kernel_end PAGE_SIZE) (mem_init kernel_end s, ∅).
Proof.
  intros Hk. unfold mem_init.
  rewrite land_page_mask by apply u64_range. rewrite align_up_spec
    by (unfold _kernel_start, _stack_top, STACK_GUARD in *; lia).
  set (start := PAGE_SIZE * ((kernel_end + 4095) / PAGE_SIZE)).
  change (PAGE_SIZE * (u64 (_stack_top - STACK_GUARD) / PAGE_SIZE)) with (_stack_top - STACK_GUARD).
  assert (_kernel_start ≤ start ≤ _stack_top - STACK_GUARD ∧ start mod PAGE_SIZE = 0) as [Hs Ha].
  { subst start. unfold _kernel_start, _stack_top, STACK_GUARD, PAGE_SIZE in *.
    Z.div_mod_to_equations. lia. }
  split; [set_solver|]. cbn [fst snd]. rewrite difference_empty_L.
  split; cbn [heap_end bump_ptr total_free free_list ram set_field]; [lia|done|lia| |].
  - assert (size (heap_pages start) = length (pages_between start (_stack_top - STACK_GUARD)))
      as -> by (unfold heap_pages; by rewrite size_list_to_set by apply pages_between_NoDup).
    rewrite length_pages_between.
    assert (0 ≤ (_stack_top - STACK_GUARD - start) / PAGE_SIZE)
      by (apply Z.div_pos; unfold PAGE_SIZE; lia).
    bcase; [lia|]. replace (_stack_top - STACK_GUARD - start) with 0 by lia. done.
  - exists []. split_and!; [done|constructor|constructor|]. unfold heap_pages. set_solver.
Qed.

Lemma client_steps_inv start c c' :
  rtc (client_step start) c c' → heap_inv start c → heap_inv start c'.
Proof. induction 1; eauto using client_step_inv. Qed.

(** ** Interface for the clients *)

(** The two outcomes of [kalloc]. *)
Lemma kalloc_cases start F s p s' :
  mem_rep start F s → kalloc s = (p, s') →
  (p = 0 ∧ F = ∅ ∧ mem_rep start F s' ∧ ram s' = ram s)
  ∨ (p ∈ F ∧ p ≠ 0 ∧ is_page start p ∧ mem_rep start (F ∖ {[p]}) s' ∧ ram s' = ram s).
Proof.
  intros Hrep Hk. pose proof (rep_start _ _ _ Hrep) as [Hs Ha].
  destruct (kalloc_refines_aux _ _ _ _ _ Hrep Hk) as (F' & Hal & Hrep' & Hr).
  inversion Hal as [F0 q Hq|]; subst; [|by left]. right.
  pose proof (rep_free_page _ _ _ _ Hrep Hq) as Hp. split_and!; try done.
  destruct Hp as [Hp _]. unfold _kernel_start in *. lia.
Qed.

(** [m'] differs from [m] only inside the pages [ps]. *)
Definition same_outside (ps : list Z) (m m' : ram_t) : Prop :=
  ∀ x, Forall (λ p, ¬ (p ≤ x < p + PAGE_SIZE)) ps → m' !! x = m !! x.

#[global] Instance same_outside_refl ps : Reflexive (same_outside ps).
Proof. by intros m x. Qed.
#[global] Instance same_outside_trans ps : Transitive (same_outside ps).
Proof. intros m1 m2 m3 H1 H2 x Hx. by rewrite H2, H1. Qed.

Lemma same_outside_mono ps qs m m' : ps ⊆ qs → same_outside ps m m' → same_outside qs m m'.
Proof. intros Hsub H x Hx. apply H. rewrite Forall_forall in *. auto. Qed.

Lemma same_outside_store p m a bs ps :
  p ∈ ps → p ≤ a → a + Z.of_nat (length bs) ≤ p + PAGE_SIZE →
  same_outside ps m (store_bytes m a bs).
Proof.
  intros Hp Ha Hl x Hx. rewrite Forall_forall in Hx. specialize (Hx _ Hp). cbn beta in Hx.
  rewrite lookup_store_bytes, decide_False; [done|lia].
Qed.

Lemma same_outside_fold ps n i (body : Z → ram_t → ram_t) m :
  (∀ j m, i ≤ j < i + Z.of_nat n → same_outside ps m (body j m)) →
  same_outside ps m (fold_for n i body m).
Proof.
  intros Hb. apply (fold_for_ind (λ _, same_outside ps m)); [done|].
  intros j t Hj Ht. etrans; [exact Ht|auto].
Qed.

(** Two aligned pages are equal or disjoint. *)
Lemma page_disjoint p q x :
  p mod PAGE_SIZE = 0 → q mod PAGE_SIZE = 0 → p ≠ q → p ≤ x < p + PAGE_SIZE →
  ¬ (q ≤ x < q + PAGE_SIZE).
Proof. unfold PAGE_SIZE. intros. Z.div_mod_to_equations. lia. Qed.

Lemma same_outside_load ps m m' p a n :
  same_outside ps m m' → p mod PAGE_SIZE = 0 → Forall (λ q, q mod PAGE_SIZE = 0) ps → p ∉ ps →
  p ≤ a → a + Z.of_nat n ≤ p + PAGE_SIZE → load_bytes m' a n = load_bytes m a n.
Proof.
  intros Hs Hp Hps Hn Ha Hl. apply load_bytes_ext. intros x Hx. apply Hs.
  rewrite Forall_forall in *. intros q Hq. apply (page_disjoint p); [done|auto| |lia]. congruence.
Qed.

(** Writing outside the free pages keeps the allocator's representation. *)
Lemma mem_rep_frame start F s ps m' :
  mem_rep start F s → same_outside ps (ram s) m' →
  Forall (λ p, p mod PAGE_SIZE = 0 ∧ p ∉ F) ps → mem_rep start F (s <| ram := m' |>).
Proof.
  intros Hrep Hs Hps. apply mem_rep_ram; [done|]. intros q Hq. unfold load64. f_equal.
  destruct (rep_free_page _ _ _ _ Hrep Hq) as [_ Hqa].
  eapply (same_outside_load ps _ _ q); [done|done| | |lia|unfold PAGE_SIZE; lia].
  - eapply Forall_impl; [done|]. by intros ? [? _].
  - rewrite Forall_forall in Hps. intros Hin. by apply Hps in Hin as [_ ?].
Qed.

(** C16: [kalloc] refines the abstract allocator: it removes some free page from
    the set of free pages and returns it, or returns NULL exactly when no page
    is free; the successor links stored in memory are not written. *)
Theorem kalloc_refines start F s p s' :
  mem_rep start F s → kalloc s = (p, s') →
  ∃ F', Spec.alloc F p F' ∧ mem_rep start F' s' ∧ ram s' = ram s.
Proof. apply kalloc_refines_aux. Qed.

Definition demo_mem : mem_state := mem_init 0x80300000 (MkMem ∅ 0 0 0 0).

Lemma demo_mem_rep : mem_rep 0x80300000 (heap_pages 0x80300000) demo_mem.
Proof.
  destruct (mem_init_inv 0x80300000 (MkMem ∅ 0 0 0 0)) as [_ H];
    [unfold _kernel_start, _stack_top, STACK_GUARD; lia|].
  simpl in H. rewrite difference_empty_L in H. exact H.
Qed.

Lemma kalloc_refines_witness :
  ∃ F', Spec.alloc (heap_pages 0x80300000) 0x80300000 F' ∧
        mem_rep 0x80300000 F' (kalloc demo_mem).2 ∧ ram (kalloc demo_mem).2 = ∅.
Proof.
  destruct (kalloc_refines 0x80300000 (heap_pages 0x80300000) demo_mem
              0x80300000 (kalloc demo_mem).2) as (F' & H1 & H2 & H3).
  - exact demo_mem_rep.
  - reflexivity.
  - exists F'. split; [exact H1 | split; [exact H2 | exact H3]].
Defined.

(** [kfree] of a page that was handed out refines putting the page back
    into the set of free pages: the free list in memory is extended by exactly
    that page and stays well formed. *)
Theorem kfree_refines start F s p :
  mem_rep start F s → is_page start p → p ∉ F →
  mem_rep start (Spec.free p F) (kfree p s).
Proof. apply kfree_refines_aux. Qed.

Lemma kfree_refines_witness :
  ∃ F, 0x80300000 ∉ F ∧ mem_rep 0x80300000 F (kalloc demo_mem).2 ∧
    mem_rep 0x80300000 (Spec.free 0x80300000 F) (kfree 0x80300000 (kalloc demo_mem).2).
Proof.
  destruct (kalloc_refines_aux 0x80300000 _ _ 0x80300000 (kalloc demo_mem).2 demo_mem_rep
              eq_refl) as (F' & H1 & H2 & _).
  assert (0x80300000 ∉ F') as Hn by (eapply alloc_removes; [exact H1|discriminate]).
  exists F'. split; [exact Hn | split; [exact H2|]].
  apply (kfree_refines 0x80300000 F' (kalloc demo_mem).2 0x80300000); [exact H2| |exact Hn].
  split; [unfold _stack_top, STACK_GUARD; lia | reflexivity].
Defined.

(** C17: In every state the kernel reaches after [mem_init] by allocating pages,
    giving back pages it holds and writing inside pages it holds, a page that
    [kalloc] returns is an aligned page of the heap that nobody holds, [kalloc]
    fails only when every page of the heap is held, and [mem_free_pages] is the
    number of pages not held. *)
Theorem alloc_trace_safe kernel_end s0 s A p s' :
  _kernel_start ≤ kernel_end ≤ _stack_top - STACK_GUARD →
  rtc (client_step (align_up kernel_end PAGE_SIZE)) (mem_init kernel_end s0, ∅) (s, A) →
  kalloc s = (p, s') →
  mem_free_pages s = Z.of_nat (size (heap_pages (align_up kernel_end PAGE_SIZE) ∖ A)) ∧
  (p ≠ 0 → p ∉ A ∧ is_page (align_up kernel_end PAGE_SIZE) p) ∧
  (p = 0 → A = heap_pages (align_up kernel_end PAGE_SIZE)).
Proof.
  intros Hk Hsteps Hka. set (start := align_up kernel_end PAGE_SIZE) in *.
  pose proof (client_steps_inv _ _ _ Hsteps (mem_init_inv _ s0 Hk)) as [HA Hrep].
  simpl in *. pose proof (rep_start _ _ _ Hrep) as [Hs Ha].
  destruct (kalloc_refines_aux _ _ _ _ _ Hrep Hka) as (F' & Hal & _ & _).
  split; [apply (rep_count _ _ _ Hrep)|]. inversion Hal as [F q Hin HF|HF]; subst.
  - pose proof Hin as [Hh Hn]%elem_of_difference.
    split; [intros _; split; [done|]; by eapply rep_free_page|].
    intros ->. exfalso. by eapply heap_page_nonzero.
  - split; [done|]. intros _. apply set_eq. intros x.
    destruct (decide (x ∈ A)); [set_solver|]. set_solver.
Qed.

Lemma alloc_trace_safe_witness :
  let c := kalloc demo_mem in
  0x80301000 ∉@{gset Z} {[0x80300000]} ∧ (kalloc c.2).1 = 0x80301000.
Proof.
  pose (c := kalloc demo_mem). split; [|reflexivity].
  apply (alloc_trace_safe 0x80300000 (MkMem ∅ 0 0 0 0) c.2 {[0x80300000]} 0x80301000 (kalloc c.2).2).
  - unfold _kernel_start, _stack_top, STACK_GUARD; lia.
  - eapply rtc_l; [|apply rtc_refl].
    rewrite <- (right_id_L ∅ (∪) ({[0x80300000]} : gset Z)).
    apply step_alloc; [reflexivity | discriminate].
  - reflexivity.
  - discriminate.
Defined.
