(* ===== verification/Csr.v ===== *)
(** * Control and status registers (os/include/csr.h over cemu/src/csr.cpp) and the
    kernel timer (os/kernel/timer.c)

    The kernel is built with [MINIOS_USE_S_MODE], so the [trap_*] macros name the
    supervisor registers.  [csr_load] and [csr_store] are the emulator's register
    file: [sstatus] is the masked view of [mstatus], [sie] and [sip] are the
    delegated part of [mie] and [mip].  Registers never written read as 0. *)

From S2P Require Import Prelude.

(** ** The register file *)

Abbreviation csr_file := (gmap Z Z).

Definition MSTATUS : Z := 0x300.
Definition MIDELEG : Z := 0x303.
Definition MIE : Z := 0x304.
Definition MIP : Z := 0x344.
Definition SSTATUS : Z := 0x100.
Definition SIE : Z := 0x104.
Definition STVEC : Z := 0x105.
Definition SSCRATCH : Z := 0x140.
Definition SEPC : Z := 0x141.
Definition SCAUSE : Z := 0x142.
Definition STVAL : Z := 0x143.
Definition SIP : Z := 0x144.
Definition SATP : Z := 0x180.

(** SIE, SPIE, UBE, SPP, FS, XS, SUM, MXR, UXL and SD. *)
Definition MASK_SSTATUS : Z :=
  Z.lor (Z.shiftl 1 1) (Z.lor (Z.shiftl 1 5) (Z.lor (Z.shiftl 1 6) (Z.lor (Z.shiftl 1 8)
  (Z.lor (Z.shiftl 3 13) (Z.lor (Z.shiftl 3 15) (Z.lor (Z.shiftl 1 18) (Z.lor (Z.shiftl 1 19)
  (Z.lor (Z.shiftl 3 32) (Z.shiftl 1 63))))))))).

Definition raw (c : csr_file) (addr : Z) : Z := default 0 (c !! addr).

Definition delegated (mideleg mip sbit mbit : Z) : Z :=
  if negb (Z.land mideleg (Z.shiftl 1 sbit) =? 0)
  then (if negb (Z.land mip (Z.shiftl 1 mbit) =? 0) then Z.shiftl 1 sbit else 0)
  else 0.

Definition csr_load (addr : Z) (c : csr_file) : Z :=
  if addr =? SIE then Z.land (raw c MIE) (raw c MIDELEG)
  else if addr =? SIP then
    Z.lor (Z.lor (delegated (raw c MIDELEG) (raw c MIP) 1 3)
                 (delegated (raw c MIDELEG) (raw c MIP) 5 7))
          (delegated (raw c MIDELEG) (raw c MIP) 9 11)
  else if addr =? SSTATUS then Z.land (raw c MSTATUS) MASK_SSTATUS
  else raw c addr.

(** [(old & ~mask) | (value & mask)] *)
Definition merge_bits (mask old value : Z) : Z :=
  Z.lor (Z.land old (u64 (Z.lnot mask))) (Z.land value mask).

Definition csr_store (addr value : Z) (c : csr_file) : csr_file :=
  if addr =? SIE then <[MIE := merge_bits (raw c MIDELEG) (raw c MIE) value]> c
  else if addr =? SIP then <[MIP := merge_bits (raw c MIDELEG) (raw c MIP) value]> c
  else if addr =? SSTATUS then
    <[MSTATUS := merge_bits MASK_SSTATUS (raw c MSTATUS) value]> c
  else <[addr := value]> c.

(** ** The kernel's accessors *)

Definition SSTATUS_SIE : Z := Z.shiftl 1 1.
Definition SSTATUS_SPIE : Z := Z.shiftl 1 5.
Definition SSTATUS_SPP : Z := Z.shiftl 1 8.
Definition SIE_STIE : Z := Z.shiftl 1 5.
Definition STATUS_IE_BIT : Z := SSTATUS_SIE.

Definition csr_set (addr mask : Z) (c : csr_file) : csr_file :=
  csr_store addr (Z.lor (csr_load addr c) mask) c.
Definition csr_clear (addr mask : Z) (c : csr_file) : csr_file :=
  csr_store addr (Z.land (csr_load addr c) (u64 (Z.lnot mask))) c.

Definition trap_epc_read : csr_file → Z := csr_load SEPC.
Definition trap_epc_write : Z → csr_file → csr_file := csr_store SEPC.
Definition trap_cause_read : csr_file → Z := csr_load SCAUSE.
Definition trap_tval_read : csr_file → Z := csr_load STVAL.
Definition trap_status_read : csr_file → Z := csr_load SSTATUS.
Definition trap_status_write : Z → csr_file → csr_file := csr_store SSTATUS.
Definition trap_scratch_write : Z → csr_file → csr_file := csr_store SSCRATCH.

Definition local_irq_enable (c : csr_file) : csr_file := csr_set SSTATUS STATUS_IE_BIT c.
Definition local_irq_disable (c : csr_file) : csr_file := csr_clear SSTATUS STATUS_IE_BIT c.

Definition local_irq_save (c : csr_file) : Z * csr_file :=
  (trap_status_read c, local_irq_disable c).

Definition local_irq_restore (status : Z) (c : csr_file) : csr_file :=
  trap_status_write
    (Z.lor (Z.land (trap_status_read c) (u64 (Z.lnot STATUS_IE_BIT)))
           (Z.land status STATUS_IE_BIT)) c.

(** ** Timer

    [mtime] advances on its own; a function that reads it takes the value read
    as an argument.  [mtimecmp] is the compare register of the CLINT. *)

Definition TIMER_TICKS_PER_MS : Z := 5000.
Definition TIMER_DEFAULT_SLICE_MS : Z := 10.
Definition TIMER_INTERVAL : Z := TIMER_TICKS_PER_MS * TIMER_DEFAULT_SLICE_MS.

Record timer_state := MkTimer {
  mtimecmp : Z;
  tick_count : Z;
  timer_interval : Z;
  timeslice_ms : Z;
}.
#[global] Instance timer_state_eta : Settable timer_state := λ t,
  MkTimer (mtimecmp t) (tick_count t) (timer_interval t) (timeslice_ms t).

Definition timer_init (mtime : Z) (t : timer_state) (c : csr_file) : timer_state * csr_file :=
  (t <| mtimecmp := u64 (mtime + timer_interval t) |>, csr_set SIE SIE_STIE c).

Definition timer_handle (mtime : Z) (t : timer_state) : timer_state :=
  t <| tick_count := u32 (tick_count t + 1) |>
    <| mtimecmp := u64 (mtime + timer_interval t) |>.

Definition timer_set_interval (mtime interval : Z) (t : timer_state) : timer_state :=
  let interval := if interval =? 0 then 1 else interval in
  t <| timer_interval := interval |> <| mtimecmp := u64 (mtime + interval) |>.

Definition timer_set_timeslice_ms (mtime milliseconds : Z) (t : timer_state) : timer_state :=
  let ms := if milliseconds =? 0 then 1 else milliseconds in
  (timer_set_interval mtime (u64 (ms * TIMER_TICKS_PER_MS)) t) <| timeslice_ms := ms |>.

Definition timer_get_timeslice_ms (t : timer_state) : Z := timeslice_ms t.
Definition timer_get_interval (t : timer_state) : Z := timer_interval t.
Definition timer_get_ticks (t : timer_state) : Z := tick_count t.

(** ** Lemmas *)

Lemma raw_insert_eq c a v : raw (<[a := v]> c) a = v.
Proof. unfold raw. by rewrite lookup_insert_eq. Qed.
Lemma raw_insert_ne c a b v : a ≠ b → raw (<[a := v]> c) b = raw c b.
Proof. intros. unfold raw. by rewrite lookup_insert_ne. Qed.

(** A register without a special view: reading back, and independence. *)
Definition plain (addr : Z) : Prop :=
  addr ≠ SIE ∧ addr ≠ SIP ∧ addr ≠ SSTATUS ∧ addr ≠ MIE ∧ addr ≠ MIP ∧ addr ≠ MSTATUS
  ∧ addr ≠ MIDELEG.

Lemma csr_store_plain a v c : plain a → csr_store a v c = <[a := v]> c.
Proof.
  intros (H1 & H2 & H3 & _). unfold csr_store.
  by rewrite (proj2 (Z.eqb_neq a SIE)), (proj2 (Z.eqb_neq a SIP)), (proj2 (Z.eqb_neq a SSTATUS)).
Qed.

Lemma csr_load_plain a c : plain a → csr_load a c = raw c a.
Proof.
  intros (H1 & H2 & H3 & _). unfold csr_load.
  by rewrite (proj2 (Z.eqb_neq a SIE)), (proj2 (Z.eqb_neq a SIP)), (proj2 (Z.eqb_neq a SSTATUS)).
Qed.

Lemma csr_load_store_plain_eq a v c : plain a → csr_load a (csr_store a v c) = v.
Proof. intros. by rewrite csr_store_plain, csr_load_plain, raw_insert_eq. Qed.

Lemma csr_load_store_plain_ne a b v c :
  plain a → a ≠ b → csr_load b (csr_store a v c) = csr_load b c.
Proof.
  intros Ha Hab. pose proof Ha as (? & ? & ? & ? & ? & ? & ?). rewrite csr_store_plain by done.
  unfold csr_load. by rewrite !raw_insert_ne.
Qed.

Lemma csr_load_store_status_ne b v c :
  plain b → csr_load b (csr_store SSTATUS v c) = csr_load b c.
Proof.
  intros Hb. rewrite !csr_load_plain by done. unfold csr_store. simpl.
  rewrite raw_insert_ne; [done|]. destruct Hb as (? & ? & ? & ? & ? & ? & ?). done.
Qed.

Lemma land_u64_lnot a m : is_u64 a → Z.land a (u64 (Z.lnot m)) = Z.ldiff a m.
Proof.
  intros Ha. unfold u64. rewrite <- Z.land_ones by lia.
  rewrite (Z.land_comm (Z.lnot m)), Z.land_assoc, (Z.land_ones a) by lia.
  rewrite (Z.mod_small a) by lia. symmetry. apply Z.ldiff_land.
Qed.

Lemma status_store_load v c :
  trap_status_read (trap_status_write v c) = Z.land v MASK_SSTATUS.
Proof.
  unfold trap_status_read, trap_status_write, csr_load, csr_store. simpl.
  rewrite raw_insert_eq. unfold merge_bits. rewrite Z.land_lor_distr_l.
  rewrite <- Z.land_assoc.
  assert (Z.land (u64 (Z.lnot MASK_SSTATUS)) MASK_SSTATUS = 0) as -> by reflexivity.
  rewrite Z.land_0_r, Z.lor_0_l, <- Z.land_assoc, Z.land_diag. done.
Qed.

Lemma status_masked c : Z.land (trap_status_read c) MASK_SSTATUS = trap_status_read c.
Proof.
  unfold trap_status_read, csr_load. simpl. by rewrite <- Z.land_assoc, Z.land_diag.
Qed.

Lemma status_range c : is_u64 (trap_status_read c).
Proof.
  unfold trap_status_read, csr_load. simpl.
  assert (0 ≤ MASK_SSTATUS < 2 ^ 64) as Hm by (split; [done|reflexivity]).
  assert (0 ≤ Z.land (raw c MSTATUS) MASK_SSTATUS) by (apply Z.land_nonneg; lia).
  assert (Z.land (raw c MSTATUS) MASK_SSTATUS ≤ MASK_SSTATUS); [|lia].
  rewrite Z.land_comm. apply Z.ldiff_le; [lia|].
  apply Z.bits_inj'. intros n Hn. rewrite Z.ldiff_spec, Z.land_spec, Z.bits_0.
  by destruct (Z.testbit MASK_SSTATUS n), (Z.testbit (raw c MSTATUS) n).
Qed.

(** The status word between [local_irq_save] and [local_irq_restore] has the
    interrupt bit clear and is unchanged otherwise. *)
Lemma irq_disable_status c :
  trap_status_read (local_irq_disable c) = Z.ldiff (trap_status_read c) STATUS_IE_BIT.
Proof.
  unfold local_irq_disable, csr_clear. fold (trap_status_read c).
  change (csr_store SSTATUS ?v ?c) with (trap_status_write v c).
  rewrite status_store_load, land_u64_lnot by apply status_range.
  apply Z.bits_inj'. intros n _.
  pose proof (f_equal (λ z, Z.testbit z n) (status_masked c)) as Hm. cbn beta in Hm.
  rewrite Z.land_spec in Hm. rewrite Z.land_spec, Z.ldiff_spec, <- Hm.
  by destruct (Z.testbit (trap_status_read c) n), (Z.testbit MASK_SSTATUS n),
    (Z.testbit STATUS_IE_BIT n).
Qed.

(** [local_irq_restore] undoes [local_irq_save]. *)
Lemma irq_save_restore_status c :
  trap_status_read (local_irq_restore (local_irq_save c).1 (local_irq_save c).2)
    = trap_status_read c.
Proof.
  unfold local_irq_save, local_irq_restore. cbn [fst snd].
  rewrite status_store_load, land_u64_lnot by apply status_range.
  rewrite irq_disable_status. apply Z.bits_inj'. intros n _.
  pose proof (f_equal (λ z, Z.testbit z n) (status_masked c)) as Hm. cbn beta in Hm.
  rewrite Z.land_spec in Hm. rewrite Z.land_spec, Z.lor_spec, !Z.ldiff_spec, Z.land_spec.
  rewrite <- Hm. by destruct (Z.testbit (trap_status_read c) n), (Z.testbit MASK_SSTATUS n),
    (Z.testbit STATUS_IE_BIT n).
Qed.

(** Masking or restoring interrupts touches no other register. *)
Lemma irq_disable_plain b c : plain b → csr_load b (local_irq_disable c) = csr_load b c.
Proof. intros. by apply csr_load_store_status_ne. Qed.
Lemma irq_restore_plain b v c : plain b → csr_load b (local_irq_restore v c) = csr_load b c.
Proof. intros. by apply csr_load_store_status_ne. Qed.

Lemma raw_status_store v c a :
  raw (csr_store SSTATUS v c) a =
    if decide (a = MSTATUS) then merge_bits MASK_SSTATUS (raw c MSTATUS) v else raw c a.
Proof.
  unfold csr_store. simpl. case_decide as Ha.
  - subst a. apply raw_insert_eq.
  - apply raw_insert_ne. congruence.
Qed.

(** A bit of the status register after a write through its masked view. *)
Lemma merge_bits_testbit old v n :
  is_u64 old → 0 ≤ n →
  Z.testbit (merge_bits MASK_SSTATUS old v) n =
    if Z.testbit MASK_SSTATUS n then Z.testbit v n else Z.testbit old n.
Proof.
  intros Ho Hn. unfold merge_bits. rewrite land_u64_lnot by done.
  rewrite Z.lor_spec, Z.ldiff_spec, Z.land_spec.
  by destruct (Z.testbit MASK_SSTATUS n), (Z.testbit old n), (Z.testbit v n).
Qed.

Lemma mask_sstatus_range : is_u64 MASK_SSTATUS.
Proof. by vm_compute. Qed.

Lemma merge_bits_status_range old v : is_u64 old → is_u64 (merge_bits MASK_SSTATUS old v).
Proof.
  intros Ho. apply is_u64_bits. intros n Hn. rewrite merge_bits_testbit by (done || lia).
  rewrite (proj1 (is_u64_bits _) mask_sstatus_range) by done.
  by apply (proj1 (is_u64_bits _) Ho).
Qed.

(** C29: a critical section of the kernel, [local_irq_save] followed by
    [local_irq_restore] of the saved word, runs with the supervisor interrupt
    enable bit clear and leaves every control register, the machine-level status
    word included, as it was before. *)
Theorem irq_critical_section c :
  is_u64 (raw c MSTATUS) →
  Z.land (trap_status_read (local_irq_save c).2) STATUS_IE_BIT = 0
  ∧ ∀ a, csr_load a (local_irq_restore (local_irq_save c).1 (local_irq_save c).2)
         = csr_load a c.
Proof.
  intros Hm. unfold local_irq_save. cbn [fst snd]. split.
  { apply Z.bits_inj'. intros n _.
    rewrite Z.land_spec, irq_disable_status, Z.ldiff_spec, Z.bits_0.
    by destruct (Z.testbit (trap_status_read c) n), (Z.testbit STATUS_IE_BIT n). }
  assert (∀ a, raw (local_irq_restore (trap_status_read c) (local_irq_disable c)) a = raw c a)
    as Hraw; [|by intros a; unfold csr_load; rewrite !Hraw].
  intros a. unfold local_irq_restore, trap_status_write.
  assert (is_u64 (Z.ldiff (trap_status_read c) STATUS_IE_BIT)) as Hr
    by (rewrite <- irq_disable_status; apply status_range).
  rewrite irq_disable_status. unfold local_irq_disable, csr_clear.
  rewrite !raw_status_store. case_decide as Ha; [subst a|done].
  rewrite decide_True by done. rewrite land_u64_lnot by apply status_range.
  apply Z.bits_inj'. intros n Hn.
  rewrite merge_bits_testbit by (auto using merge_bits_status_range; lia).
  rewrite merge_bits_testbit by done.
  change (csr_load SSTATUS c) with (Z.land (raw c MSTATUS) MASK_SSTATUS).
  unfold trap_status_read. change (csr_load SSTATUS c) with (Z.land (raw c MSTATUS) MASK_SSTATUS).
  destruct (Z.testbit MASK_SSTATUS n) eqn:E; [|done].
  rewrite (land_u64_lnot (Z.ldiff _ _)) by exact Hr.
  rewrite Z.lor_spec, !Z.ldiff_spec, !Z.land_spec, E, andb_true_r.
  by destruct (Z.testbit (raw c MSTATUS) n), (Z.testbit STATUS_IE_BIT n).
Qed.

Lemma irq_critical_section_witness :
  let c : csr_file := {[MSTATUS := 2]} in
  is_u64 (raw c MSTATUS) ∧
  csr_load SSTATUS (local_irq_restore (local_irq_save c).1 (local_irq_save c).2) = 2.
Proof.
  intros c. split; [by vm_compute|].
  destruct (irq_critical_section c) as [_ ->]; [by vm_compute|reflexivity].
Defined.
