(* ===== verification/Vm.v ===== *)
(** * Sv39 paging: the MMU (cemu/src/mmu.cpp, dram.cpp) and the kernel page tables
    (os/kernel/vm.c)

    [translate] is the emulator's table walk, including the A/D bits it sets.
    [vm_init] builds the kernel tables with the allocator of [Mem] and switches
    paging on.  Tables are read through [pte m table i], the [i]-th entry of a
    table page; [strip_ad] removes the two bits the hardware writes, so that the
    predicates on tables survive translations. *)

From S2P Require Import Prelude Csr Mem.

(** ** Page table entries *)

Definition PTE_V : Z := Z.shiftl 1 0.
Definition PTE_R : Z := Z.shiftl 1 1.
Definition PTE_W : Z := Z.shiftl 1 2.
Definition PTE_X : Z := Z.shiftl 1 3.
Definition PTE_U : Z := Z.shiftl 1 4.
Definition PTE_A : Z := Z.shiftl 1 6.
Definition PTE_D : Z := Z.shiftl 1 7.

Definition PTE (ppn flags : Z) : Z := Z.lor (u64 (Z.shiftl ppn 10)) flags.

Definition SATP_SV39 : Z := u64 (Z.shiftl 8 60).
Definition PTE_SIZE : Z := 8.

(** ** The MMU *)

Inductive AccessType := Instruction | Load | Store.
Inductive ExceptionType :=
  InstructionAddrMisaligned | InstructionAccessFault | IllegalInstruction | Breakpoint |
  LoadAccessMisaligned | LoadAccessFault | StoreAMOAddrMisaligned | StoreAMOAccessFault |
  EnvironmentCallFromUMode | EnvironmentCallFromSMode | EnvironmentCallFromMMode |
  InstructionPageFault | LoadPageFault | StoreAMOPageFault.

(** The C++ exception object: its type and value. *)
Record Exception := Exc { exc_type : ExceptionType; exc_value : Z }.

Definition User : Z := 0.
Definition Supervisor : Z := 1.

Definition DRAM_BASE : Z := 0x80000000.
Definition DRAM_SIZE : Z := 128 * 1024 * 1024.

Definition bit (pte mask : Z) : bool := negb (Z.land pte mask =? 0).

Definition is_enabled (c : csr_file) : bool :=
  Z.land (csr_load SATP c) SATP_SV39 =? SATP_SV39.

(** [dram.load(addr, 64)] *)
Definition dram_load (m : ram_t) (addr : Z) : Exception + Z :=
  if DRAM_SIZE <? u64 (u64 (addr - DRAM_BASE) + 8) then inl (Exc LoadAccessFault addr)
  else inr (load64 m addr).

(** Fetching entry [idx] of a table and checking that it is valid. *)
Definition walk_entry (m : ram_t) (vaddr table idx : Z) : Exception + (Z * Z) :=
  let pte_addr := u64 (table + idx * PTE_SIZE) in
  match dram_load m pte_addr with
  | inl e => inl e
  | inr pte => if negb (bit pte PTE_V) then inl (Exc LoadPageFault vaddr) else inr (pte_addr, pte)
  end.

Definition is_table (pte : Z) : bool :=
  Z.land pte (Z.lor PTE_R (Z.lor PTE_W PTE_X)) =? 0.

Definition leaf_fault (type : AccessType) (mode pte : Z) : option ExceptionType :=
  match type with
  | Instruction => if negb (bit pte PTE_X) then Some InstructionPageFault else
      if (mode =? User) && negb (bit pte PTE_U) then Some InstructionPageFault else None
  | Load => if negb (bit pte PTE_R) then Some LoadPageFault else
      if (mode =? User) && negb (bit pte PTE_U) then Some LoadPageFault else None
  | Store => if negb (bit pte PTE_W) then Some StoreAMOPageFault else
      if (mode =? User) && negb (bit pte PTE_U) then Some StoreAMOPageFault else None
  end.

(** The end of a walk: permissions, A/D bits, physical address. *)
Definition leaf (m : ram_t) (type : AccessType) (mode vaddr pte_addr pte ppn offset : Z)
    : (Exception + Z) * ram_t :=
  match leaf_fault type mode pte with
  | Some e => (inl (Exc e vaddr), m)
  | None =>
      let new_pte := Z.lor pte PTE_A in
      let new_pte := match type with Store => Z.lor new_pte PTE_D | _ => new_pte end in
      (inr (Z.lor (u64 (ppn * PAGE_SIZE)) offset), store64 m pte_addr new_pte)
  end.

Definition translate (c : csr_file) (m : ram_t) (vaddr : Z) (type : AccessType) (mode : Z)
    : (Exception + Z) * ram_t :=
  if negb (is_enabled c) then (inr vaddr, m)
  else
    let vpn2 := Z.land (Z.shiftr vaddr 30) 0x1FF in
    let vpn1 := Z.land (Z.shiftr vaddr 21) 0x1FF in
    let vpn0 := Z.land (Z.shiftr vaddr 12) 0x1FF in
    let offset := Z.land vaddr 0xFFF in
    let root_ppn := Z.land (csr_load SATP c) 0xFFFFFFFFFFF in
    match walk_entry m vaddr (u64 (root_ppn * PAGE_SIZE)) vpn2 with
    | inl e => (inl e, m)
    | inr (_, pte) =>
        if negb (is_table pte) then (inl (Exc LoadPageFault vaddr), m)
        else
          match walk_entry m vaddr (u64 (Z.shiftr pte 10 * PAGE_SIZE)) vpn1 with
          | inl e => (inl e, m)
          | inr (pte_addr, pte) =>
              if negb (is_table pte) then
                let leaf_ppn := Z.land (Z.shiftr pte 10) (u64 (Z.lnot (Z.shiftl 1 9 - 1))) in
                leaf m type mode vaddr pte_addr pte (Z.lor leaf_ppn (Z.land vpn0 0x1FF)) offset
              else
                match walk_entry m vaddr (u64 (Z.shiftr pte 10 * PAGE_SIZE)) vpn0 with
                | inl e => (inl e, m)
                | inr (pte_addr, pte) => leaf m type mode vaddr pte_addr pte (Z.shiftr pte 10) offset
                end
          end
    end.

(** ** The kernel page tables *)

Definition CLINT_BASE : Z := 0x02000000.
Definition PLIC_BASE : Z := 0x0C000000.
Definition UART_BASE : Z := 0x10000000.
Definition MEGAPAGE : Z := 2 * 1024 * 1024.

Record vm_state := MkVm {
  kernel_l2 : Z;
  kernel_l1_dram : Z;
  kernel_l1_mmio : Z;
}.

(** [table[i] = v] on an array of 64-bit words. *)
Definition set_pte (table i v : Z) (m : ram_t) : ram_t := store64 m (table + PTE_SIZE * i) v.
Definition pte (m : ram_t) (table i : Z) : Z := load64 m (table + PTE_SIZE * i).

Definition RWX : Z := Z.lor PTE_R (Z.lor PTE_W PTE_X).

(** The stores of [vm_init] into the three table pages. *)
Definition vm_tables (l2 l1_dram l1_mmio : Z) (m : ram_t) : ram_t :=
  let m := fold_for 512 0 (λ i m,
    set_pte l1_mmio i 0 (set_pte l1_dram i 0 (set_pte l2 i 0 m))) m in
  let m := set_pte l2 0 (PTE (Z.shiftr l1_mmio 12) PTE_V) m in
  let m := set_pte l2 2 (PTE (Z.shiftr l1_dram 12) PTE_V) m in
  let m := fold_for 64 0 (λ i m,
    set_pte l1_dram i
      (PTE (Z.shiftr (u64 (DRAM_BASE + i * MEGAPAGE)) 12) (Z.lor PTE_V RWX)) m) m in
  let m := set_pte l1_mmio 16
    (PTE (Z.shiftr CLINT_BASE 12) (Z.lor PTE_V (Z.lor PTE_R PTE_W))) m in
  let m := fold_for 32 0 (λ i m,
    set_pte l1_mmio (96 + i)
      (PTE (Z.shiftr (u64 (PLIC_BASE + i * MEGAPAGE)) 12) (Z.lor PTE_V (Z.lor PTE_R PTE_W))) m) m in
  let m := set_pte l1_mmio 128
    (PTE (Z.shiftr UART_BASE 12) (Z.lor PTE_V (Z.lor PTE_R PTE_W))) m in
  set_pte l1_mmio 0 (PTE 0 (Z.lor PTE_V (Z.lor PTE_R PTE_W))) m.

Definition vm_init (s : mem_state) (v : vm_state) (c : csr_file)
    : mem_state * vm_state * csr_file :=
  let '(l2, s) := kalloc s in
  let '(l1_dram, s) := kalloc s in
  let '(l1_mmio, s) := kalloc s in
  if (l2 =? 0) || (l1_dram =? 0) || (l1_mmio =? 0) then (s, v, c)
  else
    (s <| ram := vm_tables l2 l1_dram l1_mmio (ram s) |>,
     MkVm l2 l1_dram l1_mmio,
     csr_store SATP (Z.lor SATP_SV39 (Z.shiftr l2 12)) c).

(** ** Entries of tables in memory *)

Definition aligned (p : Z) : Prop := p mod PAGE_SIZE = 0.

Lemma aligned_eq p q : aligned p → aligned q → - PAGE_SIZE < p - q < PAGE_SIZE → p = q.
Proof. unfold aligned, PAGE_SIZE. intros. Z.div_mod_to_equations. lia. Qed.

Lemma pte_set_pte m t i v t' i' :
  aligned t → aligned t' → 0 ≤ i < 512 → 0 ≤ i' < 512 → is_u64 v →
  pte (set_pte t i v m) t' i' = if decide (t' = t ∧ i' = i) then v else pte m t' i'.
Proof.
  intros Ht Ht' Hi Hi' Hv. unfold pte, set_pte, PTE_SIZE. case_decide as Hd.
  - destruct Hd as [-> ->]. by apply load64_store64_eq.
  - apply load64_store64_ne. unfold aligned, PAGE_SIZE in *.
    destruct (decide (t' = t)) as [->|]; [assert (i' ≠ i) by tauto; lia|].
    Z.div_mod_to_equations. lia.
Qed.

(** Filling entries [lo .. lo+n) of one table. *)
Lemma pte_fill m t n lo f t' i' :
  aligned t → aligned t' → 0 ≤ lo → lo + Z.of_nat n ≤ 512 → 0 ≤ i' < 512 →
  (∀ i, 0 ≤ i < Z.of_nat n → is_u64 (f i)) →
  pte (fold_for n 0 (λ i m, set_pte t (lo + i) (f i) m) m) t' i' =
    if decide (t' = t ∧ lo ≤ i' < lo + Z.of_nat n) then f (i' - lo) else pte m t' i'.
Proof.
  intros Ht Ht' Hlo Hn Hi' Hf.
  pose (I := λ (k : Z) (m1 : ram_t), pte m1 t' i' =
     if decide (t' = t ∧ lo ≤ i' < lo + k) then f (i' - lo) else pte m t' i').
  apply (fold_for_ind I n 0); unfold I.
  - rewrite decide_False; [done|lia].
  - intros j m1 Hj Hm1. rewrite pte_set_pte by (try done; try lia; apply Hf; lia).
    destruct (decide (t' = t ∧ i' = lo + j)) as [[-> ->]|Hne].
    + rewrite decide_True by lia. f_equal. lia.
    + rewrite Hm1. destruct (decide (t' = t ∧ lo ≤ i' < lo + j)) as [Hd|Hd].
      * rewrite decide_True; [done|lia].
      * rewrite decide_False; [done|]. intros [-> ?]. apply Hd. split; [done|].
        assert (i' ≠ lo + j) by tauto. lia.
Qed.

(** The same facts for a known table. *)
Lemma pte_set_same m t i v i' :
  aligned t → 0 ≤ i < 512 → 0 ≤ i' < 512 → is_u64 v →
  pte (set_pte t i v m) t i' = if i' =? i then v else pte m t i'.
Proof. intros. rewrite pte_set_pte by done. bcase; [by rewrite decide_True|]. rewrite decide_False; [done|tauto]. Qed.

Lemma pte_set_other m t i v t' i' :
  aligned t → aligned t' → t' ≠ t → 0 ≤ i < 512 → 0 ≤ i' < 512 → is_u64 v →
  pte (set_pte t i v m) t' i' = pte m t' i'.
Proof. intros. rewrite pte_set_pte by done. rewrite decide_False; [done|tauto]. Qed.

Lemma pte_fill_same m t n lo f i' :
  aligned t → 0 ≤ lo → lo + Z.of_nat n ≤ 512 → 0 ≤ i' < 512 →
  (∀ i, 0 ≤ i < Z.of_nat n → is_u64 (f i)) →
  pte (fold_for n 0 (λ i m, set_pte t (lo + i) (f i) m) m) t i' =
    if (lo <=? i') && (i' <? lo + Z.of_nat n) then f (i' - lo) else pte m t i'.
Proof.
  intros. rewrite pte_fill by done. destruct (_ && _) eqn:E.
  - bsimp. by rewrite decide_True by lia.
  - apply andb_false_iff in E. rewrite decide_False; [done|]. intros [_ ?]. lia.
Qed.

Lemma pte_fill_other m t n lo f t' i' :
  aligned t → aligned t' → t' ≠ t → 0 ≤ lo → lo + Z.of_nat n ≤ 512 → 0 ≤ i' < 512 →
  (∀ i, 0 ≤ i < Z.of_nat n → is_u64 (f i)) →
  pte (fold_for n 0 (λ i m, set_pte t (lo + i) (f i) m) m) t' i' = pte m t' i'.
Proof. intros. rewrite pte_fill by done. rewrite decide_False; [done|tauto]. Qed.

(** ** Flag arithmetic *)

(** [PTE] with ten flag bits: the page number and the flags are read back. *)
Section pte_fields.
Variables ppn flags : Z.
Hypothesis Hppn : 0 ≤ ppn < 2 ^ 44.
Hypothesis Hflags : 0 ≤ flags < 1024.

Lemma PTE_eq : PTE ppn flags = ppn * 1024 + flags.
Proof using Hppn Hflags.
  unfold PTE. rewrite Z.shiftl_mul_pow2 by lia. rewrite u64_small by lia.
  apply (lor_low _ _ 10); [lia|apply Z.mod_mul; lia|lia].
Qed.

Lemma PTE_range : is_u64 (PTE ppn flags).
Proof using Hppn Hflags. rewrite PTE_eq. lia. Qed.

Lemma PTE_ppn : Z.shiftr (PTE ppn flags) 10 = ppn.
Proof using Hppn Hflags.
  rewrite PTE_eq, Z.shiftr_div_pow2 by lia. change (2 ^ 10) with 1024.
  symmetry. apply (Z.div_unique_pos _ _ _ flags); lia.
Qed.

Lemma PTE_flags mask : 0 ≤ mask < 1024 → Z.land (PTE ppn flags) mask = Z.land flags mask.
Proof using Hppn Hflags.
  intros Hm. rewrite PTE_eq. replace mask with (mask mod 2 ^ 10) by (apply Z.mod_small; lia).
  rewrite <- Z.land_ones, (Z.land_comm mask), !Z.land_assoc, !Z.land_ones by lia.
  change (2 ^ 10) with 1024. by rewrite Z.add_comm, Z.mod_add by lia.
Qed.
End pte_fields.

Definition AD : Z := Z.lor PTE_A PTE_D.
Definition strip_ad (p : Z) : Z := Z.ldiff p AD.

Lemma strip_ad_land p mask : Z.land mask AD = 0 → Z.land (strip_ad p) mask = Z.land p mask.
Proof.
  intros Hm. unfold strip_ad. apply Z.bits_inj'. intros n _.
  pose proof (f_equal (λ z, Z.testbit z n) Hm) as Hn. cbn beta in Hn.
  rewrite Z.land_spec, Z.bits_0 in Hn. rewrite !Z.land_spec, Z.ldiff_spec.
  by destruct (Z.testbit p n), (Z.testbit mask n), (Z.testbit AD n).
Qed.

Lemma strip_ad_shiftr p : Z.shiftr (strip_ad p) 10 = Z.shiftr p 10.
Proof.
  unfold strip_ad. rewrite Z.shiftr_ldiff. change (Z.shiftr AD 10) with 0.
  apply Z.ldiff_0_r.
Qed.

Lemma strip_ad_lor p f : Z.ldiff f AD = 0 → strip_ad (Z.lor p f) = strip_ad p.
Proof.
  intros Hf. unfold strip_ad. apply Z.bits_inj'. intros n _.
  pose proof (f_equal (λ z, Z.testbit z n) Hf) as Hn. cbn beta in Hn.
  rewrite Z.ldiff_spec, Z.bits_0 in Hn. rewrite !Z.ldiff_spec, Z.lor_spec.
  by destruct (Z.testbit p n), (Z.testbit f n), (Z.testbit AD n).
Qed.

Lemma strip_ad_id ppn flags :
  0 ≤ ppn < 2 ^ 44 → 0 ≤ flags < 1024 → Z.land flags AD = 0 →
  strip_ad (PTE ppn flags) = PTE ppn flags.
Proof.
  intros Hp Hf Ha. unfold strip_ad.
  apply Z.bits_inj'. intros n Hn. rewrite Z.ldiff_spec.
  pose proof (f_equal (λ z, Z.testbit z n) (PTE_flags ppn flags Hp Hf AD ltac:(done))) as Hx.
  rewrite Ha in Hx. cbn beta in Hx. rewrite Z.land_spec, Z.bits_0 in Hx.
  by destruct (Z.testbit (PTE ppn flags) n), (Z.testbit AD n).
Qed.

Lemma bit_strip p mask : Z.land mask AD = 0 → bit (strip_ad p) mask = bit p mask.
Proof. intros. unfold bit. by rewrite strip_ad_land. Qed.

Lemma leaf_fault_strip type mode p : leaf_fault type mode (strip_ad p) = leaf_fault type mode p.
Proof. unfold leaf_fault. by rewrite !bit_strip by reflexivity. Qed.

Lemma is_table_strip p : is_table (strip_ad p) = is_table p.
Proof. unfold is_table. by rewrite strip_ad_land by reflexivity. Qed.

(** ** Walks *)

(** Pages that tables live in: inside DRAM. *)
Definition dram_page (p : Z) : Prop := aligned p ∧ DRAM_BASE ≤ p ≤ DRAM_BASE + DRAM_SIZE - PAGE_SIZE.

Lemma heap_dram_page start p : _kernel_start ≤ start → is_page start p → dram_page p.
Proof.
  unfold is_page, dram_page, aligned, _kernel_start, _stack_top, STACK_GUARD, DRAM_BASE,
    DRAM_SIZE, PAGE_SIZE. intros ? [? ?]. split; [done|]. Z.div_mod_to_equations. lia.
Qed.

Lemma dram_page_ppn p : dram_page p → 0 ≤ Z.shiftr p 12 < 2 ^ 44 ∧ Z.shiftr p 12 * PAGE_SIZE = p.
Proof.
  unfold dram_page, aligned, DRAM_BASE, DRAM_SIZE, PAGE_SIZE. intros [Ha Hr].
  rewrite Z.shiftr_div_pow2 by lia. change (2 ^ 12) with 4096. Z.div_mod_to_equations. lia.
Qed.

Lemma walk_entry_spec m vaddr t i :
  dram_page t → 0 ≤ i < 512 →
  walk_entry m vaddr t i =
    if bit (pte m t i) PTE_V then inr (t + PTE_SIZE * i, pte m t i) else inl (Exc LoadPageFault vaddr).
Proof.
  unfold dram_page, walk_entry, dram_load, pte, PTE_SIZE, DRAM_SIZE, DRAM_BASE, PAGE_SIZE.
  intros [_ Ht] Hi. rewrite (u64_small (t + i * 8)), (u64_small (_ - _)), u64_small by lia.
  rewrite (proj2 (Z.ltb_ge _ _)) by lia. rewrite (Z.mul_comm i 8).
  by destruct (bit _ _).
Qed.

Lemma table_pte_fields t flags :
  dram_page t → 0 ≤ flags < 1024 →
  u64 (Z.shiftr (PTE (Z.shiftr t 12) flags) 10 * PAGE_SIZE) = t
  ∧ ∀ mask, 0 ≤ mask < 1024 →
    Z.land (PTE (Z.shiftr t 12) flags) mask = Z.land flags mask.
Proof.
  intros Ht Hf. pose proof (dram_page_ppn _ Ht) as [Hp He]. split.
  - rewrite PTE_ppn, He by done. apply u64_small.
    destruct Ht as [_ Ht]. unfold DRAM_BASE, DRAM_SIZE, PAGE_SIZE in Ht. lia.
  - intros. by apply PTE_flags.
Qed.

(** The three indices of an address. *)
Definition vpn (level vaddr : Z) : Z := Z.land (Z.shiftr vaddr (12 + 9 * level)) 0x1FF.

Lemma vpn_range level vaddr : 0 ≤ vpn level vaddr < 512.
Proof.
  unfold vpn. change 0x1FF with (Z.ones 9). rewrite Z.land_ones by lia.
  apply Z.mod_pos_bound. lia.
Qed.

(** Paging is on and the root table is [root]. *)
Definition satp_root (c : csr_file) (root : Z) : Prop :=
  dram_page root ∧ csr_load SATP c = Z.lor SATP_SV39 (Z.shiftr root 12).

Lemma satp_root_fields c root :
  satp_root c root →
  is_enabled c = true ∧ u64 (Z.land (csr_load SATP c) 0xFFFFFFFFFFF * PAGE_SIZE) = root.
Proof.
  intros [Hr Hs]. pose proof (dram_page_ppn _ Hr) as [Hp He].
  assert (Z.lor SATP_SV39 (Z.shiftr root 12) = SATP_SV39 + Z.shiftr root 12) as Hadd.
  { apply (lor_low _ _ 44); [lia|reflexivity|lia]. }
  unfold is_enabled. rewrite Hs. split.
  - apply Z.eqb_eq. apply Z.bits_inj'. intros n _. rewrite Z.land_spec, Z.lor_spec.
    by destruct (Z.testbit SATP_SV39 n), (Z.testbit (Z.shiftr root 12) n).
  - rewrite Hadd. change 0xFFFFFFFFFFF with (Z.ones 44). rewrite Z.land_ones by lia.
    change SATP_SV39 with (2 ^ 19 * 2 ^ 44). rewrite Z.add_comm, Z.mod_add by lia.
    rewrite Z.mod_small, He by lia. apply u64_small.
    destruct Hr as [_ Hr]. unfold DRAM_BASE, DRAM_SIZE, PAGE_SIZE in Hr. lia.
Qed.

(** The first level of a walk. *)
Lemma translate_root c m root vaddr type mode :
  satp_root c root →
  translate c m vaddr type mode =
    (let pte2 := pte m root (vpn 2 vaddr) in
     if negb (bit pte2 PTE_V && is_table pte2) then (inl (Exc LoadPageFault vaddr), m)
     else
       match walk_entry m vaddr (u64 (Z.shiftr pte2 10 * PAGE_SIZE)) (vpn 1 vaddr) with
       | inl e => (inl e, m)
       | inr (pte_addr, pte) =>
           if negb (is_table pte) then
             leaf m type mode vaddr pte_addr pte
               (Z.lor (Z.land (Z.shiftr pte 10) (u64 (Z.lnot (Z.shiftl 1 9 - 1))))
                      (Z.land (vpn 0 vaddr) 0x1FF)) (Z.land vaddr 0xFFF)
           else
             match walk_entry m vaddr (u64 (Z.shiftr pte 10 * PAGE_SIZE)) (vpn 0 vaddr) with
             | inl e => (inl e, m)
             | inr (pte_addr, pte) =>
                 leaf m type mode vaddr pte_addr pte (Z.shiftr pte 10) (Z.land vaddr 0xFFF)
             end
       end).
Proof.
  intros Hs. pose proof (satp_root_fields _ _ Hs) as [He Hr].
  unfold translate. rewrite He, Hr. cbn [negb].
  change (Z.land (Z.shiftr vaddr 30) 0x1FF) with (vpn 2 vaddr).
  change (Z.land (Z.shiftr vaddr 21) 0x1FF) with (vpn 1 vaddr).
  change (Z.land (Z.shiftr vaddr 12) 0x1FF) with (vpn 0 vaddr).
  rewrite (walk_entry_spec m vaddr root) by (apply Hs || apply vpn_range).
  cbv zeta. destruct (bit (pte m root (vpn 2 vaddr)) PTE_V); [|done]. cbn [andb].
  by destruct (is_table _).
Qed.

(** A walk that finds no entry of level 1. *)
Lemma translate_no_root c m root vaddr type mode :
  satp_root c root → strip_ad (pte m root (vpn 2 vaddr)) = 0 →
  translate c m vaddr type mode = (inl (Exc LoadPageFault vaddr), m).
Proof.
  intros Hs Hp. rewrite (translate_root _ _ root) by done. cbv zeta.
  rewrite <- (bit_strip _ PTE_V), Hp by done. done.
Qed.

(** The second level of a walk through a table [l1]. *)
Lemma translate_l1 c m root l1 flags vaddr type mode :
  satp_root c root → dram_page l1 → Z.land flags (Z.lor PTE_V RWX) = PTE_V → 0 ≤ flags < 1024 →
  pte m root (vpn 2 vaddr) = PTE (Z.shiftr l1 12) flags →
  translate c m vaddr type mode =
    (let pte1 := pte m l1 (vpn 1 vaddr) in
     if negb (bit pte1 PTE_V) then (inl (Exc LoadPageFault vaddr), m)
     else if negb (is_table pte1) then
       leaf m type mode vaddr (l1 + PTE_SIZE * vpn 1 vaddr) pte1
         (Z.lor (Z.land (Z.shiftr pte1 10) (u64 (Z.lnot (Z.shiftl 1 9 - 1))))
                (Z.land (vpn 0 vaddr) 0x1FF)) (Z.land vaddr 0xFFF)
     else
       match walk_entry m vaddr (u64 (Z.shiftr pte1 10 * PAGE_SIZE)) (vpn 0 vaddr) with
       | inl e => (inl e, m)
       | inr (pte_addr, pte) =>
           leaf m type mode vaddr pte_addr pte (Z.shiftr pte 10) (Z.land vaddr 0xFFF)
       end).
Proof.
  intros Hs Hl Hfl Hfr Hp. rewrite (translate_root _ _ root) by done. cbv zeta. rewrite Hp.
  pose proof (table_pte_fields l1 flags Hl Hfr) as [-> Hm].
  assert (Z.land flags PTE_V = PTE_V ∧ Z.land flags RWX = 0) as [Hv Hx].
  { split.
    - replace PTE_V with (Z.land (Z.lor PTE_V RWX) PTE_V) at 1 by reflexivity.
      by rewrite Z.land_assoc, Hfl.
    - replace RWX with (Z.land (Z.lor PTE_V RWX) RWX) by reflexivity.
      by rewrite Z.land_assoc, Hfl. }
  unfold bit at 1, is_table at 1. fold RWX. rewrite !Hm, Hv, Hx by done. cbn [negb andb].
  change (negb (negb (PTE_V =? 0) && (0 =? 0))) with false. cbn iota.
  rewrite walk_entry_spec by (done || apply vpn_range).
  by destruct (bit _ _).
Qed.

Lemma leaf_fault_flags type mode ppn flags :
  0 ≤ ppn < 2 ^ 44 → 0 ≤ flags < 1024 →
  leaf_fault type mode (PTE ppn flags) = leaf_fault type mode flags.
Proof. intros. unfold leaf_fault, bit. by rewrite !PTE_flags by done. Qed.

Lemma offset_mod vaddr : Z.land vaddr 0xFFF = vaddr mod 4096.
Proof. change 0xFFF with (Z.ones 12). by rewrite Z.land_ones by lia. Qed.

Lemma vpn_mod level vaddr :
  0 ≤ level → vpn level vaddr = vaddr / 2 ^ (12 + 9 * level) mod 512.
Proof.
  intros. unfold vpn. change 0x1FF with (Z.ones 9).
  by rewrite Z.land_ones, Z.shiftr_div_pow2 by lia.
Qed.

(** The end of a walk at a 4 KiB page and at a 2 MiB page. *)
Lemma leaf_page m type mode a p page flags vaddr :
  strip_ad p = PTE (Z.shiftr page 12) flags → dram_page page → 0 ≤ flags < 1024 →
  (leaf m type mode vaddr a p (Z.shiftr p 10) (Z.land vaddr 0xFFF)).1 =
    match leaf_fault type mode flags with
    | Some e => inl (Exc e vaddr)
    | None => inr (page + vaddr mod PAGE_SIZE)
    end.
Proof.
  intros Hp Hd Hf. pose proof (dram_page_ppn _ Hd) as [Hr He]. unfold leaf.
  rewrite <- (leaf_fault_strip type mode p), <- (strip_ad_shiftr p), Hp.
  rewrite leaf_fault_flags, PTE_ppn, He by done. destruct (leaf_fault type mode flags); [done|].
  cbn [fst]. f_equal. rewrite offset_mod. destruct Hd as [Ha Hd].
  rewrite u64_small by (unfold DRAM_BASE, DRAM_SIZE, PAGE_SIZE in *; lia).
  apply (lor_low _ _ 12); [lia|exact Ha|]. apply Z.mod_pos_bound. lia.
Qed.

Lemma leaf_mega m type mode a p base flags vaddr :
  strip_ad p = PTE (Z.shiftr base 12) flags →
  base mod MEGAPAGE = 0 → 0 ≤ base < 2 ^ 40 → 0 ≤ flags < 1024 →
  (leaf m type mode vaddr a p
     (Z.lor (Z.land (Z.shiftr p 10) (u64 (Z.lnot (Z.shiftl 1 9 - 1)))) (Z.land (vpn 0 vaddr) 0x1FF))
     (Z.land vaddr 0xFFF)).1 =
    match leaf_fault type mode flags with
    | Some e => inl (Exc e vaddr)
    | None => inr (base + vaddr mod MEGAPAGE)
    end.
Proof.
  intros Hp Hb Hr Hf. unfold leaf.
  rewrite <- (leaf_fault_strip type mode p), <- (strip_ad_shiftr p), Hp.
  rewrite Z.shiftr_div_pow2 by lia. change (2 ^ 12) with 4096. unfold MEGAPAGE in *.
  assert (0 ≤ base / 4096 < 2 ^ 44 ∧ base = 4096 * (base / 4096) ∧ (base / 4096) mod 512 = 0)
    as (Hq & He & H512) by (Z.div_mod_to_equations; lia).
  rewrite leaf_fault_flags, PTE_ppn by done. destruct (leaf_fault type mode flags); [done|].
  cbn [fst]. f_equal. change (Z.shiftl 1 9 - 1) with (Z.ones 9).
  rewrite land_u64_lnot, Z.ldiff_ones_r by lia.
  rewrite Z.shiftr_div_pow2, Z.shiftl_mul_pow2 by lia. change (2 ^ 9) with 512.
  replace (base / 4096 / 512 * 512) with (base / 4096) by (Z.div_mod_to_equations; lia).
  pose proof (vpn_range 0 vaddr) as Hv.
  replace (Z.land (vpn 0 vaddr) 0x1FF) with (vpn 0 vaddr)
    by (change 0x1FF with (Z.ones 9); rewrite Z.land_ones, Z.mod_small by lia; done).
  rewrite (lor_low (base / 4096) _ 9); [|lia|exact H512|exact Hv]. rewrite offset_mod.
  unfold PAGE_SIZE. rewrite u64_small by lia.
  rewrite (lor_low _ _ 12); [|lia|apply Z.mod_mul; lia|apply Z.mod_pos_bound; lia].
  rewrite vpn_mod by lia. change (2 ^ (12 + 9 * 0)) with 4096.
  Z.div_mod_to_equations. lia.
Qed.

(** ** The kernel mappings *)

(** Entries of the two level-1 tables that [vm_init] builds. *)
Definition dram_pte (i : Z) : Z :=
  if i <? 64 then PTE (Z.shiftr (DRAM_BASE + i * MEGAPAGE) 12) (Z.lor PTE_V RWX) else 0.
Definition mmio_pte (i : Z) : Z :=
  if (i =? 0) || (i =? 16) || (96 <=? i) && (i <=? 128)
  then PTE (Z.shiftr (i * MEGAPAGE) 12) (Z.lor PTE_V (Z.lor PTE_R PTE_W)) else 0.

(** The kernel's tables are in memory (up to the bits the MMU sets). *)
Record kernel_tables (m : ram_t) (v : vm_state) : Prop := {
  kt_l2 : dram_page (kernel_l2 v);
  kt_dram : dram_page (kernel_l1_dram v);
  kt_mmio : dram_page (kernel_l1_mmio v);
  kt_distinct : NoDup [kernel_l2 v; kernel_l1_dram v; kernel_l1_mmio v];
  kt_l2_entries : ∀ i, 0 ≤ i < 512 →
    pte m (kernel_l2 v) i =
      if i =? 0 then PTE (Z.shiftr (kernel_l1_mmio v) 12) PTE_V
      else if i =? 2 then PTE (Z.shiftr (kernel_l1_dram v) 12) PTE_V else 0;
  kt_dram_entries : ∀ i, 0 ≤ i < 512 → strip_ad (pte m (kernel_l1_dram v) i) = dram_pte i;
  kt_mmio_entries : ∀ i, 0 ≤ i < 512 → strip_ad (pte m (kernel_l1_mmio v) i) = mmio_pte i;
}.

(** What the kernel maps: DRAM with every permission, and the device windows
    for loads and stores. *)
Definition kernel_window (vaddr : Z) : option Z :=
  if (DRAM_BASE <=? vaddr) && (vaddr <? DRAM_BASE + DRAM_SIZE) then Some (Z.lor PTE_V RWX)
  else if (vaddr <? MEGAPAGE)
       || (CLINT_BASE <=? vaddr) && (vaddr <? CLINT_BASE + MEGAPAGE)
       || (PLIC_BASE <=? vaddr) && (vaddr <? UART_BASE + MEGAPAGE)
  then Some (Z.lor PTE_V (Z.lor PTE_R PTE_W)) else None.

Definition walk_result (type : AccessType) (mode vaddr : Z) (w : option Z) : Exception + Z :=
  match w with
  | None => inl (Exc LoadPageFault vaddr)
  | Some flags =>
      match leaf_fault type mode flags with Some e => inl (Exc e vaddr) | None => inr vaddr end
  end.

(** Walks that end in a level-1 table: a 2 MiB leaf and an empty entry. *)
Lemma translate_mega c m root l1 base flags vaddr type mode :
  satp_root c root → dram_page l1 → pte m root (vpn 2 vaddr) = PTE (Z.shiftr l1 12) PTE_V →
  strip_ad (pte m l1 (vpn 1 vaddr)) = PTE (Z.shiftr base 12) flags →
  base mod MEGAPAGE = 0 → 0 ≤ base < 2 ^ 40 → 0 ≤ flags < 1024 →
  bit flags PTE_V = true → is_table flags = false →
  (translate c m vaddr type mode).1 =
    match leaf_fault type mode flags with
    | Some e => inl (Exc e vaddr)
    | None => inr (base + vaddr mod MEGAPAGE)
    end.
Proof.
  intros Hs Hl Hp He Hb Hr Hf Hv Ht.
  rewrite (translate_l1 _ _ root l1 PTE_V) by done. cbv zeta.
  assert (0 ≤ Z.shiftr base 12 < 2 ^ 44) as Hq.
  { rewrite Z.shiftr_div_pow2 by lia. change (2 ^ 12) with 4096. Z.div_mod_to_equations. lia. }
  rewrite <- (bit_strip _ PTE_V), <- is_table_strip, He by done.
  unfold bit in Hv |- * at 1. unfold is_table in Ht |- *. fold RWX in Ht |- *.
  rewrite !PTE_flags, Hv, Ht by done. cbn [negb]. by apply leaf_mega.
Qed.

Lemma translate_no_l1 c m root l1 flags vaddr type mode :
  satp_root c root → dram_page l1 → Z.land flags (Z.lor PTE_V RWX) = PTE_V → 0 ≤ flags < 1024 →
  pte m root (vpn 2 vaddr) = PTE (Z.shiftr l1 12) flags →
  strip_ad (pte m l1 (vpn 1 vaddr)) = 0 →
  translate c m vaddr type mode = (inl (Exc LoadPageFault vaddr), m).
Proof.
  intros Hs Hl Hf1 Hf2 Hp He. rewrite (translate_l1 _ _ root l1 flags) by done. cbv zeta.
  by rewrite <- (bit_strip _ PTE_V), He by done.
Qed.

(** Looking an address up in the two kernel tables. *)
Lemma window_dram vaddr :
  vpn 2 vaddr = 2 → 0 ≤ vaddr < 2 ^ 39 →
  (∃ base, dram_pte (vpn 1 vaddr) = PTE (Z.shiftr base 12) (Z.lor PTE_V RWX) ∧
     base mod MEGAPAGE = 0 ∧ 0 ≤ base < 2 ^ 40 ∧ base + vaddr mod MEGAPAGE = vaddr ∧
     kernel_window vaddr = Some (Z.lor PTE_V RWX))
  ∨ dram_pte (vpn 1 vaddr) = 0 ∧ kernel_window vaddr = None.
Proof.
  rewrite !vpn_mod by lia. change (2 ^ (12 + 9 * 2)) with 1073741824.
  change (2 ^ (12 + 9 * 1)) with 2097152. intros H2 Hr.
  assert (0x80000000 ≤ vaddr < 0xC0000000 ∧ vaddr = 0x80000000 +
    2097152 * (vaddr / 2097152 mod 512) + vaddr mod 2097152) as [Hv He]
    by (Z.div_mod_to_equations; lia).
  assert (0 ≤ vaddr / 2097152 mod 512 < 512) as Hi by (apply Z.mod_pos_bound; lia).
  generalize dependent (vaddr / 2097152 mod 512). intros i He Hi.
  assert (0 ≤ vaddr mod 2097152 < 2097152) by (apply Z.mod_pos_bound; lia).
  unfold dram_pte, kernel_window, MEGAPAGE, DRAM_BASE, DRAM_SIZE, CLINT_BASE, PLIC_BASE, UART_BASE.
  destruct (decide (i < 64)).
  - left. exists (0x80000000 + i * 2097152). rewrite (proj2 (Z.ltb_lt i 64)) by done.
    rewrite (proj2 (Z.leb_le _ _)), (proj2 (Z.ltb_lt _ _)) by lia.
    split_and!; [done| |lia|lia|change (2 * 1024 * 1024) with 2097152; lia|done].
    change 0x80000000 with (1024 * 2097152).
    rewrite <- Z.mul_add_distr_r. apply Z.mod_mul. lia.
  - right. rewrite (proj2 (Z.ltb_ge i 64)) by lia. split; [done|].
    rewrite (proj2 (Z.ltb_ge vaddr (0x80000000 + _))) by lia. rewrite andb_false_r.
    repeat (rewrite (proj2 (Z.ltb_ge _ _)) by lia). by rewrite !andb_false_r.
Qed.

Lemma window_mmio vaddr :
  vpn 2 vaddr = 0 → 0 ≤ vaddr < 2 ^ 39 →
  (∃ base, mmio_pte (vpn 1 vaddr) =
       PTE (Z.shiftr base 12) (Z.lor PTE_V (Z.lor PTE_R PTE_W)) ∧
     base mod MEGAPAGE = 0 ∧ 0 ≤ base < 2 ^ 40 ∧ base + vaddr mod MEGAPAGE = vaddr ∧
     kernel_window vaddr = Some (Z.lor PTE_V (Z.lor PTE_R PTE_W)))
  ∨ mmio_pte (vpn 1 vaddr) = 0 ∧ kernel_window vaddr = None.
Proof.
  rewrite !vpn_mod by lia. change (2 ^ (12 + 9 * 2)) with 1073741824.
  change (2 ^ (12 + 9 * 1)) with 2097152. intros H2 Hr.
  assert (0 ≤ vaddr < 0x40000000 ∧ vaddr = 2097152 * (vaddr / 2097152 mod 512) + vaddr mod 2097152)
    as [Hv He] by (Z.div_mod_to_equations; lia).
  assert (0 ≤ vaddr / 2097152 mod 512 < 512) as Hi by (apply Z.mod_pos_bound; lia).
  generalize dependent (vaddr / 2097152 mod 512). intros i He Hi.
  assert (0 ≤ vaddr mod 2097152 < 2097152) by (apply Z.mod_pos_bound; lia).
  unfold mmio_pte, kernel_window, MEGAPAGE, DRAM_BASE, DRAM_SIZE, CLINT_BASE, PLIC_BASE, UART_BASE.
  rewrite (proj2 (Z.leb_gt 0x80000000 vaddr)) by lia. cbn [andb].
  destruct ((i =? 0) || (i =? 16) || (96 <=? i) && (i <=? 128)) eqn:E.
  - left. exists (i * 2097152).
    assert (i = 0 ∨ i = 16 ∨ 96 ≤ i ≤ 128) as Hc
      by (rewrite !orb_true_iff, andb_true_iff in E; lia).
    split_and!; [done|apply Z.mod_mul; lia|lia|lia|change (2 * 1024 * 1024) with 2097152; lia|].
    match goal with |- (if ?b then _ else _) = _ => assert (b = true) as ->; [|done] end.
    rewrite !orb_true_iff, !andb_true_iff. lia.
  - right. split; [done|].
    match goal with |- (if ?b then _ else _) = _ => assert (b = false) as ->; [|done] end.
    rewrite !orb_false_iff, andb_false_iff in E. rewrite !orb_false_iff, !andb_false_iff. lia.
Qed.

Lemma kernel_walk c m v vaddr type mode :
  satp_root c (kernel_l2 v) → kernel_tables m v → 0 ≤ vaddr < 2 ^ 39 →
  (translate c m vaddr type mode).1 = walk_result type mode vaddr (kernel_window vaddr).
Proof.
  intros Hs Ht Hv. pose proof (vpn_range 2 vaddr) as H2. pose proof (vpn_range 1 vaddr) as H1.
  pose proof (kt_l2_entries _ _ Ht _ H2) as Hroot.
  destruct (vpn 2 vaddr =? 0) eqn:E0; bsimp; [|destruct (vpn 2 vaddr =? 2) eqn:E2; bsimp].
  - pose proof (kt_mmio_entries _ _ Ht _ H1) as He.
    destruct (window_mmio vaddr) as [(base & Hp & Hb & Hbr & Hsum & Hw)|[Hp Hw]]; [done..| |].
    + rewrite (translate_mega c m (kernel_l2 v) (kernel_l1_mmio v) base
        (Z.lor PTE_V (Z.lor PTE_R PTE_W))) by (done || apply Ht || congruence).
      by rewrite Hsum, Hw.
    + rewrite (translate_no_l1 c m (kernel_l2 v) (kernel_l1_mmio v) PTE_V)
        by (done || apply Ht || congruence). by rewrite Hw.
  - pose proof (kt_dram_entries _ _ Ht _ H1) as He.
    destruct (window_dram vaddr) as [(base & Hp & Hb & Hbr & Hsum & Hw)|[Hp Hw]]; [done..| |].
    + rewrite (translate_mega c m (kernel_l2 v) (kernel_l1_dram v) base (Z.lor PTE_V RWX))
        by (done || apply Ht || congruence). by rewrite Hsum, Hw.
    + rewrite (translate_no_l1 c m (kernel_l2 v) (kernel_l1_dram v) PTE_V)
        by (done || apply Ht || congruence). by rewrite Hw.
  - rewrite (translate_no_root c m (kernel_l2 v)) by (done || rewrite Hroot; done).
    assert (kernel_window vaddr = None) as ->; [|done].
    rewrite vpn_mod in E0, E2 by lia. change (2 ^ (12 + 9 * 2)) with 1073741824 in *.
    unfold kernel_window, MEGAPAGE, DRAM_BASE, DRAM_SIZE, CLINT_BASE, PLIC_BASE, UART_BASE.
    assert (vaddr / 1073741824 mod 512 = vaddr / 1073741824) as Hm
      by (apply Z.mod_small; Z.div_mod_to_equations; lia). rewrite Hm in *.
    assert (¬ (0 ≤ vaddr < 1073741824) ∧ ¬ (2147483648 ≤ vaddr < 3221225472)) as [? ?]
      by (split; intros ?; Z.div_mod_to_equations; lia).
    repeat match goal with
    | |- (if ?b then _ else _) = None =>
        assert (b = false) as ->;
          [rewrite ?orb_false_iff, ?andb_false_iff, ?Z.leb_gt, ?Z.ltb_ge; lia|]
    end. done.
Qed.

(** ** [vm_init] builds these tables *)

Lemma zero_tables l2 l1d l1m m t i :
  aligned l2 → aligned l1d → aligned l1m → t ∈ [l2; l1d; l1m] → 0 ≤ i < 512 →
  pte (fold_for 512 0 (λ i m, set_pte l1m i 0 (set_pte l1d i 0 (set_pte l2 i 0 m))) m) t i = 0.
Proof.
  intros H2 Hd Hm Ht Hi.
  pose (I := λ (k : Z) (m : ram_t), i < k → pte m t i = 0).
  apply (fold_for_ind I 512 0); unfold I; [lia| |lia].
  intros j m' Hj IH Hk. assert (aligned t) by (set_unfold in Ht; naive_solver).
  rewrite !pte_set_pte by (done || lia). repeat case_decide; try done.
  apply IH. set_unfold in Ht. assert (i ≠ j) by naive_solver. lia.
Qed.

Lemma vm_pte_range base flags :
  0 ≤ base < 2 ^ 40 → 0 ≤ flags < 1024 → is_u64 (PTE (Z.shiftr base 12) flags).
Proof.
  intros Hb Hf. apply PTE_range; [|done]. rewrite Z.shiftr_div_pow2 by lia.
  change (2 ^ 12) with 4096. Z.div_mod_to_equations. lia.
Qed.

Lemma page_pte_range p flags :
  dram_page p → 0 ≤ flags < 1024 → is_u64 (PTE (Z.shiftr p 12) flags).
Proof.
  intros [_ Hp] Hf. apply vm_pte_range; [|done].
  unfold DRAM_BASE, DRAM_SIZE, PAGE_SIZE in Hp. lia.
Qed.

Lemma vm_page_pte p : dram_page p → is_u64 (PTE (Z.shiftr p 12) PTE_V).
Proof. intros. by apply page_pte_range. Qed.

Lemma vm_plic_pte i : 0 ≤ i < Z.of_nat 32 →
  is_u64 (PTE (Z.shiftr (u64 (PLIC_BASE + i * MEGAPAGE)) 12) (Z.lor PTE_V (Z.lor PTE_R PTE_W))).
Proof.
  intros Hi. unfold PLIC_BASE, MEGAPAGE. rewrite u64_small by lia.
  apply vm_pte_range; [lia|done].
Qed.

Lemma vm_dram_pte i : 0 ≤ i < Z.of_nat 64 →
  is_u64 (PTE (Z.shiftr (u64 (DRAM_BASE + i * MEGAPAGE)) 12) (Z.lor PTE_V RWX)).
Proof.
  intros Hi. unfold DRAM_BASE, MEGAPAGE. rewrite u64_small by lia.
  apply vm_pte_range; [lia|done].
Qed.

Lemma strip_dram_pte i : 0 ≤ i < 512 → strip_ad (dram_pte i) = dram_pte i.
Proof.
  intros Hi. unfold dram_pte, MEGAPAGE, DRAM_BASE. bcase; [|done].
  apply strip_ad_id; [|done..]. rewrite Z.shiftr_div_pow2 by lia. Z.div_mod_to_equations. lia.
Qed.

Lemma strip_mmio_pte i : 0 ≤ i < 512 → strip_ad (mmio_pte i) = mmio_pte i.
Proof.
  intros Hi. unfold mmio_pte, MEGAPAGE. destruct (_ || _); [|done].
  apply strip_ad_id; [|done..]. rewrite Z.shiftr_div_pow2 by lia. Z.div_mod_to_equations. lia.
Qed.

Section vm_tables.
Context (l2 l1d l1m : Z) (m : ram_t).
Hypothesis H2 : dram_page l2.
Hypothesis Hd : dram_page l1d.
Hypothesis Hm : dram_page l1m.
Hypothesis Hne : NoDup [l2; l1d; l1m].

Let pages_ne : l2 ≠ l1d ∧ l2 ≠ l1m ∧ l1d ≠ l1m.
Proof. repeat setoid_rewrite NoDup_cons in Hne. set_solver. Qed.

Let A2 : aligned l2 := proj1 H2.
Let Ad : aligned l1d := proj1 Hd.
Let Am : aligned l1m := proj1 Hm.

Ltac vm_side := first [ assumption | lia | exact vm_plic_pte | exact vm_dram_pte
                      | apply vm_page_pte; assumption | apply not_eq_sym; assumption
                      | split; by vm_compute ].
Ltac vm_fills :=
  pose (fp := λ i, PTE (Z.shiftr (u64 (PLIC_BASE + i * MEGAPAGE)) 12)
    (Z.lor PTE_V (Z.lor PTE_R PTE_W)));
  pose (fd := λ i, PTE (Z.shiftr (u64 (DRAM_BASE + i * MEGAPAGE)) 12) (Z.lor PTE_V RWX)).

Lemma vm_tables_l2 i :
  0 ≤ i < 512 →
  pte (vm_tables l2 l1d l1m m) l2 i =
    if i =? 0 then PTE (Z.shiftr l1m 12) PTE_V
    else if i =? 2 then PTE (Z.shiftr l1d 12) PTE_V else 0.
Proof using H2 Hd Hm Hne.
  intros Hi. destruct pages_ne as (N1 & N2 & N3). vm_fills. unfold vm_tables. cbv zeta.
  rewrite pte_set_other, pte_set_other by vm_side.
  rewrite (pte_fill_other _ l1m 32 96 fp) by vm_side. rewrite pte_set_other by vm_side.
  rewrite (pte_fill_other _ l1d 64 0 fd) by vm_side. rewrite pte_set_same, pte_set_same by vm_side.
  rewrite zero_tables by (done || set_solver). repeat bcase; try lia; done.
Qed.

Lemma vm_tables_dram i :
  0 ≤ i < 512 → pte (vm_tables l2 l1d l1m m) l1d i = dram_pte i.
Proof using H2 Hd Hm Hne.
  intros Hi. destruct pages_ne as (N1 & N2 & N3). vm_fills. unfold vm_tables. cbv zeta.
  rewrite pte_set_other, pte_set_other by vm_side.
  rewrite (pte_fill_other _ l1m 32 96 fp) by vm_side. rewrite pte_set_other by vm_side.
  rewrite (pte_fill_same _ l1d 64 0 fd) by vm_side. rewrite pte_set_other, pte_set_other by vm_side.
  rewrite zero_tables by (done || set_solver).
  unfold dram_pte, fd, MEGAPAGE, DRAM_BASE. rewrite (proj2 (Z.leb_le 0 i)) by lia. cbn [andb].
  change (0 + Z.of_nat 64) with 64. rewrite Z.sub_0_r. bcase; [|done].
  by rewrite u64_small by lia.
Qed.

Lemma vm_tables_mmio i :
  0 ≤ i < 512 → pte (vm_tables l2 l1d l1m m) l1m i = mmio_pte i.
Proof using H2 Hd Hm Hne.
  intros Hi. destruct pages_ne as (N1 & N2 & N3). vm_fills. unfold vm_tables. cbv zeta.
  rewrite pte_set_same, pte_set_same by vm_side.
  rewrite (pte_fill_same _ l1m 32 96 fp) by vm_side. rewrite pte_set_same by vm_side.
  rewrite (pte_fill_other _ l1d 64 0 fd) by vm_side. rewrite pte_set_other, pte_set_other by vm_side.
  rewrite zero_tables by (done || set_solver). unfold mmio_pte, fp, MEGAPAGE, PLIC_BASE.
  change (96 + Z.of_nat 32) with 128.
  destruct (i =? 0) eqn:?; bsimp; [by subst|]. destruct (i =? 128) eqn:?; bsimp; [by subst|].
  cbn [orb]. destruct (i =? 16) eqn:?; bsimp; [by subst|]. cbn [orb].
  destruct (96 <=? i) eqn:?; bsimp; [|done]. cbn [andb].
  destruct (i <? 128) eqn:?; bsimp.
  - rewrite (proj2 (Z.leb_le i 128)), u64_small by lia. do 2 f_equal. lia.
  - rewrite (proj2 (Z.leb_gt i 128)) by lia. done.
Qed.

Lemma vm_tables_kernel : kernel_tables (vm_tables l2 l1d l1m m) (MkVm l2 l1d l1m).
Proof using H2 Hd Hm Hne.
  split; cbn [kernel_l2 kernel_l1_dram kernel_l1_mmio]; [done..| | |].
  - exact vm_tables_l2.
  - intros i Hi. by rewrite vm_tables_dram, strip_dram_pte.
  - intros i Hi. by rewrite vm_tables_mmio, strip_mmio_pte.
Qed.
End vm_tables.

(** A translation writes at most the A/D bits of one entry. *)
Lemma leaf_ram m type mode vaddr t i p ppn off t' i' :
  aligned t → aligned t' → 0 ≤ i < 512 → 0 ≤ i' < 512 → is_u64 p → p = pte m t i →
  strip_ad (pte (leaf m type mode vaddr (t + PTE_SIZE * i) p ppn off).2 t' i') = strip_ad (pte m t' i').
Proof.
  intros Ht Ht' Hi Hi' Hp ->. unfold leaf. destruct (leaf_fault _ _ _); [done|]. cbn [snd].
  set (f := match type with Store => Z.lor PTE_A PTE_D | _ => PTE_A end).
  assert (match type with Store => Z.lor (Z.lor (pte m t i) PTE_A) PTE_D
          | _ => Z.lor (pte m t i) PTE_A end = Z.lor (pte m t i) f) as ->
    by (subst f; destruct type; by rewrite <- ?Z.lor_assoc).
  change (store64 m (t + PTE_SIZE * i) ?v) with (set_pte t i v m).
  rewrite pte_set_pte; try done.
  - case_decide as Hd; [|done]. destruct Hd as [-> ->]. apply strip_ad_lor. by destruct type.
  - apply is_u64_bits. intros n Hn. rewrite Z.lor_spec, (proj1 (is_u64_bits _) Hp) by done.
    assert (is_u64 f) as Hf by (subst f; destruct type; split; by vm_compute).
    by apply (proj1 (is_u64_bits _) Hf).
Qed.

Lemma set_pte_outside t i v m m' ps :
  t ∈ ps → 0 ≤ i < 512 → same_outside ps m m' → same_outside ps m (set_pte t i v m').
Proof.
  intros Ht Hi Hm. etrans; [exact Hm|].
  apply (same_outside_store t); unfold le64, PTE_SIZE, PAGE_SIZE;
    rewrite ?length_le_encode; [done|lia..].
Qed.

Lemma vm_tables_outside l2 l1d l1m m : same_outside [l2; l1d; l1m] m (vm_tables l2 l1d l1m m).
Proof.
  assert (l2 ∈ [l2; l1d; l1m] ∧ l1d ∈ [l2; l1d; l1m] ∧ l1m ∈ [l2; l1d; l1m]) as (I2 & Id & Im)
    by set_solver.
  generalize dependent [l2; l1d; l1m]. intros ps I2 Id Im. unfold vm_tables. cbv zeta.
  do 2 (apply set_pte_outside; [assumption|lia|]). etrans.
  2:{ apply same_outside_fold. intros j m' Hj. apply set_pte_outside; [assumption|lia|done]. }
  apply set_pte_outside; [assumption|lia|]. etrans.
  2:{ apply same_outside_fold. intros j m' Hj. apply set_pte_outside; [assumption|lia|done]. }
  do 2 (apply set_pte_outside; [assumption|lia|]). apply same_outside_fold.
  intros j m' Hj. do 3 (apply set_pte_outside; [assumption|lia|]). done.
Qed.

Lemma vm_tables_ram_ok l2 l1d l1m m : ram_ok m → ram_ok (vm_tables l2 l1d l1m m).
Proof.
  intros Hm. unfold vm_tables. cbv zeta.
  apply ram_ok_store64, ram_ok_store64.
  apply (fold_for_ind (λ _, ram_ok) 32 0); [|intros; by apply ram_ok_store64].
  apply ram_ok_store64. apply (fold_for_ind (λ _, ram_ok) 64 0); [|intros; by apply ram_ok_store64].
  apply ram_ok_store64, ram_ok_store64. apply (fold_for_ind (λ _, ram_ok) 512 0); [done|].
  intros. by apply ram_ok_store64, ram_ok_store64, ram_ok_store64.
Qed.

Lemma kalloc_ram s : ram (kalloc s).2 = ram s.
Proof. unfold kalloc. by repeat bcase. Qed.

Lemma vm_init_ram_ok s v c : ram_ok (ram s) → ram_ok (ram (vm_init s v c).1.1).
Proof.
  intros Hm. unfold vm_init. destruct (kalloc s) as [l2 s1] eqn:E1.
  destruct (kalloc s1) as [l1d s2] eqn:E2. destruct (kalloc s2) as [l1m s3] eqn:E3.
  pose proof (kalloc_ram s) as R1. pose proof (kalloc_ram s1) as R2. pose proof (kalloc_ram s2) as R3.
  rewrite E1 in R1. rewrite E2 in R2. rewrite E3 in R3. cbn [snd] in *.
  assert (ram_ok (ram s3)) by (by rewrite R3, R2, R1).
  destruct (_ || _); [done|]. by apply vm_tables_ram_ok.
Qed.

(** [vm_init] succeeds when three pages are free. *)
Lemma vm_init_spec start F s v0 c :
  mem_rep start F s → (3 ≤ size F)%nat →
  ∃ (F' : gset Z) s' v c', vm_init s v0 c = (s', v, c') ∧ kernel_tables (ram s') v ∧
    satp_root c' (kernel_l2 v) ∧ mem_rep start F' s' ∧
    F = {[kernel_l2 v; kernel_l1_dram v; kernel_l1_mmio v]} ∪ F' ∧
    (kernel_l2 v ∉ F') ∧ (kernel_l1_dram v ∉ F') ∧ (kernel_l1_mmio v ∉ F').
Proof.
  intros Hrep Hsz. pose proof (rep_start _ _ _ Hrep) as [Hs0 _].
  destruct (kalloc s) as [l2 s1] eqn:E1. destruct (kalloc s1) as [l1d s2] eqn:E2.
  destruct (kalloc s2) as [l1m s3] eqn:E3. unfold vm_init. rewrite E1, E2, E3.
  assert (∀ G : gset Z, (1 ≤ size G)%nat → G ≠ ∅) as Hne by (intros G HG ->; rewrite size_empty in HG; lia).
  destruct (kalloc_cases _ _ _ _ _ Hrep E1) as [(_ & HF & _)|(P1 & N1 & G1 & R1 & M1)];
    [by destruct (Hne F); [lia|]|].
  assert (size (F ∖ {[l2]}) = (size F - 1)%nat) as Z1
    by (rewrite size_difference by set_solver; by rewrite size_singleton).
  destruct (kalloc_cases _ _ _ _ _ R1 E2) as [(_ & HF & _)|(P2 & N2 & G2 & R2 & M2)];
    [destruct (Hne (F ∖ {[l2]})); [lia|done]|].
  assert (size (F ∖ {[l2]} ∖ {[l1d]}) = (size F - 2)%nat) as Z2
    by (rewrite size_difference by set_solver; rewrite size_singleton; lia).
  destruct (kalloc_cases _ _ _ _ _ R2 E3) as [(_ & HF & _)|(P3 & N3 & G3 & R3 & M3)];
    [destruct (Hne (F ∖ {[l2]} ∖ {[l1d]})); [lia|done]|].
  rewrite (proj2 (Z.eqb_neq l2 0) N1), (proj2 (Z.eqb_neq l1d 0) N2), (proj2 (Z.eqb_neq l1m 0) N3).
  cbn [orb]. assert (dram_page l2 ∧ dram_page l1d ∧ dram_page l1m) as (D2 & Dd & Dm)
    by exact (conj (heap_dram_page _ _ Hs0 G1)
         (conj (heap_dram_page _ _ Hs0 G2) (heap_dram_page _ _ Hs0 G3))).
  assert (NoDup [l2; l1d; l1m]) as Hnd.
  { clear - P2 P3. apply NoDup_three; set_solver. }
  eexists _, _, _, _. split; [reflexivity|]. cbn [kernel_l2 kernel_l1_dram kernel_l1_mmio].
  split_and!.
  - cbn [ram set_field]. by apply vm_tables_kernel.
  - split; [done|]. by apply csr_load_store_plain_eq.
  - eapply mem_rep_frame; [exact R3|apply vm_tables_outside|].
    clear - P1 P2 P3 D2 Dd Dm. destruct D2, Dd, Dm.
    repeat constructor; try assumption; set_solver.
  - clear - P1 P2 P3. apply set_eq. intros x.
    rewrite !elem_of_union, !elem_of_difference, !elem_of_singleton.
    destruct (decide (x = l2)) as [->|]; [set_solver|].
    destruct (decide (x = l1d)) as [->|]; [set_solver|].
    destruct (decide (x = l1m)) as [->|]; set_solver.
  - clear. set_solver.
  - clear. set_solver.
  - clear. set_solver.
Qed.

(** ** Theorems *)

(** C28: after [vm_init] has run with at least three free pages, the page tables it
    left in memory map, under the walk of the MMU, exactly DRAM (all accesses)
    and the device windows (loads and stores) to themselves for the kernel; every
    other access faults, and in user mode every access faults. *)
Theorem vm_init_maps start F s v0 c vaddr type :
  mem_rep start F s → (3 ≤ size F)%nat → 0 ≤ vaddr < 2 ^ 39 →
  let '(s', v, c') := vm_init s v0 c in
  (translate c' (ram s') vaddr type Supervisor).1 =
    walk_result type Supervisor vaddr (kernel_window vaddr)
  ∧ (∃ e, (translate c' (ram s') vaddr type User).1 = inl e)
  ∧ ∃ F', mem_rep start F' s' ∧ size F = (size F' + 3)%nat.
Proof.
  intros Hrep Hsz Hv.
  destruct (vm_init_spec start F s v0 c) as (F' & s' & v & c' & -> & Ht & Hs & Hrep' & HF & N);
    [done..|]. split; [by apply (kernel_walk c' _ v)|]. split.
  - rewrite (kernel_walk c' _ v) by done. unfold walk_result, kernel_window.
    repeat (destruct (_ || _) || destruct (_ && _)); destruct type; eexists; reflexivity.
  - exists F'. split; [done|]. rewrite HF, size_union.
    + pose proof (size_list_to_set (C := gset Z) _ (kt_distinct _ _ Ht)) as H3.
      rewrite !list_to_set_cons, list_to_set_nil, (right_id_L ∅ (∪)), (assoc_L (∪)) in H3.
      rewrite H3. simpl. lia.
    + destruct N as (N1 & N2 & N3). clear - N1 N2 N3. set_solver.
Qed.

Lemma vm_init_maps_witness :
  let '(s', v, c') := vm_init demo_mem (MkVm 0 0 0) ∅ in
  (translate c' (ram s') 0x80200004 Instruction Supervisor).1 = inr 0x80200004.
Proof.
  pose proof (vm_init_maps 0x80300000 (heap_pages 0x80300000) demo_mem (MkVm 0 0 0) ∅
    0x80200004 Instruction demo_mem_rep) as H.
  destruct (vm_init demo_mem (MkVm 0 0 0) ∅) as [[s' v] c'].
  destruct H as [H _]; [|split; by vm_compute|exact H].
  apply Nat2Z.inj_le. rewrite <- (rep_count _ _ _ demo_mem_rep). by vm_compute.
Defined.
