(* ===== verification/Device.v ===== *)
(** * The emulator's bus and devices (cemu/src/bus.cpp, dram.cpp, clint.cpp, plic.cpp,
    uart.cpp, block_device.cpp, exception.cpp)

    [bus] holds the state of every device.  A device operation either returns or
    throws an [Exception]; DRAM and the disk are byte maps in which bytes never
    written are zero, as the C++ vectors are.  The thread that reads standard input
    is the step [uart_receive]; what the console prints is collected in
    [uart_out].  Not modelled: the terminal settings and the host file the disk is
    written back to. *)

From S2P Require Import Prelude Csr Mem Vm.

Definition CLINT_SIZE : Z := 0x10000.
Definition CLINT_MTIMECMP : Z := CLINT_BASE + 0x4000.
Definition CLINT_MTIME : Z := CLINT_BASE + 0xbff8.
Definition PLIC_SIZE : Z := 0x4000000.
Definition PLIC_PENDING : Z := PLIC_BASE + 0x1000.
Definition PLIC_SENABLE : Z := PLIC_BASE + 0x2000.
Definition PLIC_SPRIORITY : Z := PLIC_BASE + 0x201000.
Definition PLIC_SCLAIM : Z := PLIC_BASE + 0x201004.
Definition UART_SIZE : Z := 0x100.
Definition UART_RHR : Z := 0.
Definition UART_THR : Z := 0.
Definition UART_LSR : Z := 5.
Definition MASK_UART_LSR_RX : Z := 1.
Definition MASK_UART_LSR_TX : Z := Z.shiftl 1 5.
Definition TEST_FINISH : Z := 0x100000.
Definition TEST_FINISH_SIZE : Z := 0x100.
Definition BLOCK_BASE : Z := 0x10001000.
Definition BLOCK_SIZE : Z := 0x300.
Definition BLOCK_SECTOR_SIZE : Z := 512.
Definition BLOCK_SECTOR_COUNT : Z := 16384.

Definition valid_size (size : Z) : bool := (size =? 8) || (size =? 16) || (size =? 32) || (size =? 64).
Definition size_bytes (size : Z) : nat := Z.to_nat (size / 8).

(** ** Exceptions *)

(** The C++ enumerators are numbered in their order. *)
Definition exception_code (t : ExceptionType) : Z :=
  match t with
  | InstructionAddrMisaligned => 0 | InstructionAccessFault => 1 | IllegalInstruction => 2
  | Breakpoint => 3 | LoadAccessMisaligned => 4 | LoadAccessFault => 5
  | StoreAMOAddrMisaligned => 6 | StoreAMOAccessFault => 7 | EnvironmentCallFromUMode => 8
  | EnvironmentCallFromSMode => 9 | EnvironmentCallFromMMode => 10
  | InstructionPageFault => 11 | LoadPageFault => 12 | StoreAMOPageFault => 13
  end.

Definition isFatal (t : ExceptionType) : bool :=
  match t with
  | InstructionAddrMisaligned | InstructionAccessFault | LoadAccessFault
  | StoreAMOAddrMisaligned | StoreAMOAccessFault | IllegalInstruction => true
  | _ => false
  end.

(** ** DRAM *)

Module Dram.
Definition load (m : ram_t) (addr size : Z) : Exception + Z :=
  if negb (valid_size size) then inl (Exc LoadAccessFault addr)
  else if DRAM_SIZE <? u64 (u64 (addr - DRAM_BASE) + size / 8) then inl (Exc LoadAccessFault addr)
  else inr (le_decode (load_bytes m addr (size_bytes size))).

Definition store (addr size value : Z) (m : ram_t) : Exception + ram_t :=
  if negb (valid_size size) then inl (Exc StoreAMOAccessFault addr)
  else if DRAM_SIZE <? u64 (u64 (addr - DRAM_BASE) + size / 8) then inl (Exc StoreAMOAccessFault addr)
  else inr (store_bytes m addr (le_encode (size_bytes size) value)).
End Dram.

(** ** CLINT *)

Record clint := MkClint { mtime : Z; mtimecmp : Z }.
#[global] Instance clint_eta : Settable clint := λ c, MkClint (mtime c) (mtimecmp c).

Module Clint.
Definition load (c : clint) (addr size : Z) : Exception + Z :=
  if negb (size =? 64) then inl (Exc LoadAccessFault addr)
  else if addr =? CLINT_MTIMECMP then inr (mtimecmp c)
  else if addr =? CLINT_MTIME then inr (mtime c)
  else inl (Exc LoadAccessFault addr).

Definition store (addr size value : Z) (c : clint) : Exception + clint :=
  if negb (size =? 64) then inl (Exc StoreAMOAccessFault addr)
  else if addr =? CLINT_MTIMECMP then inr (c <| mtimecmp := value |>)
  else if addr =? CLINT_MTIME then inr (c <| mtime := value |>)
  else inl (Exc StoreAMOAccessFault addr).

(** Whether the timer interrupt is to be pending. *)
Definition tick (increment : Z) (c : clint) : bool * clint :=
  let c := c <| mtime := u64 (mtime c + increment) |> in (mtimecmp c <=? mtime c, c).
End Clint.

(** ** PLIC *)

Record plic := MkPlic { pending : Z; senable : Z; spriority : Z; sclaim : Z }.
#[global] Instance plic_eta : Settable plic := λ p, MkPlic (pending p) (senable p) (spriority p) (sclaim p).

Module Plic.
Definition load (p : plic) (addr size : Z) : Exception + Z :=
  if negb (size =? 32) then inl (Exc LoadAccessFault addr)
  else inr (if addr =? PLIC_PENDING then pending p
            else if addr =? PLIC_SENABLE then senable p
            else if addr =? PLIC_SPRIORITY then spriority p
            else if addr =? PLIC_SCLAIM then sclaim p else 0).

Definition store (addr size value : Z) (p : plic) : Exception + plic :=
  if negb (size =? 32) then inl (Exc StoreAMOAccessFault addr)
  else inr (if addr =? PLIC_PENDING then p <| pending := value |>
            else if addr =? PLIC_SENABLE then p <| senable := value |>
            else if addr =? PLIC_SPRIORITY then p <| spriority := value |>
            else if addr =? PLIC_SCLAIM then p <| sclaim := value |> else p).
End Plic.

(** ** UART *)

Record uart := MkUart { uart_regs : list Z; uart_interrupt : bool; uart_out : list Z }.
#[global] Instance uart_eta : Settable uart := λ u, MkUart (uart_regs u) (uart_interrupt u) (uart_out u).

Module Uart.
Definition init : uart := MkUart (aset (replicate 256 0) UART_LSR MASK_UART_LSR_TX) false [].
Definition lsr (u : uart) : Z := aget 0 (uart_regs u) UART_LSR.

(** The listener thread stores a byte once the last one has been taken. *)
Definition uart_receive (b : Z) (u : uart) : option uart :=
  if Z.land (lsr u) MASK_UART_LSR_RX =? 1 then None
  else
    let u := u <| uart_regs := aset (uart_regs u) UART_RHR b |> <| uart_interrupt := true |> in
    Some (u <| uart_regs := aset (uart_regs u) UART_LSR (Z.lor (lsr u) MASK_UART_LSR_RX) |>).

Definition is_interrupting (u : uart) : bool * uart :=
  (uart_interrupt u, u <| uart_interrupt := false |>).

Definition load (addr size : Z) (u : uart) : (Exception + Z) * uart :=
  if negb (size =? 8) then (inl (Exc LoadAccessFault addr), u)
  else
    let index := u64 (addr - UART_BASE) in
    if index =? UART_RHR then
      let u := u <| uart_regs := aset (uart_regs u) UART_LSR
                      (u8 (Z.land (lsr u) (Z.lnot MASK_UART_LSR_RX))) |> in
      (inr (aget 0 (uart_regs u) UART_RHR), u)
    else (inr (aget 0 (uart_regs u) index), u).

Definition store (addr size value : Z) (u : uart) : Exception + uart :=
  if negb (size =? 8) then inl (Exc StoreAMOAccessFault addr)
  else
    let index := u64 (addr - UART_BASE) in
    if index =? UART_THR then inr (u <| uart_out := uart_out u ++ [u8 value] |>)
    else inr (u <| uart_regs := aset (uart_regs u) index (u8 value) |>).
End Uart.

(** ** Block device *)

Record block_device := MkBlock { storage : ram_t; window : list Z; sector : Z; status : Z }.
#[global] Instance block_device_eta : Settable block_device := λ b,
  MkBlock (storage b) (window b) (sector b) (status b).

Module BlockDevice.
Definition REG_SECTOR : Z := 0x00.
Definition REG_COMMAND : Z := 0x08.
Definition REG_STATUS : Z := 0x0c.
Definition DATA_WINDOW : Z := 0x100.
Definition CMD_READ : Z := 1.
Definition CMD_WRITE : Z := 2.
Definition STATUS_READY : Z := 0.
Definition STATUS_ERROR : Z := 1.

Definition init (disk : ram_t) : block_device := MkBlock disk (replicate 512 0) 0 0.

Definition read_le (data : list Z) (offset size : Z) : Z :=
  le_decode (slice offset (size / 8) data).
Definition write_le (offset size value : Z) (data : list Z) : list Z :=
  splice offset (le_encode (size_bytes size) value) data.

Definition load (b : block_device) (addr size : Z) : Exception + Z :=
  if negb (valid_size size) then inl (Exc LoadAccessFault addr)
  else
    let offset := u64 (addr - BLOCK_BASE) in
    if (offset =? REG_SECTOR) && (size =? 64) then inr (sector b)
    else if (offset =? REG_STATUS) && (size =? 32) then inr (status b)
    else if (DATA_WINDOW <=? offset) && (offset - DATA_WINDOW + size / 8 <=? 512)
    then inr (read_le (window b) (offset - DATA_WINDOW) size)
    else inl (Exc LoadAccessFault addr).

(** Sector number [sector] of the disk. *)
Definition sector_bytes (b : block_device) : list Z :=
  load_bytes (storage b) (sector b * BLOCK_SECTOR_SIZE) 512.

Definition execute (command : Z) (b : block_device) : block_device :=
  if BLOCK_SECTOR_COUNT <=? sector b then b <| status := STATUS_ERROR |>
  else if command =? CMD_READ then b <| window := sector_bytes b |> <| status := STATUS_READY |>
  else if command =? CMD_WRITE then
    b <| storage := store_bytes (storage b) (sector b * BLOCK_SECTOR_SIZE) (window b) |>
      <| status := STATUS_READY |>
  else b <| status := STATUS_ERROR |>.

Definition store (addr size value : Z) (b : block_device) : Exception + block_device :=
  if negb (valid_size size) then inl (Exc StoreAMOAccessFault addr)
  else
    let offset := u64 (addr - BLOCK_BASE) in
    if (offset =? REG_SECTOR) && (size =? 64) then inr (b <| sector := value |>)
    else if (offset =? REG_COMMAND) && (size =? 32) then inr (execute (u32 value) b)
    else if (DATA_WINDOW <=? offset) && (offset - DATA_WINDOW + size / 8 <=? 512)
    then inr (b <| window := write_le (offset - DATA_WINDOW) size value (window b) |>)
    else inl (Exc StoreAMOAccessFault addr).
End BlockDevice.

(** ** The bus *)

Record bus := MkBus {
  dram : ram_t;
  bus_uart : uart;
  bus_clint : clint;
  bus_plic : plic;
  block : block_device;
  halted : bool;
}.
#[global] Instance bus_eta : Settable bus := λ b,
  MkBus (dram b) (bus_uart b) (bus_clint b) (bus_plic b) (block b) (halted b).

Module Bus.
Definition in_range (addr base size : Z) : bool := (base <=? addr) && (addr <=? base + size - 1).

Definition load (addr size : Z) (b : bus) : (Exception + Z) * bus :=
  if in_range addr DRAM_BASE DRAM_SIZE then (Dram.load (dram b) addr size, b)
  else if in_range addr UART_BASE UART_SIZE then
    let '(r, u) := Uart.load addr size (bus_uart b) in (r, b <| bus_uart := u |>)
  else if in_range addr CLINT_BASE CLINT_SIZE then (Clint.load (bus_clint b) addr size, b)
  else if in_range addr PLIC_BASE PLIC_SIZE then (Plic.load (bus_plic b) addr size, b)
  else if in_range addr TEST_FINISH TEST_FINISH_SIZE then (inr (if halted b then 1 else 0), b)
  else if in_range addr BLOCK_BASE BLOCK_SIZE then (BlockDevice.load (block b) addr size, b)
  else (inl (Exc LoadAccessFault addr), b).

Definition store (addr size value : Z) (b : bus) : Exception + bus :=
  if in_range addr DRAM_BASE DRAM_SIZE then
    match Dram.store addr size value (dram b) with inl e => inl e | inr m => inr (b <| dram := m |>) end
  else if in_range addr UART_BASE UART_SIZE then
    match Uart.store addr size value (bus_uart b) with inl e => inl e | inr u => inr (b <| bus_uart := u |>) end
  else if in_range addr CLINT_BASE CLINT_SIZE then
    match Clint.store addr size value (bus_clint b) with inl e => inl e | inr c => inr (b <| bus_clint := c |>) end
  else if in_range addr PLIC_BASE PLIC_SIZE then
    match Plic.store addr size value (bus_plic b) with inl e => inl e | inr p => inr (b <| bus_plic := p |>) end
  else if in_range addr TEST_FINISH TEST_FINISH_SIZE then inr (b <| halted := true |>)
  else if in_range addr BLOCK_BASE BLOCK_SIZE then
    match BlockDevice.store addr size value (block b) with inl e => inl e | inr d => inr (b <| block := d |>) end
  else inl (Exc StoreAMOAccessFault addr).
End Bus.
