(* ===== verification/Console.v ===== *)
(** * Console: the UART driver, printk and the memory functions (os/kernel/uart.c,
    platform/cemu/platform_uart.c, printk.c, string.c)

    The driver runs over the registers of the emulated UART ([Device.Uart]).  A poll
    that fails is repeated; while the driver waits the listener thread may store a
    key, so a wait takes the list of keys that arrive between its polls.  [printk]
    returns the characters it prints, [None] where C leaves the call undefined (a
    missing or wrong argument, a format that ends in a percent sign, the negation of
    the least integer). *)

From S2P Require Import Prelude Csr Mem Vm Device.

(** ** platform_uart.c *)

Definition UART_LSR_TX_EMPTY : Z := Z.shiftl 1 5.
Definition UART_LSR_RX_READY : Z := 1.

Definition uart_reg (offset : Z) (u : uart) : option Z * uart :=
  match Uart.load (UART_BASE + offset) 8 u with
  | (inr v, u) => (Some v, u)
  | (inl _, u) => (None, u)
  end.

Fixpoint platform_uart_putc (fuel : nat) (c : Z) (u : uart) : option uart :=
  match fuel with
  | O => None
  | S fuel =>
      match uart_reg UART_LSR u with
      | (None, _) => None
      | (Some lsr, u) =>
          if Z.land lsr UART_LSR_TX_EMPTY =? 0 then platform_uart_putc fuel c u
          else match Uart.store (UART_BASE + UART_THR) 8 (u8 c) u with inr u => Some u | inl _ => None end
      end
  end.

Definition platform_uart_getc_nonblock (u : uart) : option Z * uart :=
  match uart_reg UART_LSR u with
  | (None, u) => (None, u)
  | (Some lsr, u) => if negb (Z.land lsr UART_LSR_RX_READY =? 0) then uart_reg UART_RHR u else (Some (-1), u)
  end.

(** ** uart.c *)

Record console := MkConsole { peek_char : Z; device : uart }.
#[global] Instance console_eta : Settable console := λ c, MkConsole (peek_char c) (device c).
Definition console_init : console := MkConsole (-1) Uart.init.

Definition uart_putc (c : Z) (s : console) : option console :=
  (λ u, s <| device := u |>) <$> platform_uart_putc 1 c (device s).

Fixpoint uart_puts (str : list Z) (s : console) : option console :=
  match str with
  | [] => Some s
  | c :: str => match uart_putc c s with Some s => uart_puts str s | None => None end
  end.

Definition uart_has_data (s : console) : option bool * console :=
  if 0 <=? peek_char s then (Some true, s)
  else
    match platform_uart_getc_nonblock (device s) with
    | (None, u) => (None, s <| device := u |>)
    | (Some ch, u) =>
        let s := s <| device := u |> in
        if 0 <=? ch then (Some true, s <| peek_char := ch |>) else (Some false, s)
    end.

(** A key is delivered unless the last one was not taken yet ([stdin_listener]
    waits then). *)
Definition deliver (key : option Z) (s : console) : console :=
  match key with
  | None => s
  | Some b => match Uart.uart_receive b (device s) with Some u => s <| device := u |> | None => s end
  end.

(** [arrivals]: what the listener delivers before each further poll; [None] when
    they are used up and the driver still waits. *)
Fixpoint uart_poll (arrivals : list (option Z)) (s : console) : option Z * console :=
  match platform_uart_getc_nonblock (device s) with
  | (None, u) => (None, s <| device := u |>)
  | (Some ch, u) =>
      let s := s <| device := u |> in
      if 0 <=? ch then (Some ch, s)
      else match arrivals with
           | [] => (None, s)
           | key :: arrivals => uart_poll arrivals (deliver key s)
           end
  end.

Definition uart_getc (arrivals : list (option Z)) (s : console) : option Z * console :=
  if 0 <=? peek_char s then (Some (u8 (peek_char s)), s <| peek_char := -1 |>)
  else let '(c, s) := uart_poll arrivals s in (u8 <$> c, s).

(** ** printk.c *)

Definition hex_digits : list Z := [48; 49; 50; 51; 52; 53; 54; 55; 56; 57; 97; 98; 99; 100; 101; 102].

Fixpoint hex_loop (n : nat) (leading : bool) (val : Z) : list Z :=
  match n with
  | O => []
  | S i =>
      let c := aget 0 hex_digits (Z.land (Z.shiftr val (Z.of_nat i * 4)) 0xf) in
      let leading := if negb (c =? 48) then false else leading in
      if negb leading || (Z.of_nat i =? 0) then c :: hex_loop i leading val else hex_loop i leading val
  end.
Definition print_hex (val : Z) : list Z := [48; 120] ++ hex_loop 16 true val.

Definition powers : list Z := [1000000000; 100000000; 10000000; 1000000; 100000; 10000; 1000; 100; 10; 1].

(** [while (val >= p) { val -= p; digit++; }] *)
Fixpoint digit_loop (fuel : nat) (val p digit : Z) : Z * Z :=
  match fuel with
  | O => (val, digit)
  | S fuel => if p <=? val then digit_loop fuel (val - p) p (digit + 1) else (val, digit)
  end.

Fixpoint dec_loop (powers : list Z) (started : bool) (val : Z) : list Z :=
  match powers with
  | [] => []
  | p :: powers =>
      let '(val, digit) := digit_loop 10 val p 48 in
      if negb (digit =? 48) || started || (p =? 1) then digit :: dec_loop powers true val
      else dec_loop powers started val
  end.
Definition print_dec (val : Z) : list Z := dec_loop powers false val.

Inductive va := VaStr (s : option (list Z)) | VaInt (z : Z) | VaUint (z : Z) | VaLong (z : Z) | VaUlong (z : Z).

Definition str_null : list Z := [40; 110; 117; 108; 108; 41].

(** A signed number: the sign and the negated value, converted to [uint32_t]. *)
Definition print_signed (least z : Z) : option (list Z) :=
  if z <? 0 then (if z =? least then None else Some (45 :: print_dec (u32 (- z)))) else Some (print_dec (u32 z)).

(** The conversion [d] (of [%l] when [long]) applied to the first argument. *)
Definition convert (long : bool) (d : Z) (args : list va) : option (list Z * list va) :=
  if long then
    if d =? 120 then match args with VaUlong v :: args => Some (print_hex v, args) | _ => None end
    else if d =? 100 then
      match args with VaLong z :: args => (λ o, (o, args)) <$> print_signed (- 2 ^ 63) z | _ => None end
    else Some ([], args)
  else if d =? 115 then match args with VaStr s :: args => Some (default str_null s, args) | _ => None end
  else if d =? 100 then
    match args with VaInt z :: args => (λ o, (o, args)) <$> print_signed (- 2 ^ 31) z | _ => None end
  else if d =? 117 then match args with VaUint u :: args => Some (print_dec u, args) | _ => None end
  else if d =? 120 then match args with VaUint x :: args => Some (print_hex x, args) | _ => None end
  else if d =? 99 then match args with VaInt c :: args => Some ([u8 c], args) | _ => None end
  else if d =? 37 then Some ([37], args)
  else Some ([37; d], args).

Fixpoint printk (fmt : list Z) (args : list va) : option (list Z) :=
  match fmt with
  | [] => Some []
  | c :: fmt =>
      if negb (c =? 37) then cons c <$> printk fmt args
      else
        match fmt with
        | [] => None
        | d :: fmt =>
            if d =? 108 then
              match fmt with
              | [] => None
              | e :: fmt =>
                  match convert true e args with
                  | Some (out, args) => app out <$> printk fmt args
                  | None => None
                  end
              end
            else
              match convert false d args with
              | Some (out, args) => app out <$> printk fmt args
              | None => None
              end
        end
  end.

(** ** string.c *)

Definition memcpy (dst src length : Z) (m : ram_t) : ram_t :=
  fold_for (Z.to_nat length) 0 (λ i m, <[dst + i := load8 m (src + i)]> m) m.

Definition memset (dst value length : Z) (m : ram_t) : ram_t :=
  fold_for (Z.to_nat length) 0 (λ i m, <[dst + i := u8 value]> m) m.

(** The loop that counts down from [length]. *)
Fixpoint copy_down (n : nat) (dst src : Z) (m : ram_t) : ram_t :=
  match n with
  | O => m
  | S i => copy_down i dst src (<[dst + Z.of_nat i := load8 m (src + Z.of_nat i)]> m)
  end.

Definition memmove (dst src length : Z) (m : ram_t) : ram_t :=
  if dst <? src then fold_for (Z.to_nat length) 0 (λ i m, <[dst + i := load8 m (src + i)]> m) m
  else if src <? dst then copy_down (Z.to_nat length) dst src m
  else m.

(** ** The input queue *)

Lemma land_bit x k : 0 ≤ k → Z.land x (2 ^ k) = if Z.testbit x k then 2 ^ k else 0.
Proof.
  intros Hk. apply Z.bits_inj'. intros n Hn. rewrite Z.land_spec, Z.pow2_bits_eqb by lia.
  destruct (Z.eqb_spec k n) as [->|Hne].
  - destruct (Z.testbit x n) eqn:E; [by rewrite Z.pow2_bits_true by lia|by rewrite Z.bits_0].
  - rewrite andb_false_r. destruct (Z.testbit x k); [by rewrite Z.pow2_bits_false|by rewrite Z.bits_0].
Qed.

Definition rx_ready (u : uart) : bool := Z.testbit (Uart.lsr u) 0.
Definition rhr (u : uart) : Z := aget 0 (uart_regs u) UART_RHR.

#[local] Arguments rx_ready : simpl never.
#[local] Arguments rhr : simpl never.

(** The transmitter is always empty: the bit is set when the device is made and
    nothing clears it, so the wait of [platform_uart_putc] ends at its first poll. *)
Record console_ok (s : console) : Prop := {
  co_len : length (uart_regs (device s)) = 256%nat;
  co_bytes : bytes (uart_regs (device s));
  co_tx : Z.testbit (Uart.lsr (device s)) 5 = true;
  co_peek : -1 ≤ peek_char s < 256;
}.

(** The keys the listener has stored and the kernel has not taken, oldest first. *)
Definition pending (s : console) : list Z :=
  (if 0 <=? peek_char s then [peek_char s] else []) ++ (if rx_ready (device s) then [rhr (device s)] else []).

Lemma lsr_byte s : console_ok s → is_u8 (Uart.lsr (device s)).
Proof.
  intros Hc. unfold Uart.lsr. eapply (Forall_lookup_1 (λ b, is_u8 b)); [apply Hc|].
  apply lookup_aget. rewrite (co_len _ Hc). unfold UART_LSR. lia.
Qed.

Lemma rhr_byte s : console_ok s → is_u8 (rhr (device s)).
Proof.
  intros Hc. unfold rhr. eapply (Forall_lookup_1 (λ b, is_u8 b)); [apply Hc|].
  apply lookup_aget. rewrite (co_len _ Hc). unfold UART_RHR. lia.
Qed.

Lemma uart_reg_lsr u : uart_reg UART_LSR u = (Some (Uart.lsr u), u).
Proof. reflexivity. Qed.

(** Taking the key clears the ready bit and no other. *)
Definition taken (u : uart) : uart :=
  u <| uart_regs := aset (uart_regs u) UART_LSR (u8 (Z.land (Uart.lsr u) (Z.lnot MASK_UART_LSR_RX))) |>.

Lemma uart_reg_rhr u : uart_reg UART_RHR u = (Some (aget 0 (uart_regs (taken u)) UART_RHR), taken u).
Proof. reflexivity. Qed.

Lemma taken_bits l n : is_u8 l → 0 ≤ n → Z.testbit (u8 (Z.land l (Z.lnot MASK_UART_LSR_RX))) n = Z.testbit l n && negb (n =? 0).
Proof.
  intros Hl Hn. unfold u8. destruct (decide (n < 8)) as [H8|H8].
  - rewrite Z.mod_pow2_bits_low by lia. rewrite Z.land_spec, Z.lnot_spec by lia. do 2 f_equal.
  - rewrite Z.mod_pow2_bits_high by lia. replace (Z.testbit l n) with false; [done|].
    symmetry. rewrite <- (Z.mod_small l (2 ^ 8)) by lia. apply Z.mod_pow2_bits_high. lia.
Qed.

Lemma take_ok s :
  console_ok s → rx_ready (device s) = true →
  let s' := s <| device := taken (device s) |> in
  console_ok s' ∧ aget 0 (uart_regs (taken (device s))) UART_RHR = rhr (device s) ∧
  rx_ready (device s') = false ∧ uart_out (device s') = uart_out (device s).
Proof.
  intros Hc Hr s'. pose proof (lsr_byte s Hc) as Hl. pose proof (co_len _ Hc) as Hlen.
  assert (Uart.lsr (taken (device s)) = u8 (Z.land (Uart.lsr (device s)) (Z.lnot MASK_UART_LSR_RX))) as E.
  { unfold Uart.lsr at 1, taken. apply aget_aset_eq. unfold UART_LSR. lia. }
  split; [|split; [|split; [|done]]].
  - split; [etrans; [apply length_aset|done]| | |apply Hc].
    + apply Forall_insert; [apply Hc|]. unfold u8. apply Z.mod_pos_bound. lia.
    + change (device s') with (taken (device s)). rewrite E, taken_bits by (done || lia). by rewrite (co_tx _ Hc).
  - unfold rhr, taken. apply aget_aset_ne; unfold UART_LSR, UART_RHR; lia.
  - change (device s') with (taken (device s)). unfold rx_ready. rewrite E, taken_bits by (done || lia). apply andb_false_r.
Qed.

(** One poll: the stored key, if there is one. *)
Lemma poll_ok s :
  console_ok s →
  ∃ u, platform_uart_getc_nonblock (device s) =
    (Some (if rx_ready (device s) then rhr (device s) else -1), u) ∧
    console_ok (s <| device := u |>) ∧ rx_ready u = false ∧ uart_out u = uart_out (device s).
Proof.
  intros Hc. unfold platform_uart_getc_nonblock. rewrite uart_reg_lsr.
  change UART_LSR_RX_READY with (2 ^ 0). rewrite land_bit by lia. fold (rx_ready (device s)).
  destruct (rx_ready (device s)) eqn:E; cbn [negb Z.pow Z.eqb].
  - rewrite uart_reg_rhr. destruct (take_ok s Hc E) as (H1 & H2 & H3 & H4). rewrite H2. eexists. by split.
  - exists (device s). split; [done|]. by destruct s.
Qed.

Lemma deliver_ok s b :
  console_ok s → is_u8 b →
  console_ok (deliver (Some b) s) ∧ uart_out (device (deliver (Some b) s)) = uart_out (device s) ∧
  pending (deliver (Some b) s) = if rx_ready (device s) then pending s else pending s ++ [b].
Proof.
  intros Hc Hb. unfold deliver, Uart.uart_receive. change MASK_UART_LSR_RX with (2 ^ 0). rewrite land_bit by lia.
  fold (rx_ready (device s)). destruct (rx_ready (device s)) eqn:E; cbn [Z.pow Z.eqb]; [done|].
  set (u1 := (device s) <| uart_regs := aset (uart_regs (device s)) UART_RHR b |> <| uart_interrupt := true |>).
  set (u2 := u1 <| uart_regs := _ |>). pose proof (co_len _ Hc) as Hlen. pose proof (lsr_byte s Hc) as Hl.
  assert (Uart.lsr u1 = Uart.lsr (device s)) as E1.
  { unfold Uart.lsr, u1. cbn [uart_regs]. apply aget_aset_ne; unfold UART_LSR, UART_RHR; lia. }
  assert (Uart.lsr u2 = Z.lor (Uart.lsr (device s)) (2 ^ 0)) as E2.
  { unfold Uart.lsr at 1. etrans; [apply (aget_aset_eq 0 (uart_regs u1) UART_LSR)|by rewrite E1].
    unfold u1. change (0 ≤ UART_LSR < Z.of_nat (length (aset (uart_regs (device s)) UART_RHR b))).
    rewrite length_aset. unfold UART_LSR. lia. }
  assert (rhr u2 = b) as E3.
  { unfold rhr. etrans; [apply (aget_aset_ne 0 (uart_regs u1) UART_LSR UART_RHR); unfold UART_LSR, UART_RHR; lia|].
    apply (aget_aset_eq 0 (uart_regs (device s)) UART_RHR). unfold UART_RHR. lia. }
  split; [|split; [done|]].
  - split; [etrans; [apply length_aset|]; etrans; [apply length_aset|done]| | |apply Hc].
    + apply Forall_insert; [apply Forall_insert; [apply Hc|done]|]. rewrite E1.
      assert (Z.lor (Uart.lsr (device s)) (2 ^ 0) = Uart.lsr (device s) + if rx_ready (device s) then 0 else 1) as ->.
      { rewrite E. symmetry. apply Z.add_nocarry_lor. rewrite land_bit by lia. fold (rx_ready (device s)). by rewrite E. }
      rewrite E. unfold rx_ready in E.
      assert (Uart.lsr (device s) ≠ 255) by (intros H255; rewrite H255 in E; done). lia.
    + change (device (s <| device := u2 |>)) with u2. rewrite E2, Z.lor_spec, (co_tx _ Hc). done.
  - unfold pending. cbn [peek_char device]. change (device (s <| device := u2 |>)) with u2. change (peek_char (s <| device := u2 |>)) with (peek_char s).
    rewrite E. assert (rx_ready u2 = true) as -> by (unfold rx_ready; rewrite E2, Z.lor_spec; apply orb_true_r).
    by rewrite E3, app_nil_r.
Qed.

Lemma has_data_ok s :
  console_ok s →
  ∃ s', uart_has_data s = (Some (negb (bool_decide (pending s = []))), s') ∧ console_ok s' ∧
    pending s' = pending s ∧ uart_out (device s') = uart_out (device s).
Proof.
  intros Hc. unfold uart_has_data, pending. destruct (0 <=? peek_char s) eqn:E.
  { exists s. rewrite E. by split_and!. }
  destruct (poll_ok s Hc) as (u & -> & Hc' & Hr & Ho). cbn iota beta.
  destruct (rx_ready (device s)) eqn:Er; cbn [app].
  - pose proof (rhr_byte s Hc). rewrite (proj2 (Z.leb_le _ _)) by lia. eexists. split; [done|].
    split; [split; [apply Hc'|apply Hc'|apply Hc'|cbn; lia]|]. cbn.
    rewrite Hr, (proj2 (Z.leb_le _ _)) by lia. by split.
  - eexists. split; [done|]. split; [done|]. cbn. by rewrite E, Hr.
Qed.

Lemma getc_ok s arrivals :
  console_ok s →
  match pending s with
  | c :: rest => ∃ s', uart_getc arrivals s = (Some c, s') ∧ console_ok s' ∧ pending s' = rest ∧
                   uart_out (device s') = uart_out (device s)
  | [] => ∃ s', uart_getc [] s = (None, s') ∧ console_ok s' ∧ pending s' = [] ∧
            uart_out (device s') = uart_out (device s)
  end.
Proof.
  intros Hc. unfold pending, uart_getc. destruct (0 <=? peek_char s) eqn:E; bsimp.
  { cbn [app]. eexists. split; [unfold u8; rewrite Z.mod_small by (pose proof (co_peek _ Hc); lia); reflexivity|].
    split; [split; [apply Hc|apply Hc|apply Hc|cbn; lia]|done]. }
  destruct (poll_ok s Hc) as (u & Hp & Hc' & Hr & Ho). pose proof (rhr_byte s Hc).
  assert ((0 <=? peek_char s) = false) as E' by lia.
  destruct (rx_ready (device s)) eqn:Er; cbn [app].
  - exists (s <| device := u |>). destruct arrivals; cbn [uart_poll]; rewrite Hp; cbn iota beta;
      rewrite (proj2 (Z.leb_le _ _)) by lia; cbn; rewrite E', Hr; unfold u8; rewrite Z.mod_small by lia; done.
  - exists (s <| device := u |>). cbn [uart_poll]. rewrite Hp. cbn. by rewrite E', Hr.
Qed.

Lemma putc_ok s c :
  console_ok s →
  ∃ s', uart_putc c s = Some s' ∧ console_ok s' ∧ pending s' = pending s ∧
    uart_out (device s') = uart_out (device s) ++ [u8 c].
Proof.
  intros Hc. unfold uart_putc. cbn [platform_uart_putc]. rewrite uart_reg_lsr.
  change UART_LSR_TX_EMPTY with (2 ^ 5). rewrite land_bit by lia. rewrite (co_tx _ Hc). cbn [Z.pow Z.eqb Z.pow_pos Pos.iter Z.mul Pos.mul].
  eexists. split; [reflexivity|]. split; [split; apply Hc|]. split; [done|].
  cbn. unfold u8. by rewrite Z.mod_mod by lia.
Qed.

Lemma puts_ok s str :
  console_ok s → bytes str →
  ∃ s', uart_puts str s = Some s' ∧ console_ok s' ∧ pending s' = pending s ∧
    uart_out (device s') = uart_out (device s) ++ str.
Proof.
  intros Hc Hb. revert s Hc. induction Hb as [|c str Hcb Hb IH]; intros s Hc.
  { exists s. by rewrite app_nil_r. }
  cbn [uart_puts]. destruct (putc_ok s c Hc) as (s1 & -> & Hc1 & Hp1 & Ho1).
  destruct (IH s1 Hc1) as (s2 & -> & Hc2 & Hp2 & Ho2). exists s2. split; [done|]. split; [done|].
  split; [congruence|]. rewrite Ho2, Ho1. unfold u8. rewrite Z.mod_small by lia. by rewrite <- app_assoc.
Qed.

(** ** Numbers *)

(** Reading a numeral back, in base [b]. *)
Definition numeral (b : Z) (digit : Z → Z) (l : list Z) : Z := foldl (λ a c, b * a + digit c) 0 l.
Definition dec_digit (c : Z) : Z := c - 48.
Definition hex_digit (c : Z) : Z := if c <? 58 then c - 48 else c - 87.
(** No leading zero. *)
Definition canonical (l : list Z) : Prop := l = [48] ∨ ∃ c l', l = c :: l' ∧ c ≠ 48.

Lemma numeral_cons b digit c l :
  numeral b digit (c :: l) = digit c * b ^ Z.of_nat (length l) + numeral b digit l.
Proof.
  assert (∀ l a, foldl (λ a c, b * a + digit c) a l = a * b ^ Z.of_nat (length l) + numeral b digit l) as Hg.
  { clear l c. intros l. induction l as [|c l IH]; intros a; [unfold numeral; cbn; lia|]. unfold numeral. cbn [foldl length].
    rewrite (IH (b * a + _)), (IH (b * 0 + _)), Nat2Z.inj_succ, Z.pow_succ_r by lia. lia. }
  unfold numeral at 1. cbn [foldl]. rewrite Hg. lia.
Qed.

Lemma digit_loop_spec n val p d :
  0 < p → 0 ≤ val < Z.of_nat n * p → digit_loop n val p d = (val mod p, d + val / p).
Proof.
  intros Hp. revert val d. induction n as [|n IH]; intros val d Hv; [lia|]. cbn [digit_loop].
  destruct (p <=? val) eqn:E; bsimp.
  - rewrite IH by lia. replace (val mod p) with ((val - p) mod p).
    + f_equal. replace val with (val - p + 1 * p) at 2 by lia. rewrite Z.div_add by lia. lia.
    + rewrite <- (Z.mod_add (val - p) 1 p) by lia. f_equal. lia.
  - rewrite Z.mod_small, Z.div_small by lia. f_equal. lia.
Qed.

Fixpoint pows (n : nat) : list Z :=
  match n with O => [1] | S m => 10 ^ Z.of_nat (S m) :: pows m end.
Lemma powers_pows : powers = pows 9.
Proof. reflexivity. Qed.

Lemma dec_loop_step p ps started val :
  0 < p → 0 ≤ val < 10 * p →
  dec_loop (p :: ps) started val =
    if negb (val / p =? 0) || started || (p =? 1) then 48 + val / p :: dec_loop ps true (val mod p)
    else dec_loop ps started (val mod p).
Proof.
  intros Hp Hv. cbn [dec_loop]. rewrite digit_loop_spec by lia.
  replace (48 + val / p =? 48) with (val / p =? 0); [done|].
  destruct (val / p =? 0) eqn:E; symmetry; bsimp; [apply Z.eqb_eq|apply Z.eqb_neq]; lia.
Qed.

Lemma dec_loop_ok n started val :
  0 ≤ val < 10 ^ (Z.of_nat n + 1) →
  let l := dec_loop (pows n) started val in
  numeral 10 dec_digit l = val ∧ Forall (λ c, 48 ≤ c < 58) l ∧
  (started = true → length l = S n) ∧ (started = false → canonical l).
Proof.
  revert started val. induction n as [|n IH]; intros started val Hv l; subst l; cbn [pows].
  - change (10 ^ (Z.of_nat 0 + 1)) with 10 in Hv. rewrite dec_loop_step by lia. rewrite orb_true_r, Z.div_1_r.
    cbn [dec_loop]. rewrite numeral_cons. unfold numeral, dec_digit. cbn [foldl length]. split; [cbn; lia|].
    split; [repeat constructor; lia|]. split; [done|]. intros _. unfold canonical.
    destruct (decide (val = 0)) as [->|]; [by left|right]. eexists _, _. split; [done|lia].
  - assert (0 < 10 ^ Z.of_nat (S n)) as Hp by (apply Z.pow_pos_nonneg; lia).
    assert (10 ^ (Z.of_nat (S n) + 1) = 10 * 10 ^ Z.of_nat (S n)) as Ep by (rewrite Z.pow_add_r by lia; lia).
    assert (10 ^ Z.of_nat (S n) ≠ 1) as Hp1.
    { pose proof (Z.pow_gt_1 10 (Z.of_nat (S n))). lia. }
    rewrite dec_loop_step by lia. rewrite (proj2 (Z.eqb_neq _ _) Hp1), orb_false_r.
    assert (0 ≤ val mod 10 ^ Z.of_nat (S n) < 10 ^ (Z.of_nat n + 1)) as Hm.
    { replace (Z.of_nat n + 1) with (Z.of_nat (S n)) by lia. apply Z.mod_pos_bound. lia. }
    pose proof (Z.div_mod val (10 ^ Z.of_nat (S n)) ltac:(lia)) as Hdm.
    assert (0 ≤ val / 10 ^ Z.of_nat (S n) < 10) as Hd.
    { split; [apply Z.div_pos; lia|apply Z.div_lt_upper_bound; lia]. }
    destruct (negb (val / 10 ^ Z.of_nat (S n) =? 0) || started) eqn:E.
    + destruct (IH true _ Hm) as (H1 & H2 & H3 & _). specialize (H3 eq_refl).
      rewrite numeral_cons, H1, H3. unfold dec_digit at 1. split; [lia|]. split; [by constructor; [lia|]|].
      split; [cbn; lia|]. intros ->. rewrite orb_false_r in E. right. eexists _, _. split; [done|].
      apply negb_true_iff, Z.eqb_neq in E. lia.
    + apply orb_false_iff in E as [E ->]. apply negb_false_iff, Z.eqb_eq in E.
      destruct (IH false _ Hm) as (H1 & H2 & _ & H4). rewrite H1. split; [lia|]. split; [done|]. split; [done|]. auto.
Qed.

Lemma print_dec_ok v :
  is_u32 v → numeral 10 dec_digit (print_dec v) = v ∧ Forall (λ c, 48 ≤ c < 58) (print_dec v) ∧ canonical (print_dec v).
Proof.
  intros Hv. unfold print_dec. rewrite powers_pows. destruct (dec_loop_ok 9 false v) as (H1 & H2 & _ & H4); [lia|]. auto.
Qed.

Lemma hex_nibble val i :
  0 ≤ val → 0 ≤ i →
  let c := aget 0 hex_digits (Z.land (Z.shiftr val (i * 4)) 0xf) in
  hex_digit c = val / 16 ^ i mod 16 ∧ (c = 48 ↔ val / 16 ^ i mod 16 = 0).
Proof.
  intros Hv Hi. change 15 with (Z.ones 4). rewrite Z.land_ones, Z.shiftr_div_pow2 by lia.
  replace (2 ^ (i * 4)) with (16 ^ i) by (rewrite Z.mul_comm, Z.pow_mul_r by lia; done).
  change (2 ^ 4) with 16. pose proof (Z.mod_pos_bound (val / 16 ^ i) 16 ltac:(lia)) as Hb.
  revert Hb. generalize (val / 16 ^ i mod 16). intros d Hd.
  assert (d = 0 ∨ d = 1 ∨ d = 2 ∨ d = 3 ∨ d = 4 ∨ d = 5 ∨ d = 6 ∨ d = 7 ∨ d = 8 ∨ d = 9 ∨ d = 10 ∨ d = 11 ∨
    d = 12 ∨ d = 13 ∨ d = 14 ∨ d = 15) as Hc by lia.
  repeat (destruct Hc as [->|Hc]; [by split|]). subst d. by split.
Qed.

Lemma hex_loop_ok n leading val :
  0 ≤ val →
  let l := hex_loop n leading val in
  numeral 16 hex_digit l = val mod 16 ^ Z.of_nat n ∧ (leading = false → length l = n) ∧
  (leading = true → n ≠ 0%nat → canonical l).
Proof.
  intros Hv. revert leading. induction n as [|i IH]; intros leading l; subst l.
  { cbn. by rewrite Z.mod_1_r. }
  cbn [hex_loop]. destruct (hex_nibble val (Z.of_nat i) Hv ltac:(lia)) as [Hd Hz].
  set (c := aget 0 hex_digits _) in *.
  assert (val mod 16 ^ Z.of_nat (S i) = (val / 16 ^ Z.of_nat i mod 16) * 16 ^ Z.of_nat i + val mod 16 ^ Z.of_nat i) as Ev.
  { rewrite Nat2Z.inj_succ, Z.pow_succ_r, Z.mul_comm by lia. rewrite Z.rem_mul_r; lia. }
  destruct (c =? 48) eqn:Ec; cbn [negb orb]; bsimp.
  - assert (val / 16 ^ Z.of_nat i mod 16 = 0) as E0 by by apply Hz. rewrite E0 in *.
    destruct (negb leading || (Z.of_nat i =? 0)) eqn:E.
    + destruct (IH leading) as (H1 & H2 & _). split; [|split].
      * rewrite numeral_cons, Hd, H1. rewrite Ev. lia.
      * intros ->. cbn. by rewrite H2.
      * intros -> _. cbn [negb orb] in E. bsimp. assert (i = 0%nat) as -> by lia. left. by rewrite Ec.
    + apply orb_false_iff in E as [E Ei]. apply negb_false_iff in E. subst leading. bsimp.
      destruct (IH true) as (H1 & _ & H3). split; [rewrite H1; lia|]. split; [done|]. intros _ _. apply H3; lia.
  - destruct (IH false) as (H1 & H2 & _). split; [|split].
    + rewrite numeral_cons, Hd, H1, (H2 eq_refl). lia.
    + intros _. cbn. by rewrite H2.
    + intros _ _. right. by eexists _, _.
Qed.

Lemma print_hex_ok v :
  is_u64 v → ∃ l, print_hex v = 48 :: 120 :: l ∧ numeral 16 hex_digit l = v ∧ canonical l.
Proof.
  intros Hv. exists (hex_loop 16 true v). split; [done|]. destruct (hex_loop_ok 16 true v) as (H1 & _ & H3); [lia|].
  split; [|by apply H3]. rewrite H1. apply Z.mod_small. split; [lia|]. change (16 ^ Z.of_nat 16) with (2 ^ 64). lia.
Qed.

(** ** Memory functions *)

Lemma load8_insert m a v x : load8 (<[a := v]> m) x = if decide (x = a) then v else load8 m x.
Proof. unfold load8. case_decide as E; [subst; by rewrite lookup_insert_eq|by rewrite lookup_insert_ne]. Qed.

(** Copying upwards is right when no source byte is overwritten before it is read. *)
Lemma copy_up_ok n dst src m x :
  dst ≤ src ∨ src + Z.of_nat n ≤ dst →
  load8 (fold_for n 0 (λ i m, <[dst + i := load8 m (src + i)]> m) m) x =
    if decide (dst ≤ x < dst + Z.of_nat n) then load8 m (src + (x - dst)) else load8 m x.
Proof.
  intros Hd.
  pose (I := λ (j : Z) (m' : ram_t), ∀ x,
    load8 m' x = if decide (dst ≤ x < dst + j) then load8 m (src + (x - dst)) else load8 m x).
  assert (I (0 + Z.of_nat n) (fold_for n 0 (λ i m, <[dst + i := load8 m (src + i)]> m) m)) as Hi.
  { apply fold_for_ind; unfold I.
    - intros y. by rewrite decide_False by lia.
    - intros j m' Hj Hm y. rewrite load8_insert, !Hm. destruct (decide (y = dst + j)) as [->|Hne].
      + rewrite (decide_False (P := dst ≤ src + j < dst + j)), decide_True by lia. f_equal. lia.
      + destruct (decide (dst ≤ y < dst + j)); [by rewrite decide_True by lia|by rewrite decide_False by lia]. }
  apply Hi.
Qed.

Lemma copy_down_ok n dst src m x :
  src ≤ dst →
  load8 (copy_down n dst src m) x =
    if decide (dst ≤ x < dst + Z.of_nat n) then load8 m (src + (x - dst)) else load8 m x.
Proof.
  intros Hd. revert m. induction n as [|i IH]; intros m; cbn [copy_down]; [by rewrite decide_False by lia|].
  rewrite IH, !load8_insert. destruct (decide (dst ≤ x < dst + Z.of_nat i)).
  - rewrite (decide_False (P := _ = _)), decide_True by lia. done.
  - destruct (decide (x = dst + Z.of_nat i)) as [->|]; [|by rewrite decide_False by lia].
    rewrite decide_True by lia. f_equal. lia.
Qed.

(** The three functions, [memmove] for any overlap. *)
Lemma memmove_ok dst src length m x :
  0 ≤ length →
  load8 (memmove dst src length m) x =
    if decide (dst ≤ x < dst + length) then load8 m (src + (x - dst)) else load8 m x.
Proof.
  intros Hl. unfold memmove. destruct (dst <? src) eqn:E; bsimp.
  { rewrite copy_up_ok by lia. by rewrite Z2Nat.id by lia. }
  destruct (src <? dst) eqn:E'; bsimp; [rewrite copy_down_ok by lia; by rewrite Z2Nat.id by lia|].
  case_decide; [|done]. f_equal. lia.
Qed.

Lemma memcpy_ok dst src length m x :
  0 ≤ length → dst ≤ src ∨ src + length ≤ dst →
  load8 (memcpy dst src length m) x =
    if decide (dst ≤ x < dst + length) then load8 m (src + (x - dst)) else load8 m x.
Proof. intros Hl Hd. unfold memcpy. rewrite copy_up_ok by lia. by rewrite Z2Nat.id by lia. Qed.

Lemma memset_ok dst value length m x :
  0 ≤ length →
  load8 (memset dst value length m) x = if decide (dst ≤ x < dst + length) then u8 value else load8 m x.
Proof.
  intros Hl. unfold memset.
  pose (I := λ (j : Z) (m' : ram_t), ∀ x, load8 m' x = if decide (dst ≤ x < dst + j) then u8 value else load8 m x).
  assert (I (0 + Z.of_nat (Z.to_nat length)) (fold_for (Z.to_nat length) 0 (λ i m, <[dst + i := u8 value]> m) m)) as Hi.
  { apply fold_for_ind; unfold I.
    - intros y. by rewrite decide_False by lia.
    - intros j m' Hj Hm y. rewrite load8_insert, Hm. repeat case_decide; done || lia. }
  rewrite Z2Nat.id in Hi by lia. apply Hi.
Qed.

(** ** The promises *)

#[local] Opaque print_dec print_hex u32 Z.pow.

Definition percent (d : Z) : list Z := [37; d].
Definition percent_l (d : Z) : list Z := [37; 108; d].


(** C37: the driver is a channel over the emulated UART.  Output: [uart_puts] appends
    exactly its characters to what the device printed.  Input: the keys the listener
    stores form a queue of at most two, [uart_has_data] tells whether it is empty
    without losing a key, [uart_getc] takes the oldest one; a key that arrives while
    the device still holds one is not stored. *)
Theorem console_channel (s : console) (str : list Z) (key : Z) (arrivals : list (option Z)) :
  console_ok s → bytes str → is_u8 key →
  (∃ s', uart_puts str s = Some s' ∧ console_ok s' ∧ pending s' = pending s ∧
     uart_out (device s') = uart_out (device s) ++ str) ∧
  (∃ s', uart_has_data s = (Some (negb (bool_decide (pending s = []))), s') ∧ console_ok s' ∧
     pending s' = pending s ∧ uart_out (device s') = uart_out (device s)) ∧
  match pending s with
  | c :: rest => ∃ s', uart_getc arrivals s = (Some c, s') ∧ console_ok s' ∧ pending s' = rest ∧
                   uart_out (device s') = uart_out (device s)
  | [] => ∃ s', uart_getc [] s = (None, s') ∧ console_ok s' ∧ pending s' = [] ∧
            uart_out (device s') = uart_out (device s)
  end ∧
  console_ok (deliver (Some key) s) ∧
  pending (deliver (Some key) s) = (if rx_ready (device s) then pending s else pending s ++ [key]) ∧
  (length (pending s) ≤ 2)%nat.
Proof.
  intros Hc Hb Hk. destruct (deliver_ok s key Hc Hk) as (H1 & _ & H2). split_and!; try done.
  - by apply puts_ok.
  - by apply has_data_ok.
  - by apply getc_ok.
  - unfold pending. rewrite length_app. repeat case_match; cbn; lia.
Qed.

(** ** Witnesses *)

Lemma console_init_ok : console_ok console_init.
Proof.
  split; [done| |done|cbn; lia]. apply Forall_insert; [apply Forall_replicate; lia|]. done.
Qed.


Lemma console_channel_witness :
  ∃ s, uart_puts [104; 105] console_init = Some s ∧ uart_out (device s) = [104; 105] ∧
    pending (deliver (Some 120) console_init) = [120].
Proof.
  destruct (console_channel console_init [104; 105] 120 []) as ((s & H1 & _ & _ & H2) & _ & _ & _ & H3 & _).
  - apply console_init_ok.
  - repeat (constructor; [lia|]). constructor.
  - lia.
  - exists s. split; [exact H1|]. split; [exact H2|exact H3].
Defined.
