(* ===== verification/Cpu.v ===== *)
(** * The emulated CPU (cemu/src/cpu.cpp, instructions.cpp, main.cpp)

    [cpu] is the C++ object: pc, registers, privilege mode, control registers and
    the bus.  A method runs in the monad [cpu_m]: it returns, throws an [Exception]
    (with the state at the throw), ends the process through [LOG(ERROR, ..)]
    ([Abort]: log.h calls [abort]), or has undefined behaviour in C++ ([Undefined]:
    a shift by 64 or more, a signed overflow).  The executors keep the names and the
    arithmetic of instructions.cpp, [execute] its decoding tables; the standard is
    C++23, in which shifts of signed integers are those of two's complement.
    Trace output ([TRACE_LOG], below the default log level) is left out. *)

From S2P Require Import Prelude Csr Mem Vm Device.

Record cpu := MkCpu {
  pc : Z;
  regs : list Z;
  bus_of : bus;
  mode : Z;
  csr : csr_file;
}.
#[global] Instance cpu_eta : Settable cpu := λ c, MkCpu (pc c) (regs c) (bus_of c) (mode c) (csr c).

Definition Machine : Z := 3.
Definition MTVEC : Z := 0x305.
Definition MEDELEG : Z := 0x302.
Definition MEPC : Z := 0x341.
Definition MCAUSE : Z := 0x342.
Definition MTVAL : Z := 0x343.
Definition MASK_SIE : Z := Z.shiftl 1 1.
Definition MASK_MIE : Z := Z.shiftl 1 3.
Definition MASK_SPIE : Z := Z.shiftl 1 5.
Definition MASK_MPIE : Z := Z.shiftl 1 7.
Definition MASK_SPP : Z := Z.shiftl 1 8.
Definition MASK_MPP : Z := Z.shiftl 3 11.
Definition MASK_MPRV : Z := Z.shiftl 1 17.
Definition MASK_SSIP : Z := Z.shiftl 1 1.
Definition MASK_MSIP : Z := Z.shiftl 1 3.
Definition MASK_STIP : Z := Z.shiftl 1 5.
Definition MASK_MTIP : Z := Z.shiftl 1 7.
Definition MASK_SEIP : Z := Z.shiftl 1 9.
Definition MASK_MEIP : Z := Z.shiftl 1 11.

(** ** Outcomes *)

Inductive outcome (A : Type) := Return (a : A) | Throw (e : Exception) | Abort | Undefined.
Arguments Return {A}.
Arguments Throw {A}.
Arguments Abort {A}.
Arguments Undefined {A}.

Definition cpu_m (A : Type) : Type := cpu → outcome A * cpu.
Definition ret {A} (a : A) : cpu_m A := λ c, (Return a, c).
Definition bind {A B} (m : cpu_m A) (f : A → cpu_m B) : cpu_m B := λ c,
  match m c with
  | (Return a, c) => f a c
  | (Throw e, c) => (Throw e, c)
  | (Abort, c) => (Abort, c)
  | (Undefined, c) => (Undefined, c)
  end.
Notation "'let*' x ':=' m 'in' k" := (bind m (λ x, k)) (at level 200, x name, m at level 100, k at level 200).
Notation "m ';;;' k" := (bind m (λ _ : unit, k)) (at level 199, right associativity).
Definition throw {A} (t : ExceptionType) (v : Z) : cpu_m A := λ c, (Throw (Exc t v), c).
Definition abort_log {A} : cpu_m A := λ c, (Abort, c).
Definition undefined {A} : cpu_m A := λ c, (Undefined, c).
Definition get {A} (f : cpu → A) : cpu_m A := λ c, (Return (f c), c).
Definition put (f : cpu → cpu) : cpu_m unit := λ c, (Return tt, f c).

(** [cpu.regs[i]] *)
Definition reg (i : Z) (c : cpu) : Z := aget 0 (regs c) i.
Definition get_reg (i : Z) : cpu_m Z := get (reg i).
Definition set_reg (i v : Z) : cpu_m unit := put (λ c, c <| regs := aset (regs c) i v |>).
Definition csr_get (addr : Z) : cpu_m Z := get (λ c, csr_load addr (csr c)).
Definition csr_put (addr v : Z) : cpu_m unit := put (λ c, c <| csr := csr_store addr v (csr c) |>).
Definition update_pc : cpu_m Z := get (λ c, u64 (pc c + 4)).

(** ** Memory *)

Definition translate_m (addr : Z) (type : AccessType) : cpu_m Z := λ c,
  let '(r, m) := translate (csr c) (dram (bus_of c)) addr type (mode c) in
  let c := c <| bus_of := (bus_of c) <| dram := m |> |> in
  match r with inl e => (Throw e, c) | inr p => (Return p, c) end.

Definition bus_load (addr size : Z) : cpu_m Z := λ c,
  let '(r, b) := Bus.load addr size (bus_of c) in
  let c := c <| bus_of := b |> in
  match r with inl e => (Throw e, c) | inr v => (Return v, c) end.

Definition bus_store (addr size value : Z) : cpu_m unit := λ c,
  match Bus.store addr size value (bus_of c) with
  | inl e => (Throw e, c)
  | inr b => (Return tt, c <| bus_of := b |>)
  end.

(** [Cpu::load], [Cpu::store] and [Cpu::fetch]; the results always have a value
    (a device throws instead of returning [nullopt] or [false]). *)
Definition load (addr size : Z) : cpu_m Z :=
  let* paddr := translate_m addr Load in bus_load paddr size.
Definition store (addr size value : Z) : cpu_m unit :=
  let* paddr := translate_m addr Store in bus_store paddr size value.
Definition fetch : cpu_m Z :=
  let* p := get pc in let* paddr := translate_m p Instruction in
  let* inst := bus_load paddr 32 in ret (u32 inst).

(** ** Fields of an instruction *)

Definition field_rd (inst : Z) : Z := Z.land (Z.shiftr inst 7) 0x1f.
Definition field_rs1 (inst : Z) : Z := Z.land (Z.shiftr inst 15) 0x1f.
Definition field_rs2 (inst : Z) : Z := Z.land (Z.shiftr inst 20) 0x1f.
Definition unpackInstruction (inst : Z) : Z * Z * Z := (field_rd inst, field_rs1 inst, field_rs2 inst).

(** [static_cast<int64_t>(static_cast<int32_t>(inst & 0xfff00000) >> 20)] *)
Definition imm_i (inst : Z) : Z := Z.shiftr (i32 (Z.land inst 0xfff00000)) 20.
Definition imm_s (inst : Z) : Z :=
  i64 (Z.lor (Z.land (u64 (Z.shiftr (i32 (Z.land inst 0xfe000000)) 20)) 0xffffffffffffffe0)
             (Z.land (Z.shiftr inst 7) 0x1f)).
Definition imm_b (inst : Z) : Z :=
  i32 (Z.lor (Z.lor (Z.lor (if negb (Z.land inst 0x80000000 =? 0) then 0xFFFFF000 else 0)
                           (u32 (Z.shiftl (Z.land inst 0x80) 4)))
                    (Z.land (Z.shiftr inst 20) 0x7E0))
             (Z.land (Z.shiftr inst 7) 0x1E)).
Definition imm_u (inst : Z) : Z := i32 (Z.land inst 0xfffff000).
Definition imm_j (inst : Z) : Z :=
  i32 (Z.lor (Z.lor (Z.lor (if negb (Z.land inst 0x80000000 =? 0) then 0xfff00000 else 0)
                           (u32 (Z.shiftl (Z.land (Z.shiftr inst 12) 0xff) 12)))
                    (Z.land (Z.shiftr inst 9) 0x800))
             (Z.land (Z.shiftr inst 20) 0x7fe)).
Definition csr_field (inst : Z) : Z := Z.shiftr (Z.land inst 0xfff00000) 20.

(** ** Executors *)

Section executors.
Context (inst : Z).
Let rd := field_rd inst.
Let rs1 := field_rs1 inst.
Let rs2 := field_rs2 inst.
Let immediate := imm_i inst.

(** The shapes the executors share: [regs[rd] = f(regs[rs1])] and
    [regs[rd] = f(regs[rs1], regs[rs2])], then [return cpu.update_pc()]. *)
Definition unary (f : Z → Z) : cpu_m Z :=
  let* a := get_reg rs1 in set_reg rd (f a);;; update_pc.
Definition binary (f : Z → Z → Z) : cpu_m Z :=
  let* a := get_reg rs1 in let* b := get_reg rs2 in set_reg rd (f a b);;; update_pc.
Definition branch (taken : Z → Z → bool) : cpu_m Z :=
  let* a := get_reg rs1 in let* b := get_reg rs2 in
  if taken a b then get (λ c, u64 (pc c + imm_b inst)) else update_pc.
Definition load_executor (size : Z) (extend : Z → Z) : cpu_m Z :=
  let* a := get_reg rs1 in let* v := load (u64 (a + immediate)) size in
  set_reg rd (extend v);;; update_pc.
Definition store_executor (size : Z) : cpu_m Z :=
  let* a := get_reg rs1 in let* v := get_reg rs2 in
  store (u64 (a + imm_s inst)) size v;;; update_pc.

(** [static_cast<uint64_t>(static_cast<int8_t>(v & 0xff))] and the like *)
Definition sext8 (v : Z) : Z := u64 ((Z.land v 0xff + 2 ^ 7) mod 2 ^ 8 - 2 ^ 7).
Definition sext16 (v : Z) : Z := u64 ((Z.land v 0xffff + 2 ^ 15) mod 2 ^ 16 - 2 ^ 15).
Definition sext32 (v : Z) : Z := u64 (i32 (Z.land v 0xffffffff)).

Definition executeFence : cpu_m Z := update_pc.
Definition executeLb : cpu_m Z := load_executor 8 sext8.
Definition executeLh : cpu_m Z := load_executor 16 sext16.
Definition executeLw : cpu_m Z := load_executor 32 sext32.
Definition executeLd : cpu_m Z := load_executor 64 (λ v, v).
Definition executeLbu : cpu_m Z := load_executor 8 (λ v, Z.land v 0xff).
Definition executeLhu : cpu_m Z := load_executor 16 (λ v, Z.land v 0xffff).
Definition executeLwu : cpu_m Z := load_executor 32 (λ v, Z.land v 0xffffffff).

Definition executeSb : cpu_m Z := store_executor 8.
Definition executeStoreByte : cpu_m Z := store_executor 8.
Definition executeStoreHalf : cpu_m Z := store_executor 16.
Definition executeStoreWord : cpu_m Z := store_executor 32.
Definition executeStoreDouble : cpu_m Z := store_executor 64.

Definition executeAddi : cpu_m Z := unary (λ a, u64 (a + immediate)).
Definition executeSlli : cpu_m Z := unary (λ a, u64 (Z.shiftl a (Z.land immediate 0x3f))).
Definition executeSlti : cpu_m Z := unary (λ a, if a <? u64 immediate then 1 else 0).
Definition executeSltiu : cpu_m Z := unary (λ a, if a <? u32 immediate then 1 else 0).
Definition executeXori : cpu_m Z := unary (λ a, Z.lxor a (u64 immediate)).
Definition executeSrli : cpu_m Z := unary (λ a, Z.shiftr a (Z.land immediate 0x3f)).
Definition executeSrai : cpu_m Z := unary (λ a, u64 (Z.shiftr (i64 a) (Z.land immediate 0x3f))).
Definition executeOri : cpu_m Z := unary (λ a, Z.lor a (u64 immediate)).
Definition executeAndi : cpu_m Z := unary (λ a, Z.land a (u64 immediate)).

(** A shift by 64 or more is undefined. *)
Definition shift_executor (f : Z → Z → Z) : cpu_m Z :=
  let* a := get_reg rs1 in let* b := get_reg rs2 in
  if 64 <=? b then undefined else set_reg rd (f a b);;; update_pc.
Definition executeSll : cpu_m Z := shift_executor (λ a b, u64 (Z.shiftl a b)).
Definition executeSrl : cpu_m Z := shift_executor (λ a b, Z.shiftr a b).
Definition executeSra : cpu_m Z := shift_executor (λ a b, u64 (Z.shiftr (i64 a) b)).
Definition executeSlt : cpu_m Z := binary (λ a b, if i64 a <? i64 b then 1 else 0).
Definition executeSLTU : cpu_m Z := binary (λ a b, if a <? b then 1 else 0).
Definition executeXor : cpu_m Z := binary Z.lxor.
Definition executeOr : cpu_m Z := binary Z.lor.
Definition executeAnd : cpu_m Z := binary Z.land.
Definition executeAdd : cpu_m Z := binary (λ a b, u64 (a + b)).
Definition executeSUB : cpu_m Z := binary (λ a b, u64 (a - b)).

(** The sum and the difference of two [int32_t] are computed in [int]: undefined
    when they overflow. *)
Definition int_executor (f : Z → Z → Z) : cpu_m Z :=
  let* a := get_reg rs1 in let* b := get_reg rs2 in
  let r := f (i32 a) (i32 b) in
  if (r <? - 2 ^ 31) || (2 ^ 31 <=? r) then undefined else set_reg rd (u64 r);;; update_pc.
Definition executeAddw : cpu_m Z := int_executor Z.add.
Definition executeSUBW : cpu_m Z := int_executor Z.sub.

Definition executeLui : cpu_m Z := set_reg rd (u64 (imm_u inst));;; update_pc.
Definition executeAUIPC : cpu_m Z :=
  let* p := get pc in set_reg rd (u64 (p + imm_u inst));;; update_pc.
Definition executeJAL : cpu_m Z :=
  let* p := get pc in set_reg rd (u64 (p + 4));;; get (λ c, u64 (pc c + imm_j inst)).
Definition executeJALR : cpu_m Z :=
  let* p := get pc in let* a := get_reg rs1 in
  set_reg rd (u64 (p + 4));;; ret (Z.land (u64 (a + immediate)) (u64 (Z.lnot 1))).

Definition executeBEQ : cpu_m Z := branch Z.eqb.
Definition executeBNE : cpu_m Z := branch (λ a b, negb (a =? b)).
Definition executeBLT : cpu_m Z := branch (λ a b, i64 a <? i64 b).
Definition executeBGE : cpu_m Z := branch (λ a b, i64 b <=? i64 a).
Definition executeBLTU : cpu_m Z := branch Z.ltb.
Definition executeBGEU : cpu_m Z := branch (λ a b, b <=? a).

Definition executeADDIW : cpu_m Z := unary (λ a, u64 (i32 (a + immediate))).
Definition executeSLLIW : cpu_m Z := unary (λ a, u64 (i32 (Z.shiftl (i32 a) (Z.land (Z.shiftr inst 20) 0x1f)))).
Definition executeSRLIW : cpu_m Z := unary (λ a, u64 (i32 (Z.shiftr (u32 a) (Z.land (Z.shiftr inst 20) 0x1f)))).
Definition executeSRAIW : cpu_m Z := unary (λ a, u64 (i32 (Z.shiftr (i32 a) (Z.land (Z.shiftr inst 20) 0x1f)))).
Definition executeSLLW : cpu_m Z := binary (λ a b, u64 (i32 (Z.shiftl (i32 a) (Z.land b 0x1f)))).
Definition executeSRLW : cpu_m Z := binary (λ a b, u64 (i32 (Z.shiftr (u32 a) (Z.land b 0x1f)))).
Definition executeSRAW : cpu_m Z := binary (λ a b, u64 (i32 (Z.shiftr (i32 a) (Z.land b 0x1f)))).

(** *** Control registers: in the register forms [regs[rs1]] is read after
    [regs[rd]] has been written. *)
Definition executeCSR_RW : cpu_m Z :=
  let* t := csr_get (csr_field inst) in let* a := get_reg rs1 in
  csr_put (csr_field inst) a;;; set_reg rd t;;; update_pc.
Definition executeCSR_RS : cpu_m Z :=
  let* t := csr_get (csr_field inst) in set_reg rd t;;; let* a := get_reg rs1 in
  csr_put (csr_field inst) (Z.lor t a);;; update_pc.
Definition executeCSR_RC : cpu_m Z :=
  let* t := csr_get (csr_field inst) in set_reg rd t;;; let* a := get_reg rs1 in
  csr_put (csr_field inst) (Z.land t (u64 (Z.lnot a)));;; update_pc.
Definition executeCSR_RWI : cpu_m Z :=
  let* t := csr_get (csr_field inst) in set_reg rd t;;;
  csr_put (csr_field inst) rs1;;; update_pc.
(** [1 << rs1] is an [int], [~rs1] a [uint32_t]. *)
Definition executeCSR_RSI : cpu_m Z :=
  let* t := csr_get (csr_field inst) in set_reg rd t;;;
  csr_put (csr_field inst) (Z.lor t (u64 (i32 (Z.shiftl 1 rs1))));;; update_pc.
Definition executeCSR_RCI : cpu_m Z :=
  let* t := csr_get (csr_field inst) in set_reg rd t;;;
  csr_put (csr_field inst) (Z.land t (u32 (Z.lnot rs1)));;; update_pc.

(** *** System *)
Definition executeSFENCE_VMA : cpu_m Z := update_pc.
Definition executeWFI : cpu_m Z := update_pc.

Definition executeSRET : cpu_m Z :=
  let* s := csr_get SSTATUS in
  put (λ c, c <| mode := Z.shiftr (Z.land s MASK_SPP) 8 |>);;;
  let spie := Z.shiftr (Z.land s MASK_SPIE) 5 in
  let s := Z.lor (Z.land s (u64 (Z.lnot MASK_SIE))) (Z.shiftl spie 1) in
  let s := Z.lor s MASK_SPIE in
  let s := Z.land s (u64 (Z.lnot MASK_SPP)) in
  csr_put SSTATUS s;;;
  let* epc := csr_get SEPC in ret (Z.land epc (u64 (Z.lnot 3))).

Definition executeMRET : cpu_m Z :=
  let* s := csr_get MSTATUS in
  put (λ c, c <| mode := Z.shiftr (Z.land s MASK_MPP) 11 |>);;;
  let mpie := Z.shiftr (Z.land s MASK_MPIE) 7 in
  let s := Z.lor (Z.land s (u64 (Z.lnot MASK_MIE))) (Z.shiftl mpie 3) in
  let s := Z.lor s MASK_MPIE in
  let s := Z.land s (u64 (Z.lnot MASK_MPP)) in
  let s := if negb (Z.land s MASK_MPP =? Machine) then Z.land s (u64 (Z.lnot MASK_MPRV)) else s in
  csr_put MSTATUS s;;;
  let* epc := csr_get MEPC in ret (Z.land epc (u64 (Z.lnot 3))).

Definition executeECALL : cpu_m Z :=
  let* m := get mode in
  if m =? Machine then throw EnvironmentCallFromMMode inst
  else if m =? Supervisor then throw EnvironmentCallFromSMode inst
  else if m =? User then throw EnvironmentCallFromUMode inst
  else throw EnvironmentCallFromMMode inst.
Definition executeEBREAK : cpu_m Z := throw Breakpoint inst.

(** ** Decoding *)

(** The three tables of [InstructionExecutor::execute]. *)
Definition opcodeTable (opcode : Z) : option (cpu_m Z) :=
  match opcode with
  | 0x17 => Some executeAUIPC | 0x37 => Some executeLui | 0x67 => Some executeJALR | 0x6f => Some executeJAL
  | _ => None
  end.

Definition instructionMap (opcode funct3 : Z) : option (cpu_m Z) :=
  match opcode, funct3 with
  | 0x03, 0 => Some executeLb | 0x03, 1 => Some executeLh | 0x03, 2 => Some executeLw
  | 0x03, 3 => Some executeLd | 0x03, 4 => Some executeLbu | 0x03, 5 => Some executeLhu
  | 0x03, 6 => Some executeLwu
  | 0x0f, 0 => Some executeFence
  | 0x13, 0 => Some executeAddi | 0x13, 1 => Some executeSlli | 0x13, 2 => Some executeSlti
  | 0x13, 3 => Some executeSltiu | 0x13, 4 => Some executeXori | 0x13, 6 => Some executeOri
  | 0x13, 7 => Some executeAndi
  | 0x1b, 0 => Some executeADDIW | 0x1b, 1 => Some executeSLLIW
  | 0x19, 7 => Some executeSb
  | 0x23, 0 => Some executeStoreByte | 0x23, 1 => Some executeStoreHalf
  | 0x23, 2 => Some executeStoreWord | 0x23, 3 => Some executeStoreDouble
  | 0x63, 0 => Some executeBEQ | 0x63, 1 => Some executeBNE | 0x63, 4 => Some executeBLT
  | 0x63, 5 => Some executeBGE | 0x63, 6 => Some executeBLTU | 0x63, 7 => Some executeBGEU
  | 0x73, 1 => Some executeCSR_RW | 0x73, 2 => Some executeCSR_RS | 0x73, 3 => Some executeCSR_RC
  | 0x73, 5 => Some executeCSR_RWI | 0x73, 6 => Some executeCSR_RSI | 0x73, 7 => Some executeCSR_RCI
  | _, _ => None
  end.

Definition instruction2Map (opcode funct3 funct7 : Z) : option (cpu_m Z) :=
  match opcode, funct3, funct7 with
  | 0x13, 5, 0x00 => Some executeSrli | 0x13, 5, 0x10 => Some executeSrai
  | 0x33, 0, 0x00 => Some executeAdd | 0x33, 0, 0x20 => Some executeSUB
  | 0x33, 1, 0x00 => Some executeSll | 0x33, 2, 0x00 => Some executeSlt
  | 0x33, 3, 0x00 => Some executeSLTU | 0x33, 4, 0x00 => Some executeXor
  | 0x33, 5, 0x00 => Some executeSrl | 0x33, 5, 0x20 => Some executeSra
  | 0x33, 6, 0x00 => Some executeOr | 0x33, 7, 0x00 => Some executeAnd
  | 0x1b, 5, 0x00 => Some executeSRLIW | 0x1b, 5, 0x20 => Some executeSRAIW
  | 0x3b, 0, 0x00 => Some executeAddw | 0x3b, 0, 0x20 => Some executeSUBW
  | 0x3b, 1, 0x00 => Some executeSLLW | 0x3b, 5, 0x00 => Some executeSRLW
  | 0x3b, 5, 0x20 => Some executeSRAW
  | 0x73, 0, 0x00 => Some executeECALL | 0x73, 0, 0x01 => Some executeEBREAK
  | 0x73, 0, 0x10 => Some executeWFI | 0x73, 0, 0x09 => Some executeSFENCE_VMA
  | 0x73, 0, 0x08 => Some executeSRET | 0x73, 0, 0x18 => Some executeMRET
  | _, _, _ => None
  end.

Definition opcode_of : Z := Z.land inst 0x7f.
Definition funct3_of : Z := Z.shiftr (Z.land inst 0x7000) 12.
Definition funct7_of : Z := Z.shiftr (Z.land inst 0xfe000000) 25.
Definition funct6_of : Z := Z.land (Z.shiftr inst 26) 0x3f.

(** The executor the tables give, [None] for an unsupported instruction. *)
Definition decode : option (cpu_m Z) :=
  match opcodeTable opcode_of with
  | Some f => Some f
  | None =>
      match instructionMap opcode_of funct3_of with
      | Some f => Some f
      | None =>
          match instruction2Map opcode_of funct3_of funct7_of with
          | Some f => Some f
          | None => instruction2Map opcode_of funct3_of funct6_of
          end
      end
  end.

(** [x0] is cleared before every instruction; for an unsupported one
    [LOG(ERROR, ..)] comes before the throw. *)
Definition execute : cpu_m Z :=
  set_reg 0 0;;;
  match decode with Some f => f | None => abort_log end.
End executors.

(** ** Traps *)

Definition is_medelegated (val : Z) (c : csr_file) : bool :=
  Z.land (Z.shiftr (csr_load MEDELEG c) val) 1 =? 1.
Definition is_midelegated (cause : Z) (c : csr_file) : bool :=
  Z.land (Z.shiftr (csr_load MIDELEG c) cause) 1 =? 1.

(** The register numbers and status bits of a trap into one mode. *)
Record trap_regs := MkTrapRegs {
  tr_mode : Z; tr_status : Z; tr_tvec : Z; tr_cause : Z; tr_tval : Z; tr_epc : Z;
  tr_mask_pie : Z; tr_pie : Z; tr_mask_ie : Z; tr_ie : Z; tr_mask_pp : Z; tr_pp : Z;
}.
Definition s_trap : trap_regs :=
  MkTrapRegs Supervisor SSTATUS STVEC SCAUSE STVAL SEPC MASK_SPIE 5 MASK_SIE 1 MASK_SPP 8.
Definition m_trap : trap_regs :=
  MkTrapRegs Machine MSTATUS MTVEC MCAUSE MTVAL MEPC MASK_MPIE 7 MASK_MIE 3 MASK_MPP 11.

(** The status register at the entry of a trap out of [from]. *)
Definition trap_status (r : trap_regs) (from s : Z) : Z :=
  let ie := Z.shiftr (Z.land s (tr_mask_ie r)) (tr_ie r) in
  let s := Z.lor (Z.land s (u64 (Z.lnot (tr_mask_pie r)))) (Z.shiftl ie (tr_pie r)) in
  let s := Z.land s (u64 (Z.lnot (tr_mask_ie r))) in
  Z.lor (Z.land s (u64 (Z.lnot (tr_mask_pp r)))) (u64 (Z.shiftl from (tr_pp r))).

Definition enter_trap (r : trap_regs) (cause tval : Z) (c : cpu) : cpu :=
  let from := mode c in
  let epc := pc c in
  let c := c <| mode := tr_mode r |> in
  let c := c <| pc := Z.land (csr_load (tr_tvec r) (csr c)) (u64 (Z.lnot 3)) |> in
  let cs := csr_store (tr_tval r) tval (csr_store (tr_cause r) cause (csr_store (tr_epc r) epc (csr c))) in
  c <| csr := csr_store (tr_status r) (trap_status r from (csr_load (tr_status r) cs)) cs |>.

Definition handle_exception (e : Exception) (c : cpu) : cpu :=
  let cause := exception_code (exc_type e) in
  let r := if (mode c <=? Supervisor) && is_medelegated cause (csr c) then s_trap else m_trap in
  enter_trap r cause (exc_value e) c.

Definition INTERRUPT_BIT : Z := Z.shiftl 1 63.

(** The first interrupt of a list of (pending bit, code) that is set. *)
Fixpoint first_pending (l : list (Z * Z)) (bits : Z) : option Z :=
  match l with
  | [] => None
  | (mask, code) :: l =>
      if negb (Z.land bits mask =? 0) then Some (Z.lor code INTERRUPT_BIT) else first_pending l bits
  end.
Definition m_interrupts : list (Z * Z) := [(MASK_MEIP, 11); (MASK_MSIP, 3); (MASK_MTIP, 7)].
Definition s_interrupts : list (Z * Z) := [(MASK_SEIP, 9); (MASK_SSIP, 1); (MASK_STIP, 5)].

Definition check_pending_interrupts (c : cpu) : option Z :=
  let mip := csr_load MIP (csr c) in
  let mie := csr_load MIE (csr c) in
  let mstatus := csr_load MSTATUS (csr c) in
  let mideleg := csr_load MIDELEG (csr c) in
  let m_enabled := negb (Z.land mstatus MASK_MIE =? 0) in
  if mode c =? Machine then
    if m_enabled then first_pending m_interrupts (Z.land mip mie) else None
  else
    let non_delegated := Z.land (Z.land mip mie) (u64 (Z.lnot mideleg)) in
    match (if m_enabled then first_pending m_interrupts non_delegated else None) with
    | Some cause => Some cause
    | None =>
        let sip := csr_load SIP (csr c) in
        let sie := csr_load SIE (csr c) in
        if negb (Z.land (csr_load SSTATUS (csr c)) MASK_SIE =? 0)
        then first_pending s_interrupts (Z.land sip sie) else None
    end.

Definition handle_interrupt (cause : Z) (c : cpu) : cpu :=
  let irq_code := Z.land cause 0x7fffffffffffffff in
  let r := if (mode c <=? Supervisor) && is_midelegated irq_code (csr c) then s_trap else m_trap in
  enter_trap r cause 0 c.

(** ** The main loop *)

Definition init_cpu (code : list Z) (disk : ram_t) : cpu :=
  MkCpu DRAM_BASE (aset (replicate 32 0) 2 (DRAM_BASE + DRAM_SIZE - 1))
    (MkBus (store_bytes ∅ DRAM_BASE code) Uart.init (MkClint 0 0) (MkPlic 0 0 0 0)
       (BlockDevice.init disk) false) Machine ∅.

(** The clock and the pending bit of the timer. *)
Definition tick_timer (c : cpu) : cpu :=
  let '(fires, cl) := Clint.tick 1 (bus_clint (bus_of c)) in
  let c := c <| bus_of := (bus_of c) <| bus_clint := cl |> |> in
  let mip := csr_load MIP (csr c) in
  c <| csr := csr_store MIP (if fires then Z.lor mip MASK_MTIP
                             else Z.land mip (u64 (Z.lnot MASK_MTIP))) (csr c) |>.

Inductive loop_result := Continue (c : cpu) | Stop (c : cpu) | Aborted (c : cpu) | Broken (c : cpu).

(** One round of the loop of [main]. *)
Definition step (c : cpu) : loop_result :=
  if halted (bus_of c) then Stop c
  else
    let c := tick_timer c in
    match check_pending_interrupts c with
    | Some cause => Continue (handle_interrupt cause c)
    | None =>
        match (let* inst := fetch in execute inst) c with
        | (Return new_pc, c) => Continue (c <| pc := new_pc |>)
        | (Throw e, c) =>
            let c := handle_exception e c in
            if isFatal (exc_type e) then Stop c else Continue c
        | (Abort, c) => Aborted c
        | (Undefined, c) => Broken c
        end
    end.
