(* ===== verification/CpuType.v ===== *)
(** * Type soundness of the emulated CPU

    [cpu_ok] gives every register, control register, device register and byte of
    memory the width of its C++ type.  [ensures] is the triple of a method: from a
    well-typed CPU it leaves a well-typed CPU, returns a value with a given
    property, and throws only exceptions an instruction may throw.  Every executor
    has such a triple, whence [execute] and the main loop preserve [cpu_ok]. *)

From S2P Require Import Prelude Csr Mem Vm Device Cpu.

(** ** 64-bit arithmetic *)

Create HintDb u64 discriminated.

Lemma u64_land_l a b : is_u64 a → is_u64 (Z.land a b).
Proof.
  intros Ha. apply is_u64_bits. intros n Hn. by rewrite Z.land_spec, (proj1 (is_u64_bits a) Ha).
Qed.
Lemma u64_land_r a b : is_u64 b → is_u64 (Z.land a b).
Proof. rewrite Z.land_comm. apply u64_land_l. Qed.
Lemma u64_lor a b : is_u64 a → is_u64 b → is_u64 (Z.lor a b).
Proof.
  intros Ha Hb. apply is_u64_bits. intros n Hn.
  by rewrite Z.lor_spec, (proj1 (is_u64_bits a) Ha), (proj1 (is_u64_bits b) Hb).
Qed.
Lemma u64_lxor a b : is_u64 a → is_u64 b → is_u64 (Z.lxor a b).
Proof.
  intros Ha Hb. apply is_u64_bits. intros n Hn.
  by rewrite Z.lxor_spec, (proj1 (is_u64_bits a) Ha), (proj1 (is_u64_bits b) Hb).
Qed.
Lemma u64_shiftr a n : 0 ≤ n → is_u64 a → is_u64 (Z.shiftr a n).
Proof.
  intros Hn Ha. rewrite Z.shiftr_div_pow2 by done.
  split; [apply Z.div_pos; lia|]. pose proof (Z.div_le_upper_bound a (2 ^ n) a). nia.
Qed.
Lemma u64_u32 a : is_u64 (u32 a).
Proof. pose proof (u32_range a). lia. Qed.
Lemma u64_land_mask a m : 0 ≤ m → is_u64 m → is_u64 (Z.land a m).
Proof. intros _. apply u64_land_r. Qed.
Lemma u64_if (b : bool) x y : is_u64 x → is_u64 y → is_u64 (if b then x else y).
Proof. by destruct b. Qed.

Ltac u64 := repeat first
  [ assumption | apply u64_range | apply u64_u32 | apply u64_if | apply u64_lor | apply u64_lxor
  | apply u64_land_l; (assumption || apply u64_range)
  | apply u64_land_r; (assumption || apply u64_range || (vm_compute; intuition congruence))
  | apply u64_land_l | apply u64_shiftr | lia | (vm_compute; intuition congruence) ].

(** ** Well-typed states *)

Definition csr_ok (c : csr_file) : Prop := map_Forall (λ _ v, is_u64 v) c.

Record bus_ok (b : bus) : Prop := {
  bo_dram : ram_ok (dram b);
  bo_uart : length (uart_regs (bus_uart b)) = 256%nat ∧ bytes (uart_regs (bus_uart b));
  bo_out : bytes (uart_out (bus_uart b));
  bo_clint : is_u64 (mtime (bus_clint b)) ∧ is_u64 (mtimecmp (bus_clint b));
  bo_plic : is_u64 (pending (bus_plic b)) ∧ is_u64 (senable (bus_plic b)) ∧
            is_u64 (spriority (bus_plic b)) ∧ is_u64 (sclaim (bus_plic b));
  bo_storage : ram_ok (storage (block b));
  bo_window : length (window (block b)) = 512%nat ∧ bytes (window (block b));
  bo_sector : is_u64 (sector (block b));
  bo_status : 0 ≤ status (block b) ≤ 1;
}.

Record cpu_ok (c : cpu) : Prop := {
  co_pc : is_u64 (pc c);
  co_regs : length (regs c) = 32%nat ∧ Forall (λ v, is_u64 v) (regs c);
  co_mode : 0 ≤ mode c ≤ 3;
  co_csr : csr_ok (csr c);
  co_bus : bus_ok (bus_of c);
}.

(** What an instruction may throw: not [IllegalInstruction]. *)
Definition exc_ok (e : Exception) : Prop := is_u64 (exc_value e) ∧ exc_type e ≠ IllegalInstruction.

(** ** Control registers *)

Lemma csr_ok_raw c a : csr_ok c → is_u64 (raw c a).
Proof. intros H. unfold raw. destruct (c !! a) eqn:E; cbn; [by apply (H a)|lia]. Qed.

Lemma csr_ok_insert c a v : csr_ok c → is_u64 v → csr_ok (<[a := v]> c).
Proof. intros. by apply map_Forall_insert_2. Qed.

Lemma delegated_range d p s m : 0 ≤ s < 64 → is_u64 (delegated d p s m).
Proof.
  intros. unfold delegated. assert (is_u64 (Z.shiftl 1 s)).
  { rewrite Z.shiftl_mul_pow2 by lia. pose proof (Z.pow_lt_mono_r 2 s 64).
    pose proof (Z.pow_pos_nonneg 2 s). lia. }
  by repeat case_match; try lia.
Qed.

Lemma csr_load_range a c : csr_ok c → is_u64 (csr_load a c).
Proof.
  intros H. pose proof (csr_ok_raw c) as Hr. unfold csr_load.
  repeat case_match; auto; [by apply u64_land_l, Hr| |by apply u64_land_l, Hr].
  repeat apply u64_lor; apply delegated_range; lia.
Qed.

Lemma merge_bits_range m old v : is_u64 m → is_u64 old → is_u64 (merge_bits m old v).
Proof. intros. unfold merge_bits. apply u64_lor; [by apply u64_land_l|by apply u64_land_r]. Qed.

Lemma csr_store_ok a v c : csr_ok c → is_u64 v → csr_ok (csr_store a v c).
Proof.
  intros H Hv. pose proof (csr_ok_raw c) as Hr. unfold csr_store.
  repeat case_match; apply csr_ok_insert; auto using merge_bits_range, mask_sstatus_range.
Qed.

(** ** Devices *)

Definition result_ok {A} (P : A → Prop) (r : Exception + A) : Prop :=
  match r with inl e => exc_ok e | inr v => P v end.

Lemma valid_size_range size : valid_size size = true → 0 ≤ size / 8 ≤ 8.
Proof. unfold valid_size. rewrite !orb_true_iff, !Z.eqb_eq. intros [[[->| ->]| ->]| ->]; vm_compute; split; congruence. Qed.

Lemma size_bytes_le size : valid_size size = true → (size_bytes size ≤ 8)%nat.
Proof. intros H%valid_size_range. unfold size_bytes. lia. Qed.

Lemma le_decode_u64 bs : bytes bs → (length bs ≤ 8)%nat → is_u64 (le_decode bs).
Proof.
  intros Hb Hl. pose proof (le_decode_range bs Hb).
  pose proof (Z.pow_le_mono_r 256 (Z.of_nat (length bs)) 8). lia.
Qed.

Lemma aget_u8 l i : bytes l → is_u8 (aget 0 l i).
Proof.
  intros Hl. unfold aget. destruct (l !! Z.to_nat i) eqn:E; cbn; [|lia].
  by eapply (Forall_lookup_1 _ _ _ _ Hl).
Qed.

Lemma u8_range z : is_u8 (u8 z).
Proof. unfold u8. pose proof (Z.mod_pos_bound z (2 ^ 8)). lia. Qed.

Lemma aset_u8 l i v : bytes l → is_u8 v → bytes (aset l i v).
Proof. intros. by apply Forall_insert. Qed.

Lemma exc_fault t a : is_u64 a → t ≠ IllegalInstruction → exc_ok (Exc t a).
Proof. done. Qed.

Lemma dram_load_ok m addr size :
  ram_ok m → is_u64 addr → result_ok (λ v, is_u64 v) (Dram.load m addr size).
Proof.
  intros Hm Ha. unfold Dram.load. destruct (valid_size size) eqn:E; [|by apply exc_fault].
  cbn [negb]. case_match; [by apply exc_fault|]. apply le_decode_u64; [by apply ram_ok_load_bytes|].
  rewrite length_load_bytes. by apply size_bytes_le.
Qed.

Lemma dram_store_ok m addr size v :
  ram_ok m → is_u64 addr → result_ok ram_ok (Dram.store addr size v m).
Proof.
  intros Hm Ha. unfold Dram.store. repeat case_match; try by apply exc_fault.
  apply ram_ok_store_bytes; [done|apply le_encode_bytes].
Qed.

Lemma block_load_ok b addr size :
  bytes (window b) → is_u64 (sector b) → 0 ≤ status b ≤ 1 → is_u64 addr →
  result_ok (λ v, is_u64 v) (BlockDevice.load b addr size).
Proof.
  intros Hw Hs Ht Ha. unfold BlockDevice.load. destruct (valid_size size) eqn:E; [|by apply exc_fault].
  cbn [negb]. repeat case_match; try (by apply exc_fault); cbn; [done|lia|].
  apply le_decode_u64; [by apply Forall_slice|]. unfold slice. rewrite length_take.
  pose proof (valid_size_range size E). lia.
Qed.

Definition block_ok (b : block_device) : Prop :=
  ram_ok (storage b) ∧ (length (window b) = 512%nat ∧ bytes (window b)) ∧
  is_u64 (sector b) ∧ 0 ≤ status b ≤ 1.

Lemma block_execute_ok cmd b : block_ok b → block_ok (BlockDevice.execute cmd b).
Proof.
  intros (Hm & (Hl & Hw) & Hs & Ht). unfold BlockDevice.execute.
  case_match; [by split_and?|]. case_match; [|case_match; [|by split_and?]].
  - assert (bytes (BlockDevice.sector_bytes b)) as Hb by by apply ram_ok_load_bytes.
    assert (length (BlockDevice.sector_bytes b) = 512%nat) as Hl' by apply length_load_bytes.
    revert Hb Hl'. generalize (BlockDevice.sector_bytes b). intros bs Hb Hl'. by split_and?.
  - split; [by apply ram_ok_store_bytes|]. split; [done|]. by split.
Qed.

Lemma block_store_ok addr size v b :
  block_ok b → is_u64 addr → is_u64 v → result_ok block_ok (BlockDevice.store addr size v b).
Proof.
  intros Hb Ha Hv. unfold BlockDevice.store. destruct (valid_size size) eqn:E; [|by apply exc_fault].
  cbn [negb]. repeat case_match; try (by apply exc_fault); cbn.
  - by destruct Hb as (? & ? & ? & ?).
  - by apply block_execute_ok.
  - destruct Hb as (Hm & (Hl & Hw) & Hs & Ht). bsimp. pose proof (valid_size_range size E).
    unfold BlockDevice.DATA_WINDOW in *. split; [done|]. split; [|done]. cbn. split.
    + unfold BlockDevice.write_le, size_bytes. rewrite length_splice; rewrite ?length_le_encode; [exact Hl|lia..].
    + apply Forall_splice; [apply le_encode_bytes|done].
Qed.

(** ** The bus *)

Lemma bus_load_ok addr size b :
  bus_ok b → is_u64 addr →
  result_ok (λ v, is_u64 v) (Bus.load addr size b).1 ∧ bus_ok (Bus.load addr size b).2.
Proof.
  intros Hb Ha. destruct Hb as [Hd [Hul Hu] Ho [Hc1 Hc2] (Hp1 & Hp2 & Hp3 & Hp4) Hs [Hwl Hw] Hsec Hst].
  unfold Bus.load. case_match; [split; [by apply dram_load_ok|by split]|].
  case_match.
  { unfold Uart.load. destruct (negb (size =? 8)); cbn; [split; [by apply exc_fault|by split]|].
    pose proof (aget_u8 (uart_regs (bus_uart b)) (u64 (addr - UART_BASE)) Hu).
    destruct (_ =? UART_RHR); cbn; [|split; [lia|by split]].
    assert (bytes (aset (uart_regs (bus_uart b)) UART_LSR
              (u8 (Z.land (Uart.lsr (bus_uart b)) (Z.lnot MASK_UART_LSR_RX))))) as Hu'
      by (apply aset_u8; [done|apply u8_range]).
    split; [pose proof (aget_u8 _ UART_RHR Hu'); lia|].
    split; cbn; try done. by rewrite length_aset. }
  case_match; [split; [|by split]; unfold Clint.load; repeat case_match; done|].
  case_match; [split; [|by split]; unfold Plic.load; repeat case_match; done|].
  case_match; [split; [|by split]; cbn; case_match; lia|].
  case_match; [split; [by apply block_load_ok|by split]|].
  split; [by apply exc_fault|by split].
Qed.

Lemma bus_store_ok addr size v b :
  bus_ok b → is_u64 addr → is_u64 v → result_ok bus_ok (Bus.store addr size v b).
Proof.
  intros Hb Ha Hv. destruct Hb as [Hd [Hul Hu] Ho [Hc1 Hc2] (Hp1 & Hp2 & Hp3 & Hp4) Hs [Hwl Hw] Hsec Hst].
  unfold Bus.store. case_match.
  { pose proof (dram_store_ok (dram b) addr size v Hd Ha) as H'. destruct (Dram.store _ _ _ _); [done|by split]. }
  case_match.
  { unfold Uart.store. destruct (negb (size =? 8)); [by apply exc_fault|]. pose proof (u8_range v).
    destruct (_ =? UART_THR); split; cbn; try done.
    - by apply Forall_app_2; [|constructor].
    - split; [by rewrite length_aset|by apply aset_u8]. }
  case_match; [unfold Clint.store; repeat case_match; simplify_eq; try done; by split|].
  case_match; [unfold Plic.store; repeat case_match; simplify_eq; try done; by split|].
  case_match; [by split|]. case_match; [|by apply exc_fault].
  pose proof (block_store_ok addr size v (block b)) as H'. destruct (BlockDevice.store _ _ _ _) as [e|d].
  - apply H'; done.
  - destruct H' as (? & [? ?] & ? & ?); done.
Qed.

(** ** Address translation *)

Lemma walk_entry_ok m v t i :
  ram_ok m → is_u64 v → result_ok (λ p, is_u64 p.1 ∧ is_u64 p.2) (walk_entry m v t i).
Proof.
  intros Hm Hv. unfold walk_entry, dram_load. case_match; case_match; simplify_eq.
  - split; [|done]. apply u64_range.
  - case_match; [done|]. split; [apply u64_range|]. apply le_decode_u64; [by apply ram_ok_load_bytes|done].
Qed.

Lemma leaf_ok m type mode v a p ppn off :
  ram_ok m → is_u64 v → is_u64 off →
  result_ok (λ v, is_u64 v) (leaf m type mode v a p ppn off).1 ∧ ram_ok (leaf m type mode v a p ppn off).2.
Proof.
  intros Hm Hv Ho. unfold leaf. destruct (leaf_fault type mode p) eqn:E; cbn.
  - split; [|done]. split; [done|]. unfold leaf_fault in E. repeat case_match; by simplify_eq.
  - split; [by apply u64_lor; [apply u64_range|]|by apply ram_ok_store64].
Qed.

Lemma translate_ok c m v type mode :
  ram_ok m → is_u64 v →
  result_ok (λ v, is_u64 v) (translate c m v type mode).1 ∧ ram_ok (translate c m v type mode).2.
Proof.
  intros Hm Hv. unfold translate. case_match; [done|]. assert (is_u64 (Z.land v 0xFFF)) as Ho by by apply u64_land_l.
  pose proof (λ t i, walk_entry_ok m v t i Hm Hv) as Hw.
  repeat match goal with
  | |- context [match walk_entry ?m ?v ?t ?i with _ => _ end] =>
      pose proof (Hw t i); destruct (walk_entry m v t i) as [?|[? ?]]; [done|]
  | |- context [if ?b then _ else _] => destruct b
  end; first [by apply leaf_ok|done].
Qed.

(** ** Triples *)

Definition outcome_ok {A} (Q : A → Prop) (r : outcome A) : Prop :=
  match r with Return a => Q a | Throw e => exc_ok e | Abort | Undefined => True end.

Definition ensures {A} (m : cpu_m A) (Q : A → Prop) : Prop :=
  ∀ c, cpu_ok c → outcome_ok Q (m c).1 ∧ cpu_ok (m c).2.

Definition word64 (v : Z) : Prop := is_u64 v.

Lemma ensures_ret {A} (a : A) (Q : A → Prop) : Q a → ensures (ret a) Q.
Proof. by intros ? c ?. Qed.

Lemma ensures_bind {A B} (m : cpu_m A) (f : A → cpu_m B) P Q :
  ensures m P → (∀ a, P a → ensures (f a) Q) → ensures (bind m f) Q.
Proof.
  intros Hm Hf c Hc. unfold bind. destruct (Hm c Hc) as [Hr Hc']. destruct (m c) as [[a| | |] c']; cbn in *; [|done..].
  by apply Hf.
Qed.

Lemma ensures_get (f : cpu → Z) (Q : Z → Prop) : (∀ c, cpu_ok c → Q (f c)) → ensures (get f) Q.
Proof. intros H c Hc. split; [by apply H|done]. Qed.

Lemma ensures_put f : (∀ c, cpu_ok c → cpu_ok (f c)) → ensures (put f) (λ _, True).
Proof. intros H c Hc. split; [done|by apply H]. Qed.

Lemma ensures_throw {A} t v (Q : A → Prop) : is_u64 v → t ≠ IllegalInstruction → ensures (throw t v) Q.
Proof. intros ? ? c ?. by split. Qed.
Lemma ensures_abort {A} (Q : A → Prop) : ensures abort_log Q.
Proof. by intros c ?. Qed.
Lemma ensures_undefined {A} (Q : A → Prop) : ensures undefined Q.
Proof. by intros c ?. Qed.

Lemma reg_u64 i c : cpu_ok c → is_u64 (reg i c).
Proof.
  intros [_ [_ Hf] _ _ _]. unfold reg, aget. destruct (regs c !! Z.to_nat i) eqn:E; cbn; [|lia].
  by eapply (Forall_lookup_1 _ _ _ _ Hf).
Qed.

Lemma ensures_get_reg i : ensures (get_reg i) word64.
Proof. apply ensures_get. apply reg_u64. Qed.

Lemma ensures_set_reg i v : is_u64 v → ensures (set_reg i v) (λ _, True).
Proof.
  intros Hv. apply ensures_put. intros c [? [? ?] ? ? ?]. split; try done. cbn. split.
  - by rewrite length_aset.
  - by apply Forall_insert.
Qed.

Lemma ensures_csr_get a : ensures (csr_get a) word64.
Proof. apply ensures_get. intros c Hc. apply csr_load_range. by destruct Hc. Qed.

Lemma ensures_csr_put a v : is_u64 v → ensures (csr_put a v) (λ _, True).
Proof.
  intros Hv. apply ensures_put. intros c [? ? ? ? ?]. split; try done. cbn. by apply csr_store_ok.
Qed.

Lemma ensures_set_mode (v : Z) : 0 ≤ v ≤ 3 → ensures (put (λ c, c <| mode := v |>)) (λ _, True).
Proof. intros. apply ensures_put. intros c [? ? ? ? ?]. by split. Qed.

Lemma ensures_pc : ensures (get pc) word64.
Proof. apply ensures_get. by intros c []. Qed.
Lemma ensures_mode : ensures (get mode) (λ _, True).
Proof. by apply ensures_get. Qed.

Lemma ensures_get_u64 f : ensures (get (λ c, u64 (f c))) word64.
Proof. apply ensures_get. intros. apply u64_range. Qed.
Lemma ensures_update_pc : ensures update_pc word64.
Proof. apply ensures_get_u64. Qed.

Lemma cpu_ok_bus c b : cpu_ok c → bus_ok b → cpu_ok (c <| bus_of := b |>).
Proof. intros [? ? ? ? ?] ?. by split. Qed.

Lemma ensures_translate a t : is_u64 a → ensures (translate_m a t) word64.
Proof.
  intros Ha c Hc. unfold translate_m. pose proof (co_bus _ Hc) as Hb.
  pose proof (translate_ok (csr c) (dram (bus_of c)) a t (mode c) (bo_dram _ Hb) Ha) as [Hr Hm].
  destruct (translate _ _ _ _ _) as [r m]. cbn in Hr, Hm.
  assert (cpu_ok (c <| bus_of := (bus_of c) <| dram := m |> |>)).
  { apply cpu_ok_bus; [done|]. by destruct Hb; split. }
  by destruct r.
Qed.

Lemma ensures_bus_load a s : is_u64 a → ensures (bus_load a s) word64.
Proof.
  intros Ha c Hc. unfold bus_load. pose proof (bus_load_ok a s _ (co_bus _ Hc) Ha) as [Hr Hb].
  destruct (Bus.load a s (bus_of c)) as [r b]. cbn in Hr, Hb. pose proof (cpu_ok_bus c b Hc Hb). by destruct r.
Qed.

Lemma ensures_bus_store a s v : is_u64 a → is_u64 v → ensures (bus_store a s v) (λ _, True).
Proof.
  intros Ha Hv c Hc. unfold bus_store. pose proof (bus_store_ok a s v _ (co_bus _ Hc) Ha Hv) as Hr.
  destruct (Bus.store a s v (bus_of c)) as [e|b]; cbn in *; [done|]. split; [done|]. by apply cpu_ok_bus.
Qed.

Lemma ensures_load a s : is_u64 a → ensures (load a s) word64.
Proof.
  intros. eapply ensures_bind; [by apply ensures_translate|]. intros p Hp. by apply ensures_bus_load.
Qed.
Lemma ensures_store a s v : is_u64 a → is_u64 v → ensures (store a s v) (λ _, True).
Proof.
  intros. eapply ensures_bind; [by apply ensures_translate|]. intros p Hp. by apply ensures_bus_store.
Qed.
Lemma ensures_fetch : ensures fetch (λ i, is_u32 i).
Proof.
  eapply ensures_bind; [apply ensures_pc|]. intros p Hp.
  eapply ensures_bind; [by apply ensures_translate|]. intros a Ha.
  eapply ensures_bind; [by apply ensures_bus_load|]. intros v _. apply ensures_ret, u32_range.
Qed.

(** ** Executors *)

Create HintDb cpu discriminated.
#[export] Hint Resolve ensures_get_reg ensures_set_reg ensures_csr_get ensures_csr_put ensures_pc ensures_mode
  ensures_get_u64 ensures_update_pc ensures_load ensures_store ensures_abort ensures_undefined
  ensures_set_mode : cpu.

(** One action of a method after the other. *)
Ltac ens := eapply ensures_bind; [solve [eauto with cpu]|intros ? ?].

Section executors.
Context (inst : Z) (Hinst : is_u32 inst).

Lemma field_range x k : 0 ≤ Z.land (Z.shiftr x k) 0x1f < 32.
Proof using Type. change 0x1f with (Z.ones 5). rewrite Z.land_ones by lia. apply Z.mod_pos_bound. lia. Qed.

Lemma ensures_unary f : (∀ a, word64 a → is_u64 (f a)) → ensures (unary inst f) word64.
Proof using Type. intros Hf. unfold unary. do 2 ens. apply ensures_update_pc. Qed.

Lemma ensures_binary f : (∀ a b, word64 a → word64 b → is_u64 (f a b)) → ensures (binary inst f) word64.
Proof using Type. intros Hf. unfold binary. do 3 ens. apply ensures_update_pc. Qed.

Lemma ensures_shift f : (∀ a b, word64 a → word64 b → is_u64 (f a b)) → ensures (shift_executor inst f) word64.
Proof using Type.
  intros Hf. unfold shift_executor. do 2 ens. case_match; [apply ensures_undefined|].
  ens. apply ensures_update_pc.
Qed.

Lemma ensures_int f : ensures (int_executor inst f) word64.
Proof using Type.
  unfold int_executor. do 2 ens. cbv zeta. case_match; [apply ensures_undefined|].
  eapply ensures_bind; [apply ensures_set_reg, u64_range|intros _ _]. apply ensures_update_pc.
Qed.

Lemma ensures_branch f : ensures (branch inst f) word64.
Proof using Type. unfold branch. do 2 ens. case_match; eauto with cpu. Qed.

Lemma ensures_load_executor size f :
  (∀ v, word64 v → is_u64 (f v)) → ensures (load_executor inst size f) word64.
Proof using Type.
  intros Hf. unfold load_executor. ens.
  eapply ensures_bind; [apply ensures_load, u64_range|intros v Hv]. ens. apply ensures_update_pc.
Qed.

Lemma ensures_store_executor size : ensures (store_executor inst size) word64.
Proof using Type.
  unfold store_executor. do 2 ens.
  eapply ensures_bind; [by apply ensures_store; [apply u64_range|]|intros _ _]. apply ensures_update_pc.
Qed.

Lemma csr_rw_ok imm_a (f : Z → Z → Z) :
  (∀ t a, word64 t → word64 a → is_u64 (f t a)) → ensures imm_a word64 →
  ensures (let* t := csr_get (csr_field inst) in set_reg (field_rd inst) t;;; let* a := imm_a in
           csr_put (csr_field inst) (f t a);;; update_pc) word64.
Proof using Type.
  intros Hf Ha. do 2 ens. eapply ensures_bind; [exact Ha|intros v Hv]. ens. apply ensures_update_pc.
Qed.

Lemma ensures_ecall : ensures (executeECALL inst) word64.
Proof using Hinst.
  unfold executeECALL. ens. repeat case_match; apply ensures_throw; done || lia.
Qed.

Lemma two_bits s k : is_u64 s → 0 ≤ k → 0 ≤ Z.shiftr (Z.land s (Z.shiftl 3 k)) k ≤ 3.
Proof using Type.
  intros Hs Hk. rewrite Z.shiftr_land, Z.shiftr_shiftl_l, Z.sub_diag, Z.shiftl_0_r by lia.
  change (Z.land ?x 3) with (Z.land x (Z.ones 2)). rewrite Z.land_ones by lia. pose proof (Z.mod_pos_bound (Z.shiftr s k) (2 ^ 2)). lia.
Qed.
Lemma one_bit s k : is_u64 s → 0 ≤ k → 0 ≤ Z.shiftr (Z.land s (Z.shiftl 1 k)) k ≤ 1.
Proof using Type.
  intros Hs Hk. rewrite Z.shiftr_land, Z.shiftr_shiftl_l, Z.sub_diag, Z.shiftl_0_r by lia.
  change (Z.land ?x 1) with (Z.land x (Z.ones 1)). rewrite Z.land_ones by lia. pose proof (Z.mod_pos_bound (Z.shiftr s k) (2 ^ 1)). lia.
Qed.
Lemma one_bit_shifted s k n : is_u64 s → 0 ≤ k → 0 ≤ n < 63 → is_u64 (Z.shiftl (Z.shiftr (Z.land s (Z.shiftl 1 k)) k) n).
Proof using Type.
  intros. rewrite Z.shiftl_mul_pow2 by lia. pose proof (one_bit s k).
  pose proof (Z.pow_lt_mono_r 2 n 63). pose proof (Z.pow_pos_nonneg 2 n). nia.
Qed.

Lemma ensures_sret : ensures (executeSRET) word64.
Proof using Type.
  unfold executeSRET. ens. eapply ensures_bind.
  { apply ensures_set_mode. pose proof (one_bit a 8). unfold MASK_SPP, word64 in *. lia. }
  intros _ _. cbv zeta. eapply ensures_bind; [apply ensures_csr_put|].
  { apply u64_land_l, u64_lor; [|by vm_compute]. apply u64_lor; [by apply u64_land_l|]. by apply one_bit_shifted. }
  intros _ _. ens. apply ensures_ret. by apply u64_land_l.
Qed.

Lemma ensures_mret : ensures (executeMRET) word64.
Proof using Type.
  unfold executeMRET. ens. eapply ensures_bind.
  { apply ensures_set_mode. pose proof (two_bits a 11). unfold MASK_MPP, word64 in *. lia. }
  intros _ _. cbv zeta. eapply ensures_bind; [apply ensures_csr_put|].
  { apply u64_if; [apply u64_land_l|]; (apply u64_land_l, u64_lor; [|by vm_compute]);
      (apply u64_lor; [by apply u64_land_l|]; by apply one_bit_shifted). }
  intros _ _. ens. apply ensures_ret. by apply u64_land_l.
Qed.
(** The executors in the order of the decoding tables. *)
Ltac arith := unfold word64, sext8, sext16, sext32 in *; intros; u64.
Ltac head t := lazymatch t with ?f _ => head f | _ => t end.
Ltac executor :=
  lazymatch goal with |- ensures ?m _ => let h := head m in unfold h end;
  lazymatch goal with
  | |- ensures (unary _ _) _ => apply ensures_unary; arith
  | |- ensures (binary _ _) _ => apply ensures_binary; arith
  | |- ensures (shift_executor _ _) _ => apply ensures_shift; arith
  | |- ensures (int_executor _ _) _ => apply ensures_int
  | |- ensures (branch _ _) _ => apply ensures_branch
  | |- ensures (load_executor _ _ _) _ => apply ensures_load_executor; arith
  | |- ensures (store_executor _ _) _ => apply ensures_store_executor
  | |- ensures update_pc _ => apply ensures_update_pc
  end.

Lemma ensures_lui : ensures (executeLui inst) word64.
Proof using Type.
  unfold executeLui. eapply ensures_bind; [apply ensures_set_reg, u64_range|intros _ _]. apply ensures_update_pc.
Qed.
Lemma ensures_auipc : ensures (executeAUIPC inst) word64.
Proof using Type.
  unfold executeAUIPC. ens. eapply ensures_bind; [apply ensures_set_reg, u64_range|intros _ _].
  apply ensures_update_pc.
Qed.
Lemma ensures_jal : ensures (executeJAL inst) word64.
Proof using Type.
  unfold executeJAL. ens. eapply ensures_bind; [apply ensures_set_reg, u64_range|intros _ _].
  apply ensures_get_u64.
Qed.
Lemma ensures_jalr : ensures (executeJALR inst) word64.
Proof using Type.
  unfold executeJALR. do 2 ens. eapply ensures_bind; [apply ensures_set_reg, u64_range|intros _ _].
  apply ensures_ret, u64_land_l, u64_range.
Qed.
Lemma ensures_csr_rw : ensures (executeCSR_RW inst) word64.
Proof using Type. unfold executeCSR_RW. do 4 ens. apply ensures_update_pc. Qed.
Lemma ensures_csr_rs : ensures (executeCSR_RS inst) word64.
Proof using Type. apply (csr_rw_ok (get_reg _) Z.lor); [apply u64_lor|apply ensures_get_reg]. Qed.
Lemma ensures_csr_rc : ensures (executeCSR_RC inst) word64.
Proof using Type.
  apply (csr_rw_ok (get_reg _) (λ t a, Z.land t (u64 (Z.lnot a)))); [|apply ensures_get_reg].
  intros. by apply u64_land_l.
Qed.
Lemma ensures_csr_imm v : is_u64 v →
  ensures (let* t := csr_get (csr_field inst) in set_reg (field_rd inst) t;;;
           csr_put (csr_field inst) v;;; update_pc) word64.
Proof using Type. intros. do 3 ens. apply ensures_update_pc. Qed.
Lemma ensures_csr_rwi : ensures (executeCSR_RWI inst) word64.
Proof using Type. apply ensures_csr_imm. pose proof (field_range inst 15). unfold field_rs1. lia. Qed.
Lemma ensures_csr_rsi : ensures (executeCSR_RSI inst) word64.
Proof using Type.
  unfold executeCSR_RSI. do 2 ens. eapply ensures_bind; [apply ensures_csr_put, u64_lor; [done|apply u64_range]|].
  intros _ _. apply ensures_update_pc.
Qed.
Lemma ensures_csr_rci : ensures (executeCSR_RCI inst) word64.
Proof using Type.
  unfold executeCSR_RCI. do 2 ens. eapply ensures_bind; [by apply ensures_csr_put, u64_land_l|].
  intros _ _. apply ensures_update_pc.
Qed.
Lemma ensures_ebreak : ensures (executeEBREAK inst) word64.
Proof using Hinst. apply ensures_throw; done || lia. Qed.

Lemma opcodeTable_ok opcode m : opcodeTable inst opcode = Some m → ensures m word64.
Proof using Type.
  unfold opcodeTable. intros H. repeat case_match; simplify_eq;
    auto using ensures_lui, ensures_auipc, ensures_jal, ensures_jalr.
Qed.

Lemma instructionMap_ok opcode f3 m : instructionMap inst opcode f3 = Some m → ensures m word64.
Proof using Type.
  unfold instructionMap. intros H. repeat case_match; simplify_eq;
    first [ apply ensures_csr_rw | apply ensures_csr_rs | apply ensures_csr_rc | apply ensures_csr_rwi
          | apply ensures_csr_rsi | apply ensures_csr_rci | executor ].
Qed.

Lemma instruction2Map_ok opcode f3 f7 m : instruction2Map inst opcode f3 f7 = Some m → ensures m word64.
Proof using Hinst.
  unfold instruction2Map. intros H. repeat case_match; simplify_eq;
    first [ apply ensures_ecall | apply ensures_ebreak | apply ensures_sret | apply ensures_mret | executor ].
Qed.

Lemma decode_ok m : decode inst = Some m → ensures m word64.
Proof using Hinst.
  unfold decode. intros H.
  destruct (opcodeTable _ _) eqn:E; [simplify_eq; by eapply opcodeTable_ok|].
  destruct (instructionMap _ _ _) eqn:E1; [simplify_eq; by eapply instructionMap_ok|].
  destruct (instruction2Map _ _ _ (funct7_of inst)) eqn:E2; [simplify_eq|]; by eapply instruction2Map_ok.
Qed.

Lemma execute_ok : ensures (execute inst) word64.
Proof using Hinst.
  unfold execute. eapply ensures_bind; [by apply ensures_set_reg|intros _ _].
  destruct (decode inst) eqn:E; [by apply decode_ok|apply ensures_abort].
Qed.
End executors.

(** ** Traps and the main loop *)

Lemma trap_status_ok r from s :
  is_u64 s → is_u64 (tr_mask_ie r) → 0 ≤ tr_ie r → 0 ≤ tr_pie r →
  is_u64 (Z.shiftl (Z.shiftr (Z.land s (tr_mask_ie r)) (tr_ie r)) (tr_pie r)) →
  is_u64 (trap_status r from s).
Proof.
  intros. unfold trap_status. apply u64_lor; [|apply u64_range].
  by apply u64_land_l, u64_land_l, u64_lor; [apply u64_land_l|].
Qed.

Lemma s_trap_ok from s : is_u64 s → is_u64 (trap_status s_trap from s).
Proof. intros. apply trap_status_ok; try done; cbn; try lia. by apply one_bit_shifted. Qed.
Lemma m_trap_ok from s : is_u64 s → is_u64 (trap_status m_trap from s).
Proof. intros. apply trap_status_ok; try done; cbn; try lia. by apply one_bit_shifted. Qed.

Lemma enter_trap_ok (b : bool) cause tval c :
  cpu_ok c → is_u64 cause → is_u64 tval → cpu_ok (enter_trap (if b then s_trap else m_trap) cause tval c).
Proof.
  intros Hc Hcause Hv. pose proof (co_csr _ Hc) as Hr. pose proof (co_pc _ Hc) as Hp. unfold enter_trap.
  set (r := if b then s_trap else m_trap).
  assert (csr_ok (csr_store (tr_tval r) tval (csr_store (tr_cause r) cause (csr_store (tr_epc r) (pc c) (csr c))))) as Hcs
    by (repeat apply csr_store_ok; done).
  destruct Hc as [? ? Hm ? ?]. split; cbn; try done.
  - by apply u64_land_l, csr_load_range.
  - by destruct b.
  - apply csr_store_ok; [done|]. pose proof (csr_load_range (tr_status r) _ Hcs).
    unfold r. destruct b; [by apply s_trap_ok|by apply m_trap_ok].
Qed.

Lemma handle_exception_ok e c : cpu_ok c → is_u64 (exc_value e) → cpu_ok (handle_exception e c).
Proof. intros. apply enter_trap_ok; [done| |done]. by destruct (exc_type e). Qed.

Lemma first_pending_range l bits i :
  Forall (λ p, is_u64 p.2) l → first_pending l bits = Some i → is_u64 i.
Proof.
  induction 1 as [|[m k] l Hk _ IH]; cbn; [done|]. case_match; [|done]. intros [= <-].
  by apply u64_lor.
Qed.

Lemma check_pending_range c i : check_pending_interrupts c = Some i → is_u64 i.
Proof.
  assert (Forall (λ p, is_u64 p.2) m_interrupts ∧ Forall (λ p, is_u64 p.2) s_interrupts) as [? ?]
    by (split; repeat (constructor; [by vm_compute|]); constructor).
  assert (∀ (b : bool) l bits, Forall (λ p, is_u64 p.2) l →
    (if b then first_pending l bits else None) = Some i → is_u64 i) as Hp.
  { intros [] l bits; [apply first_pending_range|done]. }
  unfold check_pending_interrupts. cbv zeta. destruct (mode c =? Machine); [by apply Hp|].
  destruct (if negb (Z.land (csr_load MSTATUS (csr c)) MASK_MIE =? 0) then _ else _) eqn:E; [|by apply Hp].
  intros [= ->]. by eapply Hp; [|exact E].
Qed.

Lemma tick_timer_ok c : cpu_ok c → cpu_ok (tick_timer c).
Proof.
  intros Hc. unfold tick_timer, Clint.tick. cbv zeta.
  assert (cpu_ok (c <| bus_of := (bus_of c) <| bus_clint := (bus_clint (bus_of c)) <| mtime :=
            u64 (mtime (bus_clint (bus_of c)) + 1) |> |> |>)) as H.
  { apply cpu_ok_bus; [done|]. destruct (co_bus _ Hc) as [? ? ? [? ?] ? ? ? ? ?]. split; try done. split; [apply u64_range|done]. }
  pose proof (csr_load_range MIP _ (co_csr _ Hc)).
  destruct H as [? ? ? ? ?]. split; try done. apply (csr_store_ok MIP); [done|].
  case_match; [by apply u64_lor|by apply u64_land_l].
Qed.

Definition loop_ok (r : loop_result) : Prop :=
  match r with Continue c | Stop c | Aborted c | Broken c => cpu_ok c end.

Lemma step_ok c : cpu_ok c → loop_ok (step c).
Proof.
  intros Hc. unfold step. destruct (halted _); [done|]. pose proof (tick_timer_ok c Hc) as Ht.
  revert Ht. generalize (tick_timer c). clear c Hc. intros c Hc.
  destruct (check_pending_interrupts c) as [i|] eqn:E.
  { apply enter_trap_ok; [done| |lia]. by eapply check_pending_range. }
  assert (ensures (let* inst := fetch in execute inst) word64) as He.
  { eapply ensures_bind; [apply ensures_fetch|]. intros i Hi. by apply execute_ok. }
  destruct (He c Hc) as [Hr Hc']. destruct (bind fetch execute c) as [[p|e| |] c'] eqn:E'; cbn in Hr, Hc' |- *; try done.
  - by destruct Hc'; split.
  - pose proof (handle_exception_ok e c' Hc' (proj1 Hr)). by case_match.
Qed.

Lemma init_cpu_ok code disk : bytes code → ram_ok disk → cpu_ok (init_cpu code disk).
Proof.
  intros Hb Hd. assert (∀ n, bytes (replicate n 0)) as H0 by (intros; by apply Forall_replicate).
  split.
  - by vm_compute.
  - split; [done|]. apply Forall_insert; [|by vm_compute]. by apply Forall_replicate.
  - done.
  - apply map_Forall_empty.
  - split; try done.
    + apply ram_ok_store_bytes; [apply ram_ok_empty|done].
    + split; [done|]. apply aset_u8; [apply H0|by vm_compute].
    + split; [done|apply H0].
Qed.

(** ** Runs *)

(** [n] rounds of the main loop. *)
Fixpoint run (n : nat) (c : cpu) : loop_result :=
  match n with
  | O => Continue c
  | S n => match step c with Continue c => run n c | r => r end
  end.

Lemma run_ok n c : cpu_ok c → loop_ok (run n c).
Proof.
  revert c. induction n as [|n IH]; intros c Hc; [done|]. cbn.
  pose proof (step_ok c Hc) as H. destruct (step c); [by apply IH|done..].
Qed.
