(* ===== verification/CpuTrap.v ===== *)
(** * Traps of the emulated CPU: what a kernel can rely on

    The emulator as a transition system ([emu]: rounds of the main loop interleaved
    with the listener thread that delivers keys), its type invariant, trap entry
    and return, and the way of the timer from the CLINT to [stvec]. *)

From S2P Require Import Prelude Csr Mem Vm Device Cpu CpuType.

(** ** Bits of the status register *)

Lemma testbit_mask k n : 0 ≤ k → 0 ≤ n → Z.testbit (Z.shiftl 1 k) n = bool_decide (n = k).
Proof.
  intros Hk Hn. rewrite Z.shiftl_spec by lia. case_bool_decide; [by replace (n - k) with 0 by lia|].
  destruct (decide (n < k)); [by apply Z.testbit_neg_r; lia|].
  apply (Z.bits_above_log2 1); [lia|]. cbn. lia.
Qed.

Lemma testbit_field s k j n :
  0 ≤ k → 0 ≤ j → 0 ≤ n →
  Z.testbit (Z.shiftl (Z.shiftr (Z.land s (Z.shiftl 1 k)) k) j) n = bool_decide (n = j) && Z.testbit s k.
Proof.
  intros Hk Hj Hn. rewrite Z.shiftl_spec by lia. destruct (decide (n < j)).
  { rewrite bool_decide_eq_false_2 by lia. by rewrite Z.testbit_neg_r by lia. }
  rewrite Z.shiftr_spec, Z.land_spec, testbit_mask by lia. repeat case_bool_decide; subst; try lia;
    by rewrite ?Z.sub_diag, ?Z.add_0_l, ?andb_true_r, ?andb_false_r.
Qed.

Lemma testbit_mode from k n :
  0 ≤ from ≤ 1 → 0 ≤ k < 63 → 0 ≤ n → Z.testbit (u64 (Z.shiftl from k)) n = bool_decide (n = k) && (from =? 1).
Proof.
  intros Hf Hk Hn. assert (from = 0 ∨ from = 1) as [-> | ->] by lia.
  - rewrite Z.shiftl_0_l, Z.bits_0. symmetry. apply andb_false_r.
  - rewrite u64_small; [rewrite testbit_mask by lia; symmetry; apply andb_true_r|].
    rewrite Z.shiftl_mul_pow2 by lia. pose proof (Z.pow_lt_mono_r 2 k 63). pose proof (Z.pow_pos_nonneg 2 k). lia.
Qed.

Lemma trap_status_bit from s n :
  is_u64 s → 0 ≤ from ≤ 1 → 0 ≤ n →
  Z.testbit (trap_status s_trap from s) n =
    if decide (n = 8) then from =? 1
    else if decide (n = 1) then false
    else if decide (n = 5) then Z.testbit s 1 else Z.testbit s n.
Proof.
  intros Hs Hf Hn. unfold trap_status, s_trap; cbn [tr_mask_ie tr_ie tr_mask_pie tr_pie tr_mask_pp tr_pp].
  unfold MASK_SIE, MASK_SPIE, MASK_SPP.
  assert (is_u64 (Z.shiftl (Z.shiftr (Z.land s (Z.shiftl 1 1)) 1) 5)) by by apply one_bit_shifted.
  rewrite !land_u64_lnot by
    (repeat first [assumption | apply u64_land_l | apply u64_lor | rewrite <- land_u64_lnot]).
  rewrite Z.lor_spec, testbit_mode, !Z.ldiff_spec, Z.lor_spec, testbit_field, Z.ldiff_spec, !testbit_mask by lia.
  repeat case_decide; subst; repeat case_bool_decide; try lia; cbn;
    rewrite ?andb_true_r, ?andb_false_r, ?orb_false_r; done.
Qed.

(** The word SRET writes back. *)
Definition sret_status (s : Z) : Z :=
  Z.land (Z.lor (Z.lor (Z.land s (u64 (Z.lnot MASK_SIE)))
                       (Z.shiftl (Z.shiftr (Z.land s MASK_SPIE) 5) 1)) MASK_SPIE) (u64 (Z.lnot MASK_SPP)).

Lemma sret_eq c :
  executeSRET c =
    let s := csr_load SSTATUS (csr c) in
    let cs := csr_store SSTATUS (sret_status s) (csr c) in
    (Return (Z.land (csr_load SEPC cs) (u64 (Z.lnot 3))),
     c <| mode := Z.shiftr (Z.land s MASK_SPP) 8 |> <| csr := cs |>).
Proof. reflexivity. Qed.

Lemma sret_status_bit s n :
  is_u64 s → 0 ≤ n →
  Z.testbit (sret_status s) n =
    if decide (n = 8) then false
    else if decide (n = 5) then true
    else if decide (n = 1) then Z.testbit s 5 else Z.testbit s n.
Proof.
  intros Hs Hn. unfold sret_status, MASK_SIE, MASK_SPIE, MASK_SPP.
  assert (is_u64 (Z.shiftl (Z.shiftr (Z.land s (Z.shiftl 1 5)) 5) 1)) by by apply one_bit_shifted.
  rewrite (land_u64_lnot s), land_u64_lnot; [..|done].
  2:{ apply u64_lor; [|done]. apply u64_lor; [|done]. rewrite <- land_u64_lnot by done. by apply u64_land_l. }
  rewrite Z.ldiff_spec, !Z.lor_spec, testbit_field, Z.ldiff_spec, !testbit_mask by lia.
  repeat case_decide; subst; repeat case_bool_decide; try lia; cbn;
    rewrite ?andb_true_r, ?andb_false_r, ?orb_false_r, ?orb_true_r; done.
Qed.

(** The control registers a trap into S-mode writes. *)
Definition s_trap_saved (cause tval : Z) (c : cpu) : csr_file :=
  csr_store STVAL tval (csr_store SCAUSE cause (csr_store SEPC (pc c) (csr c))).
Lemma s_trap_csr cause tval c :
  csr (enter_trap s_trap cause tval c) =
  csr_store SSTATUS (trap_status s_trap (mode c) (csr_load SSTATUS (s_trap_saved cause tval c)))
    (s_trap_saved cause tval c).
Proof. reflexivity. Qed.

Lemma s_trap_status cause tval c :
  csr_load SSTATUS (csr (enter_trap s_trap cause tval c)) =
  Z.land (trap_status s_trap (mode c) (csr_load SSTATUS (csr c))) MASK_SSTATUS.
Proof.
  rewrite s_trap_csr. etrans; [apply status_store_load|]. f_equal. f_equal. unfold s_trap_saved.
  by rewrite !csr_load_store_plain_ne by (done || by split_and!).
Qed.

Lemma s_trap_regs cause tval c :
  let c' := enter_trap s_trap cause tval c in
  csr_load SEPC (csr c') = pc c ∧ csr_load SCAUSE (csr c') = cause ∧ csr_load STVAL (csr c') = tval ∧
  pc c' = Z.land (csr_load STVEC (csr c)) (u64 (Z.lnot 3)) ∧ mode c' = Supervisor ∧
  regs c' = regs c ∧ bus_of c' = bus_of c.
Proof.
  assert (plain SEPC ∧ plain SCAUSE ∧ plain STVAL) as (H1 & H2 & H3) by by split_and!.
  cbv zeta. rewrite s_trap_csr. rewrite !csr_load_store_status_ne by done. unfold s_trap_saved.
  split_and!; try done.
  - rewrite !csr_load_store_plain_ne by done. by apply csr_load_store_plain_eq.
  - rewrite csr_load_store_plain_ne by done. by apply csr_load_store_plain_eq.
  - by apply csr_load_store_plain_eq.
Qed.

(** C33: a delegated exception taken in U- or S-mode followed by SRET, as the
    kernel's trap vector executes it, resumes at the interrupted (aligned) pc in the
    interrupted mode, with the registers and memory untouched and the supervisor
    interrupt enable restored; of the other visible status bits only SPIE (set) and
    SPP (cleared) may differ.  While the handler runs, supervisor interrupts are
    disabled. *)
Theorem trap_return_roundtrip (e : Exception) (c : cpu) :
  cpu_ok c → mode c ≤ Supervisor → is_medelegated (exception_code (exc_type e)) (csr c) = true →
  pc c mod 4 = 0 →
  let c1 := handle_exception e c in
  let r := (executeSRET c1).1 in
  let c2 := (executeSRET c1).2 in
  Z.testbit (csr_load SSTATUS (csr c1)) 1 = false ∧
  r = Return (pc c) ∧ mode c2 = mode c ∧ regs c2 = regs c ∧ bus_of c2 = bus_of c ∧
  (∀ n, 0 ≤ n → n ≠ 5 → n ≠ 8 →
     Z.testbit (csr_load SSTATUS (csr c2)) n = Z.testbit (csr_load SSTATUS (csr c)) n).
Proof.
  intros Hc Hm Hd Hpc. pose proof (co_mode _ Hc) as Hm0.
  unfold handle_exception. rewrite Hd, (proj2 (Z.leb_le _ _) Hm). cbv zeta. cbn [andb]. unfold Supervisor in Hm.
  set (c1 := enter_trap s_trap (exception_code (exc_type e)) (exc_value e) c).
  pose proof (s_trap_regs (exception_code (exc_type e)) (exc_value e) c) as (Hepc & _ & _ & _ & _ & Hregs & Hbus).
  pose proof (s_trap_status (exception_code (exc_type e)) (exc_value e) c) as Hst.
  fold c1 in Hepc, Hregs, Hbus, Hst. set (s0 := csr_load SSTATUS (csr c)) in *.
  assert (is_u64 s0) as Hs0 by apply status_range.
  assert (∀ n, 0 ≤ n → Z.testbit s0 n = Z.testbit s0 n && Z.testbit MASK_SSTATUS n) as Hmask.
  { intros n Hn. rewrite <- Z.land_spec. f_equal. symmetry. apply status_masked. }
  assert (∀ n, 0 ≤ n → Z.testbit (csr_load SSTATUS (csr c1)) n =
    if decide (n = 8) then mode c =? 1 else if decide (n = 1) then false
    else if decide (n = 5) then Z.testbit s0 1 else Z.testbit s0 n) as Hbits.
  { intros n Hn. rewrite Hst, Z.land_spec, trap_status_bit by (done || lia).
    repeat case_decide; subst; try (by rewrite andb_true_r); [apply andb_true_r..|]. by rewrite <- Hmask. }
  rewrite sret_eq. cbv zeta. cbn [fst snd]. split_and!.
  - by rewrite Hbits.
  - f_equal. rewrite csr_load_store_status_ne by by split_and!. rewrite Hepc, land_u64_lnot by apply (co_pc _ Hc).
    apply Z.bits_inj'. intros n Hn. rewrite Z.ldiff_spec. change 3 with (Z.ones 2).
    destruct (decide (n < 2)).
    + rewrite Z.ones_spec_low, andb_false_r by lia. symmetry.
      rewrite <- (Z.mod_pow2_bits_low (pc c) 2) by lia. change (2 ^ 2) with 4. by rewrite Hpc, Z.bits_0.
    + rewrite Z.ones_spec_high by lia. apply andb_true_r.
  - cbn [mode]. apply Z.bits_inj'. intros n Hn.
    change (mode (_ <| csr := _ |>)) with (Z.shiftr (Z.land (csr_load SSTATUS (csr c1)) MASK_SPP) 8).
    unfold MASK_SPP. rewrite Z.shiftr_spec, Z.land_spec, testbit_mask, Hbits by lia.
    assert (mode c = 0 ∨ mode c = 1) as [-> | ->] by lia; repeat case_decide; repeat case_bool_decide; try lia; cbn;
      rewrite ?Z.bits_0, ?andb_false_r; try done.
    + by replace n with 0 by lia.
    + by rewrite (Z.bits_above_log2 1) by (cbn; lia).
  - done.
  - done.
  - intros n Hn H5 H8. etrans; [|symmetry; by apply Hmask].
    match goal with |- Z.testbit ?x n = _ =>
      assert (x = Z.land (sret_status (csr_load SSTATUS (csr c1))) MASK_SSTATUS) as -> by apply status_store_load end.
    rewrite Z.land_spec. f_equal.
    rewrite sret_status_bit by (done || apply status_range). rewrite !Hbits by lia.
    repeat case_decide; try lia; by subst.
Qed.

Lemma bit_test x k : 0 ≤ k → negb (Z.land x (Z.shiftl 1 k) =? 0) = Z.testbit x k.
Proof.
  intros Hk. destruct (Z.testbit x k) eqn:E.
  - apply negb_true_iff, Z.eqb_neq. intros H. apply (f_equal (λ z, Z.testbit z k)) in H.
    rewrite Z.land_spec, testbit_mask, E, Z.bits_0, bool_decide_eq_true_2 in H by lia. done.
  - apply negb_false_iff, Z.eqb_eq. apply Z.bits_inj'. intros n Hn.
    rewrite Z.land_spec, testbit_mask, Z.bits_0 by lia. case_bool_decide; [by subst; rewrite E|apply andb_false_r].
Qed.

Lemma delegated_bit d p s m n :
  0 ≤ s → 0 ≤ m → 0 ≤ n →
  Z.testbit (delegated d p s m) n = Z.testbit d s && Z.testbit p m && bool_decide (n = s).
Proof.
  intros Hs Hm Hn. unfold delegated. rewrite !bit_test by done.
  destruct (Z.testbit d s), (Z.testbit p m); cbn; rewrite ?Z.bits_0, ?testbit_mask by done; done.
Qed.

Lemma sip_bit c n :
  0 ≤ n →
  Z.testbit (csr_load SIP c) n =
    (bool_decide (n = 1) && (Z.testbit (raw c MIDELEG) 1 && Z.testbit (raw c MIP) 3)) ||
    (bool_decide (n = 5) && (Z.testbit (raw c MIDELEG) 5 && Z.testbit (raw c MIP) 7)) ||
    (bool_decide (n = 9) && (Z.testbit (raw c MIDELEG) 9 && Z.testbit (raw c MIP) 11)).
Proof.
  intros Hn.
  change (csr_load SIP c) with
    (Z.lor (Z.lor (delegated (raw c MIDELEG) (raw c MIP) 1 3) (delegated (raw c MIDELEG) (raw c MIP) 5 7))
           (delegated (raw c MIDELEG) (raw c MIP) 9 11)).
  rewrite !Z.lor_spec, !delegated_bit by lia.
  by rewrite <- !(andb_comm (bool_decide _)).
Qed.

(** ** The timer *)

(** The supervisor timer interrupt is the only one that can be taken. *)
Record timer_armed (c : cpu) : Prop := {
  ta_mode : mode c ≤ Supervisor;
  ta_mie : Z.testbit (raw (csr c) MSTATUS) 3 = false;
  ta_sie : Z.testbit (csr_load SSTATUS (csr c)) 1 = true;
  ta_deleg : Z.testbit (raw (csr c) MIDELEG) 5 = true;
  ta_stie : Z.testbit (csr_load SIE (csr c)) 5 = true;
  ta_no_soft : Z.testbit (raw (csr c) MIP) 3 = false;
  ta_no_ext : Z.testbit (raw (csr c) MIP) 11 = false;
  ta_due : mtimecmp (bus_clint (bus_of c)) ≤ u64 (mtime (bus_clint (bus_of c)) + 1);
}.

Lemma tick_timer_csr c a :
  mtimecmp (bus_clint (bus_of c)) ≤ u64 (mtime (bus_clint (bus_of c)) + 1) →
  raw (csr (tick_timer c)) a = if decide (a = MIP) then Z.lor (raw (csr c) MIP) MASK_MTIP else raw (csr c) a.
Proof.
  intros Hd. unfold tick_timer, Clint.tick. cbv zeta.
  change (mtimecmp (_ <| mtime := _ |>)) with (mtimecmp (bus_clint (bus_of c))).
  change (mtime (_ <| mtime := ?x |>)) with x. rewrite (proj2 (Z.leb_le _ _) Hd).
  change (raw (csr (_ <| csr := ?x |>))) with (raw x).
  change (csr_store MIP ?v ?x) with (<[MIP := v]> x).
  case_decide; [subst; rewrite raw_insert_eq; done|by rewrite raw_insert_ne].
Qed.

Lemma timer_pending c :
  cpu_ok c → timer_armed c → check_pending_interrupts (tick_timer c) = Some (Z.lor 5 INTERRUPT_BIT).
Proof.
  intros Hc [Hm Hmie Hsie Hdel Hst Hs He Hdue]. pose proof (tick_timer_csr c) as Hr.
  assert (∀ a, a ≠ MIP → raw (csr (tick_timer c)) a = raw (csr c) a) as Hr'
    by (intros; rewrite Hr by done; by rewrite decide_False).
  unfold check_pending_interrupts. cbv zeta.
  change (mode (tick_timer c)) with (mode c).
  assert (mode c =? Machine = false) as -> by (apply Z.eqb_neq; unfold Machine, Supervisor in *; lia).
  change (csr_load MSTATUS ?x) with (raw x MSTATUS). rewrite Hr' by done.
  unfold MASK_MIE, MASK_SIE. rewrite !bit_test, Hmie by lia.
  change (csr_load SSTATUS ?x) with (Z.land (raw x MSTATUS) MASK_SSTATUS). rewrite Hr' by done.
  change (Z.land (raw (csr c) MSTATUS) MASK_SSTATUS) with (csr_load SSTATUS (csr c)). rewrite Hsie.
  unfold s_interrupts. cbn [first_pending]. unfold MASK_SEIP, MASK_SSIP, MASK_STIP. rewrite !bit_test by lia.
  change (csr_load SIE ?x) with (Z.land (raw x MIE) (raw x MIDELEG)) in *.
  rewrite !Z.land_spec, !sip_bit, !(Hr' MIDELEG), !(Hr' MIE) by (lia || done). rewrite Hr, decide_True by done.
  rewrite !Z.lor_spec, Hs, He, Hdel. unfold MASK_MTIP. rewrite !testbit_mask by lia.
  rewrite Z.land_spec, Hdel, andb_true_r in Hst. rewrite Hst. cbn.
  by rewrite ?orb_true_r, !andb_false_r.
Qed.

Lemma timer_delegated c :
  Z.testbit (raw (csr c) MIDELEG) 5 = true → is_midelegated 5 (csr c) = true.
Proof.
  intros H. unfold is_midelegated. apply Z.eqb_eq. change (csr_load MIDELEG ?x) with (raw x MIDELEG).
  apply Z.bits_inj'. intros n Hn. rewrite Z.land_spec, Z.shiftr_spec by lia.
  change 1 with (Z.shiftl 1 0). rewrite testbit_mask by lia.
  case_bool_decide; [subst; change (0 + 5) with 5; by rewrite H|apply andb_false_r].
Qed.

(** C34: when mtime reaches mtimecmp while a process or the kernel runs with
    supervisor interrupts enabled and the timer interrupt delegated, the next round
    of the emulator does not execute an instruction but enters the kernel: pc is the
    trap vector, sepc the interrupted pc, scause the supervisor timer interrupt,
    the registers are those of the interrupted code, and interrupts are disabled. *)
Theorem timer_interrupt_taken (c : cpu) :
  cpu_ok c → halted (bus_of c) = false → timer_armed c →
  ∃ c', step c = Continue c' ∧ mode c' = Supervisor ∧
    pc c' = Z.land (csr_load STVEC (csr c)) (u64 (Z.lnot 3)) ∧
    csr_load SEPC (csr c') = pc c ∧ csr_load SCAUSE (csr c') = Z.lor 5 INTERRUPT_BIT ∧
    regs c' = regs c ∧ Z.testbit (csr_load SSTATUS (csr c')) 1 = false.
Proof.
  intros Hc Hh Ht. pose proof (timer_pending c Hc Ht) as Hp. pose proof (tick_timer_ok c Hc) as Hc1.
  unfold step. rewrite Hh, Hp. exists (handle_interrupt (Z.lor 5 INTERRUPT_BIT) (tick_timer c)).
  split; [done|]. unfold handle_interrupt. change (mode (tick_timer c)) with (mode c).
  change (Z.land (Z.lor 5 INTERRUPT_BIT) 0x7fffffffffffffff) with 5.
  pose proof (ta_due _ Ht) as Hdue. pose proof (tick_timer_csr c) as Hr.
  rewrite (proj2 (Z.leb_le _ _) (ta_mode _ Ht)), timer_delegated.
  2:{ rewrite Hr by done. apply (ta_deleg _ Ht). }
  cbn [andb]. pose proof (s_trap_regs (Z.lor 5 INTERRUPT_BIT) 0 (tick_timer c)) as (H1 & H2 & _ & H4 & H5 & H6 & _).
  split_and!; try done.
  - rewrite H4. f_equal. change (csr_load STVEC ?x) with (raw x STVEC). by rewrite Hr.
  - rewrite s_trap_status, Z.land_spec, trap_status_bit.
    + done.
    + apply status_range.
    + pose proof (co_mode _ Hc1). pose proof (ta_mode _ Ht). unfold Supervisor in *.
      change (mode (tick_timer c)) with (mode c) in *. lia.
    + lia.
Qed.

(** ** The emulator as a transition system *)

(** A round of the main loop, or the listener thread storing a key. *)
Inductive emu : cpu → cpu → Prop :=
| emu_round c c' : step c = Continue c' → emu c c'
| emu_key c b u :
    is_u8 b → Uart.uart_receive b (bus_uart (bus_of c)) = Some u →
    emu c (c <| bus_of := (bus_of c) <| bus_uart := u |> |>).

Lemma emu_ok c c' : emu c c' → cpu_ok c → cpu_ok c'.
Proof.
  intros [c1 c2 Hs|c1 b u Hb Hu] Hc.
  - pose proof (step_ok c1 Hc) as H. by rewrite Hs in H.
  - apply cpu_ok_bus; [done|]. destruct (co_bus _ Hc) as [? [Hl Hr] ? ? ? ? ? ? ?].
    unfold Uart.uart_receive in Hu. case_match; simplify_eq. split; try done. split.
    + etrans; [|exact Hl]. etrans; [apply length_aset|apply length_aset].
    + assert (bytes (aset (uart_regs (bus_uart (bus_of c1))) UART_RHR b)) by by apply aset_u8.
      apply aset_u8; [done|].
      match goal with |- is_u8 (Z.lor ?x _) => assert (is_u8 x) as Hx by by apply aget_u8 end.
      revert Hx. match goal with |- is_u8 ?x → _ => generalize x end. intros x Hx.
      assert (Z.lor x 1 ≤ 255 ∧ 0 ≤ Z.lor x 1); [|unfold MASK_UART_LSR_RX; lia].
      pose proof (Z.lor_nonneg x 1). split; [|lia].
      destruct (decide (x = 0)) as [->|]; [done|].
      pose proof (Z.log2_lor x 1). pose proof (Z.log2_le_mono x 255).
      change (Z.log2 255) with 7 in *. change (Z.log2 1) with 0 in *.
      destruct (Z.lt_ge_cases (Z.lor x 1) 256); [lia|].
      pose proof (Z.log2_le_mono 256 (Z.lor x 1)). change (Z.log2 256) with 8 in *. lia.
Qed.


(** C35: an instruction no decoding table knows ends the emulator through
    [LOG(ERROR, ..)], and no instruction at all raises [IllegalInstruction]: the
    throw after the log line is never reached, so a guest cannot handle it. *)
Theorem illegal_instruction_never_raised (inst : Z) (c : cpu) :
  cpu_ok c → is_u32 inst →
  (decode inst = None → (Cpu.execute inst c).1 = Abort) ∧
  (∀ e, (Cpu.execute inst c).1 = Throw e → exc_type e ≠ IllegalInstruction).
Proof.
  intros Hc Hi. split.
  - intros Hd. unfold execute. rewrite Hd. done.
  - intros e He. destruct (execute_ok inst Hi c Hc) as [Hr _]. rewrite He in Hr. apply Hr.
Qed.

(** ** Witnesses *)

(** A process in U-mode with the timer and exceptions delegated, about to be
    interrupted: [mtime] is past [mtimecmp]. *)
Definition demo : cpu :=
  (init_cpu [] ∅) <| mode := User |>
    <| csr := {[MEDELEG := 0x100; MIDELEG := 0x20; MIE := 0x20; MSTATUS := 2; STVEC := 0x80001000]} |>.

Lemma demo_csr_ok : csr_ok (csr demo).
Proof. change (csr_ok (csr demo)) with (map_Forall (λ _ v, is_u64 v) (csr demo)). apply (bool_decide_unpack _). by vm_compute. Qed.

Lemma demo_ok : cpu_ok demo.
Proof.
  destruct (init_cpu_ok [] ∅) as [? ? ? ? ?]; [constructor|apply ram_ok_empty|].
  split; try done. apply demo_csr_ok.
Qed.

Lemma trap_return_roundtrip_witness :
  let e := Exc EnvironmentCallFromUMode 0x73 in
  mode demo ≤ Supervisor ∧ is_medelegated 8 (csr demo) = true ∧
  (executeSRET (handle_exception e demo)).1 = Return (pc demo).
Proof.
  split; [by vm_compute|]. split; [by vm_compute|].
  by apply (trap_return_roundtrip (Exc EnvironmentCallFromUMode 0x73) demo demo_ok); vm_compute.
Defined.

Lemma timer_interrupt_taken_witness :
  timer_armed demo ∧ ∃ c', step demo = Continue c' ∧ csr_load SCAUSE (csr c') = 2 ^ 63 + 5.
Proof.
  assert (timer_armed demo) as Ht by (split; by vm_compute).
  split; [exact Ht|].
  destruct (timer_interrupt_taken demo demo_ok) as (c' & Hs & _ & _ & _ & Hc & _); [done|exact Ht|].
  exists c'. split; [exact Hs|exact Hc].
Defined.


Lemma illegal_instruction_never_raised_witness :
  decode 0 = None ∧ (Cpu.execute 0 demo).1 = Abort.
Proof.
  split; [by vm_compute|]. apply (illegal_instruction_never_raised 0 demo demo_ok); [lia|by vm_compute].
Defined.
