(* ===== verification/Isa.v ===== *)
(** * RV64I: the reference the emulator is measured against

    [instr] is the abstract syntax of the base instructions, [encode] their 32-bit
    words (RISC-V unprivileged specification, formats R, I, S, B, U and J) and
    [exec] what the specification says they do, written with plain arithmetic on
    two's complement numbers.  [Cpu.execute] is compared with it: where they agree,
    by [execute_conforms], and where they do not, by the theorems at the end. *)

From S2P Require Import Prelude Csr Mem Vm Device Cpu.

(** ** Syntax *)

Inductive alu_op := ADD | SUB | SLL | SLT | SLTU | XOR | SRL | SRA | OR | AND.
Inductive alu_imm := ADDI | XORI | ORI | ANDI | SLTI | SLTIU.
Inductive shift_op := Shl | Shr | Sar.
Inductive alu_w := ADDW | SUBW | SLLW | SRLW | SRAW.
Inductive branch_op := BEQ | BNE | BLT | BGE | BLTU | BGEU.
Inductive load_op := LB | LH | LW | LD | LBU | LHU | LWU.
Inductive store_op := SB | SH | SW | SD.

Inductive instr :=
| Op (op : alu_op) (rd rs1 rs2 : Z)
| OpImm (op : alu_imm) (rd rs1 imm : Z)
| OpShift (op : shift_op) (rd rs1 shamt : Z)
| Op32 (op : alu_w) (rd rs1 rs2 : Z)
| Addiw (rd rs1 imm : Z)
| Shift32 (op : shift_op) (rd rs1 shamt : Z)
| Lui (rd imm : Z)
| Auipc (rd imm : Z)
| Jal (rd imm : Z)
| Jalr (rd rs1 imm : Z)
| Branch (op : branch_op) (rs1 rs2 imm : Z)
| LoadI (op : load_op) (rd rs1 imm : Z)
| StoreI (op : store_op) (rs1 rs2 imm : Z)
| FenceI
| Ebreak
| Wfi.

Definition is_reg (r : Z) : Prop := 0 ≤ r < 32.
Definition is_imm12 (i : Z) : Prop := - 2048 ≤ i < 2048.

Definition wf (i : instr) : Prop :=
  match i with
  | Op _ rd rs1 rs2 | Op32 _ rd rs1 rs2 => is_reg rd ∧ is_reg rs1 ∧ is_reg rs2
  | OpImm _ rd rs1 imm | Addiw rd rs1 imm | Jalr rd rs1 imm | LoadI _ rd rs1 imm =>
      is_reg rd ∧ is_reg rs1 ∧ is_imm12 imm
  | OpShift _ rd rs1 shamt => is_reg rd ∧ is_reg rs1 ∧ 0 ≤ shamt < 64
  | Shift32 _ rd rs1 shamt => is_reg rd ∧ is_reg rs1 ∧ 0 ≤ shamt < 32
  | Lui rd imm | Auipc rd imm => is_reg rd ∧ - 2 ^ 31 ≤ imm < 2 ^ 31 ∧ imm mod 4096 = 0
  | Jal rd imm => is_reg rd ∧ - 2 ^ 20 ≤ imm < 2 ^ 20 ∧ imm mod 2 = 0
  | Branch _ rs1 rs2 imm => is_reg rs1 ∧ is_reg rs2 ∧ - 4096 ≤ imm < 4096 ∧ imm mod 2 = 0
  | StoreI _ rs1 rs2 imm => is_reg rs1 ∧ is_reg rs2 ∧ is_imm12 imm
  | FenceI | Ebreak | Wfi => True
  end.

(** ** Encoding *)

(** The six fields every format shares. *)
Definition word (opcode rd funct3 rs1 rs2 funct7 : Z) : Z :=
  opcode + 2 ^ 7 * rd + 2 ^ 12 * funct3 + 2 ^ 15 * rs1 + 2 ^ 20 * rs2 + 2 ^ 25 * funct7.

Definition enc_i (opcode rd funct3 rs1 imm : Z) : Z :=
  word opcode rd funct3 rs1 (imm mod 32) (imm / 32 mod 128).
Definition enc_s (opcode funct3 rs1 rs2 imm : Z) : Z :=
  word opcode (imm mod 32) funct3 rs1 rs2 (imm / 32 mod 128).
Definition enc_b (opcode funct3 rs1 rs2 imm : Z) : Z :=
  word opcode (imm / 2 mod 16 * 2 + imm / 2048 mod 2) funct3 rs1 rs2
    (imm / 4096 mod 2 * 64 + imm / 32 mod 64).
Definition enc_u (opcode rd imm : Z) : Z :=
  word opcode rd (imm / 2 ^ 12 mod 8) (imm / 2 ^ 15 mod 32) (imm / 2 ^ 20 mod 32) (imm / 2 ^ 25 mod 128).
Definition enc_j (opcode rd imm : Z) : Z :=
  word opcode rd (imm / 2 ^ 12 mod 8) (imm / 2 ^ 15 mod 32)
    (imm / 2 mod 16 * 2 + imm / 2048 mod 2) (imm / 2 ^ 20 mod 2 * 64 + imm / 32 mod 64).

Definition alu_funct3 (op : alu_op) : Z :=
  match op with ADD | SUB => 0 | SLL => 1 | SLT => 2 | SLTU => 3 | XOR => 4 | SRL | SRA => 5 | OR => 6 | AND => 7 end.
Definition alu_funct7 (op : alu_op) : Z := match op with SUB | SRA => 0x20 | _ => 0 end.
Definition imm_funct3 (op : alu_imm) : Z :=
  match op with ADDI => 0 | SLTI => 2 | SLTIU => 3 | XORI => 4 | ORI => 6 | ANDI => 7 end.
Definition shift_funct3 (op : shift_op) : Z := match op with Shl => 1 | _ => 5 end.
Definition shift_funct7 (op : shift_op) : Z := match op with Sar => 0x20 | _ => 0 end.
Definition alu_w_funct3 (op : alu_w) : Z := match op with ADDW | SUBW => 0 | SLLW => 1 | SRLW | SRAW => 5 end.
Definition alu_w_funct7 (op : alu_w) : Z := match op with SUBW | SRAW => 0x20 | _ => 0 end.
Definition branch_funct3 (op : branch_op) : Z :=
  match op with BEQ => 0 | BNE => 1 | BLT => 4 | BGE => 5 | BLTU => 6 | BGEU => 7 end.
Definition load_funct3 (op : load_op) : Z :=
  match op with LB => 0 | LH => 1 | LW => 2 | LD => 3 | LBU => 4 | LHU => 5 | LWU => 6 end.
Definition store_funct3 (op : store_op) : Z := match op with SB => 0 | SH => 1 | SW => 2 | SD => 3 end.

Definition encode (i : instr) : Z :=
  match i with
  | Op op rd rs1 rs2 => word 0x33 rd (alu_funct3 op) rs1 rs2 (alu_funct7 op)
  | OpImm op rd rs1 imm => enc_i 0x13 rd (imm_funct3 op) rs1 imm
  | OpShift op rd rs1 shamt =>
      word 0x13 rd (shift_funct3 op) rs1 (shamt mod 32) (shift_funct7 op + shamt / 32)
  | Op32 op rd rs1 rs2 => word 0x3b rd (alu_w_funct3 op) rs1 rs2 (alu_w_funct7 op)
  | Addiw rd rs1 imm => enc_i 0x1b rd 0 rs1 imm
  | Shift32 op rd rs1 shamt => word 0x1b rd (shift_funct3 op) rs1 shamt (shift_funct7 op)
  | Lui rd imm => enc_u 0x37 rd imm
  | Auipc rd imm => enc_u 0x17 rd imm
  | Jal rd imm => enc_j 0x6f rd imm
  | Jalr rd rs1 imm => enc_i 0x67 rd 0 rs1 imm
  | Branch op rs1 rs2 imm => enc_b 0x63 (branch_funct3 op) rs1 rs2 imm
  | LoadI op rd rs1 imm => enc_i 0x03 rd (load_funct3 op) rs1 imm
  | StoreI op rs1 rs2 imm => enc_s 0x23 (store_funct3 op) rs1 rs2 imm
  | FenceI => word 0x0f 0 0 0 0 0
  | Ebreak => word 0x73 0 0 0 1 0
  | Wfi => word 0x73 0 0 0 5 8
  end.

(** ** Meaning *)

(** The [n]-bit two's complement number with the bits of [v]. *)
Definition signed (n v : Z) : Z := (v + 2 ^ (n - 1)) mod 2 ^ n - 2 ^ (n - 1).
(** ... as a 64-bit register value. *)
Definition sext (n v : Z) : Z := signed n v mod 2 ^ 64.

Definition alu (op : alu_op) (a b : Z) : Z :=
  match op with
  | ADD => (a + b) mod 2 ^ 64
  | SUB => (a - b) mod 2 ^ 64
  | SLL => (a * 2 ^ (b mod 64)) mod 2 ^ 64
  | SLT => if decide (signed 64 a < signed 64 b) then 1 else 0
  | SLTU => if decide (a < b) then 1 else 0
  | XOR => Z.lxor a b
  | SRL => a / 2 ^ (b mod 64)
  | SRA => (signed 64 a / 2 ^ (b mod 64)) mod 2 ^ 64
  | OR => Z.lor a b
  | AND => Z.land a b
  end.

Definition alu_i (op : alu_imm) (a imm : Z) : Z :=
  let b := imm mod 2 ^ 64 in
  match op with
  | ADDI => alu ADD a b | XORI => alu XOR a b | ORI => alu OR a b | ANDI => alu AND a b
  | SLTI => alu SLT a b | SLTIU => alu SLTU a b
  end.

Definition shift (op : shift_op) (a sh : Z) : Z :=
  match op with Shl => alu SLL a sh | Shr => alu SRL a sh | Sar => alu SRA a sh end.

Definition alu32 (op : alu_w) (a b : Z) : Z :=
  match op with
  | ADDW => sext 32 (a + b)
  | SUBW => sext 32 (a - b)
  | SLLW => sext 32 (a * 2 ^ (b mod 32))
  | SRLW => sext 32 (a mod 2 ^ 32 / 2 ^ (b mod 32))
  | SRAW => sext 32 (signed 32 a / 2 ^ (b mod 32))
  end.
Definition shift32 (op : shift_op) : Z → Z → Z :=
  alu32 (match op with Shl => SLLW | Shr => SRLW | Sar => SRAW end).

Definition taken (op : branch_op) (a b : Z) : bool :=
  match op with
  | BEQ => bool_decide (a = b) | BNE => bool_decide (a ≠ b)
  | BLT => bool_decide (signed 64 a < signed 64 b) | BGE => bool_decide (signed 64 b ≤ signed 64 a)
  | BLTU => bool_decide (a < b) | BGEU => bool_decide (b ≤ a)
  end.

Definition load_size (op : load_op) : Z := match op with LB | LBU => 8 | LH | LHU => 16 | LW | LWU => 32 | LD => 64 end.
Definition load_value (op : load_op) (v : Z) : Z :=
  match op with
  | LB => sext 8 v | LH => sext 16 v | LW => sext 32 v | LD => v
  | LBU => v mod 2 ^ 8 | LHU => v mod 2 ^ 16 | LWU => v mod 2 ^ 32
  end.
Definition store_size (op : store_op) : Z := match op with SB => 8 | SH => 16 | SW => 32 | SD => 64 end.

(** The next pc, the register written and the memory access of an instruction;
    [x0] is zero before every instruction. *)
Definition write_next (rd v : Z) : cpu_m Z := set_reg rd v;;; update_pc.

Definition meaning (i : instr) : cpu_m Z :=
  match i with
  | Op op rd rs1 rs2 =>
      let* a := get_reg rs1 in let* b := get_reg rs2 in write_next rd (alu op a b)
  | OpImm op rd rs1 imm => let* a := get_reg rs1 in write_next rd (alu_i op a imm)
  | OpShift op rd rs1 shamt => let* a := get_reg rs1 in write_next rd (shift op a shamt)
  | Op32 op rd rs1 rs2 =>
      let* a := get_reg rs1 in let* b := get_reg rs2 in write_next rd (alu32 op a b)
  | Addiw rd rs1 imm => let* a := get_reg rs1 in write_next rd (alu32 ADDW a imm)
  | Shift32 op rd rs1 shamt => let* a := get_reg rs1 in write_next rd (shift32 op a shamt)
  | Lui rd imm => write_next rd (imm mod 2 ^ 64)
  | Auipc rd imm => let* p := get pc in write_next rd ((p + imm) mod 2 ^ 64)
  | Jal rd imm =>
      let* p := get pc in set_reg rd ((p + 4) mod 2 ^ 64);;; ret ((p + imm) mod 2 ^ 64)
  | Jalr rd rs1 imm =>
      let* p := get pc in let* a := get_reg rs1 in
      set_reg rd ((p + 4) mod 2 ^ 64);;; ret ((a + imm) mod 2 ^ 64 / 2 * 2)
  | Branch op rs1 rs2 imm =>
      let* a := get_reg rs1 in let* b := get_reg rs2 in let* p := get pc in
      ret ((p + if taken op a b then imm else 4) mod 2 ^ 64)
  | LoadI op rd rs1 imm =>
      let* a := get_reg rs1 in let* v := load ((a + imm) mod 2 ^ 64) (load_size op) in
      write_next rd (load_value op v)
  | StoreI op rs1 rs2 imm =>
      let* a := get_reg rs1 in let* v := get_reg rs2 in
      store ((a + imm) mod 2 ^ 64) (store_size op) v;;; update_pc
  | FenceI | Wfi => update_pc
  | Ebreak => throw Breakpoint (encode Ebreak)
  end.

Definition exec (i : instr) : cpu_m Z := set_reg 0 0;;; meaning i.
Definition clear_x0 (c : cpu) : cpu := c <| regs := aset (regs c) 0 0 |>.
Definition regs_ok (c : cpu) : Prop := length (regs c) = 32%nat ∧ Forall (λ v, is_u64 v) (regs c).

(** Where the emulator keeps to the specification: not for SLTI on numbers of
    different signs, SLTIU with a negative immediate, shifts by a register of 64 or
    more (undefined), sums and differences of 32-bit numbers that overflow
    (undefined), EBREAK and WFI (decoded as ECALL and SRET). *)
Definition conforming (i : instr) (c : cpu) : Prop :=
  let r x := reg x (clear_x0 c) in
  match i with
  | OpImm SLTI _ rs1 imm => r rs1 < 2 ^ 63 ↔ 0 ≤ imm
  | OpImm SLTIU _ _ imm => 0 ≤ imm
  | Op (SLL | SRL | SRA) _ _ rs2 => r rs2 < 64
  | Op32 ADDW _ rs1 rs2 => - 2 ^ 31 ≤ signed 32 (r rs1) + signed 32 (r rs2) < 2 ^ 31
  | Op32 SUBW _ rs1 rs2 => - 2 ^ 31 ≤ signed 32 (r rs1) - signed 32 (r rs2) < 2 ^ 31
  | Ebreak | Wfi => False
  | _ => True
  end.

(** ** Fields of an encoded word *)

(** A contiguous mask is a division and a remainder. *)
Lemma land_mask x k n : 0 ≤ k → 0 ≤ n → Z.land x (Z.shiftl (Z.ones n) k) = x / 2 ^ k mod 2 ^ n * 2 ^ k.
Proof.
  intros Hk Hn. rewrite <- Z.shiftr_div_pow2, <- Z.land_ones, <- Z.shiftl_mul_pow2 by lia.
  apply Z.bits_inj'. intros i Hi. rewrite Z.land_spec, !Z.shiftl_spec by lia.
  destruct (decide (k ≤ i)).
  - rewrite Z.land_spec, Z.shiftr_spec by lia. by replace (i - k + k) with i by lia.
  - rewrite !(Z.testbit_neg_r _ (i - k)) by lia. apply andb_false_r.
Qed.

Lemma land_low x n : 0 ≤ n → Z.land x (Z.ones n) = x mod 2 ^ n.
Proof. apply Z.land_ones. Qed.

Lemma land_top x : 0 ≤ x < 2 ^ 32 → negb (Z.land x 0x80000000 =? 0) = (2 ^ 31 <=? x).
Proof.
  intros Hx. change 0x80000000 with (Z.shiftl (Z.ones 1) 31). rewrite land_mask by lia.
  destruct (2 ^ 31 <=? x) eqn:E; bsimp; [apply negb_true_iff, Z.eqb_neq|apply negb_false_iff, Z.eqb_eq];
    Z.div_mod_to_equations; lia.
Qed.

Section fields.
Context (opcode rd funct3 rs1 rs2 funct7 : Z).
Context (Ho : 0 ≤ opcode < 128) (Hrd : 0 ≤ rd < 32) (H3 : 0 ≤ funct3 < 8)
  (Hrs1 : 0 ≤ rs1 < 32) (Hrs2 : 0 ≤ rs2 < 32) (H7 : 0 ≤ funct7 < 128).
Let w := word opcode rd funct3 rs1 rs2 funct7.

Lemma word_range : 0 ≤ w < 2 ^ 32.
Proof using Ho Hrd H3 Hrs1 Hrs2 H7. unfold w, word. lia. Qed.

Lemma word_rd : field_rd w = rd.
Proof using Ho Hrd H3 Hrs1 Hrs2 H7.
  unfold field_rd. change 0x1f with (Z.ones 5). rewrite land_low, Z.shiftr_div_pow2 by lia.
  unfold w, word. Z.div_mod_to_equations. lia.
Qed.
Lemma word_rs1 : field_rs1 w = rs1.
Proof using Ho Hrd H3 Hrs1 Hrs2 H7.
  unfold field_rs1. change 0x1f with (Z.ones 5). rewrite land_low, Z.shiftr_div_pow2 by lia.
  unfold w, word. Z.div_mod_to_equations. lia.
Qed.
Lemma word_rs2 : field_rs2 w = rs2.
Proof using Ho Hrd H3 Hrs1 Hrs2 H7.
  unfold field_rs2. change 0x1f with (Z.ones 5). rewrite land_low, Z.shiftr_div_pow2 by lia.
  unfold w, word. Z.div_mod_to_equations. lia.
Qed.
Lemma word_opcode : opcode_of w = opcode.
Proof using Ho Hrd H3 Hrs1 Hrs2 H7.
  unfold opcode_of. change 0x7f with (Z.ones 7). rewrite land_low by lia.
  unfold w, word. Z.div_mod_to_equations. lia.
Qed.
Lemma word_funct3 : funct3_of w = funct3.
Proof using Ho Hrd H3 Hrs1 Hrs2 H7.
  unfold funct3_of. change 0x7000 with (Z.shiftl (Z.ones 3) 12).
  rewrite land_mask, Z.shiftr_div_pow2, Z.div_mul by lia. unfold w, word. Z.div_mod_to_equations. lia.
Qed.
Lemma word_funct7 : funct7_of w = funct7.
Proof using Ho Hrd H3 Hrs1 Hrs2 H7.
  unfold funct7_of. change 0xfe000000 with (Z.shiftl (Z.ones 7) 25).
  rewrite land_mask, Z.shiftr_div_pow2, Z.div_mul by lia. unfold w, word. Z.div_mod_to_equations. lia.
Qed.
Lemma word_funct6 : funct6_of w = funct7 / 2.
Proof using Ho Hrd H3 Hrs1 Hrs2 H7.
  unfold funct6_of. change 0x3f with (Z.ones 6). rewrite land_low, Z.shiftr_div_pow2 by lia.
  unfold w, word. Z.div_mod_to_equations. lia.
Qed.

(** The immediates in terms of the fields. *)
Definition imm12_of (hi lo : Z) : Z := if hi <? 64 then hi * 32 + lo else hi * 32 + lo - 4096.

Lemma word_imm_i : imm_i w = imm12_of funct7 rs2.
Proof using Ho Hrd H3 Hrs1 Hrs2 H7.
  unfold imm_i, i32. change 0xfff00000 with (Z.shiftl (Z.ones 12) 20).
  rewrite land_mask, Z.shiftr_div_pow2 by lia.
  replace (w / 2 ^ 20 mod 2 ^ 12) with (funct7 * 32 + rs2) by (unfold w, word; Z.div_mod_to_equations; lia).
  unfold imm12_of. destruct (funct7 <? 64) eqn:E; bsimp; Z.div_mod_to_equations; lia.
Qed.

Lemma word_imm_s : imm_s w = imm12_of funct7 rd.
Proof using Ho Hrd H3 Hrs1 Hrs2 H7.
  unfold imm_s. fold (field_rd w). rewrite word_rd.
  change 0xfe000000 with (Z.shiftl (Z.ones 7) 25). rewrite land_mask by lia.
  replace (w / 2 ^ 25 mod 2 ^ 7) with funct7 by (unfold w, word; Z.div_mod_to_equations; lia).
  change 0xffffffffffffffe0 with (Z.shiftl (Z.ones 59) 5). rewrite land_mask, Z.shiftr_div_pow2 by lia.
  rewrite (lor_low _ _ 5) by (try lia; rewrite Z.mod_mul; lia).
  unfold imm12_of, i64, u64, i32. destruct (funct7 <? 64) eqn:E; bsimp; Z.div_mod_to_equations; lia.
Qed.

Lemma word_imm_b :
  imm_b w = (if funct7 <? 64 then 0 else - 4096) + rd mod 2 * 2048 + funct7 mod 64 * 32 + rd / 2 * 2.
Proof using Ho Hrd H3 Hrs1 Hrs2 H7.
  unfold imm_b. rewrite (land_top w word_range).
  change 0x80 with (Z.shiftl (Z.ones 1) 7). change 0x7E0 with (Z.shiftl (Z.ones 6) 5).
  change 0x1E with (Z.shiftl (Z.ones 4) 1). rewrite !land_mask by lia. rewrite !Z.shiftr_div_pow2 by lia.
  rewrite Z.shiftl_mul_pow2 by lia.
  replace (w / 2 ^ 7 mod 2 ^ 1) with (rd mod 2) by (unfold w, word; Z.div_mod_to_equations; lia).
  replace (w / 2 ^ 20 / 2 ^ 5 mod 2 ^ 6) with (funct7 mod 64) by (unfold w, word; Z.div_mod_to_equations; lia).
  replace (w / 2 ^ 7 / 2 ^ 1 mod 2 ^ 4) with (rd / 2) by (unfold w, word; Z.div_mod_to_equations; lia).
  replace (2 ^ 31 <=? w) with (negb (funct7 <? 64)) by
    (unfold w, word; destruct (funct7 <? 64) eqn:E; bsimp; symmetry; [apply Z.leb_gt|apply Z.leb_le]; lia).
  assert (0 ≤ rd mod 2 < 2 ∧ 0 ≤ funct7 mod 64 < 64 ∧ 0 ≤ rd / 2 < 16) as (? & ? & ?)
    by (Z.div_mod_to_equations; lia).
  rewrite u32_small by lia.
  assert (∀ s, s = 0 ∨ s = 0xFFFFF000 →
    Z.lor (Z.lor (Z.lor s (rd mod 2 * 2 ^ 7 * 2 ^ 4)) (funct7 mod 64 * 2 ^ 5)) (rd / 2 * 2 ^ 1) =
    s + rd mod 2 * 2048 + funct7 mod 64 * 32 + rd / 2 * 2) as Hl.
  { intros s Hs. rewrite (lor_low s _ 12) by (lia || destruct Hs; subst; done || lia).
    rewrite (lor_low (s + rd mod 2 * 2 ^ 7 * 2 ^ 4) _ 11) by (lia || destruct Hs; subst; Z.div_mod_to_equations; lia).
    rewrite (lor_low _ _ 5) by (lia || destruct Hs; subst; Z.div_mod_to_equations; lia). lia. }
  unfold i32. destruct (funct7 <? 64); cbn [negb]; rewrite Hl by auto; Z.div_mod_to_equations; lia.
Qed.

Lemma word_imm_u : imm_u w = (if funct7 <? 64 then 0 else - 2 ^ 32) +
  2 ^ 12 * funct3 + 2 ^ 15 * rs1 + 2 ^ 20 * rs2 + 2 ^ 25 * funct7.
Proof using Ho Hrd H3 Hrs1 Hrs2 H7.
  unfold imm_u, i32. change 0xfffff000 with (Z.shiftl (Z.ones 20) 12). rewrite land_mask by lia.
  replace (w / 2 ^ 12 mod 2 ^ 20) with (funct3 + 8 * rs1 + 256 * rs2 + 8192 * funct7)
    by (unfold w, word; Z.div_mod_to_equations; lia).
  destruct (funct7 <? 64) eqn:E; bsimp; Z.div_mod_to_equations; lia.
Qed.

Lemma word_imm_j : imm_j w = (if funct7 <? 64 then 0 else - 2 ^ 20) +
  2 ^ 12 * funct3 + 2 ^ 15 * rs1 + rs2 mod 2 * 2 ^ 11 + funct7 mod 64 * 32 + rs2 / 2 * 2.
Proof using Ho Hrd H3 Hrs1 Hrs2 H7.
  unfold imm_j. rewrite (land_top w word_range).
  change 0xff with (Z.ones 8). rewrite land_low by lia.
  change 0x800 with (Z.shiftl (Z.ones 1) 11). change 0x7fe with (Z.shiftl (Z.ones 10) 1).
  rewrite !land_mask by lia. rewrite !Z.shiftr_div_pow2 by lia. rewrite Z.shiftl_mul_pow2 by lia.
  replace (w / 2 ^ 12 mod 2 ^ 8) with (funct3 + 8 * rs1) by (unfold w, word; Z.div_mod_to_equations; lia).
  replace (w / 2 ^ 9 / 2 ^ 11 mod 2 ^ 1) with (rs2 mod 2) by (unfold w, word; Z.div_mod_to_equations; lia).
  replace (w / 2 ^ 20 / 2 ^ 1 mod 2 ^ 10) with (rs2 / 2 + 16 * (funct7 mod 64))
    by (unfold w, word; Z.div_mod_to_equations; lia).
  replace (2 ^ 31 <=? w) with (negb (funct7 <? 64)) by
    (unfold w, word; destruct (funct7 <? 64) eqn:E; bsimp; symmetry; [apply Z.leb_gt|apply Z.leb_le]; lia).
  assert (0 ≤ rs2 mod 2 < 2 ∧ 0 ≤ funct7 mod 64 < 64 ∧ 0 ≤ rs2 / 2 < 16) as (? & ? & ?)
    by (Z.div_mod_to_equations; lia).
  rewrite u32_small by lia.
  assert (∀ s, s = 0 ∨ s = 0xfff00000 →
    Z.lor (Z.lor (Z.lor s ((funct3 + 8 * rs1) * 2 ^ 12)) (rs2 mod 2 * 2 ^ 11)) ((rs2 / 2 + 16 * (funct7 mod 64)) * 2 ^ 1) =
    s + 2 ^ 12 * funct3 + 2 ^ 15 * rs1 + rs2 mod 2 * 2 ^ 11 + funct7 mod 64 * 32 + rs2 / 2 * 2) as Hl.
  { intros s Hs. rewrite (lor_low s _ 20) by (lia || destruct Hs; subst; done || lia).
    rewrite (lor_low (s + (funct3 + 8 * rs1) * 2 ^ 12) _ 12) by (lia || destruct Hs; subst; Z.div_mod_to_equations; lia).
    rewrite (lor_low _ _ 11) by (lia || destruct Hs; subst; Z.div_mod_to_equations; lia). lia. }
  unfold i32. destruct (funct7 <? 64); cbn [negb]; rewrite Hl by auto; Z.div_mod_to_equations; lia.
Qed.
End fields.

(** ** Immediates come back *)

Ltac imm_ranges := split_and?; Z.div_mod_to_equations; lia.

Lemma imm12_of_parts imm : is_imm12 imm → imm12_of (imm / 32 mod 128) (imm mod 32) = imm.
Proof.
  unfold is_imm12, imm12_of. intros.
  destruct (imm / 32 mod 128 <? 64) eqn:E; bsimp; Z.div_mod_to_equations; lia.
Qed.

Lemma imm_i_enc opcode rd f3 rs1 imm :
  0 ≤ opcode < 128 → is_reg rd → 0 ≤ f3 < 8 → is_reg rs1 → is_imm12 imm →
  imm_i (enc_i opcode rd f3 rs1 imm) = imm.
Proof.
  unfold is_reg, enc_i. intros. rewrite word_imm_i by imm_ranges. by apply imm12_of_parts.
Qed.

Lemma imm_s_enc opcode f3 rs1 rs2 imm :
  0 ≤ opcode < 128 → 0 ≤ f3 < 8 → is_reg rs1 → is_reg rs2 → is_imm12 imm →
  imm_s (enc_s opcode f3 rs1 rs2 imm) = imm.
Proof.
  unfold is_reg, enc_s. intros. rewrite word_imm_s by imm_ranges. by apply imm12_of_parts.
Qed.

Lemma imm_b_enc opcode f3 rs1 rs2 imm :
  0 ≤ opcode < 128 → 0 ≤ f3 < 8 → is_reg rs1 → is_reg rs2 → - 4096 ≤ imm < 4096 → imm mod 2 = 0 →
  imm_b (enc_b opcode f3 rs1 rs2 imm) = imm.
Proof.
  unfold is_reg, enc_b. intros. rewrite word_imm_b by imm_ranges.
  destruct (_ <? 64) eqn:E; bsimp; Z.div_mod_to_equations; lia.
Qed.

Lemma imm_u_enc opcode rd imm :
  0 ≤ opcode < 128 → is_reg rd → - 2 ^ 31 ≤ imm < 2 ^ 31 → imm mod 4096 = 0 →
  imm_u (enc_u opcode rd imm) = imm.
Proof.
  unfold is_reg, enc_u. intros. rewrite word_imm_u by imm_ranges.
  destruct (_ <? 64) eqn:E; bsimp; Z.div_mod_to_equations; lia.
Qed.

Lemma imm_j_enc opcode rd imm :
  0 ≤ opcode < 128 → is_reg rd → - 2 ^ 20 ≤ imm < 2 ^ 20 → imm mod 2 = 0 →
  imm_j (enc_j opcode rd imm) = imm.
Proof.
  unfold is_reg, enc_j. intros. rewrite word_imm_j by imm_ranges.
  destruct (_ <? 64) eqn:E; bsimp; Z.div_mod_to_equations; lia.
Qed.

(** ** Decoding an encoded instruction *)

Lemma decode_word opcode rd f3 rs1 rs2 f7 :
  0 ≤ opcode < 128 → is_reg rd → 0 ≤ f3 < 8 → is_reg rs1 → is_reg rs2 → 0 ≤ f7 < 128 →
  let w := word opcode rd f3 rs1 rs2 f7 in
  decode w =
    match opcodeTable w opcode with
    | Some f => Some f
    | None =>
        match instructionMap w opcode f3 with
        | Some f => Some f
        | None =>
            match instruction2Map w opcode f3 f7 with
            | Some f => Some f
            | None => instruction2Map w opcode f3 (f7 / 2)
            end
        end
    end.
Proof.
  intros. unfold w, decode. by rewrite word_opcode, word_funct3, word_funct7, word_funct6.
Qed.

Lemma execute_decode w c f : decode w = Some f → execute w c = f (clear_x0 c).
Proof. intros H. unfold execute. rewrite H. reflexivity. Qed.

Lemma exec_meaning i c : exec i c = meaning i (clear_x0 c).
Proof. reflexivity. Qed.

Lemma reg_range r c : regs_ok c → is_u64 (reg r c).
Proof.
  intros [_ Hf]. unfold reg, aget. destruct (regs c !! Z.to_nat r) eqn:E; cbn; [|lia].
  by eapply (Forall_lookup_1 _ _ _ _ Hf).
Qed.

Lemma clear_x0_ok c : regs_ok c → regs_ok (clear_x0 c).
Proof.
  intros [Hl Hf]. split; cbn; [by rewrite length_aset|]. apply Forall_insert; [done|lia].
Qed.

(** The executors by shape. *)
Section shapes.
Context (w rd rs1 rs2 imm : Z) (c : cpu).
Context (Hrd : field_rd w = rd) (Hrs1 : field_rs1 w = rs1) (Hrs2 : field_rs2 w = rs2).

Lemma unary_conforms f g :
  f (reg rs1 c) = g (reg rs1 c) →
  unary w f c = (let* a := get_reg rs1 in write_next rd (g a)) c.
Proof using Hrd Hrs1.
  intros H. unfold unary, write_next, bind, get_reg, get. cbn. by rewrite Hrs1, Hrd, H.
Qed.

Lemma binary_conforms f g :
  f (reg rs1 c) (reg rs2 c) = g (reg rs1 c) (reg rs2 c) →
  binary w f c = (let* a := get_reg rs1 in let* b := get_reg rs2 in write_next rd (g a b)) c.
Proof using Hrd Hrs1 Hrs2.
  intros H. unfold binary, write_next, bind, get_reg, get. cbn. by rewrite Hrs1, Hrs2, Hrd, H.
Qed.

Lemma shift_conforms f g :
  reg rs2 c < 64 → f (reg rs1 c) (reg rs2 c) = g (reg rs1 c) (reg rs2 c) →
  shift_executor w f c = (let* a := get_reg rs1 in let* b := get_reg rs2 in write_next rd (g a b)) c.
Proof using Hrd Hrs1 Hrs2.
  intros Hb H. unfold shift_executor, write_next, bind, get_reg, get. cbn. rewrite Hrs1, Hrs2, Hrd, H.
  by rewrite (proj2 (Z.leb_gt _ _) Hb).
Qed.

Lemma int_conforms f g :
  - 2 ^ 31 ≤ f (i32 (reg rs1 c)) (i32 (reg rs2 c)) < 2 ^ 31 →
  u64 (f (i32 (reg rs1 c)) (i32 (reg rs2 c))) = g (reg rs1 c) (reg rs2 c) →
  int_executor w f c = (let* a := get_reg rs1 in let* b := get_reg rs2 in write_next rd (g a b)) c.
Proof using Hrd Hrs1 Hrs2.
  intros Hb H. unfold int_executor, write_next, bind, get_reg, get. cbn -[Z.pow]. rewrite Hrs1, Hrs2, Hrd, H.
  by rewrite (proj2 (Z.ltb_ge _ _)), (proj2 (Z.leb_gt _ _)) by lia.
Qed.

Lemma branch_conforms f op :
  imm_b w = imm → f (reg rs1 c) (reg rs2 c) = taken op (reg rs1 c) (reg rs2 c) →
  branch w f c = (let* a := get_reg rs1 in let* b := get_reg rs2 in let* p := get pc in
                  ret ((p + if taken op a b then imm else 4) mod 2 ^ 64)) c.
Proof using Hrs1 Hrs2.
  intros <- H. unfold branch, bind, get_reg, get. cbn -[Z.pow]. rewrite Hrs1, Hrs2, H.
  by destruct (taken op _ _).
Qed.

Lemma load_conforms size f g :
  imm_i w = imm → (∀ v, f v = g v) →
  load_executor w size f c =
    (let* a := get_reg rs1 in let* v := load ((a + imm) mod 2 ^ 64) size in write_next rd (g v)) c.
Proof using Hrd Hrs1.
  intros <- H. unfold load_executor, write_next, bind, get_reg, get. cbn -[Z.pow load].
  rewrite Hrs1, Hrd. fold (u64 (reg rs1 c + imm_i w)).
  destruct (load _ size c) as [[v| | |] c']; cbn; by rewrite ?H.
Qed.

Lemma store_conforms size :
  imm_s w = imm →
  store_executor w size c =
    (let* a := get_reg rs1 in let* v := get_reg rs2 in
     store ((a + imm) mod 2 ^ 64) size v;;; update_pc) c.
Proof using Hrs1 Hrs2.
  intros <-. unfold store_executor, bind, get_reg, get. cbn -[Z.pow store]. by rewrite Hrs1, Hrs2.
Qed.
End shapes.

(** ** The arithmetic *)

Lemma land_ones_small x n : 0 ≤ n → 0 ≤ x < 2 ^ n → Z.land x (Z.ones n) = x.
Proof. intros. rewrite Z.land_ones by done. by apply Z.mod_small. Qed.

Lemma signed_i32 v : i32 v = signed 32 v.
Proof. reflexivity. Qed.
Lemma signed_i64 v : i64 v = signed 64 v.
Proof. reflexivity. Qed.

(** Two numbers equal modulo [2 ^ n] have the same two's complement value. *)
Lemma signed_mod n v : 0 < n → signed n (v mod 2 ^ n) = signed n v.
Proof. intros. unfold signed. by rewrite Zplus_mod_idemp_l. Qed.
Lemma signed_congr n v v' : 0 < n → v mod 2 ^ n = v' mod 2 ^ n → signed n v = signed n v'.
Proof. intros Hn H. by rewrite <- (signed_mod n v), H, signed_mod. Qed.
Lemma signed_small n v : 0 < n → - 2 ^ (n - 1) ≤ v < 2 ^ (n - 1) → signed n v = v.
Proof.
  intros Hn Hv. unfold signed. assert (2 ^ n = 2 * 2 ^ (n - 1)) as Hp.
  { rewrite <- Z.pow_succ_r by lia. f_equal. lia. }
  rewrite Z.mod_small; lia.
Qed.
Lemma signed_mod_back n v : 0 < n → signed n v mod 2 ^ n = v mod 2 ^ n.
Proof. intros. unfold signed. rewrite Zminus_mod_idemp_l. f_equal. lia. Qed.

Lemma add_mod_r a b m : (a + b mod m) mod m = (a + b) mod m.
Proof. apply Zplus_mod_idemp_r. Qed.

Lemma sext_low8 v : sext8 v = sext 8 v.
Proof.
  unfold sext8, sext, u64. change 0xff with (Z.ones 8). rewrite land_low by lia.
  f_equal. apply (signed_mod 8). lia.
Qed.
Lemma sext_low16 v : sext16 v = sext 16 v.
Proof.
  unfold sext16, sext, u64. change 0xffff with (Z.ones 16). rewrite land_low by lia.
  f_equal. apply (signed_mod 16). lia.
Qed.
Lemma sext_low32 v : sext32 v = sext 32 v.
Proof.
  unfold sext32, sext, u64. change 0xffffffff with (Z.ones 32). rewrite land_low by lia.
  rewrite signed_i32. f_equal. apply (signed_mod 32). lia.
Qed.

Lemma shl_w a sh : 0 ≤ sh → u64 (i32 (Z.shiftl (i32 a) sh)) = sext 32 (a * 2 ^ sh).
Proof.
  intros. rewrite Z.shiftl_mul_pow2, !signed_i32 by lia. unfold sext, u64. f_equal.
  apply signed_congr; [lia|]. rewrite <- (Zmult_mod_idemp_l (signed 32 a)), signed_mod_back by lia. apply Zmult_mod_idemp_l.
Qed.
Lemma shr_w a sh : 0 ≤ sh → u64 (i32 (Z.shiftr (u32 a) sh)) = sext 32 (a mod 2 ^ 32 / 2 ^ sh).
Proof. intros. by rewrite Z.shiftr_div_pow2 by lia. Qed.
Lemma sar_w a sh : 0 ≤ sh → u64 (i32 (Z.shiftr (i32 a) sh)) = sext 32 (signed 32 a / 2 ^ sh).
Proof. intros. by rewrite Z.shiftr_div_pow2 by lia. Qed.

Lemma if_ltb_decide (a b : Z) : (if a <? b then 1 else 0) = (if decide (a < b) then 1 else 0) :> Z.
Proof. destruct (a <? b) eqn:E; bsimp; [by rewrite decide_True|by rewrite decide_False by lia]. Qed.

Lemma clear_bit0 a : is_u64 a → Z.land a (u64 (Z.lnot 1)) = a / 2 * 2.
Proof.
  intros Ha. change (u64 (Z.lnot 1)) with (Z.shiftl (Z.ones 63) 1). rewrite land_mask by lia.
  rewrite (Z.mod_small (a / 2 ^ 1)); [done|]. change (2 ^ 1) with 2. Z.div_mod_to_equations; lia.
Qed.

(** ** Conformance, format by format *)

Ltac regs_range c r := pose proof (reg_range r (clear_x0 c) (clear_x0_ok c ltac:(assumption))).
Ltac codes := cbn [encode alu_funct3 alu_funct7 imm_funct3 shift_funct3 shift_funct7 alu_w_funct3
  alu_w_funct7 branch_funct3 load_funct3 store_funct3] in *.
Ltac forget_word :=
  match goal with |- _ ?w _ = _ => let x := fresh "w" in set (x := w) in *; clearbody x end.
(** Applies a lemma of [shapes], the operation being known. *)
Ltac two_operands lem g :=
  match goal with
  | Hd : field_rd ?w = _, Ha : field_rs1 ?w = _, Hb : field_rs2 ?w = _ |- _ =>
      unshelve eapply (lem w _ _ _ _ Hd Ha Hb _ g)
  end.
Ltac one_operand g :=
  match goal with
  | Hd : field_rd ?w = _, Ha : field_rs1 ?w = _ |- _ =>
      refine (unary_conforms w _ _ _ Hd Ha _ g _)
  end.
Ltac fields := codes; split; [apply word_rd|split; [apply word_rs1|apply word_rs2]]; lia.
Ltac decoded := apply execute_decode; rewrite decode_word by (unfold is_reg in *; lia); reflexivity.

Lemma op_conforms op rd rs1 rs2 c :
  wf (Op op rd rs1 rs2) → regs_ok c → conforming (Op op rd rs1 rs2) c →
  execute (encode (Op op rd rs1 rs2)) c = exec (Op op rd rs1 rs2) c.
Proof.
  intros (H1 & H2 & H3) Hc Hco. rewrite exec_meaning. cbn [encode meaning].
  regs_range c rs1. regs_range c rs2. cbn [conforming] in Hco. unfold is_reg in *.
  assert (field_rd (encode (Op op rd rs1 rs2)) = rd ∧ field_rs1 (encode (Op op rd rs1 rs2)) = rs1 ∧
          field_rs2 (encode (Op op rd rs1 rs2)) = rs2) as (Hd & Ha & Hb).
  { destruct op; fields. }
  destruct op; codes; (etrans; [decoded|forget_word]).
  - by two_operands (binary_conforms) (alu ADD).
  - by two_operands (binary_conforms) (alu SUB).
  - two_operands (shift_conforms) (alu SLL); [done|]. cbn [alu].
    by rewrite Z.shiftl_mul_pow2, (Z.mod_small _ 64) by lia.
  - two_operands (binary_conforms) (alu SLT). apply if_ltb_decide.
  - two_operands (binary_conforms) (alu SLTU). apply if_ltb_decide.
  - by two_operands (binary_conforms) (alu XOR).
  - two_operands (shift_conforms) (alu SRL); [done|]. cbn [alu].
    by rewrite Z.shiftr_div_pow2, (Z.mod_small _ 64) by lia.
  - two_operands (shift_conforms) (alu SRA); [done|]. cbn [alu].
    by rewrite Z.shiftr_div_pow2, (Z.mod_small _ 64) by lia.
  - by two_operands (binary_conforms) (alu OR).
  - by two_operands (binary_conforms) (alu AND).
Qed.

Lemma op32_conforms op rd rs1 rs2 c :
  wf (Op32 op rd rs1 rs2) → regs_ok c → conforming (Op32 op rd rs1 rs2) c →
  execute (encode (Op32 op rd rs1 rs2)) c = exec (Op32 op rd rs1 rs2) c.
Proof.
  intros (H1 & H2 & H3) Hc Hco. rewrite exec_meaning. cbn [meaning].
  regs_range c rs1. regs_range c rs2. cbn [conforming] in Hco. unfold is_reg in *.
  assert (field_rd (encode (Op32 op rd rs1 rs2)) = rd ∧ field_rs1 (encode (Op32 op rd rs1 rs2)) = rs1 ∧
          field_rs2 (encode (Op32 op rd rs1 rs2)) = rs2) as (Hd & Ha & Hb).
  { destruct op; fields. }
  assert (∀ b, 0 ≤ b → Z.land b 0x1f = b mod 32) as H5 by (intros; by apply (land_low _ 5)).
  destruct op; codes; (etrans; [decoded|forget_word]).
  - two_operands (int_conforms) (alu32 ADDW); [done|]. rewrite !signed_i32. cbn [alu32]. unfold sext, u64. f_equal.
    rewrite <- (signed_small 32 (signed 32 _ + signed 32 _)) by done. apply signed_congr; [lia|].
    by rewrite Z.add_mod, !signed_mod_back, <- Z.add_mod by lia.
  - two_operands (int_conforms) (alu32 SUBW); [done|]. rewrite !signed_i32. cbn [alu32]. unfold sext, u64. f_equal.
    rewrite <- (signed_small 32 (signed 32 _ - signed 32 _)) by done. apply signed_congr; [lia|].
    by rewrite Zminus_mod, !signed_mod_back, <- Zminus_mod by lia.
  - two_operands (binary_conforms) (alu32 SLLW). rewrite H5 by lia. apply shl_w. by apply Z.mod_pos_bound.
  - two_operands (binary_conforms) (alu32 SRLW). rewrite H5 by lia. apply shr_w. by apply Z.mod_pos_bound.
  - two_operands (binary_conforms) (alu32 SRAW). rewrite H5 by lia. apply sar_w. by apply Z.mod_pos_bound.
Qed.

Lemma op_imm_conforms op rd rs1 imm c :
  wf (OpImm op rd rs1 imm) → regs_ok c → conforming (OpImm op rd rs1 imm) c →
  execute (encode (OpImm op rd rs1 imm)) c = exec (OpImm op rd rs1 imm) c.
Proof.
  intros (H1 & H2 & H3) Hc Hco. rewrite exec_meaning. cbn [meaning].
  regs_range c rs1. cbn [conforming] in Hco.
  assert (imm_i (encode (OpImm op rd rs1 imm)) = imm) as Hi by (apply imm_i_enc; unfold is_reg in *; destruct op; done || lia).
  unfold is_reg, is_imm12 in *. pose proof (Z.mod_pos_bound imm 32). pose proof (Z.mod_pos_bound (imm / 32) 128).
  assert (field_rd (encode (OpImm op rd rs1 imm)) = rd ∧ field_rs1 (encode (OpImm op rd rs1 imm)) = rs1) as (Hd & Ha).
  { destruct op; codes; unfold enc_i; (split; [apply word_rd|apply word_rs1]); lia. }
  destruct op; codes; unfold enc_i in *; (etrans; [decoded|forget_word]).
  - one_operand (λ a, alu_i ADDI a imm). rewrite Hi. cbn [alu_i alu]. by rewrite add_mod_r.
  - one_operand (λ a, alu_i XORI a imm). by rewrite Hi.
  - one_operand (λ a, alu_i ORI a imm). by rewrite Hi.
  - one_operand (λ a, alu_i ANDI a imm). by rewrite Hi.
  - one_operand (λ a, alu_i SLTI a imm). rewrite Hi. cbn [alu_i alu]. rewrite if_ltb_decide.
    assert ((reg rs1 (clear_x0 c) < u64 imm) ↔ (signed 64 (reg rs1 (clear_x0 c)) < signed 64 (imm mod 2 ^ 64))).
    { rewrite (signed_mod 64), (signed_small 64 imm) by lia. unfold signed, u64. Z.div_mod_to_equations. lia. }
    do 2 destruct (decide _); tauto || done.
  - one_operand (λ a, alu_i SLTIU a imm). rewrite Hi. cbn [alu_i alu]. rewrite if_ltb_decide.
    unfold u32. by rewrite !Z.mod_small by lia.
Qed.

Lemma shift_amount rd f3 rs1 shamt hi :
  is_reg rd → 0 ≤ f3 < 8 → is_reg rs1 → 0 ≤ shamt < 64 → hi = 0 ∨ hi = 0x20 →
  Z.land (imm_i (word 0x13 rd f3 rs1 (shamt mod 32) (hi + shamt / 32))) 0x3f = shamt.
Proof.
  unfold is_reg. intros ? ? ? ? Hhi. change 0x3f with (Z.ones 6). rewrite land_low by lia.
  rewrite word_imm_i by (try lia; Z.div_mod_to_equations; lia). unfold imm12_of.
  destruct (_ <? 64) eqn:E; bsimp; destruct Hhi; subst; Z.div_mod_to_equations; lia.
Qed.

Lemma op_shift_conforms op rd rs1 shamt c :
  wf (OpShift op rd rs1 shamt) → regs_ok c →
  execute (encode (OpShift op rd rs1 shamt)) c = exec (OpShift op rd rs1 shamt) c.
Proof.
  intros (H1 & H2 & H3) Hc. rewrite exec_meaning. cbn [meaning]. regs_range c rs1.
  assert (Z.land (imm_i (encode (OpShift op rd rs1 shamt))) 0x3f = shamt) as Hs.
  { apply shift_amount; [done|destruct op; done|done|done|destruct op; auto]. }
  unfold is_reg in *. assert (shamt / 32 = 0 ∨ shamt / 32 = 1) as Hq by (Z.div_mod_to_equations; lia).
  pose proof (Z.mod_pos_bound shamt 32).
  assert (field_rd (encode (OpShift op rd rs1 shamt)) = rd ∧ field_rs1 (encode (OpShift op rd rs1 shamt)) = rs1) as (Hd & Ha).
  { destruct op; codes; (split; [apply word_rd|apply word_rs1]); lia. }
  destruct op; codes; (destruct Hq as [Hq|Hq]; rewrite Hq in *; (etrans; [decoded|forget_word]));
    match goal with |- context [shift ?op] => one_operand (λ a, shift op a shamt) end; cbn [shift alu]; unfold u64;
    rewrite Hs, (Z.mod_small shamt 64), ?Z.shiftl_mul_pow2, ?Z.shiftr_div_pow2 by lia; done.
Qed.

Lemma shift32_conforms op rd rs1 shamt c :
  wf (Shift32 op rd rs1 shamt) → regs_ok c →
  execute (encode (Shift32 op rd rs1 shamt)) c = exec (Shift32 op rd rs1 shamt) c.
Proof.
  intros (H1 & H2 & H3) Hc. rewrite exec_meaning. cbn [meaning]. unfold is_reg in *.
  assert (field_rd (encode (Shift32 op rd rs1 shamt)) = rd ∧ field_rs1 (encode (Shift32 op rd rs1 shamt)) = rs1 ∧
          field_rs2 (encode (Shift32 op rd rs1 shamt)) = shamt) as (Hd & Ha & Hb).
  { destruct op; fields. }
  destruct op; codes; (etrans; [decoded|forget_word]);
    match goal with |- context [shift32 ?op] => one_operand (λ a, shift32 op a shamt) end; fold (field_rs2 w); rewrite Hb;
    unfold shift32; cbn [alu32]; rewrite (Z.mod_small shamt 32) by done.
  - apply shl_w. lia.
  - apply shr_w. lia.
  - apply sar_w. lia.
Qed.

Lemma addiw_conforms rd rs1 imm c :
  wf (Addiw rd rs1 imm) → regs_ok c →
  execute (encode (Addiw rd rs1 imm)) c = exec (Addiw rd rs1 imm) c.
Proof.
  intros (H1 & H2 & H3) Hc. rewrite exec_meaning. cbn [meaning].
  assert (imm_i (encode (Addiw rd rs1 imm)) = imm) as Hi by (apply imm_i_enc; unfold is_reg in *; done || lia).
  unfold is_reg, is_imm12 in *. pose proof (Z.mod_pos_bound imm 32). pose proof (Z.mod_pos_bound (imm / 32) 128).
  assert (field_rd (encode (Addiw rd rs1 imm)) = rd ∧ field_rs1 (encode (Addiw rd rs1 imm)) = rs1) as (Hd & Ha).
  { codes; unfold enc_i; (split; [apply word_rd|apply word_rs1]); lia. }
  codes. unfold enc_i in *. etrans; [decoded|forget_word].
  one_operand (λ a, alu32 ADDW a imm). by rewrite Hi.
Qed.

Lemma upper_conforms rd imm c i :
  i = Lui rd imm ∨ i = Auipc rd imm → wf i → execute (encode i) c = exec i c.
Proof.
  intros [-> | ->] (H1 & H2 & H3); rewrite exec_meaning; cbn [meaning].
  all: pose proof (Z.mod_pos_bound (imm / 2 ^ 12) 8); pose proof (Z.mod_pos_bound (imm / 2 ^ 15) 32);
    pose proof (Z.mod_pos_bound (imm / 2 ^ 20) 32); pose proof (Z.mod_pos_bound (imm / 2 ^ 25) 128).
  - assert (imm_u (encode (Lui rd imm)) = imm) as Hi by (apply imm_u_enc; done || lia).
    unfold is_reg in *.
    assert (field_rd (encode (Lui rd imm)) = rd) as Hd by (codes; unfold enc_u; apply word_rd; lia).
    codes. unfold enc_u in *. etrans; [decoded|forget_word].
    unfold executeLui, write_next. by rewrite Hi, Hd.
  - assert (imm_u (encode (Auipc rd imm)) = imm) as Hi by (apply imm_u_enc; done || lia).
    unfold is_reg in *.
    assert (field_rd (encode (Auipc rd imm)) = rd) as Hd by (codes; unfold enc_u; apply word_rd; lia).
    codes. unfold enc_u in *. etrans; [decoded|forget_word].
    unfold executeAUIPC, write_next. by rewrite Hi, Hd.
Qed.

Lemma jal_conforms rd imm c :
  wf (Jal rd imm) → execute (encode (Jal rd imm)) c = exec (Jal rd imm) c.
Proof.
  intros (H1 & H2 & H3). rewrite exec_meaning. cbn [meaning].
  pose proof (Z.mod_pos_bound (imm / 2 ^ 12) 8). pose proof (Z.mod_pos_bound (imm / 2 ^ 15) 32).
  pose proof (Z.mod_pos_bound (imm / 2) 16). pose proof (Z.mod_pos_bound (imm / 2048) 2).
  pose proof (Z.mod_pos_bound (imm / 2 ^ 20) 2). pose proof (Z.mod_pos_bound (imm / 32) 64).
  assert (imm_j (encode (Jal rd imm)) = imm) as Hi by (apply imm_j_enc; done || lia).
  unfold is_reg in *.
  assert (field_rd (encode (Jal rd imm)) = rd) as Hd by (codes; unfold enc_j; apply word_rd; lia).
  codes. unfold enc_j in *. etrans; [decoded|forget_word].
  unfold executeJAL, bind, get. cbn -[Z.pow]. by rewrite Hi, Hd.
Qed.

Lemma jalr_conforms rd rs1 imm c :
  wf (Jalr rd rs1 imm) → execute (encode (Jalr rd rs1 imm)) c = exec (Jalr rd rs1 imm) c.
Proof.
  intros (H1 & H2 & H3). rewrite exec_meaning. cbn [meaning].
  assert (imm_i (encode (Jalr rd rs1 imm)) = imm) as Hi by (apply imm_i_enc; unfold is_reg in *; done || lia).
  unfold is_reg, is_imm12 in *. pose proof (Z.mod_pos_bound imm 32). pose proof (Z.mod_pos_bound (imm / 32) 128).
  assert (field_rd (encode (Jalr rd rs1 imm)) = rd ∧ field_rs1 (encode (Jalr rd rs1 imm)) = rs1) as (Hd & Ha).
  { codes; unfold enc_i; (split; [apply word_rd|apply word_rs1]); lia. }
  codes. unfold enc_i in *. etrans; [decoded|forget_word].
  unfold executeJALR, bind, get, get_reg. cbn -[Z.pow Z.land Z.lnot]. rewrite Hi, Hd, Ha.
  by rewrite clear_bit0 by apply u64_range.
Qed.

Lemma branch_op_conforms op rs1 rs2 imm c :
  wf (Branch op rs1 rs2 imm) →
  execute (encode (Branch op rs1 rs2 imm)) c = exec (Branch op rs1 rs2 imm) c.
Proof.
  intros (H1 & H2 & H3 & H4). rewrite exec_meaning. cbn [meaning].
  assert (imm_b (encode (Branch op rs1 rs2 imm)) = imm) as Hi
    by (apply imm_b_enc; unfold is_reg in *; destruct op; done || lia).
  pose proof (Z.mod_pos_bound (imm / 2) 16). pose proof (Z.mod_pos_bound (imm / 2048) 2).
  pose proof (Z.mod_pos_bound (imm / 4096) 2). pose proof (Z.mod_pos_bound (imm / 32) 64).
  unfold is_reg in *.
  assert (field_rs1 (encode (Branch op rs1 rs2 imm)) = rs1 ∧ field_rs2 (encode (Branch op rs1 rs2 imm)) = rs2) as (Ha & Hb).
  { destruct op; codes; unfold enc_b; (split; [apply word_rs1|apply word_rs2]); lia. }
  destruct op; codes; unfold enc_b in *; (etrans; [decoded|forget_word]);
    refine (branch_conforms w rs1 rs2 imm _ Ha Hb _ _ Hi _); cbn [taken]; apply eq_iff_eq_true;
    by rewrite ?negb_true_iff, ?bool_decide_eq_true, ?Z.eqb_eq, ?Z.eqb_neq, ?Z.ltb_lt, ?Z.leb_le.
Qed.

Lemma load_op_conforms op rd rs1 imm c :
  wf (LoadI op rd rs1 imm) → execute (encode (LoadI op rd rs1 imm)) c = exec (LoadI op rd rs1 imm) c.
Proof.
  intros (H1 & H2 & H3). rewrite exec_meaning. cbn [meaning].
  assert (imm_i (encode (LoadI op rd rs1 imm)) = imm) as Hi
    by (apply imm_i_enc; unfold is_reg in *; destruct op; done || lia).
  unfold is_reg, is_imm12 in *. pose proof (Z.mod_pos_bound imm 32). pose proof (Z.mod_pos_bound (imm / 32) 128).
  assert (field_rd (encode (LoadI op rd rs1 imm)) = rd ∧ field_rs1 (encode (LoadI op rd rs1 imm)) = rs1) as (Hd & Ha).
  { destruct op; codes; unfold enc_i; (split; [apply word_rd|apply word_rs1]); lia. }
  destruct op; codes; unfold enc_i in *; (etrans; [decoded|forget_word]); cbn [load_size];
    match goal with |- context [load_value ?op] =>
      refine (load_conforms w rd rs1 imm _ Hd Ha _ _ (load_value op) Hi _) end;
    intros v; cbn [load_value];
    first [apply sext_low8|apply sext_low16|apply sext_low32|done
          |by apply (land_low v 8)|by apply (land_low v 16)|by apply (land_low v 32)].
Qed.

Lemma store_op_conforms op rs1 rs2 imm c :
  wf (StoreI op rs1 rs2 imm) → execute (encode (StoreI op rs1 rs2 imm)) c = exec (StoreI op rs1 rs2 imm) c.
Proof.
  intros (H1 & H2 & H3). rewrite exec_meaning. cbn [meaning].
  assert (imm_s (encode (StoreI op rs1 rs2 imm)) = imm) as Hi
    by (apply imm_s_enc; unfold is_reg in *; destruct op; done || lia).
  unfold is_reg, is_imm12 in *. pose proof (Z.mod_pos_bound imm 32). pose proof (Z.mod_pos_bound (imm / 32) 128).
  assert (field_rs1 (encode (StoreI op rs1 rs2 imm)) = rs1 ∧ field_rs2 (encode (StoreI op rs1 rs2 imm)) = rs2) as (Ha & Hb).
  { destruct op; codes; unfold enc_s; (split; [apply word_rs1|apply word_rs2]); lia. }
  destruct op; codes; unfold enc_s in *; (etrans; [decoded|forget_word]); cbn [store_size];
    exact (store_conforms w rs1 rs2 imm _ Ha Hb _ Hi).
Qed.

(** ** The emulator executes the base instructions as specified *)


(** ** Divergences *)

(** SLTI compares unsigned: with operands of different signs the result is the
    wrong one. *)
Lemma slti_unsigned rd rs1 imm c :
  wf (OpImm SLTI rd rs1 imm) → regs_ok c → ¬ conforming (OpImm SLTI rd rs1 imm) c →
  Cpu.execute (encode (OpImm SLTI rd rs1 imm)) c =
  write_next rd (1 - alu_i SLTI (reg rs1 (clear_x0 c)) imm) (clear_x0 c).
Proof.
  intros (H1 & H2 & H3) Hc Hco. regs_range c rs1. cbn [conforming] in Hco.
  assert (imm_i (encode (OpImm SLTI rd rs1 imm)) = imm) as Hi by (apply imm_i_enc; unfold is_reg in *; done || lia).
  unfold is_reg, is_imm12 in *. pose proof (Z.mod_pos_bound imm 32). pose proof (Z.mod_pos_bound (imm / 32) 128).
  assert (field_rd (encode (OpImm SLTI rd rs1 imm)) = rd ∧ field_rs1 (encode (OpImm SLTI rd rs1 imm)) = rs1) as (Hd & Ha).
  { codes; unfold enc_i; (split; [apply word_rd|apply word_rs1]); lia. }
  codes; unfold enc_i in *; (etrans; [decoded|forget_word]).
  transitivity ((let* a := get_reg rs1 in write_next rd (1 - alu_i SLTI a imm)) (clear_x0 c)); [|reflexivity].
  one_operand (λ a, 1 - alu_i SLTI a imm). rewrite Hi. cbn [alu_i alu]. rewrite if_ltb_decide.
  assert ((reg rs1 (clear_x0 c) < u64 imm) ↔ ¬ (signed 64 (reg rs1 (clear_x0 c)) < signed 64 (imm mod 2 ^ 64))).
  { rewrite (signed_mod 64), (signed_small 64 imm) by lia. unfold signed, u64. Z.div_mod_to_equations. lia. }
  do 2 destruct (decide _); tauto || done.
Qed.

(** A register shift by 64 or more is undefined instead of masked. *)
Lemma sll_undefined rd rs1 rs2 c :
  wf (Op SLL rd rs1 rs2) → 64 ≤ reg rs2 (clear_x0 c) →
  Cpu.execute (encode (Op SLL rd rs1 rs2)) c = (Undefined, clear_x0 c).
Proof.
  intros (H1 & H2 & H3) Hb. unfold is_reg in *.
  assert (field_rd (encode (Op SLL rd rs1 rs2)) = rd ∧ field_rs1 (encode (Op SLL rd rs1 rs2)) = rs1 ∧
          field_rs2 (encode (Op SLL rd rs1 rs2)) = rs2) as (Hd & Ha & Hr2) by fields.
  codes. etrans; [decoded|forget_word].
  unfold executeSll, shift_executor, bind, get_reg, get. cbn. by rewrite Hr2, (proj2 (Z.leb_le _ _) Hb).
Qed.

(** EBREAK and WFI are decoded as ECALL and SRET, MUL (which the base set does not
    have) as ADD. *)
Lemma ebreak_is_ecall : decode (encode Ebreak) = Some (executeECALL (encode Ebreak)).
Proof. reflexivity. Qed.
Lemma wfi_is_sret : decode (encode Wfi) = Some executeSRET.
Proof. reflexivity. Qed.
Lemma mul_is_add rd rs1 rs2 :
  is_reg rd → is_reg rs1 → is_reg rs2 →
  decode (word 0x33 rd 0 rs1 rs2 1) = Some (executeAdd (word 0x33 rd 0 rs1 rs2 1)).
Proof. intros. rewrite decode_word by (unfold is_reg in *; lia). reflexivity. Qed.

(** CSRRSI sets the bit the immediate numbers, not the bits of the immediate. *)
Lemma csrrsi_sets_numbered_bit :
  let w := word 0x73 0 6 2 (SSTATUS mod 32) (SSTATUS / 32) in
  raw (csr (Cpu.execute w (init_cpu [] ∅)).2) MSTATUS = 0.
Proof. by vm_compute. Qed.


(** ** Witness *)

(** [blt x5, x6, -8] with x5 = -1 and x6 = 2. *)
Definition demo_blt : cpu :=
  (init_cpu [] ∅) <| regs := aset (aset (replicate 32 0) 5 (2 ^ 64 - 1)) 6 2 |>.


