(* ===== verification/FdTable.v ===== *)
(** * Open files and descriptor tables (os/kernel/minifs.c, lines 60-77, 446-601,
    641-650, 788-801, 856-862)

    The kernel keeps a table of open-file descriptions with reference counts and,
    per process, an array of descriptors that index it.  Descriptors are shared
    by [fork] and [dup2].  [fd_state] holds the two static tables; a pointer into
    a table is the index of the entry.  [refcounts] states that every description
    is counted exactly as often as it is referenced, up to a correction [δ] for
    references that live in local variables in the middle of an operation. *)

From S2P Require Import Prelude.

Definition MINIFS_MAX_FD : Z := 16.
Definition MINIFS_MAX_OPEN_FILES : Z := 64.
Definition MINIFS_MAX_PROCESSES : Z := 16.
Definition MINIFS_O_RDONLY : Z := 0x000.
Definition MINIFS_O_WRONLY : Z := 0x001.
Definition OFD_CONSOLE_IN : Z := 1.
Definition OFD_CONSOLE_OUT : Z := 2.
Definition OFD_FILE : Z := 3.

Record open_file := MkOpenFile {
  of_used : bool;
  of_refs : Z;
  of_type : Z;
  of_flags : Z;
  of_inode : Z;
  of_offset : Z;
}.
#[global] Instance open_file_eta : Settable open_file := λ f,
  MkOpenFile (of_used f) (of_refs f) (of_type f) (of_flags f) (of_inode f) (of_offset f).

Record process_fds := MkProcFds {
  pf_used : bool;
  pf_pid : Z;
  pf_fd : list Z;
  pf_cloexec : Z;
}.
#[global] Instance process_fds_eta : Settable process_fds := λ p,
  MkProcFds (pf_used p) (pf_pid p) (pf_fd p) (pf_cloexec p).

Record fd_state := MkFd {
  open_files : list open_file;
  procs : list process_fds;
}.
#[global] Instance fd_state_eta : Settable fd_state := λ s,
  MkFd (open_files s) (procs s).

(** The zeroed tables left by the two [zero_bytes] calls of [minifs_init]. *)
Definition of_zero : open_file := MkOpenFile false 0 0 0 0 0.
Definition pf_zero : process_fds := MkProcFds false 0 (replicate 16 0) 0.
Definition fd_init : fd_state := MkFd (replicate 64 of_zero) (replicate 16 pf_zero).

Definition get_of (s : fd_state) (k : Z) : open_file := aget of_zero (open_files s) k.
Definition get_pf (s : fd_state) (i : Z) : process_fds := aget pf_zero (procs s) i.
Definition upd_of (k : Z) (f : open_file → open_file) (s : fd_state) : fd_state :=
  s <| open_files := aset (open_files s) k (f (get_of s k)) |>.
Definition upd_pf (i : Z) (f : process_fds → process_fds) (s : fd_state) : fd_state :=
  s <| procs := aset (procs s) i (f (get_pf s i)) |>.

(** [process->fd[fd]] and the assignment to it. *)
Definition fd_slot (s : fd_state) (i fd : Z) : Z := aget (-1) (pf_fd (get_pf s i)) fd.
Definition set_slot (i fd v : Z) (s : fd_state) : fd_state :=
  upd_pf i (λ p, p <| pf_fd := aset (pf_fd p) fd v |>) s.

(** [(uint16_t)~(1U << fd)] and [(uint16_t)(1U << fd)]. *)
Definition fd_bit (fd : Z) : Z := u16 (Z.shiftl 1 fd).
Definition fd_unbit (fd : Z) : Z := u16 (Z.lnot (Z.shiftl 1 fd)).
Definition clear_cloexec (i fd : Z) (s : fd_state) : fd_state :=
  upd_pf i (λ p, p <| pf_cloexec := Z.land (pf_cloexec p) (fd_unbit fd) |>) s.

(** ** Operations *)

Definition find_process (pid : Z) (s : fd_state) : option Z :=
  find_from 16 0 (λ i, pf_used (get_pf s i) && (pf_pid (get_pf s i) =? pid)).

Definition alloc_ofd (type flags inode : Z) (s : fd_state) : Z * fd_state :=
  match find_from 64 0 (λ k, negb (of_used (get_of s k))) with
  | Some k => (k, upd_of k (λ _, MkOpenFile true 1 type flags inode 0) s)
  | None => (-1, s)
  end.

Definition put_ofd (index : Z) (s : fd_state) : fd_state :=
  if (index <? 0) || (MINIFS_MAX_OPEN_FILES <=? index) || negb (of_used (get_of s index))
  then s
  else
    let s := upd_of index (λ f, f <| of_refs := i32 (of_refs f - 1) |>) s in
    if of_refs (get_of s index) =? 0
    then upd_of index (λ f, f <| of_used := false |>) s else s.

(** [open_files[k].refs++] *)
Definition inc_ofd (k : Z) (s : fd_state) : fd_state :=
  upd_of k (λ f, f <| of_refs := i32 (of_refs f + 1) |>) s.

Definition install_fd (i ofd : Z) (s : fd_state) : Z * fd_state :=
  match find_from 16 0 (λ fd, fd_slot s i fd <? 0) with
  | Some fd => (fd, clear_cloexec i fd (set_slot i fd ofd s))
  | None => (-1, s)
  end.

(** The index of the open file behind a descriptor ([NULL] is [None]). *)
Definition get_open_file (pid fd : Z) (s : fd_state) : option Z :=
  match find_process pid s with
  | None => None
  | Some i =>
      if (fd <? 0) || (MINIFS_MAX_FD <=? fd) then None
      else
        let index := fd_slot s i fd in
        if (index <? 0) || (MINIFS_MAX_OPEN_FILES <=? index)
           || negb (of_used (get_of s index))
        then None else Some index
  end.

Definition minifs_process_init (pid : Z) (s : fd_state) : Z * fd_state :=
  match find_process pid s with
  | Some _ => (0, s)
  | None =>
      match find_from 16 0 (λ i, negb (pf_used (get_pf s i))) with
      | None => (-1, s)
      | Some i =>
          let s := upd_pf i (λ p, p <| pf_used := true |> <| pf_pid := pid |>
                                    <| pf_cloexec := 0 |>) s in
          let s := fold_for 16 0 (λ fd s, set_slot i fd (-1) s) s in
          let '(input, s) := alloc_ofd OFD_CONSOLE_IN MINIFS_O_RDONLY 0 s in
          let '(output, s) := alloc_ofd OFD_CONSOLE_OUT MINIFS_O_WRONLY 0 s in
          let '(error, s) := alloc_ofd OFD_CONSOLE_OUT MINIFS_O_WRONLY 0 s in
          if (input <? 0) || (output <? 0) || (error <? 0) then
            let s := put_ofd error (put_ofd output (put_ofd input s)) in
            (-1, upd_pf i (λ p, p <| pf_used := false |>) s)
          else (0, set_slot i 2 error (set_slot i 1 output (set_slot i 0 input s)))
      end
  end.

(** One round of the copy loop of [minifs_process_fork]. *)
Definition fork_fd (parent child fd : Z) (s : fd_state) : fd_state :=
  let s := if 0 <=? fd_slot s child fd then put_ofd (fd_slot s child fd) s else s in
  let s := set_slot child fd (fd_slot s parent fd) s in
  if 0 <=? fd_slot s child fd then inc_ofd (fd_slot s child fd) s else s.

Definition minifs_process_fork (parent_pid child_pid : Z) (s : fd_state) : Z * fd_state :=
  match find_process parent_pid s with
  | None => (-1, s)
  | Some parent =>
      let '(rc, s) := minifs_process_init child_pid s in
      if rc <? 0 then (-1, s)
      else
        match find_process child_pid s with
        | None => (-1, s)   (* not reached: the table was just created *)
        | Some child =>
            let s := upd_pf child
              (λ p, p <| pf_cloexec := pf_cloexec (get_pf s parent) |>) s in
            (0, fold_for 16 0 (fork_fd parent child) s)
        end
  end.

(** One round of the closing loops. *)
Definition close_slot (i fd : Z) (s : fd_state) : fd_state :=
  let s := if 0 <=? fd_slot s i fd then put_ofd (fd_slot s i fd) s else s in
  set_slot i fd (-1) s.

Definition minifs_close_all (pid : Z) (s : fd_state) : fd_state :=
  match find_process pid s with
  | None => s
  | Some i =>
      let s := fold_for 16 0 (close_slot i) s in
      upd_pf i (λ p, p <| pf_cloexec := 0 |> <| pf_used := false |>) s
  end.

Definition minifs_set_cloexec (pid fd on : Z) (s : fd_state) : Z * fd_state :=
  match find_process pid s with
  | None => (-1, s)
  | Some i =>
      if (fd <? 0) || (MINIFS_MAX_FD <=? fd) || (fd_slot s i fd <? 0) then (-1, s)
      else if negb (on =? 0) then
        (0, upd_pf i (λ p, p <| pf_cloexec := Z.lor (pf_cloexec p) (fd_bit fd) |>) s)
      else (0, clear_cloexec i fd s)
  end.

Definition minifs_close_exec_fds (pid : Z) (s : fd_state) : fd_state :=
  match find_process pid s with
  | None => s
  | Some i =>
      fold_for 16 0 (λ fd s,
        if negb (Z.land (pf_cloexec (get_pf s i)) (fd_bit fd) =? 0)
        then clear_cloexec i fd (close_slot i fd s) else s) s
  end.

Definition minifs_close (pid fd : Z) (s : fd_state) : Z * fd_state :=
  match find_process pid s with
  | None => (-1, s)
  | Some i =>
      if (fd <? 0) || (MINIFS_MAX_FD <=? fd) || (fd_slot s i fd <? 0) then (-1, s)
      else (0, clear_cloexec i fd (set_slot i fd (-1) (put_ofd (fd_slot s i fd) s)))
  end.

Definition minifs_dup2 (pid oldfd newfd : Z) (s : fd_state) : Z * fd_state :=
  match find_process pid s with
  | None => (-1, s)
  | Some i =>
      if (oldfd <? 0) || (MINIFS_MAX_FD <=? oldfd) || (newfd <? 0)
         || (MINIFS_MAX_FD <=? newfd) || (fd_slot s i oldfd <? 0)
      then (-1, s)
      else if oldfd =? newfd then (newfd, s)
      else
        let s := if 0 <=? fd_slot s i newfd then put_ofd (fd_slot s i newfd) s else s in
        let s := set_slot i newfd (fd_slot s i oldfd) s in
        let s := inc_ofd (fd_slot s i newfd) s in
        (newfd, clear_cloexec i newfd s)
  end.

(** The last steps of [minifs_open], once the inode is known. *)
Definition open_inode (i flags inode size : Z) (s : fd_state) : Z * fd_state :=
  let '(ofd, s) := alloc_ofd OFD_FILE flags inode s in
  if ofd <? 0 then (-1, s)
  else
    let s := if negb (Z.land flags 0x400 =? 0)
             then upd_of ofd (λ f, f <| of_offset := size |>) s else s in
    let '(fd, s) := install_fd i ofd s in
    (fd, if fd <? 0 then put_ofd ofd s else s).

Definition inode_is_open (inode : Z) (s : fd_state) : bool :=
  match find_from 64 0 (λ k, of_used (get_of s k) && (of_type (get_of s k) =? OFD_FILE)
                             && (of_inode (get_of s k) =? inode)) with
  | Some _ => true
  | None => false
  end.

(** ** Reference counting *)

(** How often description [k] occurs in a descriptor array, and in the arrays of
    all live processes. *)
Definition hit (k x : Z) : nat := if x =? k then 1 else 0.
Definition hits (k : Z) (l : list Z) : nat := sum_list_with (hit k) l.
Definition proc_refs (k : Z) (p : process_fds) : nat :=
  if pf_used p then hits k (pf_fd p) else 0%nat.
Definition refcount (k : Z) (s : fd_state) : nat := sum_list_with (proc_refs k) (procs s).

Definition proc_ok (p : process_fds) : Prop :=
  length (pf_fd p) = 16%nat ∧
  (pf_used p = true → Forall (λ k, -1 ≤ k < MINIFS_MAX_OPEN_FILES) (pf_fd p)).

(** [refcounts δ s]: the tables are well formed and the count of description [k]
    is the number of descriptors referring to it plus [δ k]. *)
Record refcounts (δ : Z → Z) (s : fd_state) : Prop := {
  rc_of_len : length (open_files s) = 64%nat;
  rc_pf_len : length (procs s) = 16%nat;
  rc_procs : ∀ i, 0 ≤ i < 16 → proc_ok (get_pf s i);
  rc_count : ∀ k, 0 ≤ k < 64 →
    if of_used (get_of s k)
    then of_refs (get_of s k) = Z.of_nat (refcount k s) + δ k ∧ 0 < of_refs (get_of s k)
    else Z.of_nat (refcount k s) + δ k = 0;
  rc_pids : ∀ i j, 0 ≤ i < 16 → 0 ≤ j < 16 →
    pf_used (get_pf s i) = true → pf_used (get_pf s j) = true →
    pf_pid (get_pf s i) = pf_pid (get_pf s j) → i = j;
}.

(** The invariant between operations. *)
Definition fd_inv (s : fd_state) : Prop := refcounts (λ _, 0) s.

Section access.
Implicit Types (s : fd_state) (i j k fd : Z).

Lemma get_of_upd s k f j :
  0 ≤ k < Z.of_nat (length (open_files s)) → 0 ≤ j →
  get_of (upd_of k f s) j = if decide (j = k) then f (get_of s k) else get_of s j.
Proof.
  intros. unfold get_of, upd_of. simpl. case_decide as E.
  - subst. by rewrite aget_aset_eq.
  - by rewrite aget_aset_ne by lia.
Qed.

Lemma get_pf_upd s i f j :
  0 ≤ i < Z.of_nat (length (procs s)) → 0 ≤ j →
  get_pf (upd_pf i f s) j = if decide (j = i) then f (get_pf s i) else get_pf s j.
Proof.
  intros. unfold get_pf, upd_pf. simpl. case_decide as E.
  - subst. by rewrite aget_aset_eq.
  - by rewrite aget_aset_ne by lia.
Qed.

Lemma upd_pf_upd_pf s i f g :
  0 ≤ i < Z.of_nat (length (procs s)) →
  upd_pf i g (upd_pf i f s) = upd_pf i (λ p, g (f p)) s.
Proof.
  intros. unfold upd_pf, get_pf. simpl. rewrite aget_aset_eq by lia.
  unfold aset. by rewrite list_insert_insert_eq.
Qed.

Lemma upd_of_upd_of s k f g :
  0 ≤ k < Z.of_nat (length (open_files s)) →
  upd_of k g (upd_of k f s) = upd_of k (λ x, g (f x)) s.
Proof.
  intros. unfold upd_of, get_of. simpl. rewrite aget_aset_eq by lia.
  unfold aset. by rewrite list_insert_insert_eq.
Qed.

Lemma fold_upd_pf s i n j (g : Z → process_fds → process_fds) :
  0 ≤ i < Z.of_nat (length (procs s)) → (0 < n)%nat →
  fold_for n j (λ fd s, upd_pf i (g fd) s) s = upd_pf i (fold_for n j g) s.
Proof.
  intros Hi. revert j s Hi. induction n as [|[|n] IH]; intros j s Hi Hn; [lia|done|].
  cbn [fold_for] in *. rewrite IH by (unfold upd_pf; simpl; rewrite ?length_aset; lia).
  by rewrite upd_pf_upd_pf.
Qed.

(** Filling a descriptor array of 16 entries with -1. *)
Lemma fill_slots p :
  length (pf_fd p) = 16%nat →
  fold_for 16 0 (λ fd p, p <| pf_fd := aset (pf_fd p) fd (-1) |>) p =
  p <| pf_fd := replicate 16 (-1) |>.
Proof.
  destruct p as [u pid l c]. simpl. intros H.
  do 16 (destruct l as [|? l]; [done|]). destruct l; [|done]. reflexivity.
Qed.

Lemma refcount_upd_pf s i f k :
  0 ≤ i < Z.of_nat (length (procs s)) →
  (refcount k (upd_pf i f s) + proc_refs k (get_pf s i) =
   refcount k s + proc_refs k (f (get_pf s i)))%nat.
Proof.
  intros. unfold refcount, upd_pf. simpl. apply sum_list_with_insert.
  by apply lookup_aget.
Qed.

Lemma hits_aset k l fd v :
  0 ≤ fd < Z.of_nat (length l) →
  (hits k (aset l fd v) + hit k (aget (-1)%Z l fd) =
   hits k l + hit k v)%nat.
Proof.
  intros. unfold hits, aset.
  apply sum_list_with_insert. by apply lookup_aget.
Qed.

Lemma refcount_slot s i fd k :
  0 ≤ i < Z.of_nat (length (procs s)) → pf_used (get_pf s i) = true →
  0 ≤ fd < Z.of_nat (length (pf_fd (get_pf s i))) → fd_slot s i fd = k →
  (1 ≤ refcount k s)%nat.
Proof.
  intros Hi Hu Hfd Hk. unfold refcount.
  pose proof (sum_list_with_lookup (proc_refs k) _ _ _ (lookup_aget pf_zero _ _ Hi)) as H.
  pose proof (sum_list_with_lookup (hit k) _ _ _ (lookup_aget (-1) _ _ Hfd)) as H2.
  unfold fd_slot in Hk. fold (get_pf s i) in H. rewrite Hk in H2.
  unfold hit in H2 at 1. rewrite Z.eqb_refl in H2.
  unfold proc_refs in H at 1. rewrite Hu in H. unfold hits in H. lia.
Qed.

Lemma refcount_set_slot s i fd v k :
  0 ≤ i < Z.of_nat (length (procs s)) → pf_used (get_pf s i) = true →
  0 ≤ fd < Z.of_nat (length (pf_fd (get_pf s i))) →
  (refcount k (set_slot i fd v s) + hit k (fd_slot s i fd) =
   refcount k s + hit k v)%nat.
Proof.
  intros Hi Hu Hfd. unfold set_slot.
  pose proof (refcount_upd_pf s i (λ p, p <| pf_fd := aset (pf_fd p) fd v |>) k Hi) as H.
  unfold proc_refs in H. simpl in H. rewrite Hu in H.
  pose proof (hits_aset k (pf_fd (get_pf s i)) fd v Hfd). unfold fd_slot. simpl. lia.
Qed.

Lemma fd_slot_set_slot s i fd v j fd' :
  0 ≤ i < Z.of_nat (length (procs s)) → 0 ≤ j →
  0 ≤ fd < Z.of_nat (length (pf_fd (get_pf s i))) → 0 ≤ fd' →
  fd_slot (set_slot i fd v s) j fd' =
    if decide (j = i ∧ fd' = fd) then v else fd_slot s j fd'.
Proof.
  intros. unfold fd_slot, set_slot. rewrite get_pf_upd by done.
  destruct (decide (j = i)) as [->|]; simpl.
  - destruct (decide (fd' = fd)) as [->|].
    + rewrite aget_aset_eq by done. rewrite decide_True; done.
    + rewrite aget_aset_ne by lia. rewrite decide_False; [done|lia].
  - rewrite decide_False; [done|lia].
Qed.

(** Two different descriptors of live processes count twice. *)
Lemma refcount_two_slots s i fd j fd' k :
  0 ≤ i < Z.of_nat (length (procs s)) → 0 ≤ j < Z.of_nat (length (procs s)) →
  pf_used (get_pf s i) = true → pf_used (get_pf s j) = true →
  0 ≤ fd < Z.of_nat (length (pf_fd (get_pf s i))) →
  0 ≤ fd' < Z.of_nat (length (pf_fd (get_pf s j))) →
  ¬ (j = i ∧ fd' = fd) → fd_slot s i fd = k → fd_slot s j fd' = k → 0 ≤ k →
  (2 ≤ refcount k s)%nat.
Proof.
  intros Hi Hj Hui Huj Hfd Hfd' Hne H1 H2 Hk.
  pose proof (refcount_set_slot s i fd (-1) k Hi Hui Hfd) as H.
  unfold hit in H. rewrite H1, Z.eqb_refl, (proj2 (Z.eqb_neq (-1) k)) in H by lia.
  assert (1 ≤ refcount k (set_slot i fd (-1) s))%nat; [|lia].
  apply (refcount_slot _ j fd').
  - unfold set_slot, upd_pf. simpl. rewrite length_aset. lia.
  - unfold set_slot. rewrite get_pf_upd by lia. case_decide; [by subst|done].
  - unfold set_slot. rewrite get_pf_upd by lia. case_decide; [|done]. subst. simpl.
    rewrite length_aset. lia.
  - rewrite fd_slot_set_slot by lia. by rewrite decide_False.
Qed.

Lemma hits_le k l : (hits k l ≤ length l)%nat.
Proof. induction l as [|x l IH]; simpl; [done|]. unfold hits, hit in *. simpl. bcase; lia. Qed.
End access.

Lemma refcount_le δ s k : refcounts δ s → (refcount k s ≤ 256)%nat.
Proof.
  intros H. unfold refcount. pose proof (rc_pf_len _ _ H) as Hlen.
  assert (∀ p, p ∈ procs s → proc_refs k p ≤ 16)%nat as Hall.
  { intros p [n Hn]%list_elem_of_lookup. pose proof (lookup_lt_Some _ _ _ Hn).
    destruct (rc_procs _ _ H (Z.of_nat n)) as [Hl _]; [lia|].
    unfold get_pf in Hl. rewrite (aget_lookup _ _ _ p) in Hl by (by rewrite Nat2Z.id).
    unfold proc_refs. pose proof (hits_le k (pf_fd p)). destruct (pf_used p); lia. }
  assert (∀ l, (∀ p, p ∈ l → proc_refs k p ≤ 16) → sum_list_with (proc_refs k) l ≤ 16 * length l)%nat
    as Hsum.
  { induction l as [|p l IH]; intros Hl; simpl; [lia|].
    pose proof (Hl p). specialize (IH (λ q Hq, Hl q (list_elem_of_further _ _ _ Hq))). set_solver by lia. }
  specialize (Hsum _ Hall). lia.
Qed.

(** ** Rules: how each elementary step moves references *)

Section rules.
Implicit Types (s : fd_state) (i j k fd : Z) (δ : Z → Z).

(** Changing one description, with the tables of the processes untouched. *)
Lemma rc_upd_of δ δ' s k f :
  refcounts δ s → 0 ≤ k < 64 →
  (∀ j, 0 ≤ j < 64 → j ≠ k → δ' j = δ j) →
  (if of_used (f (get_of s k))
   then of_refs (f (get_of s k)) = Z.of_nat (refcount k s) + δ' k ∧
        0 < of_refs (f (get_of s k))
   else Z.of_nat (refcount k s) + δ' k = 0) →
  refcounts δ' (upd_of k f s).
Proof.
  intros H Hk Hδ Hf. destruct H as [Hof Hpf Hpr Hc Hp]. split; try done.
  - unfold upd_of. simpl. by rewrite length_aset.
  - intros j Hj. rewrite get_of_upd by lia.
    change (refcount j (upd_of k f s)) with (refcount j s).
    case_decide as E; [by subst|]. specialize (Hc j Hj). rewrite Hδ by done. done.
Qed.

Lemma put_ofd_neg s k : k < 0 → put_ofd k s = s.
Proof. intros. unfold put_ofd. by rewrite (proj2 (Z.ltb_lt k 0)) by lia. Qed.

Lemma rc_put δ δ' s k :
  refcounts δ s → 0 ≤ k < 64 → of_used (get_of s k) = true → δ k ≤ 16 →
  (∀ j, 0 ≤ j < 64 → δ' j = δ j - (if decide (j = k) then 1 else 0)) →
  refcounts δ' (put_ofd k s).
Proof.
  intros H Hk Hu Hb Hδ. pose proof (refcount_le _ _ k H) as Hle.
  pose proof (rc_count _ _ H k Hk) as Hc. rewrite Hu in Hc. destruct Hc as [Hc Hpos].
  pose proof (rc_of_len _ _ H) as Hlen.
  unfold put_ofd, MINIFS_MAX_OPEN_FILES. rewrite Hu, (proj2 (Z.ltb_ge k 0)), (proj2 (Z.leb_gt 64 k)) by lia.
  simpl. set (g := λ f : open_file, _).
  assert (get_of (upd_of k g s) k = g (get_of s k)) as Hg.
  { rewrite get_of_upd by lia. by rewrite decide_True. }
  rewrite Hg. subst g. simpl. rewrite i32_small by lia.
  specialize (Hδ k Hk) as Hδk. rewrite decide_True in Hδk by done.
  destruct (of_refs (get_of s k) - 1 =? 0) eqn:E; bsimp.
  - rewrite upd_of_upd_of by lia. apply (rc_upd_of δ); [done..| |simpl; lia].
    intros j Hj Hne. rewrite Hδ, decide_False by done. lia.
  - apply (rc_upd_of δ); [done..| |].
    + intros j Hj Hne. rewrite Hδ, decide_False by done. lia.
    + simpl. rewrite Hu, i32_small by lia. lia.
Qed.

Lemma rc_inc δ δ' s k :
  refcounts δ s → 0 ≤ k < 64 → 1 ≤ Z.of_nat (refcount k s) + δ k ≤ 1024 →
  (∀ j, 0 ≤ j < 64 → δ' j = δ j + (if decide (j = k) then 1 else 0)) →
  refcounts δ' (inc_ofd k s).
Proof.
  intros H Hk Hp Hδ. pose proof (rc_count _ _ H k Hk) as Hc.
  destruct (of_used (get_of s k)) eqn:Hu; [|lia].
  apply (rc_upd_of δ); [done..| |].
  - intros j Hj Hne. rewrite Hδ, decide_False by done. lia.
  - simpl. rewrite Hu, i32_small by lia. rewrite (Hδ k Hk), decide_True by done. lia.
Qed.

Lemma rc_alloc δ δ' s ty fl ino k s' :
  refcounts δ s → alloc_ofd ty fl ino s = (k, s') → 0 ≤ k →
  (∀ j, 0 ≤ j < 64 → δ' j = δ j + (if decide (j = k) then 1 else 0)) →
  refcounts δ' s' ∧ k < 64.
Proof.
  intros H Ha Hk Hδ. unfold alloc_ofd in Ha.
  destruct (find_from _ _ _) as [k'|] eqn:E; [|injection Ha as <- <-; lia].
  injection Ha as -> <-. apply find_from_Some in E as (Hr & Hu & _). bsimp.
  pose proof (rc_count _ _ H k ltac:(lia)) as Hc. rewrite Hu in Hc.
  split; [|lia]. apply (rc_upd_of δ); [done|lia| |].
  - intros j Hj Hne. rewrite Hδ, decide_False by done. lia.
  - simpl. rewrite (Hδ k), decide_True by (done || lia). lia.
Qed.

Lemma alloc_ofd_fail s ty fl ino k s' :
  alloc_ofd ty fl ino s = (k, s') → k < 0 → s' = s.
Proof.
  unfold alloc_ofd. destruct (find_from _ _ _) as [k'|] eqn:E.
  - apply find_from_Some in E. intros [= <- <-]. lia.
  - by intros [= <- <-].
Qed.

(** Changing one process whose pid and liveness stay the same. *)
Lemma rc_upd_pf δ δ' s i f :
  refcounts δ s → 0 ≤ i < 16 →
  pf_used (f (get_pf s i)) = pf_used (get_pf s i) →
  pf_pid (f (get_pf s i)) = pf_pid (get_pf s i) →
  proc_ok (f (get_pf s i)) →
  (∀ k, 0 ≤ k < 64 → δ' k = δ k + Z.of_nat (proc_refs k (get_pf s i))
                                - Z.of_nat (proc_refs k (f (get_pf s i)))) →
  refcounts δ' (upd_pf i f s).
Proof.
  intros H Hi Hu Hpid Hok Hδ. destruct H as [Hof Hpf Hpr Hc Hp]. split; try done.
  - unfold upd_pf. simpl. by rewrite length_aset.
  - intros j Hj. rewrite get_pf_upd by lia. case_decide; [done|]. by apply Hpr.
  - intros k Hk. change (get_of (upd_pf i f s) k) with (get_of s k).
    pose proof (refcount_upd_pf s i f k ltac:(lia)). specialize (Hδ k Hk).
    specialize (Hc k Hk). destruct (of_used (get_of s k)); lia.
  - intros a b Ha Hb. rewrite !get_pf_upd by lia. intros Hua Hub Hab.
    apply Hp; [done..| | |]; repeat case_decide; subst; congruence.
Qed.

Lemma rc_set_slot δ δ' s i fd v :
  refcounts δ s → 0 ≤ i < 16 → pf_used (get_pf s i) = true → 0 ≤ fd < 16 →
  -1 ≤ v < 64 →
  (∀ k, 0 ≤ k < 64 → δ' k = δ k + Z.of_nat (hit k (fd_slot s i fd)) - Z.of_nat (hit k v)) →
  refcounts δ' (set_slot i fd v s).
Proof.
  intros H Hi Hu Hfd Hv Hδ. pose proof (rc_procs _ _ H i Hi) as [Hl Hr].
  apply (rc_upd_pf δ); [done..| |].
  - split; simpl; [by rewrite length_aset|]. intros _. apply Forall_insert; [by apply Hr|].
    unfold MINIFS_MAX_OPEN_FILES. lia.
  - intros k Hk. rewrite Hδ by done. unfold proc_refs. simpl. rewrite Hu.
    pose proof (hits_aset k (pf_fd (get_pf s i)) fd v ltac:(lia)). unfold fd_slot. lia.
Qed.

Lemma rc_meta δ s i f :
  refcounts δ s → 0 ≤ i < 16 →
  pf_used (f (get_pf s i)) = pf_used (get_pf s i) →
  pf_pid (f (get_pf s i)) = pf_pid (get_pf s i) →
  pf_fd (f (get_pf s i)) = pf_fd (get_pf s i) →
  refcounts δ (upd_pf i f s).
Proof.
  intros H Hi Hu Hpid Hfd. apply (rc_upd_pf δ); [done..| |].
  - unfold proc_ok. rewrite Hu, Hfd. by apply (rc_procs _ _ H).
  - intros k Hk. unfold proc_refs. rewrite Hu, Hfd. lia.
Qed.

Lemma rc_slot_range δ s i fd :
  refcounts δ s → 0 ≤ i < 16 → pf_used (get_pf s i) = true → 0 ≤ fd < 16 →
  -1 ≤ fd_slot s i fd < 64.
Proof.
  intros H Hi Hu Hfd. destruct (rc_procs _ _ H i Hi) as [Hl Hr].
  specialize (Hr Hu). rewrite Forall_forall in Hr.
  apply (Hr (fd_slot s i fd)). apply aget_elem_of. lia.
Qed.

(** A description referred to by a live process is in use. *)
Lemma rc_slot_used δ s i fd :
  refcounts δ s → 0 ≤ i < 16 → pf_used (get_pf s i) = true → 0 ≤ fd < 16 →
  0 ≤ fd_slot s i fd → (∀ k, 0 ≤ δ k) →
  of_used (get_of s (fd_slot s i fd)) = true.
Proof.
  intros H Hi Hu Hfd Hk Hδ. pose proof (rc_slot_range _ _ _ _ H Hi Hu Hfd).
  pose proof (rc_procs _ _ H i Hi) as [Hl _]. pose proof (rc_pf_len _ _ H).
  pose proof (rc_count _ _ H (fd_slot s i fd) ltac:(lia)) as Hc.
  destruct (of_used _); [done|].
  pose proof (refcount_slot s i fd _ ltac:(lia) Hu ltac:(lia) eq_refl).
  specialize (Hδ (fd_slot s i fd)). lia.
Qed.

Lemma find_process_Some δ s pid i :
  refcounts δ s → find_process pid s = Some i →
  0 ≤ i < 16 ∧ pf_used (get_pf s i) = true ∧ pf_pid (get_pf s i) = pid.
Proof. intros _ (? & ? & _)%find_from_Some. bsimp. split_and!; [lia..|done|done]. Qed.
End rules.

(** ** The operations keep every reference counted *)

Section preservation.
Implicit Types (s : fd_state) (i j k fd : Z).

(** Dropping the reference held by a live descriptor, before the descriptor
    itself is overwritten. *)
Lemma rc_put_slot s i fd :
  fd_inv s → 0 ≤ i < 16 → pf_used (get_pf s i) = true → 0 ≤ fd < 16 →
  0 ≤ fd_slot s i fd →
  refcounts (λ k, - Z.of_nat (hit k (fd_slot s i fd))) (put_ofd (fd_slot s i fd) s).
Proof.
  intros H Hi Hu Hfd Hk. pose proof (rc_slot_range _ _ _ _ H Hi Hu Hfd).
  eapply rc_put; [exact H|lia|by eapply rc_slot_used; eauto; simpl; lia|simpl; lia|].
  intros j Hj. unfold hit. rewrite Z.eqb_sym. simpl. case_decide; bcase; lia.
Qed.

Lemma put_ofd_procs k s : procs (put_ofd k s) = procs s.
Proof. unfold put_ofd. repeat bcase; done. Qed.

Lemma fd_slot_put k s i fd : fd_slot (put_ofd k s) i fd = fd_slot s i fd.
Proof. unfold fd_slot, get_pf. by rewrite put_ofd_procs. Qed.

Lemma get_pf_put k s i : get_pf (put_ofd k s) i = get_pf s i.
Proof. unfold get_pf. by rewrite put_ofd_procs. Qed.

Lemma close_slot_inv s i fd :
  fd_inv s → 0 ≤ i < 16 → pf_used (get_pf s i) = true → 0 ≤ fd < 16 →
  fd_inv (close_slot i fd s).
Proof.
  intros H Hi Hu Hfd. unfold close_slot.
  pose proof (rc_slot_range _ _ _ _ H Hi Hu Hfd) as Hr.
  destruct (0 <=? fd_slot s i fd) eqn:E; bsimp.
  - eapply rc_set_slot; [by apply rc_put_slot|done|by rewrite get_pf_put|done|lia|].
    intros k Hk. rewrite fd_slot_put. unfold hit at 3.
    rewrite (proj2 (Z.eqb_neq (-1) k)) by lia. lia.
  - eapply rc_set_slot; [exact H|done..|lia|].
    intros k Hk. replace (fd_slot s i fd) with (-1) by lia. lia.
Qed.

Lemma get_pf_set_slot s i fd v j :
  0 ≤ i < Z.of_nat (length (procs s)) → 0 ≤ j →
  pf_used (get_pf (set_slot i fd v s) j) = pf_used (get_pf s j) ∧
  pf_pid (get_pf (set_slot i fd v s) j) = pf_pid (get_pf s j) ∧
  pf_cloexec (get_pf (set_slot i fd v s) j) = pf_cloexec (get_pf s j).
Proof.
  intros. unfold set_slot. rewrite get_pf_upd by done. case_decide; [by subst|done].
Qed.

Lemma close_slot_used s i fd j :
  0 ≤ i < Z.of_nat (length (procs s)) → 0 ≤ j →
  pf_used (get_pf (close_slot i fd s) j) = pf_used (get_pf s j).
Proof.
  intros Hi Hj. unfold close_slot.
  destruct (0 <=? fd_slot s i fd); [rewrite <- (get_pf_put (fd_slot s i fd) s j)|];
    apply get_pf_set_slot; rewrite ?put_ofd_procs; done.
Qed.

Lemma close_slot_slot s i fd j fd' :
  0 ≤ i < Z.of_nat (length (procs s)) → 0 ≤ j →
  0 ≤ fd < Z.of_nat (length (pf_fd (get_pf s i))) → 0 ≤ fd' →
  fd_slot (close_slot i fd s) j fd' =
    if decide (j = i ∧ fd' = fd) then -1 else fd_slot s j fd'.
Proof.
  intros. unfold close_slot. bcase.
  - rewrite fd_slot_set_slot; rewrite ?put_ofd_procs, ?get_pf_put, ?fd_slot_put; done.
  - by rewrite fd_slot_set_slot.
Qed.

Lemma close_slot_other s i fd j :
  0 ≤ i < Z.of_nat (length (procs s)) → 0 ≤ j → j ≠ i →
  get_pf (close_slot i fd s) j = get_pf s j.
Proof.
  intros. unfold close_slot, set_slot.
  bcase; rewrite get_pf_upd, decide_False by (rewrite ?put_ofd_procs; lia);
    [apply get_pf_put|done].
Qed.

(** When process [i] is retired the other processes account for all references. *)
Lemma refcount_retired s t i k :
  length (procs s) = 16%nat → length (procs t) = 16%nat → 0 ≤ i < 16 →
  (∀ j, 0 ≤ j → j ≠ i → get_pf t j = get_pf s j) → pf_used (get_pf t i) = false →
  (refcount k t + proc_refs k (get_pf s i) = refcount k s)%nat.
Proof.
  intros Hs Ht Hi Ho Hu.
  assert (procs t = aset (procs s) i (get_pf t i)) as E.
  { apply (list_eq_aget pf_zero); [rewrite length_aset; lia|]. intros j Hj.
    destruct (decide (j = i)) as [->|]; [by rewrite aget_aset_eq by lia|].
    rewrite aget_aset_ne by lia. apply Ho; lia. }
  pose proof (refcount_upd_pf s i (λ _, get_pf t i) k ltac:(lia)) as Hsum.
  unfold refcount in Hsum at 1. unfold upd_pf in Hsum. simpl in Hsum. rewrite <- E in Hsum.
  fold (refcount k t) in Hsum. unfold proc_refs in Hsum at 2. rewrite Hu in Hsum. lia.
Qed.

Lemma rc_clear_cloexec δ s i fd :
  refcounts δ s → 0 ≤ i < 16 → refcounts δ (clear_cloexec i fd s).
Proof. intros. by apply rc_meta. Qed.

(** A live process that refers to nothing may be retired. *)
Lemma rc_retire s i f :
  fd_inv s → 0 ≤ i < 16 → (∀ fd, 0 ≤ fd < 16 → fd_slot s i fd = -1) →
  pf_used (f (get_pf s i)) = false → pf_fd (f (get_pf s i)) = pf_fd (get_pf s i) →
  fd_inv (upd_pf i f s).
Proof.
  intros H Hi Hempty Hu Hfd. pose proof (rc_procs _ _ H i Hi) as [Hl _].
  assert (∀ k, 0 ≤ k → proc_refs k (get_pf s i) = 0%nat) as Hz.
  { intros k Hk. unfold proc_refs, hits. destruct (pf_used (get_pf s i)); [|done].
    apply sum_list_with_zero. intros x [n Hn]%list_elem_of_lookup.
    pose proof (lookup_lt_Some _ _ _ Hn). specialize (Hempty (Z.of_nat n)).
    unfold fd_slot in Hempty. rewrite (aget_lookup _ _ _ x) in Hempty by (by rewrite Nat2Z.id).
    unfold hit. bcase; [|done]. lia. }
  destruct H as [Hof Hpf Hpr Hc Hp]. split; try done.
  - unfold upd_pf. simpl. by rewrite length_aset.
  - intros j Hj. rewrite get_pf_upd by lia. case_decide; [|by apply Hpr].
    split; [by rewrite Hfd|]. by rewrite Hu.
  - intros k Hk. change (get_of (upd_pf i f s) k) with (get_of s k).
    pose proof (refcount_upd_pf s i f k ltac:(lia)) as Hr. rewrite Hz in Hr by lia.
    unfold proc_refs in Hr. rewrite Hu in Hr. specialize (Hc k Hk).
    destruct (of_used (get_of s k)); lia.
  - intros a b Ha Hb. rewrite !get_pf_upd by lia.
    repeat case_decide; subst; try congruence. by apply Hp.
Qed.

Lemma rc_ext δ δ' s :
  (∀ k, 0 ≤ k < 64 → δ k = δ' k) → refcounts δ s → refcounts δ' s.
Proof.
  intros Hδ [Hof Hpf Hpr Hc Hp]. split; try done. intros k Hk. rewrite <- Hδ by done.
  by apply Hc.
Qed.

Lemma rc_alloc_hit δ s ty fl ino k s' :
  refcounts δ s → alloc_ofd ty fl ino s = (k, s') →
  refcounts (λ j, δ j + Z.of_nat (hit j k)) s' ∧ -1 ≤ k < 64 ∧ procs s' = procs s.
Proof.
  intros H Ha. pose proof Ha as Ha'. unfold alloc_ofd in Ha'.
  destruct (find_from _ _ _) as [k'|] eqn:E; injection Ha' as <- <-.
  - apply find_from_Some in E as (Hk & _ & _).
    destruct (rc_alloc δ (λ j, δ j + Z.of_nat (hit j k')) _ _ _ _ _ _ H Ha) as [? ?];
      [lia| |split_and!; [done|lia..|done]].
    intros j Hj. unfold hit. rewrite Z.eqb_sym. case_decide; bcase; lia.
  - split_and!; [|lia..|done]. eapply rc_ext; [|exact H]. intros j Hj. unfold hit.
    rewrite (proj2 (Z.eqb_neq (-1) j)) by lia. lia.
Qed.

Lemma rc_put_hit δ s k :
  refcounts δ s → -1 ≤ k < 64 → δ k ≤ 16 → (0 ≤ k → 1 ≤ δ k) →
  refcounts (λ j, δ j - Z.of_nat (hit j k)) (put_ofd k s).
Proof.
  intros H Hk Hb Hown. destruct (decide (k = -1)) as [->|].
  - rewrite put_ofd_neg by lia. eapply rc_ext; [|exact H]. intros j Hj. unfold hit.
    rewrite (proj2 (Z.eqb_neq (-1) j)) by lia. lia.
  - pose proof (rc_count _ _ H k ltac:(lia)) as Hc.
    eapply rc_put; [exact H|lia| |done|].
    + destruct (of_used (get_of s k)); [done|]. specialize (Hown ltac:(lia)). lia.
    + intros j Hj. unfold hit. rewrite Z.eqb_sym. case_decide; bcase; lia.
Qed.

(** Making descriptor [fd] of process [i] refer to what descriptor [fd'] of
    process [j] refers to: the common core of [fork] and [dup2]. *)
Definition redirect (i fd j fd' : Z) (s : fd_state) : fd_state :=
  let s := if 0 <=? fd_slot s i fd then put_ofd (fd_slot s i fd) s else s in
  let s := set_slot i fd (fd_slot s j fd') s in
  if 0 <=? fd_slot s i fd then inc_ofd (fd_slot s i fd) s else s.

Lemma inc_ofd_procs k s : procs (inc_ofd k s) = procs s.
Proof. done. Qed.

Lemma redirect_procs i fd j fd' s :
  0 ≤ i < Z.of_nat (length (procs s)) →
  procs (redirect i fd j fd' s) = procs (set_slot i fd (fd_slot s j fd') s).
Proof.
  intros. unfold redirect, set_slot, upd_pf, inc_ofd, upd_of.
  destruct (0 <=? fd_slot s i fd); cbv zeta.
  all: match goal with |- context [if ?b then _ else _] => destruct b end.
  all: simpl; unfold fd_slot; rewrite ?get_pf_put, ?put_ofd_procs; done.
Qed.

Lemma redirect_inv s i fd j fd' :
  fd_inv s → 0 ≤ i < 16 → 0 ≤ j < 16 → 0 ≤ fd < 16 → 0 ≤ fd' < 16 →
  pf_used (get_pf s i) = true → pf_used (get_pf s j) = true →
  ¬ (j = i ∧ fd' = fd) → fd_inv (redirect i fd j fd' s).
Proof.
  intros H Hi Hj Hfd Hfd' Hui Huj Hne. unfold redirect.
  pose proof (rc_slot_range _ _ _ _ H Hi Hui Hfd) as Hold.
  pose proof (rc_slot_range _ _ _ _ H Hj Huj Hfd') as Hnew.
  set (s1 := if 0 <=? fd_slot s i fd then _ else _).
  assert (procs s1 = procs s) as Hp.
  { unfold s1. bcase; [apply put_ofd_procs|done]. }
  assert (refcounts (λ k, - Z.of_nat (hit k (fd_slot s i fd))) s1) as H1.
  { unfold s1. bcase; [by apply rc_put_slot|]. eapply rc_ext; [|exact H].
    intros k Hk. unfold hit. rewrite (proj2 (Z.eqb_neq _ k)) by lia. done. }
  assert (∀ a b, fd_slot s1 a b = fd_slot s a b) as Hs by (intros; unfold fd_slot, get_pf; by rewrite Hp).
  assert (∀ a, get_pf s1 a = get_pf s a) as Hg by (intros; unfold get_pf; by rewrite Hp).
  rewrite (Hs j fd'). set (s2 := set_slot i fd (fd_slot s j fd') s1).
  pose proof (rc_pf_len _ _ H) as Hlen. pose proof (rc_procs _ _ H i Hi) as [Hli _].
  pose proof (rc_procs _ _ H j Hj) as [Hlj _].
  assert (refcounts (λ k, - Z.of_nat (hit k (fd_slot s j fd'))) s2) as H2.
  { eapply rc_set_slot; [exact H1|done|by rewrite Hg|done|done|].
    intros k Hk. rewrite Hs. lia. }
  assert (fd_slot s2 i fd = fd_slot s j fd') as E1.
  { unfold s2. rewrite fd_slot_set_slot; rewrite ?Hp, ?Hg; try lia. by rewrite decide_True. }
  assert (fd_slot s2 j fd' = fd_slot s j fd') as E2.
  { unfold s2. rewrite fd_slot_set_slot; rewrite ?Hp, ?Hg, ?Hs; try lia. by rewrite decide_False. }
  rewrite E1. destruct (0 <=? fd_slot s j fd') eqn:E; bsimp.
  - assert (∀ a, 0 ≤ a → pf_used (get_pf s2 a) = pf_used (get_pf s a)) as Hu2.
    { intros a Ha. rewrite <- Hg. apply get_pf_set_slot; rewrite ?Hp; lia. }
    pose proof (rc_procs _ _ H2 i Hi) as [Hl2i _]. pose proof (rc_procs _ _ H2 j Hj) as [Hl2j _].
    pose proof (rc_pf_len _ _ H2) as Hlen2.
    pose proof (refcount_two_slots s2 i fd j fd' (fd_slot s j fd') ltac:(lia) ltac:(lia)
      ltac:(by rewrite Hu2 by lia) ltac:(by rewrite Hu2 by lia) ltac:(lia) ltac:(lia) Hne E1 E2 E).
    pose proof (refcount_le _ _ (fd_slot s j fd') H2).
    eapply rc_inc; [exact H2|lia| |].
    + unfold hit. rewrite Z.eqb_refl. lia.
    + intros k Hk. unfold hit. rewrite Z.eqb_sym. simpl. case_decide; bcase; lia.
  - eapply rc_ext; [|exact H2]. intros k Hk. unfold hit.
    rewrite (proj2 (Z.eqb_neq _ k)) by lia. done.
Qed.
End preservation.

Section operations.
Implicit Types (s : fd_state) (i j k fd pid : Z).

(** Loop invariant of the closing loop: descriptors below [n] are closed. *)
Lemma close_loop s i n :
  fd_inv s → 0 ≤ i < 16 → pf_used (get_pf s i) = true → (n ≤ 16)%nat →
  let s' := fold_for n 0 (close_slot i) s in
  fd_inv s' ∧ (∀ j, 0 ≤ j → pf_used (get_pf s' j) = pf_used (get_pf s j)) ∧
  (∀ fd, 0 ≤ fd < Z.of_nat n → fd_slot s' i fd = -1) ∧
  (∀ j, 0 ≤ j → j ≠ i → get_pf s' j = get_pf s j).
Proof.
  intros H Hi Hu Hn.
  apply (fold_for_ind (λ m t, fd_inv t ∧
    (∀ j, 0 ≤ j → pf_used (get_pf t j) = pf_used (get_pf s j)) ∧
    (∀ fd, 0 ≤ fd < m → fd_slot t i fd = -1) ∧
    (∀ j, 0 ≤ j → j ≠ i → get_pf t j = get_pf s j))).
  { split_and!; [done|done|intros; lia|done]. }
  intros m t Hm (Ht & Htu & Htc & Hto).
  pose proof (rc_pf_len _ _ Ht) as Hlen. pose proof (rc_procs _ _ Ht i Hi) as [Hli _].
  split_and!.
  - apply close_slot_inv; [done|done|by rewrite Htu by lia|lia].
  - intros j Hj. rewrite close_slot_used by lia. by apply Htu.
  - intros fd Hfd. rewrite close_slot_slot by lia. case_decide; [done|]. apply Htc. lia.
  - intros j Hj Hne. rewrite close_slot_other by lia. by apply Hto.
Qed.

Lemma minifs_close_all_inv s pid : fd_inv s → fd_inv (minifs_close_all pid s).
Proof.
  intros H. unfold minifs_close_all. destruct (find_process pid s) as [i|] eqn:E; [|done].
  apply (find_process_Some _ _ _ _ H) in E as (Hi & Hu & _).
  destruct (close_loop s i 16 H Hi Hu ltac:(lia)) as (H' & _ & Hc & _).
  generalize dependent (fold_for 16 0 (close_slot i) s). intros t H' Hc.
  apply rc_retire; [done..| |done|done]. exact Hc.
Qed.

Lemma minifs_set_cloexec_inv s pid fd on : fd_inv s → fd_inv (minifs_set_cloexec pid fd on s).2.
Proof.
  intros H. unfold minifs_set_cloexec.
  destruct (find_process pid s) as [i|] eqn:E; [|done].
  apply (find_process_Some _ _ _ _ H) in E as (Hi & Hu & _).
  bcase; [exact H|]. bcase; cbn [snd]; [by apply rc_meta|by apply rc_clear_cloexec].
Qed.

Lemma minifs_close_exec_fds_inv s pid : fd_inv s → fd_inv (minifs_close_exec_fds pid s).
Proof.
  intros H. unfold minifs_close_exec_fds. destruct (find_process pid s) as [i|] eqn:E; [|done].
  apply (find_process_Some _ _ _ _ H) in E as (Hi & Hu & _).
  apply (fold_for_ind (λ _ t, fd_inv t ∧ pf_used (get_pf t i) = true)); [done|].
  intros fd t Hfd [Ht Htu]. bcase; [|done]. pose proof (rc_pf_len _ _ Ht).
  assert (fd_inv (close_slot i fd t)) as Ht' by (apply close_slot_inv; [done|done|done|lia]).
  split; [by apply rc_clear_cloexec|].
  unfold clear_cloexec. pose proof (rc_pf_len _ _ Ht'). rewrite get_pf_upd by lia.
  rewrite decide_True by done. simpl. by rewrite close_slot_used by lia.
Qed.

Lemma minifs_close_inv s pid fd : fd_inv s → fd_inv (minifs_close pid fd s).2.
Proof.
  intros H. unfold minifs_close. destruct (find_process pid s) as [i|] eqn:E; [|done].
  apply (find_process_Some _ _ _ _ H) in E as (Hi & Hu & _).
  unfold MINIFS_MAX_FD. bcase; [done|]. apply rc_clear_cloexec; [|done].
  pose proof (close_slot_inv s i fd H Hi Hu ltac:(lia)) as Hc. unfold close_slot in Hc.
  by rewrite (proj2 (Z.leb_le 0 _)) in Hc by lia.
Qed.

Lemma minifs_dup2_redirect s pid i oldfd newfd :
  fd_inv s → find_process pid s = Some i → 0 ≤ oldfd < 16 → 0 ≤ newfd < 16 →
  0 ≤ fd_slot s i oldfd → oldfd ≠ newfd →
  minifs_dup2 pid oldfd newfd s =
    (newfd, clear_cloexec i newfd (redirect i newfd i oldfd s)).
Proof.
  intros H E Ho Hn Hold Hne. pose proof (find_process_Some _ _ _ _ H E) as (Hi & Hu & _).
  unfold minifs_dup2, MINIFS_MAX_FD. rewrite E.
  rewrite (proj2 (Z.ltb_ge oldfd 0)), (proj2 (Z.leb_gt 16 oldfd)), (proj2 (Z.ltb_ge newfd 0)),
    (proj2 (Z.leb_gt 16 newfd)), (proj2 (Z.ltb_ge (fd_slot s i oldfd) 0)),
    (proj2 (Z.eqb_neq oldfd newfd)) by lia. cbn [orb].
  unfold redirect. set (s1 := if 0 <=? fd_slot s i newfd then _ else _).
  assert (procs s1 = procs s) as Hp by (unfold s1; bcase; [apply put_ofd_procs|done]).
  pose proof (rc_pf_len _ _ H). pose proof (rc_procs _ _ H i Hi) as [Hl _].
  assert (fd_slot (set_slot i newfd (fd_slot s1 i oldfd) s1) i newfd = fd_slot s i oldfd) as ->.
  { rewrite fd_slot_set_slot; unfold fd_slot, get_pf; rewrite ?Hp; fold (get_pf s i); try lia.
    by rewrite decide_True. }
  by rewrite (proj2 (Z.leb_le 0 (fd_slot s i oldfd))) by lia.
Qed.

Lemma minifs_dup2_inv s pid oldfd newfd : fd_inv s → fd_inv (minifs_dup2 pid oldfd newfd s).2.
Proof.
  intros H. destruct (find_process pid s) as [i|] eqn:E; [|unfold minifs_dup2; by rewrite E].
  pose proof (find_process_Some _ _ _ _ H E) as (Hi & Hu & _).
  destruct (decide (0 ≤ oldfd < 16 ∧ 0 ≤ newfd < 16 ∧ 0 ≤ fd_slot s i oldfd ∧ oldfd ≠ newfd))
    as [(? & ? & ? & ?)|Hn].
  - rewrite (minifs_dup2_redirect s pid i) by done. apply rc_clear_cloexec; [|done].
    apply redirect_inv; [done..|lia].
  - unfold minifs_dup2, MINIFS_MAX_FD. rewrite E. bcase; [exact H|].
    bcase; [exact H|]. exfalso. apply Hn. lia.
Qed.

(** Creating a process: a fresh pid whose descriptors are all closed. *)
Lemma rc_adopt s i pid c :
  fd_inv s → 0 ≤ i < 16 → pf_used (get_pf s i) = false → find_process pid s = None →
  fd_inv (upd_pf i (λ _, MkProcFds true pid (replicate 16 (-1)) c) s).
Proof.
  intros H Hi Hu Hf. unfold find_process in Hf. rewrite find_from_None in Hf.
  destruct H as [Hof Hpf Hpr Hc Hp]. split; try done.
  - unfold upd_pf. simpl. by rewrite length_aset.
  - intros j Hj. rewrite get_pf_upd by lia. case_decide; [|by apply Hpr].
    split; [done|]. intros _. apply (Forall_replicate _ 16). unfold MINIFS_MAX_OPEN_FILES. lia.
  - intros k Hk. change (get_of (upd_pf i _ s) k) with (get_of s k).
    pose proof (refcount_upd_pf s i (λ _, MkProcFds true pid (replicate 16 (-1)) c) k ltac:(lia)) as Hr.
    unfold proc_refs in Hr. rewrite Hu in Hr. cbn [pf_used pf_fd] in Hr.
    assert (hits k (replicate 16 (-1)) = 0%nat) as Hz.
    { apply sum_list_with_zero. intros x [-> _]%elem_of_replicate. unfold hit. bcase; lia. }
    rewrite Hz in Hr. specialize (Hc k Hk). destruct (of_used (get_of s k)); lia.
  - intros a b Ha Hb. rewrite !get_pf_upd by lia.
    repeat case_decide; subst; simpl; try done; try (by apply Hp).
    + intros _ Hub Hpid. specialize (Hf b ltac:(lia)). rewrite Hub, <- Hpid in Hf. bsimp. simpl in Hf. by bsimp.
    + intros Hua _ Hpid. specialize (Hf a ltac:(lia)). rewrite Hua, Hpid in Hf. simpl in Hf. by bsimp.
Qed.
End operations.

Section creation.
Implicit Types (s : fd_state) (i j k fd pid : Z).

(** The state after the descriptor array of a new process has been filled. *)
Lemma fill_new_process s i pid :
  fd_inv s → 0 ≤ i < 16 →
  fold_for 16 0 (λ fd s, set_slot i fd (-1) s)
    (upd_pf i (λ p, p <| pf_used := true |> <| pf_pid := pid |> <| pf_cloexec := 0 |>) s) =
  upd_pf i (λ _, MkProcFds true pid (replicate 16 (-1)) 0) s.
Proof.
  intros H Hi. pose proof (rc_pf_len _ _ H). pose proof (rc_procs _ _ H i Hi) as [Hl _].
  unfold set_slot. rewrite fold_upd_pf by (unfold upd_pf; simpl; rewrite ?length_aset; lia).
  rewrite upd_pf_upd_pf by lia. unfold upd_pf. do 2 f_equal. by rewrite fill_slots.
Qed.

Lemma alloc_console_three s ks s' :
  fd_inv s →
  (let '(a, s1) := alloc_ofd OFD_CONSOLE_IN MINIFS_O_RDONLY 0 s in
   let '(b, s2) := alloc_ofd OFD_CONSOLE_OUT MINIFS_O_WRONLY 0 s1 in
   let '(c, s3) := alloc_ofd OFD_CONSOLE_OUT MINIFS_O_WRONLY 0 s2 in ((a, b, c), s3)) = (ks, s') →
  refcounts (λ k, Z.of_nat (hit k ks.1.1) + Z.of_nat (hit k ks.1.2) + Z.of_nat (hit k ks.2)) s' ∧
  procs s' = procs s ∧ -1 ≤ ks.1.1 < 64 ∧ -1 ≤ ks.1.2 < 64 ∧ -1 ≤ ks.2 < 64.
Proof.
  intros H. destruct (alloc_ofd OFD_CONSOLE_IN _ _ s) as [a s1] eqn:E1.
  destruct (alloc_ofd OFD_CONSOLE_OUT _ _ s1) as [b s2] eqn:E2.
  destruct (alloc_ofd OFD_CONSOLE_OUT _ _ s2) as [c s3] eqn:E3. intros [= <- <-]. simpl.
  destruct (rc_alloc_hit _ _ _ _ _ _ _ H E1) as (H1 & Hr1 & Hp1).
  destruct (rc_alloc_hit _ _ _ _ _ _ _ H1 E2) as (H2 & Hr2 & Hp2).
  destruct (rc_alloc_hit _ _ _ _ _ _ _ H2 E3) as (H3 & Hr3 & Hp3).
  split_and!; [|congruence|lia..]. eapply rc_ext; [|exact H3]. simpl. lia.
Qed.

Lemma rc_put_three s a b c :
  -1 ≤ a < 64 → -1 ≤ b < 64 → -1 ≤ c < 64 →
  refcounts (λ k, Z.of_nat (hit k a) + Z.of_nat (hit k b) + Z.of_nat (hit k c)) s →
  fd_inv (put_ofd c (put_ofd b (put_ofd a s))).
Proof.
  intros Ha Hb Hc H.
  assert (∀ k x, (hit k x ≤ 1)%nat) as Hle by (intros; unfold hit; bcase; lia).
  assert (∀ x, hit x x = 1%nat) as Hself by (intros; unfold hit; by rewrite Z.eqb_refl).
  eapply rc_put_hit in H; [|exact Ha| |];
    [|pose proof (Hle a a); pose proof (Hle a b); pose proof (Hle a c); lia|rewrite Hself; lia].
  eapply rc_put_hit in H; [|exact Hb| |];
    [|pose proof (Hle b a); pose proof (Hle b b); pose proof (Hle b c); lia|rewrite Hself; lia].
  eapply rc_put_hit in H; [|exact Hc| |];
    [|pose proof (Hle c a); pose proof (Hle c b); pose proof (Hle c c); lia|rewrite Hself; lia].
  eapply rc_ext; [|exact H]. intros k Hk. simpl. lia.
Qed.

(** Storing three owned descriptions in the first three closed descriptors. *)
Lemma rc_install_three s i a b c :
  refcounts (λ k, Z.of_nat (hit k a) + Z.of_nat (hit k b) + Z.of_nat (hit k c)) s →
  0 ≤ i < 16 → pf_used (get_pf s i) = true →
  (∀ fd, 0 ≤ fd < 16 → fd_slot s i fd = -1) →
  0 ≤ a < 64 → 0 ≤ b < 64 → 0 ≤ c < 64 →
  fd_inv (set_slot i 2 c (set_slot i 1 b (set_slot i 0 a s))).
Proof.
  intros H Hi Hu Hslots Ha Hb Hc.
  assert (∀ k, 0 ≤ k < 64 → hit k (-1) = 0%nat) as Hm1 by (intros; unfold hit; bcase; lia).
  pose proof (rc_pf_len _ _ H). pose proof (rc_procs _ _ H i ltac:(lia)) as [Hlf _].
  pose proof (rc_set_slot _ (λ k, Z.of_nat (hit k b) + Z.of_nat (hit k c)) s i 0 a H
    ltac:(lia) Hu ltac:(lia) ltac:(lia)
    ltac:(intros k Hk; rewrite Hslots, Hm1 by lia; lia)) as Hr1.
  destruct (get_pf_set_slot s i 0 a i) as (Hu1 & _); [lia..|]. rewrite Hu in Hu1.
  pose proof (rc_pf_len _ _ Hr1). pose proof (rc_procs _ _ Hr1 i ltac:(lia)) as [Hlf1 _].
  pose proof (rc_set_slot _ (λ k, Z.of_nat (hit k c)) _ i 1 b Hr1
    ltac:(lia) Hu1 ltac:(lia) ltac:(lia)
    ltac:(intros k Hk; rewrite fd_slot_set_slot, decide_False, Hslots, Hm1 by lia; lia)) as Hr2.
  destruct (get_pf_set_slot (set_slot i 0 a s) i 1 b i) as (Hu2 & _); [lia..|]. rewrite Hu1 in Hu2.
  pose proof (rc_pf_len _ _ Hr2). pose proof (rc_procs _ _ Hr2 i ltac:(lia)) as [Hlf2 _].
  eapply rc_set_slot; [exact Hr2|lia|exact Hu2|lia|lia|].
  intros k Hk. rewrite fd_slot_set_slot, decide_False by lia.
  rewrite fd_slot_set_slot, decide_False, Hslots, Hm1 by lia. simpl. lia.
Qed.

(** The tables of the other processes survive [minifs_process_init]; on success
    the pid has a table. *)
Lemma get_pf_set_three s i a b c j :
  length (procs s) = 16%nat → 0 ≤ i < 16 → 0 ≤ j →
  get_pf (set_slot i 2 c (set_slot i 1 b (set_slot i 0 a s))) j =
    if decide (j = i)
    then (get_pf s i) <| pf_fd := aset (aset (aset (pf_fd (get_pf s i)) 0 a) 1 b) 2 c |>
    else get_pf s j.
Proof.
  intros. unfold set_slot. rewrite upd_pf_upd_pf, upd_pf_upd_pf by (unfold upd_pf; simpl; rewrite ?length_aset; lia).
  rewrite get_pf_upd by lia. done.
Qed.

Lemma minifs_process_init_inv s pid rc s' :
  fd_inv s → minifs_process_init pid s = (rc, s') →
  fd_inv s' ∧ (rc = 0 ∨ rc = -1) ∧ (rc = 0 → ∃ i, find_process pid s' = Some i) ∧
  (∀ j, 0 ≤ j → pf_used (get_pf s j) = true → get_pf s' j = get_pf s j).
Proof.
  intros H. unfold minifs_process_init.
  destruct (find_process pid s) as [i|] eqn:Ef.
  { intros [= <- <-]. split_and!; [done|by left|by exists i|done]. }
  destruct (find_from 16 0 _) as [i|] eqn:Ei;
    [|intros [= <- <-]; split_and!; [done|by right|lia|done]].
  apply find_from_Some in Ei as (Hi & Hu & _). bsimp.
  rewrite fill_new_process by (done || lia).
  pose proof (rc_adopt s i pid 0 H ltac:(lia) Hu Ef) as H0.
  pose proof (rc_pf_len _ _ H) as Hlen.
  assert (∀ j, 0 ≤ j → get_pf (upd_pf i (λ _, MkProcFds true pid (replicate 16 (-1)) 0) s) j =
    if decide (j = i) then MkProcFds true pid (replicate 16 (-1)) 0 else get_pf s j) as Hg0
    by (intros; apply get_pf_upd; lia).
  set (s0 := upd_pf i _ s) in *.
  destruct (alloc_ofd OFD_CONSOLE_IN _ _ s0) as [a s1] eqn:E1.
  destruct (alloc_ofd OFD_CONSOLE_OUT _ _ s1) as [b s2] eqn:E2.
  destruct (alloc_ofd OFD_CONSOLE_OUT _ _ s2) as [c s3] eqn:E3.
  destruct (alloc_console_three s0 (a, b, c) s3 H0) as (H3 & Hp3 & Ha & Hb & Hc);
    [by rewrite E1, E2, E3|]. simpl in H3, Ha, Hb, Hc. clear E1 E2 E3.
  assert (∀ j, get_pf s3 j = get_pf s0 j) as Hg3 by (intros; unfold get_pf; by rewrite Hp3).
  pose proof (rc_pf_len _ _ H3) as Hl3.
  assert (∀ fd, 0 ≤ fd < 16 → fd_slot s3 i fd = -1) as Hslots.
  { intros fd Hfd. unfold fd_slot. rewrite Hg3, Hg0, decide_True by lia. cbn [pf_fd].
    apply aget_replicate. lia. }
  destruct ((a <? 0) || (b <? 0) || (c <? 0)) eqn:Efail; intros [= <- <-].
  - pose proof (rc_put_three s3 a b c Ha Hb Hc H3) as Hput. split_and!; [|lia|lia|].
    + apply rc_retire; [done|lia| |done|done].
      intros fd Hfd. rewrite !fd_slot_put. by apply Hslots.
    + intros j Hj Huj. assert (j ≠ i) by congruence.
      rewrite get_pf_upd by (rewrite ?put_ofd_procs; lia). rewrite decide_False by done.
      by rewrite !get_pf_put, Hg3, Hg0, decide_False by done.
  - bsimp. split_and!; [|lia| |].
    + apply rc_install_three; [done|lia| |done|lia..]. by rewrite Hg3, Hg0, decide_True by lia.
    + intros _. unfold find_process.
      match goal with |- context [find_from 16 0 ?p] =>
        destruct (find_from_complete 16 0 p i) as (j & Hj & _); [lia| |by exists j] end.
      simpl. rewrite get_pf_set_three, decide_True by lia. simpl.
      rewrite Hg3, Hg0, decide_True by lia. simpl. by rewrite Z.eqb_refl.
    + intros j Hj Huj. assert (j ≠ i) by congruence.
      rewrite get_pf_set_three, decide_False by lia. by rewrite Hg3, Hg0, decide_False by lia.
Qed.
End creation.

Section fork.
Implicit Types (s t : fd_state) (i j k fd pid : Z).

(** Two states list the same live processes. *)
Definition same_procs (s t : fd_state) : Prop :=
  ∀ j, 0 ≤ j < 16 → pf_used (get_pf t j) = pf_used (get_pf s j) ∧
                    pf_pid (get_pf t j) = pf_pid (get_pf s j).

Lemma find_process_same s t pid : same_procs s t → find_process pid t = find_process pid s.
Proof.
  intros H. apply find_from_ext. intros j Hj. by destruct (H j) as [-> ->]; [lia|].
Qed.

Lemma redirect_same_procs s i fd j fd' :
  length (procs s) = 16%nat → 0 ≤ i < 16 → same_procs s (redirect i fd j fd' s).
Proof.
  intros Hl Hi a Ha.
  assert (get_pf (redirect i fd j fd' s) a = get_pf (set_slot i fd (fd_slot s j fd') s) a) as ->
    by (unfold get_pf; rewrite redirect_procs by lia; done).
  destruct (get_pf_set_slot s i fd (fd_slot s j fd') a) as (-> & -> & _); [lia..|done].
Qed.

Lemma redirect_slot s i fd j fd' a b :
  fd_inv s → 0 ≤ i < 16 → 0 ≤ fd < 16 → 0 ≤ a → 0 ≤ b →
  fd_slot (redirect i fd j fd' s) a b =
    if decide (a = i ∧ b = fd) then fd_slot s j fd' else fd_slot s a b.
Proof.
  intros H Hi Hfd Ha Hb. pose proof (rc_pf_len _ _ H). pose proof (rc_procs _ _ H i Hi) as [Hl _].
  rewrite <- (fd_slot_set_slot s i fd (fd_slot s j fd') a b) by lia.
  unfold fd_slot at 1, get_pf. by rewrite redirect_procs by lia.
Qed.

(** The copy loop of [minifs_process_fork]. *)
Lemma fork_loop s parent child :
  fd_inv s → 0 ≤ parent < 16 → 0 ≤ child < 16 → parent ≠ child →
  pf_used (get_pf s parent) = true → pf_used (get_pf s child) = true →
  let s' := fold_for 16 0 (fork_fd parent child) s in
  fd_inv s' ∧ same_procs s s' ∧
  (∀ fd, 0 ≤ fd < 16 → fd_slot s' child fd = fd_slot s parent fd) ∧
  (∀ j fd, 0 ≤ j < 16 → j ≠ child → 0 ≤ fd → fd_slot s' j fd = fd_slot s j fd).
Proof.
  intros H Hp Hc Hne Hup Huc.
  apply (fold_for_ind (λ n t, fd_inv t ∧ same_procs s t ∧
    (∀ fd, 0 ≤ fd < n → fd_slot t child fd = fd_slot s parent fd) ∧
    (∀ j fd, 0 ≤ j < 16 → j ≠ child → 0 ≤ fd → fd_slot t j fd = fd_slot s j fd))).
  { split_and!; [done|by intros|intros; lia|done]. }
  intros n t Hn (Ht & Hsame & Hdone & Hother).
  change (fork_fd parent child n t) with (redirect child n parent n t).
  pose proof (rc_pf_len _ _ Ht). split_and!.
  - apply redirect_inv; try done; try lia.
    + by destruct (Hsame child Hc) as [-> _].
    + by destruct (Hsame parent Hp) as [-> _].
  - intros j Hj. destruct (Hsame j Hj) as [<- <-]. by apply redirect_same_procs.
  - intros fd Hfd. rewrite redirect_slot by (done || lia). case_decide.
    + replace fd with n by lia. apply Hother; lia.
    + apply Hdone. lia.
  - intros j fd Hj Hjc Hfd. rewrite redirect_slot by (done || lia).
    rewrite decide_False by lia. by apply Hother.
Qed.

Lemma minifs_process_fork_spec s ppid cpid rc s' :
  fd_inv s → ppid ≠ cpid → minifs_process_fork ppid cpid s = (rc, s') →
  fd_inv s' ∧
  (rc = 0 → ∃ i j, find_process ppid s = Some i ∧ find_process ppid s' = Some i ∧
     find_process cpid s' = Some j ∧
     ∀ fd, 0 ≤ fd < 16 → fd_slot s' j fd = fd_slot s i fd ∧ fd_slot s' i fd = fd_slot s i fd).
Proof.
  intros H Hne. unfold minifs_process_fork.
  destruct (find_process ppid s) as [i|] eqn:Ei; [|by intros [= <- <-]].
  destruct (find_process_Some _ _ _ _ H Ei) as (Hi & Hui & Hpi).
  destruct (minifs_process_init cpid s) as [r t] eqn:Et.
  destruct (minifs_process_init_inv _ _ _ _ H Et) as (Ht & Hr & Hex & Hframe).
  bcase; [intros [= <- <-]; split; [done|lia]|]. destruct Hex as [j Hj]; [lia|]. rewrite Hj.
  destruct (find_process_Some _ _ _ _ Ht Hj) as (Hjr & Huj & Hpj).
  pose proof (Hframe i ltac:(lia) Hui) as Hgi.
  assert (i ≠ j) as Hij by (intros ->; congruence).
  set (t1 := upd_pf j _ t). pose proof (rc_pf_len _ _ Ht).
  assert (fd_inv t1) as Ht1 by (by apply rc_meta).
  assert (∀ a, 0 ≤ a → get_pf t1 a = if decide (a = j)
    then (get_pf t j) <| pf_cloexec := pf_cloexec (get_pf t i) |> else get_pf t a) as Hg
    by (intros; apply get_pf_upd; lia).
  destruct (fork_loop t1 i j Ht1 Hi Hjr Hij) as (Hinv & Hsame & Hcopy & Hother).
  { rewrite Hg, decide_False, Hgi by (done || lia). done. }
  { rewrite Hg, decide_True by (done || lia). done. }
  generalize dependent (fold_for 16 0 (fork_fd i j) t1). intros u Hinv Hsame Hcopy Hother.
  intros [= <- <-]. split; [exact Hinv|]. intros _.
  assert (same_procs t t1) as Hst.
  { intros a Ha. rewrite Hg by lia. case_decide; [by subst|done]. }
  exists i, j. split_and!; [done| | |].
  - rewrite (find_process_same t1 u), (find_process_same t t1) by done.
    destruct (find_from_complete 16 0 (λ a, pf_used (get_pf t a) && (pf_pid (get_pf t a) =? ppid)) i)
      as (a & Ha & Hai & Hpa); [lia|by rewrite Hgi, Hui, Hpi, Z.eqb_refl|].
    unfold find_process. rewrite Ha. f_equal. bsimp.
    apply (rc_pids _ _ Ht); [lia|lia|done|by rewrite Hgi|by rewrite Hgi, Hpi].
  - by rewrite (find_process_same t1 u), (find_process_same t t1).
  - assert (∀ fd, fd_slot t1 i fd = fd_slot s i fd) as Hs1.
    { intros fd. unfold fd_slot. rewrite Hg, decide_False, Hgi by (done || lia). done. }
    intros fd Hfd. rewrite Hcopy, Hother, Hs1 by (done || lia). done.
Qed.
End fork.

Section opening.
Implicit Types (s : fd_state) (i k fd pid : Z).

Lemma rc_of_meta δ s k f :
  refcounts δ s → 0 ≤ k < 64 →
  of_used (f (get_of s k)) = of_used (get_of s k) →
  of_refs (f (get_of s k)) = of_refs (get_of s k) →
  refcounts δ (upd_of k f s).
Proof.
  intros H Hk Hu Hr. apply (rc_upd_of δ); [done..|]. rewrite Hu, Hr. by apply (rc_count _ _ H).
Qed.

(** An owned description ends up in a descriptor or is dropped. *)
Lemma install_fd_inv s i ofd fd s' :
  refcounts (λ k, Z.of_nat (hit k ofd)) s → 0 ≤ i < 16 → pf_used (get_pf s i) = true →
  0 ≤ ofd < 64 → install_fd i ofd s = (fd, s') →
  fd_inv (if fd <? 0 then put_ofd ofd s' else s') ∧ -1 ≤ fd < 16 ∧
  (0 ≤ fd → fd_slot s i fd < 0 ∧ fd_slot s' i fd = ofd).
Proof.
  intros H Hi Hu Hofd. unfold install_fd.
  pose proof (rc_pf_len _ _ H). pose proof (rc_procs _ _ H i Hi) as [Hl _].
  destruct (find_from 16 0 _) as [n|] eqn:E; intros [= <- <-].
  - apply find_from_Some in E as (Hn & Hneg & _). bsimp.
    rewrite (proj2 (Z.ltb_ge n 0)) by lia.
    assert (0 ≤ n < 16) as Hn16 by lia.
    pose proof (rc_slot_range _ _ _ _ H Hi Hu Hn16) as Hr.
    split_and!; [|lia..|].
    + apply rc_clear_cloexec; [|done]. eapply rc_set_slot; [exact H|done..|lia|lia|].
      intros k Hk. replace (fd_slot s i n) with (-1) by lia. unfold hit at 2.
      rewrite (proj2 (Z.eqb_neq (-1) k)) by lia. lia.
    + intros _. split; [lia|]. unfold clear_cloexec, fd_slot at 1.
      assert (length (procs (set_slot i n ofd s)) = 16%nat)
        by (unfold set_slot, upd_pf; simpl; by rewrite length_aset).
      rewrite get_pf_upd, decide_True by (done || lia). simpl.
      change (fd_slot (set_slot i n ofd s) i n = ofd).
      rewrite fd_slot_set_slot by lia. by rewrite decide_True.
  - rewrite (proj2 (Z.ltb_lt (-1) 0)) by lia. split_and!; [|lia..].
    pose proof (rc_put_hit _ _ ofd H ltac:(lia)) as Hput. simpl in Hput.
    assert (hit ofd ofd = 1%nat) as Hh by (unfold hit; by rewrite Z.eqb_refl).
    rewrite Hh in Hput. eapply rc_ext; [|apply Hput; lia]. intros k Hk. simpl. lia.
Qed.

Lemma open_inode_inv s pid i flags inode size :
  fd_inv s → find_process pid s = Some i → fd_inv (open_inode i flags inode size s).2.
Proof.
  intros H (Hi & Hu & _)%(find_process_Some _ _ _ _ H). unfold open_inode.
  destruct (alloc_ofd OFD_FILE flags inode s) as [ofd s1] eqn:Ea.
  destruct (rc_alloc_hit _ _ _ _ _ _ _ H Ea) as (H1 & Hr & Hp1). simpl in H1.
  bcase; [cbn [snd]; by rewrite (alloc_ofd_fail _ _ _ _ _ _ Ea)|].
  set (s2 := if negb _ then _ else _).
  assert (refcounts (λ k, Z.of_nat (hit k ofd)) s2 ∧ procs s2 = procs s) as [H2 Hp2].
  { unfold s2. bcase; [|done]. split; [|done]. apply rc_of_meta; [done|lia|done|done]. }
  destruct (install_fd i ofd s2) as [fd s3] eqn:Ei.
  by destruct (install_fd_inv _ _ _ _ _ H2 Hi
    ltac:(unfold get_pf; rewrite Hp2; exact Hu) ltac:(lia) Ei) as [? _].
Qed.
End opening.

(** ** Reachable states

    One call of the descriptor layer. [fork] is only called with a fresh child
    pid, which in particular differs from the parent's. *)

Inductive fd_step : fd_state → fd_state → Prop :=
| fd_step_process_init s pid : fd_step s (minifs_process_init pid s).2
| fd_step_process_fork s ppid cpid :
    ppid ≠ cpid → fd_step s (minifs_process_fork ppid cpid s).2
| fd_step_close_all s pid : fd_step s (minifs_close_all pid s)
| fd_step_set_cloexec s pid fd on : fd_step s (minifs_set_cloexec pid fd on s).2
| fd_step_close_exec_fds s pid : fd_step s (minifs_close_exec_fds pid s)
| fd_step_close s pid fd : fd_step s (minifs_close pid fd s).2
| fd_step_dup2 s pid oldfd newfd : fd_step s (minifs_dup2 pid oldfd newfd s).2
| fd_step_open s pid i flags inode size :
    find_process pid s = Some i → fd_step s (open_inode i flags inode size s).2
| fd_step_seek s k offset :
    0 ≤ k < 64 → fd_step s (upd_of k (λ f, f <| of_offset := offset |>) s).

Lemma fd_init_inv : fd_inv fd_init.
Proof.
  assert (∀ i, 0 ≤ i < 16 → get_pf fd_init i = pf_zero) as Hp
    by (intros; by apply (aget_replicate _ 16)).
  assert (∀ k, 0 ≤ k < 64 → get_of fd_init k = of_zero) as Ho
    by (intros; by apply (aget_replicate _ 64)).
  split; try done.
  - intros i Hi. rewrite Hp by done. split; [reflexivity|done].
  - intros k Hk. rewrite Ho by done. cbn [of_used of_zero].
    assert (refcount k fd_init = 0%nat) as ->; [|done].
    apply sum_list_with_zero. intros p Hin. unfold fd_init in Hin. cbn [procs] in Hin.
    by apply elem_of_replicate in Hin as [-> _].
  - intros i j Hi Hj. rewrite Hp by done. done.
Qed.

Lemma fd_step_inv s s' : fd_step s s' → fd_inv s → fd_inv s'.
Proof.
  intros Hstep H. destruct Hstep as [s pid|s ppid cpid Hne|s pid|s pid fd on|s pid|s pid fd
    |s pid o n|s pid i fl ino sz Hf|s k off Hk].
  - destruct (minifs_process_init pid s) as [rc s'] eqn:E.
    by destruct (minifs_process_init_inv _ _ _ _ H E) as [? _].
  - destruct (minifs_process_fork ppid cpid s) as [rc s'] eqn:E.
    by destruct (minifs_process_fork_spec _ _ _ _ _ H Hne E) as [? _].
  - by apply minifs_close_all_inv.
  - by apply minifs_set_cloexec_inv.
  - by apply minifs_close_exec_fds_inv.
  - by apply minifs_close_inv.
  - by apply minifs_dup2_inv.
  - by eapply open_inode_inv.
  - by apply rc_of_meta.
Qed.

Lemma fd_reach_inv s : rtc fd_step fd_init s → fd_inv s.
Proof.
  intros H. generalize fd_init_inv. revert H. generalize fd_init. intros s0 H.
  induction H; eauto using fd_step_inv.
Qed.

(** ** Properties *)

Lemma get_open_file_slot s pid i fd :
  fd_inv s → find_process pid s = Some i → 0 ≤ fd < 16 →
  get_open_file pid fd s = if 0 <=? fd_slot s i fd then Some (fd_slot s i fd) else None.
Proof.
  intros H Hf Hfd. destruct (find_process_Some _ _ _ _ H Hf) as (Hi & Hu & _).
  pose proof (rc_slot_range _ _ _ _ H Hi Hu Hfd) as Hr.
  unfold get_open_file, MINIFS_MAX_FD, MINIFS_MAX_OPEN_FILES. rewrite Hf.
  rewrite (proj2 (Z.ltb_ge fd 0)), (proj2 (Z.leb_gt 16 fd)), (proj2 (Z.leb_gt 64 _)) by lia.
  destruct (0 <=? fd_slot s i fd) eqn:E; bsimp.
  - rewrite (proj2 (Z.ltb_ge _ 0)) by lia.
    by rewrite (rc_slot_used _ _ _ _ H Hi Hu Hfd E) by (intros; simpl; lia).
  - by rewrite (proj2 (Z.ltb_lt _ 0)) by lia.
Qed.

(** C18: In every state reachable through the descriptor layer, an open-file
    description is in use exactly when some descriptor of a live process refers
    to it, its reference count is the number of such descriptors, and every open
    descriptor leads to a description in use (no leak and no dangling
    descriptor). *)
Theorem fd_refcounts_reachable s :
  rtc fd_step fd_init s →
  (∀ k, 0 ≤ k < MINIFS_MAX_OPEN_FILES →
     (of_used (get_of s k) = true ↔ (0 < refcount k s)%nat) ∧
     (of_used (get_of s k) = true → of_refs (get_of s k) = Z.of_nat (refcount k s))) ∧
  (∀ pid i fd, find_process pid s = Some i → 0 ≤ fd < MINIFS_MAX_FD →
     0 ≤ fd_slot s i fd → get_open_file pid fd s = Some (fd_slot s i fd)).
Proof.
  intros H%fd_reach_inv. split.
  - intros k Hk. pose proof (rc_count _ _ H k Hk) as Hc.
    destruct (of_used (get_of s k)); split; try split; intros; try done; lia.
  - intros pid i fd Hf Hfd Hs. rewrite (get_open_file_slot s pid i fd) by done.
    by rewrite (proj2 (Z.leb_le 0 _)).
Qed.

Definition demo_fd : fd_state := (minifs_process_init 7 fd_init).2.

Lemma demo_fd_reach : rtc fd_step fd_init demo_fd.
Proof. unfold demo_fd. apply rtc_once. exact (fd_step_process_init fd_init 7). Qed.

Lemma fd_refcounts_reachable_witness :
  get_open_file 7 2 demo_fd = Some 2 ∧ of_refs (get_of demo_fd 2) = 1.
Proof.
  destruct (fd_refcounts_reachable demo_fd demo_fd_reach) as [H1 H2]. split.
  - apply (H2 7 0 2); [vm_compute; reflexivity | unfold MINIFS_MAX_FD; lia | vm_compute; discriminate].
  - destruct (H1 2) as [_ H]; [unfold MINIFS_MAX_OPEN_FILES; lia|].
    rewrite H; vm_compute; reflexivity.
Defined.

(** C19: A successful [minifs_process_fork] gives the child, descriptor by
    descriptor, the same open-file descriptions as the parent (so offsets are
    shared), and leaves the parent's descriptors as they were. *)
Theorem fork_shares_descriptions s ppid cpid s' :
  rtc fd_step fd_init s → ppid ≠ cpid →
  minifs_process_fork ppid cpid s = (0, s') →
  ∀ fd, 0 ≤ fd < MINIFS_MAX_FD →
    get_open_file cpid fd s' = get_open_file ppid fd s ∧
    get_open_file ppid fd s' = get_open_file ppid fd s.
Proof.
  intros H%fd_reach_inv Hne Hf fd Hfd.
  destruct (minifs_process_fork_spec _ _ _ _ _ H Hne Hf) as (H' & Hs).
  destruct Hs as (i & j & Hi & Hi' & Hj & Hsl); [done|]. destruct (Hsl fd Hfd) as [E1 E2].
  rewrite (get_open_file_slot s' cpid j fd), (get_open_file_slot s' ppid i fd),
    (get_open_file_slot s ppid i fd) by done. by rewrite E1, E2.
Qed.

Lemma fork_shares_descriptions_witness :
  get_open_file 8 1 (minifs_process_fork 7 8 demo_fd).2 = Some 1.
Proof.
  destruct (fork_shares_descriptions demo_fd 7 8 (minifs_process_fork 7 8 demo_fd).2
    demo_fd_reach) with (fd := 1) as [H _];
    [discriminate | vm_compute; reflexivity | unfold MINIFS_MAX_FD; lia |].
  rewrite H. vm_compute. reflexivity.
Defined.

(** [minifs_dup2] between two different descriptors, the first one open, makes
    the new descriptor refer to the same description as the old one and changes
    no other descriptor of any process. *)
Theorem dup2_aliases s pid i oldfd newfd :
  rtc fd_step fd_init s → find_process pid s = Some i →
  0 ≤ oldfd < MINIFS_MAX_FD → 0 ≤ newfd < MINIFS_MAX_FD → oldfd ≠ newfd →
  0 ≤ fd_slot s i oldfd →
  ∃ s', minifs_dup2 pid oldfd newfd s = (newfd, s') ∧
    get_open_file pid newfd s' = get_open_file pid oldfd s ∧
    ∀ j fd, 0 ≤ j < 16 → 0 ≤ fd → ¬ (j = i ∧ fd = newfd) → fd_slot s' j fd = fd_slot s j fd.
Proof.
  intros H%fd_reach_inv Hf Ho Hn Hne Hs. unfold MINIFS_MAX_FD in *.
  pose proof (minifs_dup2_inv s pid oldfd newfd H) as Hinv.
  rewrite (minifs_dup2_redirect s pid i) in Hinv by done. simpl in Hinv.
  rewrite (minifs_dup2_redirect s pid i) by done. eexists. split; [done|].
  destruct (find_process_Some _ _ _ _ H Hf) as (Hi & Hu & _).
  pose proof (rc_pf_len _ _ H) as Hlen.
  pose proof (redirect_same_procs s i newfd i oldfd Hlen Hi) as Hsame.
  pose proof (redirect_inv s i newfd i oldfd H Hi Hi Hn Ho Hu Hu ltac:(lia)) as Hr.
  pose proof (rc_pf_len _ _ Hr) as Hlen'.
  assert (∀ j fd, 0 ≤ j → fd_slot (clear_cloexec i newfd (redirect i newfd i oldfd s)) j fd
    = fd_slot (redirect i newfd i oldfd s) j fd) as Hc.
  { intros j fd Hj. unfold fd_slot, clear_cloexec. rewrite get_pf_upd by lia.
    case_decide; [by subst|done]. }
  assert (same_procs s (clear_cloexec i newfd (redirect i newfd i oldfd s))) as Hsame'.
  { intros j Hj. unfold clear_cloexec. rewrite get_pf_upd by lia.
    case_decide; [subst; simpl|]; by apply Hsame. }
  split.
  - rewrite (get_open_file_slot _ pid i), (get_open_file_slot s pid i)
      by (try rewrite (find_process_same s) by done; done).
    rewrite Hc, redirect_slot by (done || lia). by rewrite decide_True.
  - intros j fd Hj Hfd Hne'. rewrite Hc, redirect_slot by (done || lia). by rewrite decide_False.
Qed.

Lemma dup2_aliases_witness :
  ∃ s', minifs_dup2 7 1 9 demo_fd = (9, s') ∧ get_open_file 7 9 s' = Some 1.
Proof.
  destruct (dup2_aliases demo_fd 7 0 1 9 demo_fd_reach) as (s' & H1 & H2 & _);
    [vm_compute; reflexivity | unfold MINIFS_MAX_FD; lia | unfold MINIFS_MAX_FD; lia
    | discriminate | vm_compute; discriminate |].
  exists s'. split; [exact H1|]. rewrite H2. vm_compute. reflexivity.
Defined.


