(* ===== verification/Block.v ===== *)
(** * The block device driver (os/kernel/block.c)

    [block_read] and [block_write] drive the emulated device through its registers
    ([BlockDevice.load] and [BlockDevice.store]).  Their contract, which is all the
    file system uses, is the class [BlockDriver]: a store of 16384 sectors of 512
    bytes.  The driver of this file is an instance of it. *)

From S2P Require Import Prelude Csr Mem Vm Device CpuType.

Definition BLOCK_REG_SECTOR : Z := BLOCK_BASE + 0x00.
Definition BLOCK_REG_CMD : Z := BLOCK_BASE + 0x08.
Definition BLOCK_REG_STATUS : Z := BLOCK_BASE + 0x0c.
Definition BLOCK_DATA : Z := BLOCK_BASE + 0x100.
Definition BLOCK_CMD_READ : Z := 1.
Definition BLOCK_CMD_WRITE : Z := 2.

(** ** The driver *)

(** [dst[i] = src[i]] from the data window: [n] words from word [i] on. *)
Fixpoint read_words (n : nat) (i : Z) (d : block_device) : Exception + list Z :=
  match n with
  | O => inr []
  | S n =>
      match BlockDevice.load d (BLOCK_DATA + 8 * i) 64 with
      | inl e => inl e
      | inr w =>
          match read_words n (i + 1) d with
          | inl e => inl e
          | inr bs => inr (le64 w ++ bs)
          end
      end
  end.

(** ... and to it, from the buffer [bs]. *)
Fixpoint write_words (n : nat) (i : Z) (bs : list Z) (d : block_device) : Exception + block_device :=
  match n with
  | O => inr d
  | S n =>
      match BlockDevice.store (BLOCK_DATA + 8 * i) 64 (le_decode (slice (8 * i) 8 bs)) d with
      | inl e => inl e
      | inr d => write_words n (i + 1) bs d
      end
  end.

(** A fault of the device is [inl]; -1 is [None]. *)
Definition block_read (sector : Z) (d : block_device) : Exception + (option (list Z) * block_device) :=
  if BLOCK_SECTOR_COUNT <=? sector then inr (None, d)
  else
    match BlockDevice.store BLOCK_REG_SECTOR 64 sector d with
    | inl e => inl e
    | inr d =>
        match BlockDevice.store BLOCK_REG_CMD 32 BLOCK_CMD_READ d with
        | inl e => inl e
        | inr d =>
            match BlockDevice.load d BLOCK_REG_STATUS 32 with
            | inl e => inl e
            | inr st =>
                if negb (st =? 0) then inr (None, d)
                else
                  match read_words 64 0 d with
                  | inl e => inl e
                  | inr bs => inr (Some bs, d)
                  end
            end
        end
    end.

Definition block_write (sector : Z) (buffer : list Z) (d : block_device) : Exception + (bool * block_device) :=
  if BLOCK_SECTOR_COUNT <=? sector then inr (false, d)
  else
    match write_words 64 0 buffer d with
    | inl e => inl e
    | inr d =>
        match BlockDevice.store BLOCK_REG_SECTOR 64 sector d with
        | inl e => inl e
        | inr d =>
            match BlockDevice.store BLOCK_REG_CMD 32 BLOCK_CMD_WRITE d with
            | inl e => inl e
            | inr d =>
                match BlockDevice.load d BLOCK_REG_STATUS 32 with
                | inl e => inl e
                | inr st => inr (st =? 0, d)
                end
            end
        end
    end.

(** ** The contract *)

Definition is_sector (bs : list Z) : Prop := length bs = 512%nat ∧ bytes bs.

Class BlockOps (D : Type) := {
  bread : Z → D → option (list Z) * D;
  bwrite : Z → list Z → D → bool * D;
  (** the bytes stored in a sector, and the well-formed states *)
  sector_at : D → Z → list Z;
  dev_ok : D → Prop;
}.

Class BlockDriver (D : Type) `{BlockOps D} : Prop := {
  sector_at_ok d n : dev_ok d → 0 ≤ n < BLOCK_SECTOR_COUNT → is_sector (sector_at d n);
  bread_ok d n :
    dev_ok d → 0 ≤ n < BLOCK_SECTOR_COUNT →
    (bread n d).1 = Some (sector_at d n) ∧ dev_ok (bread n d).2 ∧
    (∀ m, 0 ≤ m < BLOCK_SECTOR_COUNT → sector_at (bread n d).2 m = sector_at d m);
  bread_range d n : BLOCK_SECTOR_COUNT ≤ n → bread n d = (None, d);
  bwrite_ok d n bs :
    dev_ok d → 0 ≤ n < BLOCK_SECTOR_COUNT → is_sector bs →
    (bwrite n bs d).1 = true ∧ dev_ok (bwrite n bs d).2 ∧
    (∀ m, 0 ≤ m < BLOCK_SECTOR_COUNT →
       sector_at (bwrite n bs d).2 m = if decide (m = n) then bs else sector_at d m);
  bwrite_range d n bs : BLOCK_SECTOR_COUNT ≤ n → bwrite n bs d = (false, d);
}.

(** ** The driver implements it *)

Lemma data_offset i : 0 ≤ i < 64 → u64 (BLOCK_DATA + 8 * i - BLOCK_BASE) = 256 + 8 * i.
Proof. intros. unfold BLOCK_DATA. rewrite u64_small by (unfold BLOCK_BASE; lia). lia. Qed.

Lemma load_data d i :
  0 ≤ i < 64 → BlockDevice.load d (BLOCK_DATA + 8 * i) 64 = inr (le_decode (slice (8 * i) 8 (window d))).
Proof.
  intros Hi. unfold BlockDevice.load. rewrite data_offset by done. cbn [valid_size negb orb Z.eqb].
  change (valid_size 64) with true. cbn [negb].
  unfold BlockDevice.REG_SECTOR, BlockDevice.REG_STATUS, BlockDevice.DATA_WINDOW.
  rewrite (proj2 (Z.eqb_neq (256 + 8 * i) 0)) by lia. cbn [andb].
  rewrite (proj2 (Z.eqb_neq (256 + 8 * i) 12)) by lia. cbn [andb].
  rewrite (proj2 (Z.leb_le _ _)) by lia. change (64 / 8) with 8.
  rewrite (proj2 (Z.leb_le _ _)) by lia. cbn [andb]. unfold BlockDevice.read_le. change (64 / 8) with 8.
  by replace (256 + 8 * i - 256) with (8 * i) by lia.
Qed.

Lemma store_data d i v :
  0 ≤ i < 64 →
  BlockDevice.store (BLOCK_DATA + 8 * i) 64 v d = inr (d <| window := splice (8 * i) (le64 v) (window d) |>).
Proof.
  intros Hi. unfold BlockDevice.store. rewrite data_offset by done.
  change (valid_size 64) with true. cbn [negb].
  unfold BlockDevice.REG_SECTOR, BlockDevice.REG_COMMAND, BlockDevice.DATA_WINDOW.
  rewrite (proj2 (Z.eqb_neq (256 + 8 * i) 0)) by lia. cbn [andb].
  rewrite (proj2 (Z.eqb_neq (256 + 8 * i) 8)) by lia. cbn [andb].
  rewrite (proj2 (Z.leb_le _ _)) by lia. change (64 / 8) with 8.
  rewrite (proj2 (Z.leb_le _ _)) by lia. cbn [andb]. unfold BlockDevice.write_le.
  by replace (256 + 8 * i - 256) with (8 * i) by lia.
Qed.

Lemma slice_step {A} (l : list A) i n :
  0 ≤ i → 0 ≤ n → slice (8 * i) 8 l ++ slice (8 * (i + 1)) (8 * n) l = slice (8 * i) (8 * (n + 1)) l.
Proof.
  intros. replace (8 * (n + 1)) with (8 + 8 * n) by lia. rewrite slice_app_split by lia.
  by replace (8 * i + 8) with (8 * (i + 1)) by lia.
Qed.

Lemma read_words_spec n i d :
  is_sector (window d) → 0 ≤ i → i + Z.of_nat n ≤ 64 →
  read_words n i d = inr (slice (8 * i) (8 * Z.of_nat n) (window d)).
Proof.
  intros [Hl Hb]. revert i. induction n as [|n IH]; intros i Hi Hn; [done|].
  cbn [read_words]. rewrite load_data, IH by lia. f_equal.
  assert (le64 (le_decode (slice (8 * i) 8 (window d))) = slice (8 * i) 8 (window d)) as ->.
  { unfold le64. rewrite <- (le_encode_decode (slice (8 * i) 8 (window d))) at 2 by by apply Forall_slice.
    rewrite length_slice by lia. done. }
  rewrite slice_step by lia. f_equal. lia.
Qed.

Lemma splice_app {A} off (a b l : list A) :
  0 ≤ off → off + Z.of_nat (length a) ≤ Z.of_nat (length l) →
  splice (off + Z.of_nat (length a)) b (splice off a l) = splice off (a ++ b) l.
Proof.
  intros Ho Hl. unfold splice. rewrite Z2Nat.inj_add, Nat2Z.id by lia.
  set (k := Z.to_nat off). assert (length (take k l) = k) as Hk by (rewrite length_take; lia).
  assert (take (k + length a) (take k l ++ a ++ drop (k + length a) l) = take k l ++ a) as ->.
  { rewrite app_assoc. apply take_app_length'. rewrite length_app. lia. }
  assert (drop (k + length a + length b) (take k l ++ a ++ drop (k + length a) l) =
          drop (k + length (a ++ b)) l) as ->.
  { rewrite app_assoc, drop_app_ge, drop_drop by (rewrite length_app; lia).
    f_equal. rewrite !length_app. lia. }
  by rewrite <- !app_assoc.
Qed.

Lemma write_words_spec n i bs d :
  is_sector (window d) → is_sector bs → 0 ≤ i → i + Z.of_nat n ≤ 64 →
  write_words n i bs d =
  inr (d <| window := splice (8 * i) (slice (8 * i) (8 * Z.of_nat n) bs) (window d) |>).
Proof.
  intros Hd [Hl Hb] Hi Hn. revert i d Hd Hi Hn.
  induction n as [|n IH]; intros i d [Hwl Hwb] Hi Hn.
  { cbn [write_words]. f_equal. change (slice (8 * i) (8 * Z.of_nat 0) bs) with (@nil Z).
    unfold splice. cbn [length app]. rewrite Nat.add_0_r, take_drop. by destruct d. }
  assert (le64 (le_decode (slice (8 * i) 8 bs)) = slice (8 * i) 8 bs) as Hw.
  { unfold le64. rewrite <- (le_encode_decode (slice (8 * i) 8 bs)) at 2 by by apply Forall_slice.
    rewrite length_slice by lia. done. }
  assert (length (slice (8 * i) 8 bs) = 8%nat) as H8 by (rewrite length_slice; lia).
  cbn [write_words]. rewrite store_data, Hw by lia. rewrite IH; [|split|lia..].
  - f_equal. cbn [window storage sector status set_field].
    replace (8 * Z.of_nat (S n)) with (8 * (Z.of_nat n + 1)) by lia.
    rewrite <- (slice_step bs i (Z.of_nat n)) by lia. rewrite <- splice_app by lia. rewrite H8.
    by replace (8 * i + Z.of_nat 8) with (8 * (i + 1)) by lia.
  - cbn. rewrite length_splice; lia.
  - cbn. apply Forall_splice; [by apply Forall_slice|done].
Qed.

(** What the commands do, in one step. *)
Lemma block_read_eq n d :
  is_sector (window d) → 0 ≤ n < BLOCK_SECTOR_COUNT → ram_ok (storage d) →
  let bs := load_bytes (storage d) (n * BLOCK_SECTOR_SIZE) 512 in
  block_read n d = inr (Some bs, MkBlock (storage d) bs n 0).
Proof.
  intros Hw Hn Hs bs. unfold block_read. rewrite (proj2 (Z.leb_gt _ _)) by lia.
  change (BlockDevice.store BLOCK_REG_SECTOR 64 n d) with (inr (d <| sector := n |>) : Exception + block_device).
  cbv iota beta.
  change (BlockDevice.store BLOCK_REG_CMD 32 BLOCK_CMD_READ (d <| sector := n |>))
    with (inr (BlockDevice.execute 1 (d <| sector := n |>)) : Exception + block_device).
  cbv iota beta. unfold BlockDevice.execute. change (sector (d <| sector := n |>)) with n.
  rewrite (proj2 (Z.leb_gt _ _)) by lia. cbn [Z.eqb BlockDevice.CMD_READ Pos.eqb].
  change (BlockDevice.sector_bytes (d <| sector := n |>)) with bs.
  assert (is_sector bs) as Hb by (split; [apply length_load_bytes|by apply ram_ok_load_bytes]).
  change (storage d) with (storage (d <| sector := n |>)). clearbody bs.
  match goal with |- context [BlockDevice.load ?x BLOCK_REG_STATUS 32] =>
    change (BlockDevice.load x BLOCK_REG_STATUS 32) with (inr 0 : Exception + Z);
    change x with (MkBlock (storage d) bs n 0) end.
  cbv iota beta. cbn [Z.eqb negb]. rewrite read_words_spec by (done || lia).
  change (slice (8 * 0) (8 * Z.of_nat 64) (window (MkBlock (storage d) bs n 0))) with (slice 0 512 bs).
  unfold slice. rewrite drop_0, take_ge; [done|]. destruct Hb as [-> _]. lia.
Qed.

Lemma block_write_eq n bs d :
  is_sector (window d) → is_sector bs → 0 ≤ n < BLOCK_SECTOR_COUNT →
  block_write n bs d =
  inr (true, MkBlock (store_bytes (storage d) (n * BLOCK_SECTOR_SIZE) bs) bs n 0).
Proof.
  intros Hw Hb Hn. unfold block_write. rewrite (proj2 (Z.leb_gt _ _)) by lia.
  rewrite write_words_spec by (done || lia).
  assert (splice (8 * 0) (slice (8 * 0) (8 * Z.of_nat 64) bs) (window d) = bs) as ->.
  { destruct Hw as [Hw _], Hb as [Hb _].
    change (8 * 0) with 0. change (8 * Z.of_nat 64) with 512. unfold splice, slice. rewrite drop_0, (take_ge bs) by lia.
    rewrite Hb, drop_ge by lia. apply app_nil_r. }
  cbv iota beta. clear Hw. destruct d as [st w se stt]. cbn [storage].
  change (BlockDevice.store BLOCK_REG_SECTOR 64 n ((MkBlock st w se stt) <| window := bs |>))
    with (inr (MkBlock st bs n stt) : Exception + block_device).
  cbv iota beta.
  change (BlockDevice.store BLOCK_REG_CMD 32 BLOCK_CMD_WRITE (MkBlock st bs n stt))
    with (inr (BlockDevice.execute 2 (MkBlock st bs n stt)) : Exception + block_device).
  cbv iota beta. unfold BlockDevice.execute. cbn [sector]. rewrite (proj2 (Z.leb_gt _ _)) by lia.
  reflexivity.
Qed.

(** The device never faults the driver, so its two functions are total. *)
#[export] Instance device_ops : BlockOps block_device := {
  bread n d := match block_read n d with inr r => r | inl _ => (None, d) end;
  bwrite n bs d := match block_write n bs d with inr r => r | inl _ => (false, d) end;
  sector_at d n := load_bytes (storage d) (n * BLOCK_SECTOR_SIZE) 512;
  dev_ok := block_ok;
}.

Lemma sector_write_at d n m bs w x y :
  length bs = 512%nat →
  sector_at (MkBlock (store_bytes (storage d) (n * BLOCK_SECTOR_SIZE) bs) w x y) m =
  if decide (m = n) then bs else sector_at d m.
Proof.
  intros Hl. cbn [sector_at device_ops storage]. case_decide as E.
  - subst m. rewrite <- Hl. apply load_bytes_store_eq.
  - apply load_bytes_store_ne. unfold BLOCK_SECTOR_SIZE. lia.
Qed.

#[export] Instance device_driver : BlockDriver block_device.
Proof.
  split.
  - intros d n (Hm & _) Hn. split; [apply length_load_bytes|by apply ram_ok_load_bytes].
  - intros d n (Hm & Hw & Hs & Ht) Hn. cbn [bread device_ops].
    rewrite block_read_eq by done. cbn [fst snd].
    assert (is_sector (sector_at d n)) as Hb by (split; [apply length_load_bytes|by apply ram_ok_load_bytes]).
    split; [done|]. split; [|done]. change (block_ok (MkBlock (storage d) (sector_at d n) n 0)).
    revert Hb. generalize (sector_at d n). intros b Hb. split; [done|]. split; [done|].
    unfold BLOCK_SECTOR_COUNT in Hn. cbn. lia.
  - intros d n Hn. cbn [bread device_ops]. unfold block_read. by rewrite (proj2 (Z.leb_le _ _) Hn).
  - intros d n bs (Hm & Hw & Hs & Ht) Hn Hb. cbn [bwrite device_ops].
    rewrite block_write_eq by done. cbn [fst snd]. split; [done|]. split.
    + split; [by apply ram_ok_store_bytes; [|apply Hb]|]. split; [done|].
      unfold BLOCK_SECTOR_COUNT in Hn. cbn. lia.
    + intros m Hm'. apply sector_write_at. apply Hb.
  - intros d n bs Hn. cbn [bwrite device_ops]. unfold block_write. by rewrite (proj2 (Z.leb_le _ _) Hn).
Qed.

(** C36: the register protocol of the driver implements sector storage: on a
    well-formed device [block_read] returns the stored 512 bytes and changes no
    sector, [block_write] followed by [block_read] of any sector returns what was
    written there last, neither faults the device, and both reject sectors past the
    end without touching it. *)
Theorem block_driver_refines (d : block_device) (n m : Z) (bs : list Z) :
  block_ok d → 0 ≤ n < BLOCK_SECTOR_COUNT → 0 ≤ m < BLOCK_SECTOR_COUNT → is_sector bs →
  (∃ d', block_read n d = inr (Some (sector_at d n), d') ∧ storage d' = storage d) ∧
  (∃ d', block_write n bs d = inr (true, d') ∧ block_ok d' ∧
     ∃ d'', block_read m d' = inr (Some (if decide (m = n) then bs else sector_at d m), d'')) ∧
  (∀ k, BLOCK_SECTOR_COUNT ≤ k → block_read k d = inr (None, d) ∧ block_write k bs d = inr (false, d)).
Proof.
  intros Hd Hn Hm Hb. pose proof Hd as (Hr & Hw & Hs & Ht). split_and!.
  - eexists. split; [by apply block_read_eq|done].
  - destruct (bwrite_ok d n bs (Hd : @dev_ok _ device_ops d) Hn Hb) as (_ & Hok & _). revert Hok. cbn [bwrite device_ops].
    rewrite block_write_eq by done. cbn [snd]. intros Hok. eexists. split; [done|]. split; [done|].
    destruct Hok as (Hr' & Hw' & _). eexists. rewrite block_read_eq by done. do 3 f_equal.
    rewrite <- (sector_write_at d n m bs bs n 0) by apply Hb. done.
  - intros k Hk. unfold block_read, block_write. by rewrite (proj2 (Z.leb_le _ _) Hk).
Qed.

Lemma block_driver_refines_witness :
  let bs := replicate 512 7 in
  ∃ d', block_write 3 bs (BlockDevice.init ∅) = inr (true, d') ∧
    ∃ d'', block_read 3 d' = inr (Some bs, d'').
Proof.
  assert (block_ok (BlockDevice.init ∅)) as Hok.
  { split; [apply ram_ok_empty|]. split; [|by split; vm_compute].
    split; [done|]. apply Forall_replicate. lia. }
  destruct (block_driver_refines (BlockDevice.init ∅) 3 3 (replicate 512 7) Hok)
    as (_ & (d' & Hw & _ & d'' & Hr) & _).
  - by vm_compute.
  - by vm_compute.
  - split; [done|]. apply Forall_replicate. lia.
  - exists d'. split; [exact Hw|]. exists d''. exact Hr.
Defined.
