(* ===== verification/Loader.v ===== *)
(** * The boot loader (os/boot/loader.c)

    [boot_main] reads the header of the kernel image from the fixed slot of the disk,
    checks it, copies the image to the address the kernel is linked at and adds up its
    bytes.  It drives the emulated device through the registers, as block.c does, but
    without a bound on the sector.  What it prints is a list of characters. *)

From S2P Require Import Prelude Csr Mem Vm Device CpuType Block.

Definition KERNEL_SLOT_START : Z := 15360.
Definition KERNEL_SLOT_SECTORS : Z := 1024.
Definition KERNEL_LOAD_ADDRESS : Z := 0x80200000.
Definition KERNEL_SLOT_PAYLOAD_MAX : Z := (KERNEL_SLOT_SECTORS - 1) * BLOCK_SECTOR_SIZE.
Definition BOOT_IMAGE_VERSION : Z := 1.
Definition BOOT_IMAGE_HEADER_SIZE : Z := 64.

Record boot_image_header := MkHeader {
  magic : list Z;
  version : Z;
  header_size : Z;
  load_address : Z;
  entry : Z;
  image_size : Z;
  checksum : Z;
}.

Definition get_field (off n : Z) (bs : list Z) : Z := le_decode (slice off n bs).
Definition header_of (bs : list Z) : boot_image_header :=
  MkHeader (slice 0 8 bs) (get_field 8 4 bs) (get_field 12 4 bs) (get_field 16 8 bs) (get_field 24 8 bs)
    (get_field 32 4 bs) (get_field 36 4 bs).

Definition bytes_equal (left right : list Z) (length : nat) : bool :=
  forallb (λ i, aget 0 left (Z.of_nat i) =? aget 0 right (Z.of_nat i)) (seq 0 length).

Definition uart_put_hex (value : Z) : list Z :=
  chars "0x" ++ ((λ i, aget 0 (chars "0123456789abcdef") (Z.land (Z.shiftr value (60 - 4 * Z.of_nat i)) 0xf)) <$> seq 0 16).

Definition line (l : list Z) : list Z := l ++ [10].

(** A fault of the device is [inl]; -1 is [None]. *)
Definition block_read (sector : Z) (d : block_device) : Exception + (option (list Z) * block_device) :=
  match BlockDevice.store BLOCK_REG_SECTOR 64 sector d with
  | inl e => inl e
  | inr d =>
      match BlockDevice.store BLOCK_REG_CMD 32 BLOCK_CMD_READ d with
      | inl e => inl e
      | inr d =>
          match BlockDevice.load d BLOCK_REG_STATUS 32 with
          | inl e => inl e
          | inr st =>
              if negb (st =? 0) then inr (None, d)
              else
                match read_words 64 0 d with
                | inl e => inl e
                | inr bs => inr (Some bs, d)
                end
          end
      end
  end.

(** How the loader ends: the kernel is entered at an address, or [boot_fail] prints a
    message and stays in a loop. *)
Inductive boot_result :=
| Jump (entry : Z) (m : ram_t)
| BootFail (message : String.string) (m : ram_t)
| DeviceFault (e : Exception)
| OutOfFuel.

(** What is wrong with the header. *)
Definition check_header (h : boot_image_header) : option String.string :=
  if negb (bytes_equal (magic h) (chars "MINIKRNL") 8) then Some "bad kernel magic"%string
  else if negb (version h =? BOOT_IMAGE_VERSION) || negb (header_size h =? BOOT_IMAGE_HEADER_SIZE)
  then Some "unsupported kernel image"%string
  else if negb (load_address h =? KERNEL_LOAD_ADDRESS) then Some "unexpected load address"%string
  else if (image_size h =? 0) || (KERNEL_SLOT_PAYLOAD_MAX <? image_size h) then Some "invalid kernel size"%string
  else if (entry h <? load_address h) || (u64 (load_address h + image_size h) <=? entry h)
  then Some "invalid kernel entry"%string
  else None.

(** [byte = sector_buffer[i]; destination[copied + i] = byte; checksum += byte]. *)
Fixpoint copy_chunk (n : nat) (i : Z) (buffer : list Z) (destination : Z) (m : ram_t) (sum : Z) : ram_t * Z :=
  match n with
  | O => (m, sum)
  | S n =>
      let byte := aget 0 buffer i in
      copy_chunk n (i + 1) buffer destination (<[destination + i := byte]> m) (u32 (sum + byte))
  end.

Fixpoint load_loop (fuel : nat) (size destination copied sector sum : Z) (d : block_device) (m : ram_t)
    : (boot_result + Z * ram_t) * block_device :=
  match fuel with
  | O => (inl OutOfFuel, d)
  | S fuel =>
      if copied <? size then
        match block_read sector d with
        | inl e => (inl (DeviceFault e), d)
        | inr (None, d) => (inl (BootFail "kernel read failed" m), d)
        | inr (Some buffer, d) =>
            let chunk := u32 (size - copied) in
            let chunk := if BLOCK_SECTOR_SIZE <? chunk then BLOCK_SECTOR_SIZE else chunk in
            let '(m, sum) := copy_chunk (Z.to_nat chunk) 0 buffer (destination + copied) m sum in
            load_loop fuel size destination (u32 (copied + chunk)) (u32 (sector + 1)) sum d m
        end
      else (inr (sum, m), d)
  end.

Definition failure (msg : String.string) : list Z := chars "[BOOT] FAIL: " ++ line (chars msg).

(** The result, the characters printed and the device. *)
Definition boot_main (m : ram_t) (d : block_device) : boot_result * list Z * block_device :=
  let out := 10 :: line (chars "[BOOT] MiniOS loader") ++ line (chars "[BOOT] reading kernel header") in
  match block_read KERNEL_SLOT_START d with
  | inl e => (DeviceFault e, out, d)
  | inr (None, d) => (BootFail "cannot read kernel header" m, out ++ failure "cannot read kernel header", d)
  | inr (Some buffer, d) =>
      let h := header_of buffer in
      match check_header h with
      | Some msg => (BootFail msg m, out ++ failure msg, d)
      | None =>
          let out := out ++ chars "[BOOT] loading kernel -> " ++ line (uart_put_hex (load_address h)) in
          match load_loop 1024 (image_size h) (load_address h) 0 (KERNEL_SLOT_START + 1) 0 d m with
          | (inl (BootFail msg m), d) => (BootFail msg m, out ++ failure msg, d)
          | (inl r, d) => (r, out, d)
          | (inr (sum, m), d) =>
              if negb (sum =? checksum h) then
                (BootFail "checksum mismatch" m, out ++ failure "checksum mismatch", d)
              else
                (Jump (entry h) m,
                 out ++ line (chars "[BOOT] checksum OK") ++ chars "[BOOT] jumping to kernel " ++ line (uart_put_hex (entry h)), d)
          end
      end
  end.

(** ** What it does *)

Lemma store_bytes_app m a l1 l2 :
  store_bytes m a (l1 ++ l2) = store_bytes (store_bytes m a l1) (a + Z.of_nat (length l1)) l2.
Proof.
  revert m a. induction l1 as [|b l1 IH]; intros m a; cbn [app store_bytes length]; [by rewrite Z.add_0_r|].
  rewrite IH. f_equal. lia.
Qed.

Lemma load_bytes_app m a n1 n2 : load_bytes m a (n1 + n2) = load_bytes m a n1 ++ load_bytes m (a + Z.of_nat n1) n2.
Proof.
  unfold load_bytes. rewrite seq_app, fmap_app. f_equal. cbn [Nat.add].
  apply list_eq. intros i. rewrite !list_lookup_fmap. destruct (decide (i < n2)%nat) as [Hi|Hi].
  - rewrite !lookup_seq_lt by done. cbn. do 2 f_equal. lia.
  - rewrite !lookup_ge_None_2 by (rewrite ?length_seq; lia). done.
Qed.

Definition total (l : list Z) : Z := foldr Z.add 0 l.
Lemma total_app l1 l2 : total (l1 ++ l2) = total l1 + total l2.
Proof. unfold total. induction l1 as [|b l1 IH]; cbn [app foldr]; lia. Qed.

Lemma u32_add_u32 a b : u32 (u32 a + b) = u32 (a + b).
Proof. unfold u32. by rewrite Zplus_mod_idemp_l. Qed.

(** A chunk is copied as it stands in the buffer. *)
Lemma copy_chunk_ok n i buffer dest m sum : 0 ≤ i → i + Z.of_nat n ≤ Z.of_nat (length buffer) → is_u32 sum →
  copy_chunk n i buffer dest m sum =
  (store_bytes m (dest + i) (slice i (Z.of_nat n) buffer), u32 (sum + total (slice i (Z.of_nat n) buffer))).
Proof.
  revert i m sum. induction n as [|n IH]; intros i m sum Hi Hn Hs; cbn [copy_chunk].
  - unfold slice. cbn. rewrite Z.add_0_r. by rewrite u32_small.
  - rewrite IH by (lia || apply u32_range). destruct (lookup_lt_is_Some_2 buffer (Z.to_nat i) ltac:(lia)) as [b Hb].
    assert (slice i (Z.of_nat (S n)) buffer = aget 0 buffer i :: slice (i + 1) (Z.of_nat n) buffer) as ->.
    { unfold slice, aget. rewrite Hb. rewrite (drop_S _ _ _ Hb). replace (Z.to_nat (Z.of_nat (S n))) with (S n) by lia.
      replace (Z.to_nat (i + 1)) with (S (Z.to_nat i)) by lia. by rewrite Nat2Z.id. }
    cbn [store_bytes total foldr]. rewrite u32_add_u32. unfold total. f_equal; f_equal; lia.
Qed.

(** The two drivers read a sector of the disk alike. *)
Lemma block_read_same n d : n < BLOCK_SECTOR_COUNT → block_read n d = Block.block_read n d.
Proof. intros Hn. unfold Block.block_read. by rewrite (proj2 (Z.leb_gt _ _)). Qed.

Lemma read_stored n d : block_ok d → 0 ≤ n < BLOCK_SECTOR_COUNT →
  ∃ d', block_read n d = inr (Some (load_bytes (storage d) (n * BLOCK_SECTOR_SIZE) 512), d') ∧ block_ok d' ∧ storage d' = storage d.
Proof.
  intros Hd Hn. pose proof (bread_ok d n (Hd : @dev_ok _ device_ops d) Hn) as (_ & Hok & _). revert Hok.
  destruct Hd as (Hr & Hw & _). rewrite block_read_same by lia. cbn [bread device_ops dev_ok].
  rewrite block_read_eq by done. intros Hok. eexists. split; [done|]. split; [exact Hok|done].
Qed.

(** The image in the slot, from byte [from] on, when [size] bytes are asked for. *)
Definition image_from (d : block_device) (from size : Z) : list Z :=
  load_bytes (storage d) ((KERNEL_SLOT_START + 1) * BLOCK_SECTOR_SIZE + from) (Z.to_nat (size - from)).

Lemma image_split d from size chunk : 0 ≤ chunk ≤ size - from →
  image_from d from size =
  load_bytes (storage d) ((KERNEL_SLOT_START + 1) * BLOCK_SECTOR_SIZE + from) (Z.to_nat chunk) ++ image_from d (from + chunk) size.
Proof.
  intros Hc. unfold image_from. replace (Z.to_nat (size - from)) with (Z.to_nat chunk + Z.to_nat (size - (from + chunk)))%nat by lia.
  rewrite load_bytes_app. do 2 f_equal. lia.
Qed.

(** Round [j]: [512 * j] bytes are there. *)
Lemma load_loop_ok fuel size dest j sum d m :
  block_ok d → 0 ≤ j → size ≤ KERNEL_SLOT_PAYLOAD_MAX → is_u32 sum → 512 * j < size → size - 512 * j ≤ 512 * (Z.of_nat fuel - 1) →
  ∃ d', load_loop fuel size dest (512 * j) (KERNEL_SLOT_START + 1 + j) sum d m =
      (inr (u32 (sum + total (image_from d (512 * j) size)), store_bytes m (dest + 512 * j) (image_from d (512 * j) size)), d') ∧
    storage d' = storage d.
Proof.
  unfold KERNEL_SLOT_PAYLOAD_MAX, KERNEL_SLOT_SECTORS, BLOCK_SECTOR_SIZE.
  revert j sum d m. induction fuel as [|fuel IH]; intros j sum d m Hd Hj Hsz Hs Hlt Hf; [lia|]. cbn [load_loop].
  rewrite (proj2 (Z.ltb_lt _ _)) by lia.
  destruct (read_stored (KERNEL_SLOT_START + 1 + j) d Hd) as (d1 & E & Hd1 & Hst).
  { unfold KERNEL_SLOT_START, BLOCK_SECTOR_COUNT. lia. }
  rewrite E. rewrite (u32_small (size - 512 * j)) by lia.
  set (chunk := if BLOCK_SECTOR_SIZE <? size - 512 * j then BLOCK_SECTOR_SIZE else size - 512 * j). cbv zeta.
  assert (0 < chunk ≤ 512 ∧ chunk ≤ size - 512 * j ∧ (chunk = 512 ∨ chunk = size - 512 * j)) as (Hc1 & Hc2 & Hc3)
    by (unfold chunk, BLOCK_SECTOR_SIZE; bcase; lia).
  clearbody chunk. set (buffer := load_bytes _ _ 512).
  assert (length buffer = 512%nat) as Hlb by apply length_load_bytes.
  rewrite copy_chunk_ok by (lia || done). rewrite Z.add_0_r.
  assert (slice 0 (Z.of_nat (Z.to_nat chunk)) buffer =
    load_bytes (storage d) ((KERNEL_SLOT_START + 1) * BLOCK_SECTOR_SIZE + 512 * j) (Z.to_nat chunk)) as Hsl.
  { unfold slice, buffer. rewrite drop_0. replace 512%nat with (Z.to_nat chunk + (512 - Z.to_nat chunk))%nat by lia.
    rewrite load_bytes_app, Nat2Z.id. rewrite take_app_length' by (symmetry; apply length_load_bytes).
    f_equal. unfold BLOCK_SECTOR_SIZE. lia. }
  rewrite Hsl. rewrite (image_split d (512 * j) size chunk) by lia. set (part := load_bytes _ _ (Z.to_nat chunk)).
  assert (Z.of_nat (length part) = chunk) as Hlp by (unfold part; rewrite length_load_bytes; lia).
  rewrite store_bytes_app, total_app, Hlp.
  assert (KERNEL_SLOT_START = 15360) as Ek by done.
  rewrite (u32_small (512 * j + chunk)), (u32_small (KERNEL_SLOT_START + 1 + j + 1)) by lia.
  destruct (decide (512 * j + chunk < size)) as [Hmore|Hend].
  - assert (chunk = 512) as -> by lia.
    destruct (IH (j + 1) (u32 (sum + total part)) d1 (store_bytes m (dest + 512 * j) part) Hd1) as (d2 & E2 & Hst2);
      [lia|lia|apply u32_range|lia|lia|].
    exists d2. split; [|by rewrite Hst2].
    replace (512 * j + 512) with (512 * (j + 1)) by lia.
    replace (KERNEL_SLOT_START + 1 + j + 1) with (KERNEL_SLOT_START + 1 + (j + 1)) by lia. rewrite E2.
    assert (image_from d1 (512 * (j + 1)) size = image_from d (512 * (j + 1)) size) as -> by (unfold image_from; by rewrite Hst).
    rewrite u32_add_u32, Z.add_assoc. replace (dest + 512 * j + 512) with (dest + 512 * (j + 1)) by lia. done.
  - exists d1. split; [|done]. assert (image_from d (512 * j + chunk) size = []) as ->.
    { unfold image_from. replace (Z.to_nat _) with 0%nat by lia. done. }
    destruct fuel as [|fuel]; [lia|]. cbn [load_loop]. rewrite (proj2 (Z.ltb_ge _ _)) by lia.
    cbn [store_bytes]. by rewrite Z.add_0_r.
Qed.

Lemma load_loop_all fuel size dest d m :
  block_ok d → 0 < size ≤ KERNEL_SLOT_PAYLOAD_MAX → size ≤ 512 * (Z.of_nat fuel - 1) →
  ∃ d', load_loop fuel size dest 0 (KERNEL_SLOT_START + 1) 0 d m =
      (inr (u32 (total (image_from d 0 size)), store_bytes m dest (image_from d 0 size)), d') ∧ storage d' = storage d.
Proof.
  intros Hd Hz Hf. destruct (load_loop_ok fuel size dest 0 0 d m Hd) as (d' & E & Hst); [lia|lia|lia|lia|lia|].
  exists d'. split; [|exact Hst]. replace (512 * 0) with 0 in E by lia. by rewrite !Z.add_0_r, Z.add_0_l in E.
Qed.

(** What the loader decides from the disk alone. *)
Definition disk_header (d : block_device) : boot_image_header := header_of (sector_at d KERNEL_SLOT_START).
Definition boot_outcome (d : block_device) (m : ram_t) : boot_result :=
  let h := disk_header d in
  match check_header h with
  | Some msg => BootFail msg m
  | None =>
      let image := image_from d 0 (image_size h) in
      let m := store_bytes m KERNEL_LOAD_ADDRESS image in
      if u32 (total image) =? checksum h then Jump (entry h) m else BootFail "checksum mismatch" m
  end.

Lemma check_header_ok h : check_header h = None → 0 ≤ image_size h →
  load_address h = KERNEL_LOAD_ADDRESS ∧ 0 < image_size h ≤ KERNEL_SLOT_PAYLOAD_MAX ∧
  KERNEL_LOAD_ADDRESS ≤ entry h < KERNEL_LOAD_ADDRESS + image_size h.
Proof.
  unfold check_header. intros Hc H0.
  destruct (bytes_equal _ _ _); cbn [negb] in Hc; [|done]. destruct (_ || _); [done|].
  destruct (load_address h =? KERNEL_LOAD_ADDRESS) eqn:El; cbn [negb] in Hc; [|done].
  destruct ((image_size h =? 0) || _) eqn:Ei; [done|]. destruct ((entry h <? _) || _) eqn:Ee; [done|]. bsimp.
  rewrite El in *. unfold KERNEL_LOAD_ADDRESS, KERNEL_SLOT_PAYLOAD_MAX, KERNEL_SLOT_SECTORS, BLOCK_SECTOR_SIZE in *.
  rewrite u64_small in * by lia. lia.
Qed.


(** ** A concrete disk *)

(** A kernel of one instruction, and a disk with nothing else. *)
Definition demo_image : list Z := [115; 0; 16; 0].
Definition demo_header : list Z :=
  chars "MINIKRNL" ++ le32 1 ++ le32 64 ++ le64 KERNEL_LOAD_ADDRESS ++ le64 KERNEL_LOAD_ADDRESS ++ le32 4 ++ le32 131.
Definition slot_disk (header image : list Z) : block_device :=
  BlockDevice.init (store_bytes (store_bytes ∅ (KERNEL_SLOT_START * BLOCK_SECTOR_SIZE) header)
    ((KERNEL_SLOT_START + 1) * BLOCK_SECTOR_SIZE) image).

Lemma slot_disk_ok header image : bytes header → bytes image → block_ok (slot_disk header image).
Proof.
  intros Hh Hi. split; [by do 2 (apply ram_ok_store_bytes; [|done])|]. split; [|by cbn].
  split; [done|]. by apply Forall_replicate.
Qed.

Lemma jumps_to r pc : match r with Jump p _ => p =? pc | _ => false end = true → ∃ m, r = Jump pc m.
Proof. destruct r as [p m|? ?|?|]; try done. intros ?%Z.eqb_eq. subst. by exists m. Qed.

