(* ===== verification/MiniFs.v ===== *)
(** * The file system (os/kernel/minifs.c)

    Every function of minifs.c that is not about descriptors (those are in FdTable.v)
    over any block device [D] that provides [BlockOps].  [fs] is the device and the
    static [bitmap_buffer]; [block_buffer] and [indirect_buffer] are local values,
    since every function reads a sector into them before it uses them and none uses
    what another left there.  A function that returns -1 is [None] in the monad
    [fs_m], which keeps the state reached.  A C string is the list of its characters
    before the terminator; a structure on disk is its list of bytes. *)

From S2P Require Import Prelude Csr Mem Vm Device CpuType Block FdTable.

Definition MINIFS_MAGIC : Z := 0x4d465332.
Definition MINIFS_VERSION : Z := 2.
Definition MINIFS_MAX_INODES : Z := 256.
Definition MINIFS_DIRECT_BLOCKS : Z := 10.
Definition MINIFS_INDIRECT_BLOCKS : Z := 128.
Definition MINIFS_INODE_BITMAP_START : Z := 1.
Definition MINIFS_DATA_BITMAP_START : Z := 2.
Definition MINIFS_DATA_BITMAP_BLOCKS : Z := 4.
Definition MINIFS_INODE_TABLE_START : Z := 6.
Definition MINIFS_DATA_START : Z := 38.
Definition MINIFS_BLOCK_COUNT : Z := 15360.
Definition MINIFS_ROOT_INODE : Z := 0.
Definition MINIFS_PATH_MAX : Z := 256.
Definition MINIFS_NAME_MAX : Z := 55.
Definition MINIFS_MAX_FILE_SIZE : Z := 64 * 1024.
Definition MINIFS_O_CREATE : Z := 0x040.
Definition MINIFS_O_TRUNC : Z := 0x200.
Definition MINIFS_O_APPEND : Z := 0x400.
Definition MINIFS_SEEK_SET : Z := 0.
Definition MINIFS_SEEK_CUR : Z := 1.
Definition MINIFS_SEEK_END : Z := 2.
Definition MINIFS_MODE_FILE : Z := 1.
Definition MINIFS_MODE_DIR : Z := 2.
Definition NO_INODE : Z := 0xffffffff.

(** ** Structures on disk *)

Record minifs_inode := MkInode {
  i_mode : Z;
  i_size : Z;
  i_parent : Z;
  i_links : Z;
  i_direct : list Z;
  i_indirect : Z;
  i_reserved : Z;
}.
#[global] Instance minifs_inode_eta : Settable minifs_inode := λ i,
  MkInode (i_mode i) (i_size i) (i_parent i) (i_links i) (i_direct i) (i_indirect i) (i_reserved i).
Definition zero_inode : minifs_inode := MkInode 0 0 0 0 (replicate 10 0) 0 0.

(** The [uint32_t] at index [k] of a structure. *)
Definition word_at (k : Z) (bs : list Z) : Z := le_decode (slice (4 * k) 4 bs).

Definition decode_inode (bs : list Z) : minifs_inode :=
  MkInode (word_at 0 bs) (word_at 1 bs) (word_at 2 bs) (word_at 3 bs)
    (map (λ k, word_at (4 + k) bs) [0; 1; 2; 3; 4; 5; 6; 7; 8; 9]) (word_at 14 bs) (word_at 15 bs).
Definition encode_inode (i : minifs_inode) : list Z :=
  le32 (i_mode i) ++ le32 (i_size i) ++ le32 (i_parent i) ++ le32 (i_links i) ++
  concat (map le32 (i_direct i)) ++ le32 (i_indirect i) ++ le32 (i_reserved i).

Record minifs_dirent := MkDirent { d_inode : Z; d_mode : Z; d_name : list Z }.
#[global] Instance minifs_dirent_eta : Settable minifs_dirent := λ e,
  MkDirent (d_inode e) (d_mode e) (d_name e).
Definition decode_dirent (bs : list Z) : minifs_dirent :=
  MkDirent (word_at 0 bs) (word_at 1 bs) (slice 8 56 bs).
Definition encode_dirent (e : minifs_dirent) : list Z := le32 (d_inode e) ++ le32 (d_mode e) ++ d_name e.

(** ** Strings and bitmaps *)

(** The string in a character array. *)
Fixpoint cstring (buf : list Z) : list Z :=
  match buf with [] => [] | c :: buf => if c =? 0 then [] else c :: cstring buf end.

Definition str_len (s : list Z) : Z := Z.of_nat (length s).
Fixpoint str_equal (a b : list Z) : bool :=
  match a, b with
  | [], [] => true
  | x :: a, y :: b => if x =? y then str_equal a b else false
  | _, _ => false
  end.

Definition bitmap_test (bitmap : list Z) (bit : Z) : bool :=
  Z.land (Z.shiftr (aget 0 bitmap (Z.shiftr bit 3)) (Z.land bit 7)) 1 =? 1.
Definition bitmap_set (bitmap : list Z) (bit : Z) (value : bool) : list Z :=
  let mask := u8 (Z.shiftl 1 (Z.land bit 7)) in
  let byte := aget 0 bitmap (Z.shiftr bit 3) in
  aset bitmap (Z.shiftr bit 3) (if value then Z.lor byte mask else Z.land byte (u8 (Z.lnot mask))).

(** ** The monad *)

Record fs (D : Type) := MkFs { dev : D; bitmap : list Z }.
Arguments MkFs {D}.
Arguments dev {D}.
Arguments bitmap {D}.
#[global] Instance fs_eta {D} : Settable (fs D) := λ s, MkFs (dev s) (bitmap s).

Definition fs_m (D A : Type) : Type := fs D → option A * fs D.

Section minifs.
Context {D : Type} `{BlockOps D}.
Implicit Types (s : fs D) (inode : minifs_inode).

Definition ok {A} (a : A) : fs_m D A := λ s, (Some a, s).
Definition fail {A} : fs_m D A := λ s, (None, s).
Definition and_then {A B} (m : fs_m D A) (f : A → fs_m D B) : fs_m D B := λ s,
  match m s with (Some a, s) => f a s | (None, s) => (None, s) end.
Notation "'let?' x ':=' m 'in' k" := (and_then m (λ x, k)) (at level 10, x pattern, m at level 100, k at level 200).
(** [m], or [h] when it fails. *)
Definition or_else {A} (m h : fs_m D A) : fs_m D A := λ s,
  match m s with (Some a, s) => (Some a, s) | (None, s) => h s end.
(** A step whose failure is ignored. *)
Definition ignore {A} (m : fs_m D A) : fs_m D unit := λ s, (Some tt, (m s).2).
Definition guard_m (b : bool) : fs_m D unit := if b then ok tt else fail.

(** ** Sectors, inodes and bitmaps *)

Definition read_block (n : Z) : fs_m D (list Z) := λ s,
  let '(r, d) := bread n (dev s) in (r, s <| dev := d |>).
Definition write_block (n : Z) (bs : list Z) : fs_m D unit := λ s,
  let '(r, d) := bwrite n bs (dev s) in ((if r : bool then Some tt else None), s <| dev := d |>).

Definition inode_sector (number : Z) : Z := MINIFS_INODE_TABLE_START + Z.shiftr number 3.
Definition inode_offset (number : Z) : Z := Z.land number 7 * 64.

Definition read_inode (number : Z) : fs_m D minifs_inode :=
  if MINIFS_MAX_INODES <=? number then fail
  else let? b := read_block (inode_sector number) in ok (decode_inode (slice (inode_offset number) 64 b)).

Definition write_inode (number : Z) (inode : minifs_inode) : fs_m D unit :=
  if MINIFS_MAX_INODES <=? number then fail
  else
    let? b := read_block (inode_sector number) in
    write_block (inode_sector number) (splice (inode_offset number) (encode_inode inode) b).

Fixpoint load_bitmap (n : nat) (start i : Z) (buffer : list Z) : fs_m D (list Z) :=
  match n with
  | O => ok buffer
  | S n => let? b := read_block (start + i) in load_bitmap n start (i + 1) (splice (i * 512) b buffer)
  end.

Definition alloc_inode : fs_m D Z :=
  let? b := read_block MINIFS_INODE_BITMAP_START in
  match find_from 255 1 (λ i, negb (bitmap_test b i)) with
  | None => fail
  | Some i => let? _ := write_block MINIFS_INODE_BITMAP_START (bitmap_set b i true) in ok i
  end.

Definition free_inode_number (inode : Z) : fs_m D unit :=
  if (inode =? 0) || (MINIFS_MAX_INODES <=? inode) then ok tt
  else ignore (let? b := read_block MINIFS_INODE_BITMAP_START in
               write_block MINIFS_INODE_BITMAP_START (bitmap_set b inode false)).

(** Setting a bit of [bitmap_buffer] and writing its sector back. *)
Definition update_bitmap (bit : Z) (value : bool) : fs_m D unit := λ s,
  let s := s <| bitmap := bitmap_set (bitmap s) bit value |> in
  let bitmap_sector := bit / (512 * 8) in
  write_block (MINIFS_DATA_BITMAP_START + bitmap_sector) (slice (bitmap_sector * 512) 512 (bitmap s)) s.

Definition alloc_data_block : fs_m D Z := λ s,
  match find_from (Z.to_nat (MINIFS_BLOCK_COUNT - MINIFS_DATA_START)) MINIFS_DATA_START
          (λ i, negb (bitmap_test (bitmap s) i)) with
  | None => (None, s)
  | Some i =>
      (let? _ := update_bitmap i true in
       let? _ := write_block i (replicate 512 0) in ok i) s
  end.

Definition free_data_block (block : Z) : fs_m D unit :=
  if (block <? MINIFS_DATA_START) || (MINIFS_BLOCK_COUNT <=? block) then ok tt
  else ignore (update_bitmap block false).

(** ** Blocks of an inode *)

(** The block number, 0 for none. *)
Definition inode_block (inode : minifs_inode) (index : Z) : fs_m D Z :=
  if index <? MINIFS_DIRECT_BLOCKS then ok (aget 0 (i_direct inode) index)
  else if (MINIFS_DIRECT_BLOCKS + MINIFS_INDIRECT_BLOCKS <=? index) || (i_indirect inode =? 0) then ok 0
  else or_else (let? b := read_block (i_indirect inode) in ok (word_at (index - MINIFS_DIRECT_BLOCKS) b)) (ok 0).

(** The structure is updated in place, also when the function fails. *)
Definition ensure_inode_block (inode : minifs_inode) (index : Z) (s : fs D)
    : option Z * minifs_inode * fs D :=
  if MINIFS_DIRECT_BLOCKS + MINIFS_INDIRECT_BLOCKS <=? index then (None, inode, s)
  else if index <? MINIFS_DIRECT_BLOCKS then
    if aget 0 (i_direct inode) index =? 0 then
      match alloc_data_block s with
      | (None, s) => (None, inode, s)
      | (Some b, s) => (Some b, inode <| i_direct := aset (i_direct inode) index b |>, s)
      end
    else (Some (aget 0 (i_direct inode) index), inode, s)
  else
    let '(r, inode, s) :=
      if i_indirect inode =? 0 then
        match alloc_data_block s with
        | (None, s) => (None, inode, s)
        | (Some b, s) => (Some tt, inode <| i_indirect := b |>, s)
        end
      else (Some tt, inode, s) in
    match r with
    | None => (None, inode, s)
    | Some _ =>
        let slot := index - MINIFS_DIRECT_BLOCKS in
        let '(r, s) :=
          (let? entries := read_block (i_indirect inode) in
           if word_at slot entries =? 0 then
             let? b := alloc_data_block in
             let? _ := write_block (i_indirect inode) (splice (4 * slot) (le32 b) entries) in ok b
           else ok (word_at slot entries)) s in
        (r, inode, s)
    end.

Fixpoint free_blocks (l : list Z) : fs_m D unit :=
  match l with [] => ok tt | b :: l => let? _ := free_data_block b in free_blocks l end.

Definition indirect_entries (b : list Z) : list Z := map (λ k, word_at (Z.of_nat k) b) (seq 0 128).

Definition truncate_inode (inode : minifs_inode) : fs_m D minifs_inode :=
  let? _ := free_blocks (i_direct inode) in
  let? _ :=
    (if i_indirect inode =? 0 then ok tt
     else
       let? _ := ignore (let? b := read_block (i_indirect inode) in free_blocks (indirect_entries b)) in
       free_data_block (i_indirect inode)) in
  ok (inode <| i_direct := map (λ _, 0) (i_direct inode) |> <| i_indirect := 0 |> <| i_size := 0 |>).

(** ** Directories *)

Definition is_dir (inode : minifs_inode) : bool := Z.land (i_mode inode) 0xff =? MINIFS_MODE_DIR.
Definition is_file (inode : minifs_inode) : bool := Z.land (i_mode inode) 0xff =? MINIFS_MODE_FILE.
Definition dir_count (inode : minifs_inode) : Z := i_size inode / 64.

(** The block of entry [i], its sector and the entry in it. *)
Definition read_entry (inode : minifs_inode) (i : Z) : fs_m D (Z * list Z * minifs_dirent) :=
  let? block := inode_block inode (i / 8) in
  let? _ := guard_m (negb (block =? 0)) in
  let? b := read_block block in
  ok (block, b, decode_dirent (slice (i mod 8 * 64) 64 b)).

(** The loop over the entries: the first of [n] entries from [i] on that [p]
    accepts. *)
Fixpoint dir_scan (n : nat) (i : Z) (inode : minifs_inode) (p : minifs_dirent → bool)
    : fs_m D (option (Z * Z * list Z * minifs_dirent)) :=
  match n with
  | O => ok None
  | S n =>
      let? (block, b, e) := read_entry inode i in
      if p e then ok (Some (i, block, b, e)) else dir_scan n (i + 1) inode p
  end.
Definition scan_dir (inode : minifs_inode) (p : minifs_dirent → bool) :=
  dir_scan (Z.to_nat (dir_count inode)) 0 inode p.

Definition entry_named (name : list Z) (e : minifs_dirent) : bool :=
  negb (d_inode e =? NO_INODE) && str_equal (cstring (d_name e)) name.
Definition entry_free (e : minifs_dirent) : bool := d_inode e =? NO_INODE.

(** The inode number is returned as an [int]; a negative one counts as failure in
    every caller. *)
Definition dir_lookup (directory : Z) (name : list Z) : fs_m D Z :=
  let? inode := read_inode directory in
  let? _ := guard_m (is_dir inode) in
  let? r := scan_dir inode (entry_named name) in
  match r with
  | None => fail
  | Some (_, _, _, e) => if i32 (d_inode e) <? 0 then fail else ok (i32 (d_inode e))
  end.

(** [name] and its terminator in a zeroed array of 56 characters. *)
Definition name_field (name : list Z) : list Z := name ++ replicate (56 - length name) 0.

Definition dir_add (directory : Z) (name : list Z) (child mode : Z) : fs_m D unit :=
  let? found := or_else (let? _ := dir_lookup directory name in ok true) (ok false) in
  let? _ := guard_m (negb found) in
  let? _ := guard_m ((0 <? str_len name) && (str_len name <=? MINIFS_NAME_MAX)) in
  let? inode := read_inode directory in
  let? _ := guard_m (is_dir inode) in
  let? r := scan_dir inode entry_free in
  let index := match r with Some (i, _, _, _) => i | None => dir_count inode end in
  λ s,
    let '(r, inode, s) := ensure_inode_block inode (index / 8) s in
    match r with
    | None => (None, s)
    | Some block =>
        (let? b := read_block block in
         let? _ := write_block block
                     (splice (index mod 8 * 64) (encode_dirent (MkDirent child mode (name_field name))) b) in
         let inode := if index =? dir_count inode then inode <| i_size := u32 (i_size inode + 64) |> else inode in
         write_inode directory inode) s
    end.

Definition dir_remove (directory : Z) (name : list Z) : fs_m D unit :=
  let? inode := read_inode directory in
  let? r := scan_dir inode (entry_named name) in
  match r with
  | None => fail
  | Some (i, block, b, _) => write_block block (splice (i mod 8 * 64) (le32 NO_INODE) b)
  end.

(** ** Paths *)

Definition SLASH : Z := 47.
Definition DOT : list Z := [46].
Definition DOTDOT : list Z := [46; 46].

Fixpoint skip_slashes (p : list Z) : list Z :=
  match p with c :: p' => if c =? SLASH then skip_slashes p' else p | [] => [] end.

(** The characters up to the next slash; [None] when there are more than [room]. *)
Fixpoint scan_component (room : nat) (p : list Z) : option (list Z * list Z) :=
  match p with
  | [] => Some ([], [])
  | c :: p' =>
      if c =? SLASH then Some ([], p)
      else
        match room with
        | O => None
        | S room => match scan_component room p' with
                    | None => None
                    | Some (name, rest) => Some (c :: name, rest)
                    end
        end
  end.

Inductive component := CompError | CompEnd | CompName (name rest : list Z).
Definition next_component (path : list Z) : component :=
  match skip_slashes path with
  | [] => CompEnd
  | p => match scan_component 55 p with None => CompError | Some (name, rest) => CompName name rest end
  end.

(** The walk of [resolve]; [fuel] bounds the number of components. *)
Fixpoint walk (fuel : nat) (current : Z) (cursor : list Z) : fs_m D Z :=
  match fuel with
  | O => fail
  | S fuel =>
      match next_component cursor with
      | CompError => fail
      | CompEnd => if i32 current <? 0 then fail else ok (i32 current)
      | CompName name cursor =>
          if str_equal name DOT then walk fuel current cursor
          else if str_equal name DOTDOT then
            let? inode := read_inode current in walk fuel (i_parent inode) cursor
          else
            let? child := dir_lookup current name in walk fuel child cursor
      end
  end.

Definition resolve (cwd : Z) (path : list Z) : fs_m D Z :=
  if (str_len path =? 0) || (MINIFS_PATH_MAX <=? str_len path) then fail
  else walk (S (length path)) (if aget 0 path 0 =? SLASH then MINIFS_ROOT_INODE else cwd) path.

(** The path without the slashes at its end, one character being kept. *)
Definition trim_slashes (path : list Z) : list Z :=
  match skip_slashes (rev path) with [] => take 1 path | p => rev p end.

(** The position of the last slash, -1 for none. *)
Fixpoint last_slash (i best : Z) (p : list Z) : Z :=
  match p with [] => best | c :: p => last_slash (i + 1) (if c =? SLASH then i else best) p end.

Definition resolve_parent (cwd : Z) (path : list Z) : fs_m D (Z * list Z) :=
  if (str_len path <=? 0) || (MINIFS_PATH_MAX <=? str_len path) then fail
  else
    let path := trim_slashes path in
    let slash := last_slash 0 (-1) path in
    let name := drop (Z.to_nat (slash + 1)) path in
    if (str_len name <=? 0) || (MINIFS_NAME_MAX <? str_len name) || str_equal name DOT || str_equal name DOTDOT
    then fail
    else if slash <? 0 then (if i32 cwd <? 0 then fail else ok (i32 cwd, name))
    else if slash =? 0 then ok (MINIFS_ROOT_INODE, name)
    else let? parent := resolve cwd (take (Z.to_nat slash) path) in ok (parent, name).

Definition create_node (parent : Z) (name : list Z) (mode : Z) : fs_m D Z :=
  let? number := alloc_inode in
  let inode := zero_inode <| i_mode := mode |> <| i_parent := parent |> <| i_links := 1 |> in
  or_else
    (let? _ := write_inode number inode in let? _ := dir_add parent name number mode in ok number)
    (let? _ := free_inode_number number in fail).

(** ** Files *)

(** The copy loop of [minifs_pread]: [length] bytes from [offset] on; at most 512
    are copied per round. *)
Fixpoint pread_loop (fuel : nat) (inode : minifs_inode) (offset length : Z) : fs_m D (list Z) :=
  match fuel with
  | O => fail
  | S fuel =>
      if length <=? 0 then ok []
      else
        let within := offset mod 512 in
        let? block := inode_block inode (offset / 512) in
        let? _ := guard_m (negb (block =? 0)) in
        let? b := read_block block in
        let chunk := Z.min length (512 - within) in
        let? rest := pread_loop fuel inode (offset + chunk) (length - chunk) in
        ok (slice within chunk b ++ rest)
  end.

(** The bytes read (their number is the C result). *)
Definition minifs_pread (number offset length : Z) : fs_m D (list Z) :=
  let? inode := read_inode number in
  let? _ := guard_m (is_file inode) in
  if i_size inode <=? offset then ok []
  else
    let length := Z.min length (i_size inode - offset) in
    pread_loop (S (Z.to_nat length)) inode offset length.

(** The loop of [write_at]: the number of bytes written, whether a write of a
    sector failed, and the inode. *)
Fixpoint write_loop (fuel : nat) (inode : minifs_inode) (offset : Z) (source : list Z) (s : fs D)
    : option Z * minifs_inode * fs D :=
  match fuel with
  | O => (None, inode, s)
  | S fuel =>
      match source with
      | [] => (Some 0, inode, s)
      | _ =>
          let within := offset mod 512 in
          let '(r, inode, s) := ensure_inode_block inode (offset / 512) s in
          let '(r, s) := match r with
                         | None => (None, s)
                         | Some block => (let? b := read_block block in ok (block, b)) s
                         end in
          match r with
          | None => (Some 0, inode, s)
          | Some (block, b) =>
              let chunk := Z.min (Z.of_nat (length source)) (512 - within) in
              let '(r, s) := write_block block (splice within (take (Z.to_nat chunk) source) b) s in
              match r with
              | None => (None, inode, s)
              | Some _ =>
                  let '(done, inode, s) :=
                    write_loop fuel inode (offset + chunk) (drop (Z.to_nat chunk) source) s in
                  (option_map (Z.add chunk) done, inode, s)
              end
          end
      end
  end.

(** [source] are the [length] bytes of the buffer. *)
Definition write_at (number offset : Z) (source : list Z) : fs_m D Z :=
  if MINIFS_MAX_FILE_SIZE <=? offset then ok 0
  else
    let source := take (Z.to_nat (MINIFS_MAX_FILE_SIZE - offset)) source in
    let? inode := read_inode number in
    let? _ := guard_m (is_file inode) in
    λ s,
      match write_loop (S (length source)) inode offset source s with
      | (None, _, s) => (None, s)
      | (Some done, inode, s) =>
          let inode := if i_size inode <? offset + done then inode <| i_size := offset + done |> else inode in
          (let? _ := write_inode number inode in ok done) s
      end.

(** ** Directory operations *)

Definition minifs_mkdir (cwd : Z) (path : list Z) : fs_m D unit :=
  let? (parent, name) := resolve_parent cwd path in
  let? _ := create_node parent name MINIFS_MODE_DIR in ok tt.

(** [open] tells which inodes are open. *)
Definition minifs_unlink (opened : Z → bool) (cwd : Z) (path : list Z) : fs_m D unit :=
  let? (parent, name) := resolve_parent cwd path in
  let? number := dir_lookup parent name in
  let? _ := guard_m (negb ((number <=? 0) || opened number)) in
  let? inode := read_inode number in
  let? busy := (if is_dir inode then scan_dir inode (λ e, negb (entry_free e)) else ok None) in
  let? _ := guard_m (match busy with None => true | Some _ => false end) in
  let? _ := truncate_inode inode in
  let? _ := write_inode number zero_inode in
  let? _ := dir_remove parent name in
  free_inode_number number.

Definition minifs_chdir (cwd : Z) (path : list Z) : fs_m D Z :=
  let? number := resolve cwd path in
  let? inode := read_inode number in
  let? _ := guard_m (is_dir inode) in ok number.

Definition minifs_resolve_file (cwd : Z) (path : list Z) : fs_m D Z :=
  let? number := resolve cwd path in
  let? inode := read_inode number in
  let? _ := guard_m (is_file inode) in ok number.

Definition minifs_inode_size (number : Z) : fs_m D Z := let? inode := read_inode number in ok (i_size inode).
Definition minifs_inode_mode (number : Z) : fs_m D Z := let? inode := read_inode number in ok (i_mode inode).

(** The entries of a directory that are in use, at most [capacity]. *)
Fixpoint list_entries (n : nat) (i capacity : Z) (inode : minifs_inode) : fs_m D (list minifs_dirent) :=
  match n with
  | O => ok []
  | S n =>
      if capacity <=? 0 then ok []
      else
        let? (_, _, e) := read_entry inode i in
        if entry_free e then list_entries n (i + 1) capacity inode
        else let? rest := list_entries n (i + 1) (capacity - 1) inode in ok (e :: rest)
  end.

(** A file is listed as one entry with the last component of its path, of which
    the terminator is written but the bytes after it are left as they were.  (With a
    path of NULL the source reads the string at NULL when [cwd] is a file.) *)
Definition minifs_getdents (cwd : Z) (path : option (list Z)) (capacity : Z) : fs_m D (list minifs_dirent) :=
  let? number := match path with
                 | None | Some [] => if i32 cwd <? 0 then fail else ok (i32 cwd)
                 | Some p => resolve cwd p
                 end in
  let? _ := guard_m (0 <=? capacity) in
  let? inode := read_inode number in
  if is_file inode then
    if capacity =? 0 then ok []
    else
      let p := default [] path in
      ok [MkDirent number (i_mode inode) (take 55 (drop (Z.to_nat (last_slash 0 (-1) p + 1)) p) ++ [0])]
  else list_entries (Z.to_nat (dir_count inode)) 0 capacity inode.

(** The climb of [minifs_getcwd]: [acc] is the path so far, which grows at its
    front. *)
Fixpoint climb (fuel : nat) (current : Z) (acc : list Z) : fs_m D (list Z) :=
  match fuel with
  | O => fail
  | S fuel =>
      if current =? MINIFS_ROOT_INODE then ok acc
      else
        let? inode := read_inode current in
        let? parent := read_inode (i_parent inode) in
        let? r := scan_dir parent (λ e, d_inode e =? current) in
        let name := match r with Some (_, _, _, e) => cstring (d_name e) | None => [] end in
        let? _ := guard_m (negb ((str_len name =? 0) ||
                                 (MINIFS_PATH_MAX <=? str_len acc + str_len name + 1))) in
        climb fuel (i_parent inode) (SLASH :: name ++ acc)
  end.

Definition minifs_getcwd (cwd length : Z) : fs_m D (list Z) :=
  if length <? 2 then fail
  else if cwd =? MINIFS_ROOT_INODE then ok [SLASH]
  else
    let? path := climb 257 cwd [] in
    let? _ := guard_m (str_len path + 1 <=? length) in ok path.

(** ** Mounting *)

Definition minifs_init : fs_m D unit :=
  let? super := read_block 0 in
  let? _ := guard_m ((word_at 0 super =? MINIFS_MAGIC) && (word_at 1 super =? MINIFS_VERSION) &&
                     (word_at 2 super =? MINIFS_BLOCK_COUNT) && (word_at 3 super =? MINIFS_MAX_INODES) &&
                     (word_at 10 super =? MINIFS_DATA_START) && (word_at 11 super =? MINIFS_MAX_FILE_SIZE)) in
  λ s,
    match load_bitmap 4 MINIFS_DATA_BITMAP_START 0 (bitmap s) s with
    | (Some b, s) => (Some tt, s <| bitmap := b |>)
    | (None, s) => (None, s)
    end.
End minifs.

#[global] Notation "'let?' x ':=' m 'in' k" := (and_then m (λ x, k))
  (at level 10, x pattern, m at level 100, k at level 200) : minios_scope.

(** ** Descriptors and files *)

(** The file system, the descriptor tables, the bytes written to the console and
    the number of keys taken from it. *)
Record files (D : Type) := MkFiles {
  f_fs : fs D;
  f_fds : fd_state;
  f_out : list Z;
  f_keys : Z;
}.
Arguments MkFiles {D}.
Arguments f_fs {D}.
Arguments f_fds {D}.
Arguments f_out {D}.
Arguments f_keys {D}.
#[global] Instance files_eta {D} : Settable (files D) := λ f,
  MkFiles (f_fs f) (f_fds f) (f_out f) (f_keys f).

Section files.
Context {D : Type} `{BlockOps D}.
(** The characters [uart_getc] returns, in their order. *)
Context (key : Z → Z).

Definition on_fs {A} (m : fs_m D A) (f : files D) : option A * files D :=
  let '(r, s) := m (f_fs f) in (r, f <| f_fs := s |>).
Definition on_fds {A} (m : fd_state → A * fd_state) (f : files D) : A * files D :=
  let '(r, s) := m (f_fds f) in (r, f <| f_fds := s |>).

Definition known_flags : Z := Z.lor 3 (Z.lor MINIFS_O_CREATE (Z.lor MINIFS_O_TRUNC MINIFS_O_APPEND)).

(** The inode [minifs_open] opens, created if need be and truncated if asked. *)
Definition open_node (cwd : Z) (path : list Z) (flags : Z) : fs_m D (Z * minifs_inode) :=
  let create := negb (Z.land flags MINIFS_O_CREATE =? 0) in
  let? number :=
    or_else (resolve cwd path)
      (if create then let? (parent, name) := resolve_parent cwd path in create_node parent name MINIFS_MODE_FILE
       else fail) in
  let? inode := read_inode number in
  let? _ := guard_m (is_file inode) in
  if negb (Z.land flags MINIFS_O_TRUNC =? 0) then
    let? inode := truncate_inode inode in
    let? _ := write_inode number inode in ok (number, inode)
  else ok (number, inode).

Definition minifs_open (pid cwd : Z) (path : list Z) (flags : Z) (f : files D) : Z * files D :=
  let access := Z.land flags 3 in
  match find_process pid (f_fds f) with
  | None => (-1, f)
  | Some process =>
      if (access =? 3) || negb (Z.land flags (Z.lnot known_flags) =? 0) ||
         ((access =? MINIFS_O_RDONLY) && negb (Z.land flags (Z.lor MINIFS_O_TRUNC MINIFS_O_APPEND) =? 0))
      then (-1, f)
      else
        match on_fs (open_node cwd path flags) f with
        | (None, f) => (-1, f)
        | (Some (number, inode), f) => on_fds (open_inode process flags number (i_size inode)) f
        end
  end.

(** The loop over the console: characters up to a newline. *)
Fixpoint read_console (n : nat) (k : Z) : list Z :=
  match n with
  | O => []
  | S n => let c := u8 (key k) in if c =? 10 then [c] else c :: read_console n (k + 1)
  end.

Definition advance (ofd count : Z) (f : files D) : files D :=
  f <| f_fds := upd_of ofd (λ o, o <| of_offset := u32 (of_offset o + count) |>) (f_fds f) |>.

(** The bytes read; the C result is their number. *)
Definition minifs_read (pid fd length : Z) (f : files D) : option (list Z) * files D :=
  match get_open_file pid fd (f_fds f) with
  | None => (None, f)
  | Some ofd =>
      let file := get_of (f_fds f) ofd in
      if of_type file =? OFD_CONSOLE_IN then
        let bs := read_console (Z.to_nat length) (f_keys f) in
        (Some bs, f <| f_keys := f_keys f + Z.of_nat (List.length bs) |>)
      else if negb (of_type file =? OFD_FILE) || (Z.land (of_flags file) 3 =? MINIFS_O_WRONLY) then (None, f)
      else
        match on_fs (minifs_pread (of_inode file) (of_offset file) (Z.min length 0xffffffff)) f with
        | (None, f) => (None, f)
        | (Some bs, f) => (Some bs, advance ofd (Z.of_nat (List.length bs)) f)
        end
  end.

(** [buffer] holds the [length] bytes to write. *)
Definition minifs_write (pid fd : Z) (buffer : list Z) (f : files D) : Z * files D :=
  match get_open_file pid fd (f_fds f) with
  | None => (-1, f)
  | Some ofd =>
      let file := get_of (f_fds f) ofd in
      if of_type file =? OFD_CONSOLE_OUT then
        (i32 (Z.of_nat (length buffer)), f <| f_out := f_out f ++ buffer |>)
      else if negb (of_type file =? OFD_FILE) || (Z.land (of_flags file) 3 =? MINIFS_O_RDONLY) then (-1, f)
      else
        let '(r, f) :=
          if negb (Z.land (of_flags file) MINIFS_O_APPEND =? 0) then
            match on_fs (read_inode (of_inode file)) f with
            | (None, f) => (None, f)
            | (Some inode, f) =>
                (Some tt, f <| f_fds := upd_of ofd (λ o, o <| of_offset := i_size inode |>) (f_fds f) |>)
            end
          else (Some tt, f) in
        match r with
        | None => (-1, f)
        | Some _ =>
            match on_fs (write_at (of_inode file) (of_offset (get_of (f_fds f) ofd))
                           (take (Z.to_nat (Z.min (Z.of_nat (length buffer)) 0xffffffff)) buffer)) f with
            | (None, f) => (-1, f)
            | (Some n, f) => (n, if 0 <? n then advance ofd n f else f)
            end
        end
  end.

Definition minifs_lseek (pid fd offset whence : Z) (f : files D) : Z * files D :=
  match get_open_file pid fd (f_fds f) with
  | None => (-1, f)
  | Some ofd =>
      let file := get_of (f_fds f) ofd in
      if negb (of_type file =? OFD_FILE) then (-1, f)
      else
        let '(base, f) :=
          if whence =? MINIFS_SEEK_CUR then (Some (of_offset file), f)
          else if whence =? MINIFS_SEEK_END then
            match on_fs (read_inode (of_inode file)) f with
            | (None, f) => (None, f)
            | (Some inode, f) => (Some (i_size inode), f)
            end
          else if negb (whence =? MINIFS_SEEK_SET) then (None, f)
          else (Some 0, f) in
        match base with
        | None => (-1, f)
        | Some base =>
            let position := base + offset in
            if (position <? 0) || (MINIFS_MAX_FILE_SIZE <? position) then (-1, f)
            else (position, f <| f_fds := upd_of ofd (λ o, o <| of_offset := position |>) (f_fds f) |>)
        end
  end.

Definition unlink (cwd : Z) (path : list Z) (f : files D) : option unit * files D :=
  on_fs (minifs_unlink (λ i, inode_is_open i (f_fds f)) cwd path) f.
End files.
