(* ===== verification/FsLayout.v ===== *)
(** * The file system on disk: encodings, bitmap and sectors

    What the readers and writers of minifs.c do to the sectors of a device that
    satisfies [BlockDriver]: inodes and bitmap bits are read back as written and
    every other sector, inode and bit is left alone. *)

From S2P Require Import Prelude Csr Mem Vm Device CpuType Block FdTable MiniFs.

(** ** Words *)

Lemma word_at_range k bs : bytes bs → is_u32 (word_at k bs).
Proof.
  intros Hb. unfold word_at. assert (bytes (slice (4 * k) 4 bs)) as Hs by by apply Forall_slice.
  pose proof (le_decode_range _ Hs) as H.
  assert ((length (slice (4 * k) 4 bs) ≤ 4)%nat) as Hl by (unfold slice; rewrite length_take; lia).
  pose proof (Z.pow_le_mono_r 256 (Z.of_nat (length (slice (4 * k) 4 bs))) 4). lia.
Qed.

Lemma slice_app_right {A} (l r : list A) off n :
  Z.of_nat (length l) ≤ off → 0 ≤ n → slice off n (l ++ r) = slice (off - Z.of_nat (length l)) n r.
Proof.
  intros. unfold slice. rewrite drop_app_ge by lia. do 2 f_equal. lia.
Qed.
Lemma slice_app_left {A} (l r : list A) off n :
  0 ≤ off → 0 ≤ n → off + n ≤ Z.of_nat (length l) → slice off n (l ++ r) = slice off n l.
Proof.
  intros. unfold slice. rewrite drop_app_le by lia. rewrite take_app_le; [done|rewrite length_drop; lia].
Qed.

Lemma word_at_words (ws : list Z) (k : nat) x :
  Forall (λ w, is_u32 w) ws → ws !! k = Some x → word_at (Z.of_nat k) (concat (map le32 ws)) = x.
Proof.
  revert k. induction ws as [|w ws IH]; intros k Hf Hk; [done|]. inversion Hf; subst.
  cbn [map concat]. assert (length (le32 w) = 4%nat) as Hl by apply length_le_encode.
  destruct k as [|k]; cbn in Hk.
  - simplify_eq. unfold word_at. rewrite slice_app_left by lia.
    unfold slice. rewrite drop_0, take_ge by lia. by apply le32_decode.
  - unfold word_at. rewrite slice_app_right by lia. rewrite Hl.
    replace (4 * Z.of_nat (S k) - Z.of_nat 4) with (4 * Z.of_nat k) by lia. by apply IH.
Qed.

(** ** Inodes *)

Definition inode_words (i : minifs_inode) : list Z :=
  [i_mode i; i_size i; i_parent i; i_links i] ++ i_direct i ++ [i_indirect i; i_reserved i].
Definition inode_wf (i : minifs_inode) : Prop :=
  length (i_direct i) = 10%nat ∧ Forall (λ w, is_u32 w) (inode_words i).

Lemma encode_inode_words i : encode_inode i = concat (map le32 (inode_words i)).
Proof.
  unfold encode_inode, inode_words. rewrite !map_app, !concat_app. cbn [map concat].
  by rewrite !app_nil_r, <- !app_assoc.
Qed.

Lemma length_words ws : length (concat (map le32 ws)) = (4 * length ws)%nat.
Proof.
  induction ws as [|w ws IH]; [done|]. cbn [map concat length]. rewrite length_app, IH.
  unfold le32. rewrite length_le_encode. lia.
Qed.

Lemma length_encode_inode i : length (i_direct i) = 10%nat → length (encode_inode i) = 64%nat.
Proof.
  intros Hl. rewrite encode_inode_words, length_words. unfold inode_words. rewrite !length_app, Hl. done.
Qed.

Lemma encode_inode_bytes i : bytes (encode_inode i).
Proof.
  rewrite encode_inode_words. induction (inode_words i) as [|w ws IH]; [constructor|].
  cbn [map concat]. apply Forall_app_2; [apply le_encode_bytes|done].
Qed.

Lemma decode_encode_inode i : inode_wf i → decode_inode (encode_inode i) = i.
Proof.
  intros [Hl Hf]. rewrite encode_inode_words.
  destruct i as [m sz pa li dir ind re]; cbn [i_direct] in Hl.
  do 10 (destruct dir as [|? dir]; [done|]). destruct dir; [|done].
  pose proof (λ k x, word_at_words _ k x Hf) as W. revert W.
  generalize (concat (map le32 (inode_words (MkInode m sz pa li [z; z0; z1; z2; z3; z4; z5; z6; z7; z8] ind re)))).
  intros bs W. unfold decode_inode. cbn [map].
  repeat match goal with |- context [word_at ?k bs] =>
    let H := fresh in pose proof (W (Z.to_nat k) _ eq_refl) as H;
    change (Z.of_nat (Z.to_nat k)) with k in H; rewrite H; clear H end.
  done.
Qed.

Lemma decode_inode_wf bs : bytes bs → inode_wf (decode_inode bs).
Proof.
  intros Hb. split; [done|]. unfold inode_words, decode_inode. cbn.
  repeat (constructor; [by apply word_at_range|]). constructor.
Qed.

Lemma inode_wf_fields i :
  inode_wf i ↔ length (i_direct i) = 10%nat ∧ Forall (λ w, is_u32 w) (i_direct i) ∧
    is_u32 (i_mode i) ∧ is_u32 (i_size i) ∧ is_u32 (i_parent i) ∧ is_u32 (i_links i) ∧
    is_u32 (i_indirect i) ∧ is_u32 (i_reserved i).
Proof.
  unfold inode_wf, inode_words. rewrite !Forall_app, !Forall_cons, !Forall_nil. tauto.
Qed.

Lemma inode_wf_direct i k b :
  inode_wf i → is_u32 b → inode_wf (i <| i_direct := aset (i_direct i) k b |>).
Proof.
  rewrite !inode_wf_fields. intros (Hl & Hd & H) Hb. split; [etrans; [apply length_aset|done]|].
  split; [by apply Forall_insert|done].
Qed.
Lemma inode_wf_indirect i b : inode_wf i → is_u32 b → inode_wf (i <| i_indirect := b |>).
Proof. rewrite !inode_wf_fields. cbn. tauto. Qed.
Lemma inode_wf_size i b : inode_wf i → is_u32 b → inode_wf (i <| i_size := b |>).
Proof. rewrite !inode_wf_fields. cbn. tauto. Qed.

(** ** Bitmaps *)

Lemma aget_bytes l i : bytes l → is_u8 (aget 0 l i).
Proof.
  intros Hl. unfold aget. destruct (l !! Z.to_nat i) eqn:E; cbn; [|lia].
  by eapply (Forall_lookup_1 _ _ _ _ Hl).
Qed.

Lemma bit_index i : Z.shiftr i 3 = i / 8 ∧ Z.land i 7 = i mod 8.
Proof.
  split; [by rewrite Z.shiftr_div_pow2 by lia|]. change 7 with (Z.ones 3). by rewrite Z.land_ones by lia.
Qed.

Lemma bitmap_test_bit bm i : 0 ≤ i → bitmap_test bm i = Z.testbit (aget 0 bm (i / 8)) (i mod 8).
Proof.
  intros Hi. unfold bitmap_test. destruct (bit_index i) as [-> ->].
  pose proof (Z.mod_pos_bound i 8).
  change (Z.land ?x 1) with (Z.land x (Z.ones 1)). rewrite Z.land_ones, Z.shiftr_div_pow2 by lia.
  change (2 ^ 1) with 2. rewrite <- Z.testbit_spec' by lia. by destruct (Z.testbit _ _).
Qed.

Lemma mask_bit k n : 0 ≤ k < 8 → 0 ≤ n → Z.testbit (u8 (Z.shiftl 1 k)) n = bool_decide (n = k).
Proof.
  intros Hk Hn. assert (is_u8 (Z.shiftl 1 k)).
  { rewrite Z.shiftl_mul_pow2 by lia. pose proof (Z.pow_le_mono_r 2 k 7). pose proof (Z.pow_pos_nonneg 2 k). lia. }
  unfold u8. rewrite Z.mod_small by lia. rewrite Z.shiftl_spec by lia.
  case_bool_decide; [subst; by rewrite Z.sub_diag|].
  destruct (decide (n < k)); [by rewrite Z.testbit_neg_r by lia|].
  apply Z.bits_above_log2; [lia|]. cbn. lia.
Qed.

Lemma bits_u8 z : (∀ n, 8 ≤ n → Z.testbit z n = false) → 0 ≤ z → is_u8 z.
Proof.
  intros Hb Hz. assert (z = z mod 2 ^ 8) as ->; [|apply Z.mod_pos_bound; lia].
  apply Z.bits_inj'. intros n Hn. destruct (decide (n < 8)).
  - by rewrite Z.mod_pow2_bits_low by lia.
  - rewrite Z.mod_pow2_bits_high by lia. apply Hb. lia.
Qed.
Lemma u8_bits z n : is_u8 z → 8 ≤ n → Z.testbit z n = false.
Proof. intros Hz Hn. rewrite <- (Z.mod_small z (2 ^ 8)) by lia. apply Z.mod_pow2_bits_high. lia. Qed.

Lemma set_byte byte k v n :
  is_u8 byte → 0 ≤ k < 8 → 0 ≤ n →
  let mask := u8 (Z.shiftl 1 k) in
  Z.testbit (if v : bool then Z.lor byte mask else Z.land byte (u8 (Z.lnot mask))) n =
  if decide (n = k) then v else Z.testbit byte n.
Proof.
  intros Hb Hk Hn mask. subst mask. destruct v.
  - rewrite Z.lor_spec, mask_bit by lia. case_decide; [by rewrite bool_decide_eq_true_2, orb_true_r|].
    by rewrite bool_decide_eq_false_2, orb_false_r.
  - rewrite Z.land_spec. unfold u8 at 1. destruct (decide (n < 8)).
    + rewrite Z.mod_pow2_bits_low, Z.lnot_spec, mask_bit by lia. case_decide; case_bool_decide; try done;
        by rewrite ?andb_true_r, ?andb_false_r.
    + rewrite (u8_bits byte n), decide_False by lia. done.
Qed.

Lemma set_byte_u8 byte k v :
  is_u8 byte → 0 ≤ k < 8 →
  let mask := u8 (Z.shiftl 1 k) in is_u8 (if v : bool then Z.lor byte mask else Z.land byte (u8 (Z.lnot mask))).
Proof.
  intros Hb Hk mask. apply bits_u8.
  - intros n Hn. unfold mask. rewrite set_byte by lia. rewrite decide_False by lia. by apply u8_bits.
  - unfold mask. destruct v; [apply Z.lor_nonneg|apply Z.land_nonneg; lia].
    split; [lia|]. apply Z.mod_pos_bound. lia.
Qed.

Lemma length_bitmap_set bm i v : length (bitmap_set bm i v) = length bm.
Proof. apply length_aset. Qed.

Lemma bitmap_set_bytes bm i v : 0 ≤ i → bytes bm → bytes (bitmap_set bm i v).
Proof.
  intros Hi Hb. unfold bitmap_set. destruct (bit_index i) as [-> ->]. unfold aset. apply Forall_insert; [done|].
  apply set_byte_u8; [by apply aget_bytes|]. by apply Z.mod_pos_bound.
Qed.

Lemma bitmap_test_set bm i v j :
  bytes bm → 0 ≤ i < 8 * Z.of_nat (length bm) → 0 ≤ j →
  bitmap_test (bitmap_set bm i v) j = if decide (j = i) then v else bitmap_test bm j.
Proof.
  intros Hb Hi Hj. rewrite !bitmap_test_bit by done. unfold bitmap_set. destruct (bit_index i) as [-> ->].
  pose proof (Z.mod_pos_bound i 8). pose proof (Z.mod_pos_bound j 8).
  destruct (decide (j / 8 = i / 8)) as [E|E].
  - rewrite E, aget_aset_eq by (Z.div_mod_to_equations; lia).
    rewrite set_byte by (by apply aget_bytes || lia).
    repeat case_decide; try done; exfalso; Z.div_mod_to_equations; lia.
  - rewrite aget_aset_ne by (Z.div_mod_to_equations; lia). case_decide; [by subst|done].
Qed.

(** ** States *)

Section states.
Context {D : Type} `{HD : BlockDriver D}.
Implicit Types (s : fs D).

Definition sec s (n : Z) : list Z := sector_at (dev s) n.

(** The device is well formed and [bitmap_buffer] is what its sectors hold. *)
Record fs_ok s : Prop := {
  fo_dev : dev_ok (dev s);
  fo_len : length (bitmap s) = 2048%nat;
  fo_bytes : bytes (bitmap s);
  fo_synced : ∀ k, 0 ≤ k < 4 → sec s (2 + k) = slice (k * 512) 512 (bitmap s);
}.

(** The same contents: a read may change the registers of the device. *)
Record like s s' : Prop := {
  lk_ok : fs_ok s';
  lk_bitmap : bitmap s' = bitmap s;
  lk_sec : ∀ m, 0 ≤ m < BLOCK_SECTOR_COUNT → sec s' m = sec s m;
}.

Lemma like_refl s : fs_ok s → like s s.
Proof. by split. Qed.
Lemma like_trans s1 s2 s3 : like s1 s2 → like s2 s3 → like s1 s3.
Proof.
  intros [? Hb Hs] [? Hb' Hs']. split; [done|by rewrite Hb'|]. intros. by rewrite Hs', Hs.
Qed.

Lemma sec_ok s n : fs_ok s → 0 ≤ n < BLOCK_SECTOR_COUNT → is_sector (sec s n).
Proof. intros [? _ _ _] Hn. by apply sector_at_ok. Qed.

Lemma read_block_ok s n :
  fs_ok s → 0 ≤ n < BLOCK_SECTOR_COUNT →
  ∃ s', read_block n s = (Some (sec s n), s') ∧ like s s'.
Proof.
  intros Hs Hn. destruct (bread_ok (dev s) n (fo_dev _ Hs) Hn) as (Hr & Hd & Hm).
  unfold read_block. destruct (bread n (dev s)) as [r d]. cbn in Hr, Hd, Hm. subst r.
  eexists. split; [done|]. split; [|done|done].
  destruct Hs as [? ? ? Hy]. split; try done. intros k Hk. rewrite <- Hy by done. apply Hm.
  unfold BLOCK_SECTOR_COUNT. lia.
Qed.

Lemma write_block_ok s n bs :
  fs_ok s → 0 ≤ n < BLOCK_SECTOR_COUNT → is_sector bs → ¬ (2 ≤ n < 6) →
  ∃ s', write_block n bs s = (Some tt, s') ∧ fs_ok s' ∧ bitmap s' = bitmap s ∧
    ∀ m, 0 ≤ m < BLOCK_SECTOR_COUNT → sec s' m = if decide (m = n) then bs else sec s m.
Proof.
  intros Hs Hn Hb Hn'. destruct (bwrite_ok (dev s) n bs (fo_dev _ Hs) Hn Hb) as (Hr & Hd & Hm).
  unfold write_block. destruct (bwrite n bs (dev s)) as [r d]. cbn in Hr, Hd, Hm. subst r.
  eexists. split; [done|]. split; [|by split].
  destruct Hs as [? ? ? Hy]. split; try done. intros k Hk. cbn [bitmap dev]. rewrite <- Hy by done.
  unfold sec. cbn. rewrite Hm, decide_False by (unfold BLOCK_SECTOR_COUNT; lia). done.
Qed.

Lemma slice_aset (l : list Z) i v off n :
  0 ≤ i → 0 ≤ off → 0 ≤ n → ¬ (off ≤ i < off + n) → slice off n (aset l i v) = slice off n l.
Proof.
  intros Hi Ho Hn Hne. unfold slice, aset. apply list_eq. intros k.
  destruct (decide (k < Z.to_nat n)%nat).
  - rewrite !lookup_take_lt, !lookup_drop by done. apply list_lookup_insert_ne. lia.
  - by rewrite !lookup_take_ge by lia.
Qed.

Lemma update_bitmap_ok s i v :
  fs_ok s → 0 ≤ i < 8 * 2048 →
  ∃ s', update_bitmap i v s = (Some tt, s') ∧ fs_ok s' ∧ bitmap s' = bitmap_set (bitmap s) i v ∧
    ∀ m, 0 ≤ m < BLOCK_SECTOR_COUNT → ¬ (2 ≤ m < 6) → sec s' m = sec s m.
Proof.
  intros Hs Hi. pose proof (fo_len _ Hs) as Hl. unfold update_bitmap.
  set (bm := bitmap_set (bitmap s) i v). set (j := i / (512 * 8)).
  assert (0 ≤ j < 4) as Hj by (unfold j; Z.div_mod_to_equations; lia).
  assert (length bm = 2048%nat) as Hlb by (unfold bm; by rewrite length_bitmap_set).
  assert (bytes bm) as Hbb by (apply bitmap_set_bytes; [lia|apply Hs]).
  assert (is_sector (slice (j * 512) 512 bm)) as Hsec.
  { split; [rewrite length_slice; lia|by apply Forall_slice]. }
  assert (0 ≤ 2 + j < BLOCK_SECTOR_COUNT) as Hr by (unfold BLOCK_SECTOR_COUNT; lia).
  destruct (bwrite_ok (dev s) (2 + j) _ (fo_dev _ Hs) Hr Hsec) as (Hw & Hd & Hm).
  unfold write_block. change MINIFS_DATA_BITMAP_START with 2. cbn [dev bitmap].
  change (dev (s <| bitmap := bm |>)) with (dev s). change (bitmap (s <| bitmap := bm |>)) with bm.
  destruct (bwrite (2 + j) (slice (j * 512) 512 bm) (dev s)) as [r d]. cbn in Hw, Hd, Hm. subst r.
  eexists. split; [done|]. split; [|split; [done|]].
  - split; try done. intros k Hk. unfold sec. cbn [dev bitmap].
    change (sector_at d (2 + k) = slice (k * 512) 512 bm).
    rewrite Hm by (unfold BLOCK_SECTOR_COUNT; lia). case_decide; [by replace k with j by lia|].
    fold (sec s (2 + k)). rewrite (fo_synced _ Hs) by done. unfold bm, bitmap_set.
    destruct (bit_index i) as [-> _]. rewrite slice_aset; [done|Z.div_mod_to_equations; lia..|].
    unfold j in *. Z.div_mod_to_equations; lia.
  - intros m Hmr Hne. unfold sec. change (sector_at d m = sector_at (dev s) m). rewrite Hm by done.
    by rewrite decide_False by lia.
Qed.

(** *** Inodes *)

Definition is_inode (n : Z) : Prop := 0 ≤ n < 256.
Definition inode_at s (n : Z) : minifs_inode := decode_inode (slice (inode_offset n) 64 (sec s (inode_sector n))).

Lemma inode_place n :
  is_inode n → inode_sector n = 6 + n / 8 ∧ inode_offset n = n mod 8 * 64 ∧ 6 ≤ inode_sector n < 38 ∧
  0 ≤ inode_offset n ≤ 448.
Proof.
  intros Hn. unfold is_inode in Hn. unfold inode_sector, inode_offset. destruct (bit_index n) as [-> ->].
  unfold MINIFS_INODE_TABLE_START. Z.div_mod_to_equations; lia.
Qed.

Lemma inode_sector_range n : is_inode n → 0 ≤ inode_sector n < BLOCK_SECTOR_COUNT.
Proof. intros Hn. pose proof (inode_place n Hn). unfold BLOCK_SECTOR_COUNT. lia. Qed.

Lemma inode_at_wf s n : fs_ok s → is_inode n → inode_wf (inode_at s n).
Proof.
  intros Hs Hn. apply decode_inode_wf, Forall_slice. apply sec_ok; [done|]. by apply inode_sector_range.
Qed.

(** Inodes are determined by the sectors of the table. *)
Lemma inode_at_ext s s' n :
  is_inode n → (∀ m, 6 ≤ m < 38 → sec s' m = sec s m) → inode_at s' n = inode_at s n.
Proof. intros Hn Hs. unfold inode_at. rewrite Hs; [done|]. apply inode_place, Hn. Qed.

Lemma like_inode s s' n : like s s' → is_inode n → inode_at s' n = inode_at s n.
Proof. intros [_ _ Hs] Hn. apply inode_at_ext; [done|]. intros. apply Hs. unfold BLOCK_SECTOR_COUNT. lia. Qed.

Lemma read_inode_ok s n :
  fs_ok s → is_inode n → ∃ s', read_inode n s = (Some (inode_at s n), s') ∧ like s s'.
Proof.
  intros Hs Hn. unfold read_inode. rewrite (proj2 (Z.leb_gt _ _)) by (unfold is_inode, MINIFS_MAX_INODES in *; lia).
  destruct (read_block_ok s (inode_sector n) Hs (inode_sector_range n Hn)) as (s' & Hr & Hl).
  exists s'. unfold and_then. rewrite Hr. done.
Qed.

Lemma read_inode_range s n : 256 ≤ n → read_inode n s = (None, s).
Proof. intros. unfold read_inode. by rewrite (proj2 (Z.leb_le _ _)) by done. Qed.

Lemma write_inode_ok s n ino :
  fs_ok s → is_inode n → inode_wf ino →
  ∃ s', write_inode n ino s = (Some tt, s') ∧ fs_ok s' ∧ bitmap s' = bitmap s ∧
    (∀ m, is_inode m → inode_at s' m = if decide (m = n) then ino else inode_at s m) ∧
    (∀ m, 0 ≤ m < BLOCK_SECTOR_COUNT → ¬ (6 ≤ m < 38) → sec s' m = sec s m).
Proof.
  intros Hs Hn Hwf. unfold write_inode.
  rewrite (proj2 (Z.leb_gt _ _)) by (unfold is_inode, MINIFS_MAX_INODES in *; lia).
  pose proof (inode_sector_range n Hn) as Hr. pose proof (inode_place n Hn) as (Hsn & Hon & Hs1 & Ho1).
  destruct (read_block_ok s (inode_sector n) Hs Hr) as (s1 & Hrd & Hl). unfold and_then. rewrite Hrd.
  pose proof (sec_ok s _ Hs Hr) as [Hbl Hbb]. pose proof (length_encode_inode ino (proj1 Hwf)) as Hle.
  set (bs := splice (inode_offset n) (encode_inode ino) (sec s (inode_sector n))).
  assert (is_sector bs) as Hb.
  { split; [unfold bs; rewrite length_splice; lia|]. apply Forall_splice; [apply encode_inode_bytes|done]. }
  destruct (write_block_ok s1 (inode_sector n) bs (lk_ok _ _ Hl) Hr Hb) as (s2 & Hw & Hok & Hbm & Hsec); [lia|].
  exists s2. split; [done|]. split; [done|]. split; [by rewrite Hbm, (lk_bitmap _ _ Hl)|]. split.
  - intros m Hm. pose proof (inode_place m Hm) as (Hsm & Hom & Hs2 & Ho2).
    unfold inode_at. rewrite Hsec by by apply inode_sector_range.
    destruct (decide (m = n)) as [->|Hne].
    + rewrite decide_True by done. unfold bs. replace 64 with (Z.of_nat (length (encode_inode ino))) at 1 by lia.
      rewrite slice_splice_eq by lia. by apply decode_encode_inode.
    + case_decide as E.
      * unfold bs. rewrite slice_splice_ne; [by rewrite E|..]; unfold is_inode in *; Z.div_mod_to_equations; lia.
      * by rewrite (lk_sec _ _ Hl) by by apply inode_sector_range.
  - intros m Hm Hne. rewrite Hsec by done. rewrite decide_False by lia. by apply (lk_sec _ _ Hl).
Qed.
End states.
