(* ===== verification/FsFile.v ===== *)
(** * Files: block allocation, writing and reading

    [slot] is the block an inode refers to at a position (-1 is the indirect block).
    [inv f] says that the inodes [f] refer to marked data blocks, every block from
    one place only; [f] is the inode table, except for an inode an operation holds
    in memory.  Allocation keeps it, so files never share a block; a write changes
    the bytes it is given and no other byte of any file, and a read returns them. *)

From S2P Require Import Prelude Csr Mem Vm Device CpuType Block FdTable MiniFs FsLayout.

Definition is_data (b : Z) : Prop := 38 ≤ b < 15360.
Definition is_slot (p : Z) : Prop := -1 ≤ p < 138.
Definition fupd (f : Z → minifs_inode) (n : Z) (x : minifs_inode) (m : Z) : minifs_inode :=
  if decide (m = n) then x else f m.
Definition zeros : list Z := replicate 512 0.

Lemma fupd_eq f n x : fupd f n x n = x.
Proof. unfold fupd. by rewrite decide_True. Qed.
Lemma fupd_ne f n x m : m ≠ n → fupd f n x m = f m.
Proof. intros. unfold fupd. by rewrite decide_False. Qed.

Section files.
Context {D : Type} `{HD : BlockDriver D}.
Implicit Types (s : fs D) (f : Z → minifs_inode) (ino : minifs_inode).

Definition used s (b : Z) : bool := bitmap_test (bitmap s) b.

Definition slot s ino (p : Z) : Z :=
  if p <? 0 then i_indirect ino
  else if p <? 10 then aget 0 (i_direct ino) p
  else if i_indirect ino =? 0 then 0 else word_at (p - 10) (sec s (i_indirect ino)).

Record inv f s : Prop := {
  inv_fs : fs_ok s;
  inv_wf : ∀ n, is_inode n → inode_wf (f n);
  inv_data : ∀ n p, is_inode n → is_slot p → slot s (f n) p ≠ 0 →
    is_data (slot s (f n) p) ∧ used s (slot s (f n) p) = true;
  inv_inj : ∀ n m p q, is_inode n → is_inode m → is_slot p → is_slot q →
    slot s (f n) p ≠ 0 → slot s (f n) p = slot s (f m) q → n = m ∧ p = q;
}.

(** The invariant of the file system between operations. *)
Definition fs_inv s : Prop := inv (inode_at s) s.

Lemma data_range b : is_data b → 0 ≤ b < BLOCK_SECTOR_COUNT ∧ ¬ (2 ≤ b < 6) ∧ ¬ (6 ≤ b < 38).
Proof. unfold is_data, BLOCK_SECTOR_COUNT. lia. Qed.

Lemma slot_indirect s ino : slot s ino (-1) = i_indirect ino.
Proof. done. Qed.

(** The positions of an inode depend on its indirect block only. *)
Lemma slot_ext s s' ino p :
  (i_indirect ino ≠ 0 → sec s' (i_indirect ino) = sec s (i_indirect ino)) →
  slot s' ino p = slot s ino p.
Proof.
  intros Hs. unfold slot. repeat case_match; bsimp; try done. by rewrite Hs.
Qed.

Lemma inv_indirect f s n :
  inv f s → is_inode n → i_indirect (f n) ≠ 0 → is_data (i_indirect (f n)) ∧ used s (i_indirect (f n)) = true.
Proof. intros Hi Hn H0. by apply (inv_data _ _ Hi n (-1)); [|unfold is_slot; lia|]. Qed.

(** What an operation must leave alone for the inodes it does not hold. *)
Record grows s s' : Prop := {
  gr_ok : fs_ok s';
  gr_used : ∀ b, is_data b → used s b = true → used s' b = true;
  gr_sec : ∀ b, is_data b → used s b = true → sec s' b = sec s b;
  gr_other : ∀ b, 0 ≤ b < BLOCK_SECTOR_COUNT → ¬ (2 ≤ b < 6) → ¬ is_data b → sec s' b = sec s b;
}.

Lemma grows_slot f s s' n p : inv f s → grows s s' → is_inode n → slot s' (f n) p = slot s (f n) p.
Proof.
  intros Hi Hg Hn. apply slot_ext. intros H0. destruct (inv_indirect _ _ _ Hi Hn H0). by apply (gr_sec _ _ Hg).
Qed.

Lemma grows_inv f s s' : inv f s → grows s s' → inv f s'.
Proof.
  intros Hi Hg. pose proof (λ n p, grows_slot f s s' n p Hi Hg) as Hsl. split.
  - apply Hg.
  - apply Hi.
  - intros n p Hn Hp. rewrite Hsl by done. intros H0. destruct (inv_data _ _ Hi n p Hn Hp H0) as [Hd Hu].
    split; [done|]. by apply Hg.
  - intros n m p q Hn Hm Hp Hq. rewrite !Hsl by done. by apply (inv_inj _ _ Hi).
Qed.

Lemma like_grows s s' : like s s' → grows s s'.
Proof.
  intros [Hk Hb Hs]. split; [done|..].
  - intros b _. unfold used. by rewrite Hb.
  - intros b Hd _. apply Hs. by apply data_range.
  - intros b Hr _ _. by apply Hs.
Qed.

Lemma grows_trans s1 s2 s3 : grows s1 s2 → grows s2 s3 → grows s1 s3.
Proof.
  intros [? Hu Hs Ho] [? Hu' Hs' Ho']. split; try done.
  - auto.
  - intros b Hd Hb. rewrite Hs', Hs; auto.
  - intros b Hb Hn Hd. rewrite Ho', Ho; auto.
Qed.

Lemma grows_inode_at s s' n : grows s s' → is_inode n → inode_at s' n = inode_at s n.
Proof.
  intros Hg Hn. apply inode_at_ext; [done|]. intros m Hm. apply (gr_other _ _ Hg); unfold is_data, BLOCK_SECTOR_COUNT; lia.
Qed.

(** ** Allocation *)

Lemma zeros_ok : is_sector zeros.
Proof. split; [done|]. apply Forall_replicate. lia. Qed.

Lemma used_set s s' i v b :
  fs_ok s → bitmap s' = bitmap_set (bitmap s) i v → 0 ≤ i < 8 * 2048 → 0 ≤ b →
  used s' b = if decide (b = i) then v else used s b.
Proof.
  intros Hs Hb Hi Hb0. unfold used. rewrite Hb. apply bitmap_test_set; [apply Hs| |done].
  rewrite (fo_len _ Hs). lia.
Qed.

Lemma alloc_ok s :
  fs_ok s →
  (∃ b s', alloc_data_block s = (Some b, s') ∧ is_data b ∧ used s b = false ∧ grows s s' ∧ sec s' b = zeros ∧
     ∀ c, 0 ≤ c → used s' c = if decide (c = b) then true else used s c) ∨
  (alloc_data_block s = (None, s) ∧ ∀ b, is_data b → used s b = true).
Proof.
  intros Hs. unfold alloc_data_block.
  destruct (find_from (Z.to_nat (MINIFS_BLOCK_COUNT - MINIFS_DATA_START)) MINIFS_DATA_START
              (λ i, negb (bitmap_test (bitmap s) i))) as [b|] eqn:E.
  - left. apply find_from_Some in E as (Hr & Hn & _). apply negb_true_iff in Hn.
    change (used s b = false) in Hn. assert (is_data b) as Hd by (unfold is_data, MINIFS_DATA_START, MINIFS_BLOCK_COUNT in *; lia).
    pose proof (data_range b Hd) as (Hb & Hb1 & Hb2).
    destruct (update_bitmap_ok s b true Hs) as (s1 & Hu & Hok1 & Hbm1 & Hs1); [unfold is_data in Hd; lia|].
    destruct (write_block_ok s1 b zeros Hok1 Hb zeros_ok) as (s2 & Hw & Hok2 & Hbm2 & Hs2); [lia|].
    assert (∀ c, 0 ≤ c → used s2 c = if decide (c = b) then true else used s c) as Hus.
    { intros c Hc. apply used_set; [done|by rewrite Hbm2|unfold is_data in Hd; lia|done]. }
    exists b, s2. unfold and_then. rewrite Hu. fold zeros. rewrite Hw. split; [done|]. split; [done|].
    split; [done|]. split; [|split; [by rewrite Hs2, decide_True|done]]. split; [done|..].
    + intros c Hc Huc. rewrite Hus by (unfold is_data in Hc; lia). by case_decide.
    + intros c Hc Huc. pose proof (data_range c Hc) as (? & ? & ?). rewrite Hs2, decide_False by (done || intros ->; congruence).
      by apply Hs1.
    + intros c Hc Hc2 Hcd. rewrite Hs2, decide_False by (done || intros ->; done). by apply Hs1.
  - right. split; [done|]. intros b Hd. rewrite find_from_None in E.
    assert (negb (bitmap_test (bitmap s) b) = false) as Hb.
    { apply E. unfold is_data, MINIFS_DATA_START, MINIFS_BLOCK_COUNT in *. lia. }
    by apply negb_false_iff in Hb.
Qed.

(** An unmarked block is not referred to. *)
Lemma unused_fresh f s n p b :
  inv f s → is_inode n → is_slot p → used s b = false → b ≠ 0 → slot s (f n) p ≠ b.
Proof.
  intros Hi Hn Hp Hb H0 E. subst b. destruct (inv_data _ _ Hi n p Hn Hp H0) as [_ Hu]. congruence.
Qed.

(** Linking a fresh block at position [p0] of inode [n]. *)
Lemma inv_link f s s' n ino' p0 b :
  inv f s → fs_ok s' → is_inode n → inode_wf ino' → is_slot p0 → is_data b →
  (∀ m p, is_inode m → is_slot p → slot s (f m) p ≠ b) →
  (∀ c, is_data c → used s c = true → used s' c = true) → used s' b = true →
  (∀ p, is_slot p → slot s' ino' p = if decide (p = p0) then b else slot s (f n) p) →
  (∀ m p, is_inode m → is_slot p → m ≠ n → slot s' (f m) p = slot s (f m) p) →
  inv (fupd f n ino') s'.
Proof.
  intros Hi Hok Hn Hwf Hp0 Hd Hfresh Hus Hub Hsl Hot.
  assert (∀ m p, is_inode m → is_slot p → slot s' (fupd f n ino' m) p =
    if decide (m = n ∧ p = p0) then b else slot s (f m) p) as Hall.
  { intros m p Hm Hp. unfold fupd. destruct (decide (m = n)) as [->|Hne].
    - rewrite Hsl by done. repeat case_decide; intuition congruence.
    - rewrite Hot by done. case_decide; intuition congruence. }
  split; [done|..].
  - intros m Hm. unfold fupd. case_decide; [done|by apply Hi].
  - intros m p Hm Hp. rewrite Hall by done. case_decide; [done|]. intros Hnz.
    destruct (inv_data _ _ Hi m p Hm Hp Hnz). auto.
  - intros m1 m2 p q Hm1 Hm2 Hp Hq. rewrite !Hall by done. repeat case_decide.
    + intros _ _. intuition congruence.
    + intros _ E. by destruct (Hfresh m2 q Hm2 Hq).
    + intros _ E. by destruct (Hfresh m1 p Hm1 Hp).
    + by apply (inv_inj _ _ Hi).
Qed.

(** ** Growing a file *)

Lemma word_at_splice k k' b bs :
  length bs = 512%nat → 0 ≤ k < 128 → 0 ≤ k' < 128 → is_u32 b →
  word_at k' (splice (4 * k) (le32 b) bs) = if decide (k' = k) then b else word_at k' bs.
Proof.
  intros Hl Hk Hk' Hb. assert (length (le32 b) = 4%nat) as H4 by apply length_le_encode.
  unfold word_at. case_decide as E.
  - subst k'. replace 4 with (Z.of_nat (length (le32 b))) at 2 by lia. rewrite slice_splice_eq by lia.
    by apply le32_decode.
  - by rewrite slice_splice_ne by lia.
Qed.

Lemma word_at_zeros k : word_at k zeros = 0.
Proof.
  unfold word_at. assert (Forall (eq 0) (slice (4 * k) 4 zeros)) as Hf by (apply Forall_slice, Forall_replicate; done).
  induction Hf as [|x l Hx _ IH]; [done|]. cbn. fold (le_decode l). rewrite IH, <- Hx. done.
Qed.

(** What [ensure_inode_block] leaves. *)
Record ensured f n s (idx : Z) ino' s' : Prop := {
  en_inv : inv (fupd f n ino') s';
  en_meta : i_mode ino' = i_mode (f n) ∧ i_size ino' = i_size (f n) ∧ i_parent ino' = i_parent (f n);
  en_keep : ∀ p, 0 ≤ p < 138 → p ≠ idx → slot s' ino' p = slot s (f n) p;
  en_old : slot s (f n) idx ≠ 0 → slot s' ino' idx = slot s (f n) idx;
  en_zero : slot s (f n) idx = 0 → slot s' ino' idx ≠ 0 → sec s' (slot s' ino' idx) = zeros;
  en_used : ∀ b, is_data b → used s b = true → used s' b = true;
  en_sec : ∀ b, is_data b → used s b = true → b ≠ i_indirect (f n) → sec s' b = sec s b;
  en_other : ∀ b, 0 ≤ b < BLOCK_SECTOR_COUNT → ¬ (2 ≤ b < 6) → ¬ is_data b → sec s' b = sec s b;
}.

Lemma fupd_self f n s : inv f s → inv (fupd f n (f n)) s.
Proof.
  assert (∀ m, fupd f n (f n) m = f m) as Hf by (intros m; unfold fupd; case_decide; by subst).
  intros [? Hw Hd Hj]. split; [done|..].
  - intros m. rewrite Hf. apply Hw.
  - intros m p. rewrite Hf. apply Hd.
  - intros m1 m2 p q. rewrite !Hf. apply Hj.
Qed.

Lemma ensured_refl f n s s' idx : inv f s → is_inode n → grows s s' → ensured f n s idx (f n) s'.
Proof.
  intros Hi Hn Hg. pose proof (λ p, grows_slot f s s' n p Hi Hg Hn) as Hsl.
  split; try done; try apply Hg.
  - apply fupd_self. by eapply grows_inv.
  - intros E. rewrite Hsl. congruence.
  - intros. by apply (gr_sec _ _ Hg).
Qed.

Lemma link_direct f n s idx b s' :
  inv f s → is_inode n → 0 ≤ idx < 10 → aget 0 (i_direct (f n)) idx = 0 →
  is_data b → used s b = false → grows s s' → sec s' b = zeros → used s' b = true →
  let ino' := (f n) <| i_direct := aset (i_direct (f n)) idx b |> in
  ensured f n s idx ino' s' ∧ slot s' ino' idx = b.
Proof.
  intros Hi Hn Hidx Hz Hd Hub Hg Hsb Hub' ino'. pose proof (inv_wf _ _ Hi n Hn) as [Hl Hw].
  pose proof (λ m p, grows_slot f s s' m p Hi Hg) as Hgs.
  assert (∀ p, is_slot p → slot s' ino' p = if decide (p = idx) then b else slot s (f n) p) as Hsl.
  { intros p Hp. rewrite <- (Hgs n p Hn). unfold slot, ino'. cbn [i_direct i_indirect].
    change (i_indirect ((f n) <| i_direct := _ |>)) with (i_indirect (f n)).
    change (i_direct ((f n) <| i_direct := ?x |>)) with x.
    destruct (p <? 0) eqn:E1; bsimp; [by rewrite decide_False by lia|].
    destruct (p <? 10) eqn:E2; bsimp; [|by rewrite decide_False by lia].
    case_decide; [subst; apply aget_aset_eq; lia|apply aget_aset_ne; unfold is_slot in *; lia]. }
  assert (slot s (f n) idx = 0) as Hs0.
  { unfold slot. by rewrite (proj2 (Z.ltb_ge _ _)), (proj2 (Z.ltb_lt _ _)) by lia. }
  split; [|rewrite Hsl, decide_True by (unfold is_slot; done || lia); done].
  assert (is_slot idx) as Hsi by (unfold is_slot; lia).
  split; try done; try apply Hg.
  - apply (inv_link f s s' n ino' idx b); try done; try apply Hg.
    + apply inode_wf_direct; [by apply Hi|unfold is_data in Hd; lia].
    + intros. eapply unused_fresh; eauto. unfold is_data in Hd. lia.
    + intros m p Hm Hp _. by apply Hgs.
  - intros p Hp Hne. rewrite Hsl by (unfold is_slot; lia). by rewrite decide_False.
  - intros _ _. rewrite Hsl, decide_True by done. done.
  - intros c Hc Hu _. by apply (gr_sec _ _ Hg).
Qed.

(** A fresh indirect block has no entries. *)
Lemma link_indirect f n s b s' :
  inv f s → is_inode n → i_indirect (f n) = 0 →
  is_data b → used s b = false → grows s s' → sec s' b = zeros → used s' b = true →
  let ino' := (f n) <| i_indirect := b |> in
  inv (fupd f n ino') s' ∧ (∀ p, 0 ≤ p < 138 → slot s' ino' p = slot s (f n) p).
Proof.
  intros Hi Hn Hz Hd Hub Hg Hsb Hub' ino'. pose proof (λ m p, grows_slot f s s' m p Hi Hg) as Hgs.
  assert (∀ p, is_slot p → slot s' ino' p = if decide (p = -1) then b else slot s (f n) p) as Hsl.
  { intros p Hp. unfold slot, ino'.
    change (i_indirect ((f n) <| i_indirect := b |>)) with b.
    change (i_direct ((f n) <| i_indirect := b |>)) with (i_direct (f n)).
    destruct (p <? 0) eqn:E1; bsimp; [rewrite decide_True by (unfold is_slot in Hp; lia); done|].
    rewrite decide_False by lia. destruct (p <? 10) eqn:E2; [done|].
    rewrite Hz, Hsb, word_at_zeros. cbn. by case_match. }
  split; [|intros p Hp; rewrite Hsl by (unfold is_slot; lia); by rewrite decide_False by lia].
  apply (inv_link f s s' n ino' (-1) b); try done; try apply Hg.
  - apply inode_wf_indirect; [by apply Hi|unfold is_data in Hd; lia].
  - intros. eapply unused_fresh; eauto. unfold is_data in Hd. lia.
  - intros m p Hm Hp _. by apply Hgs.
Qed.

(** Setting an empty entry of the indirect block. *)
Lemma link_entry f n s idx b s1 s' :
  let k := i_indirect (f n) in
  inv f s → is_inode n → 10 ≤ idx < 138 → k ≠ 0 → slot s (f n) idx = 0 →
  is_data b → used s b = false → grows s s1 → used s1 b = true →
  fs_ok s' → bitmap s' = bitmap s1 →
  (∀ m, 0 ≤ m < BLOCK_SECTOR_COUNT →
     sec s' m = if decide (m = k) then splice (4 * (idx - 10)) (le32 b) (sec s k) else sec s1 m) →
  sec s1 b = zeros →
  ensured f n s idx (f n) s' ∧ slot s' (f n) idx = b.
Proof.
  intros k Hi Hn Hidx Hk Hz Hd Hub Hg Hub1 Hok Hbm Hs Hsb.
  destruct (inv_indirect _ _ _ Hi Hn Hk) as [Hkd Hku]. pose proof (data_range _ Hkd) as (Hkr & _).
  pose proof (sec_ok s k (inv_fs _ _ Hi) Hkr) as [Hkl Hkb].
  assert (∀ c, used s' c = used s1 c) as Hus by (intros; unfold used; by rewrite Hbm).
  assert (is_slot idx) as Hsi by (unfold is_slot; lia).
  fold k in Hkd, Hku. assert (b ≠ k) as Hbk by (intros E; rewrite E in Hub; congruence).
  assert (∀ p, is_slot p → slot s' (f n) p = if decide (p = idx) then b else slot s (f n) p) as Hsl.
  { intros p Hp. unfold slot. fold k. destruct (p <? 0) eqn:E1; bsimp; [by rewrite decide_False by lia|].
    destruct (p <? 10) eqn:E2; bsimp; [by rewrite decide_False by lia|].
    rewrite (proj2 (Z.eqb_neq _ _) Hk), Hs, decide_True by done.
    rewrite word_at_splice by (unfold is_data, is_slot in *; lia).
    repeat case_decide; try done; lia. }
  assert (∀ m p, is_inode m → is_slot p → m ≠ n → slot s' (f m) p = slot s (f m) p) as Hot.
  { intros m p Hm Hp Hne. apply slot_ext. intros Hmz. destruct (inv_indirect _ _ _ Hi Hm Hmz) as [Hmd Hmu].
    rewrite Hs by by apply data_range. rewrite decide_False; [by apply (gr_sec _ _ Hg)|].
    intros E. destruct (inv_inj _ _ Hi m n (-1) (-1)) as [? _]; try done; unfold is_slot; lia. }
  split; [|rewrite Hsl, decide_True by done; done].
  split; try done.
  - assert (inode_wf (f n)) as Hwf by by apply Hi.
    apply (inv_link f s s' n (f n) idx b); try done.
    + intros. eapply unused_fresh; eauto. unfold is_data in Hd. lia.
    + intros c Hc Hu. rewrite Hus. by apply Hg.
    + by rewrite Hus.
  - intros p Hp Hne. rewrite Hsl by (unfold is_slot; lia). by rewrite decide_False.
  - intros _ _. rewrite Hsl, decide_True by done. rewrite Hs by by apply data_range. by rewrite decide_False.
  - intros c Hc Hu. rewrite Hus. by apply Hg.
  - intros c Hc Hu Hne. rewrite Hs by by apply data_range. rewrite decide_False by done. by apply (gr_sec _ _ Hg).
  - intros c Hc Hn2 Hnd. rewrite Hs by done. rewrite decide_False by (intros ->; done). by apply (gr_other _ _ Hg).
Qed.

Lemma inv_ext f g s : (∀ m, f m = g m) → inv f s → inv g s.
Proof.
  intros E [? Hw Hd Hj]. split; [done|..].
  - intros m. rewrite <- E. apply Hw.
  - intros m p. rewrite <- E. apply Hd.
  - intros m1 m2 p q. rewrite <- !E. apply Hj.
Qed.

(** The result of [ensure_inode_block]: the block, or nothing on a full disk. *)
Definition ensure_result f n s (idx : Z) (r : option Z) ino' s' : Prop :=
  ensured f n s idx ino' s' ∧
  match r with
  | Some b => slot s' ino' idx = b ∧ is_data b
  | None => slot s (f n) idx = 0 ∧ slot s' ino' idx = 0 ∧ ∀ b, is_data b → used s' b = true
  end.

Lemma slot_entry s ino idx :
  10 ≤ idx < 138 → i_indirect ino ≠ 0 → slot s ino idx = word_at (idx - 10) (sec s (i_indirect ino)).
Proof.
  intros. unfold slot. rewrite (proj2 (Z.ltb_ge idx 0)), (proj2 (Z.ltb_ge idx 10)) by lia.
  by rewrite (proj2 (Z.eqb_neq _ _)).
Qed.

Lemma ensure_entry f n s idx :
  inv f s → is_inode n → 10 ≤ idx < 138 → i_indirect (f n) ≠ 0 →
  ∃ r s',
    (let? entries := read_block (i_indirect (f n)) in
     if word_at (idx - 10) entries =? 0 then
       let? b := alloc_data_block in
       let? _ := write_block (i_indirect (f n)) (splice (4 * (idx - 10)) (le32 b) entries) in ok b
     else ok (word_at (idx - 10) entries)) s = (r, s') ∧
    ensure_result f n s idx r (f n) s'.
Proof.
  intros Hi Hn Hidx Hk. destruct (inv_indirect _ _ _ Hi Hn Hk) as [Hkd Hku].
  pose proof (data_range _ Hkd) as (Hkr & Hk1 & Hk2). pose proof (inv_fs _ _ Hi) as Hok.
  destruct (read_block_ok s _ Hok Hkr) as (s1 & Hr & Hl). unfold and_then at 1. rewrite Hr.
  rewrite <- slot_entry by done. pose proof (like_grows _ _ Hl) as Hg1.
  assert (is_slot idx) as Hsi by (unfold is_slot; lia).
  destruct (slot s (f n) idx =? 0) eqn:E; bsimp.
  2:{ eexists _, s1. split; [done|]. split; [by apply ensured_refl|].
      rewrite (grows_slot _ _ _ _ _ Hi Hg1 Hn). split; [done|]. by apply (inv_data _ _ Hi n idx). }
  pose proof (grows_inv _ _ _ Hi Hg1) as Hi1.
  destruct (alloc_ok s1 (lk_ok _ _ Hl)) as [(b & s2 & Ha & Hd & Hub & Hg & Hsb & Hus)|[Ha Hfull]].
  - assert (is_sector (splice (4 * (idx - 10)) (le32 b) (sec s (i_indirect (f n))))) as Hsec.
    { pose proof (sec_ok s _ Hok Hkr) as [Hkl Hkb]. assert (length (le32 b) = 4%nat) by apply length_le_encode.
      split; [rewrite length_splice; lia|]. apply Forall_splice; [apply le_encode_bytes|done]. }
    destruct (write_block_ok s2 _ _ (gr_ok _ _ Hg) Hkr Hsec Hk1) as (s3 & Hw & Hok3 & Hbm3 & Hs3).
    exists (Some b), s3. unfold and_then. rewrite Ha, Hw. split; [done|].
    assert (used s b = false) as Hub' by (unfold used in *; by rewrite (lk_bitmap _ _ Hl) in Hub).
    destruct (link_entry f n s idx b s2 s3) as [He Hsl]; try done.
    + by eapply grows_trans.
    + rewrite Hus, decide_True by (unfold is_data in Hd; lia). done.
  - exists None, s1. unfold and_then. rewrite Ha. split; [done|]. split; [by apply ensured_refl|].
    rewrite (grows_slot _ _ _ _ _ Hi Hg1 Hn). by split_and!.
Qed.

(** An indirect block was allocated first. *)
Lemma ensured_after f n s ino1 s1 idx ino2 s2 :
  inv f s → is_inode n → i_indirect (f n) = 0 → grows s s1 → used s (i_indirect ino1) = false →
  (∀ p, 0 ≤ p < 138 → slot s1 ino1 p = slot s (f n) p) → 0 ≤ idx < 138 →
  i_mode ino1 = i_mode (f n) → i_size ino1 = i_size (f n) → i_parent ino1 = i_parent (f n) →
  ensured (fupd f n ino1) n s1 idx ino2 s2 → ensured f n s idx ino2 s2.
Proof.
  intros Hi Hn Hz Hg Hub Hsl Hidx Hm1 Hm2 Hm3 [Hinv (He1 & He2 & He3) Hk Ho Hz' Hu Hs Hot].
  rewrite fupd_eq in *. split.
  - eapply inv_ext, Hinv. intros m. unfold fupd. by case_decide.
  - by rewrite He1, He2, He3.
  - intros p Hp Hne. rewrite Hk, Hsl by done. done.
  - rewrite <- Hsl by done. exact Ho.
  - rewrite <- Hsl by done. exact Hz'.
  - intros b Hb Hub'. apply Hu; [done|]. by apply Hg.
  - intros b Hb Hub' _. rewrite Hs; [by apply Hg|done|by apply Hg|]. intros E. rewrite <- E in Hub. congruence.
  - intros b Hb Hb2 Hnd. rewrite Hot by done. by apply (gr_other _ _ Hg).
Qed.

Lemma ensure_ok f n s idx :
  inv f s → is_inode n → 0 ≤ idx < 138 →
  ∃ r ino' s', ensure_inode_block (f n) idx s = (r, ino', s') ∧ ensure_result f n s idx r ino' s'.
Proof.
  intros Hi Hn Hidx. unfold ensure_inode_block. pose proof (inv_fs _ _ Hi) as Hok.
  change (MINIFS_DIRECT_BLOCKS + MINIFS_INDIRECT_BLOCKS) with 138. change MINIFS_DIRECT_BLOCKS with 10.
  rewrite (proj2 (Z.leb_gt _ _)) by lia. assert (is_slot idx) as Hsi by (unfold is_slot; lia).
  destruct (idx <? 10) eqn:E10; bsimp.
  - assert (slot s (f n) idx = aget 0 (i_direct (f n)) idx) as Hsl.
    { unfold slot. by rewrite (proj2 (Z.ltb_ge _ _)), (proj2 (Z.ltb_lt _ _)) by lia. }
    destruct (aget 0 (i_direct (f n)) idx =? 0) eqn:E; bsimp.
    + destruct (alloc_ok s Hok) as [(b & s1 & Ha & Hd & Hub & Hg & Hsb & Hus)|[Ha Hfull]]; rewrite Ha.
      * eexists _, _, _. split; [done|].
        destruct (link_direct f n s idx b s1) as [He Hb]; try done; try lia.
        rewrite Hus, decide_True by (unfold is_data in Hd; lia). done.
      * exists None, (f n), s. split; [done|]. split; [apply ensured_refl; try done; by apply like_grows, like_refl|].
        by rewrite Hsl.
    + eexists _, (f n), s. split; [done|]. split; [apply ensured_refl; try done; by apply like_grows, like_refl|].
      rewrite <- Hsl in *. split; [done|]. by apply (inv_data _ _ Hi n idx).
  - destruct (i_indirect (f n) =? 0) eqn:E; bsimp.
    + destruct (alloc_ok s Hok) as [(b & s1 & Ha & Hd & Hub & Hg & Hsb & Hus)|[Ha Hfull]]; rewrite Ha.
      * destruct (link_indirect f n s b s1) as [Hi1 Hsl]; try done.
        { rewrite Hus, decide_True by (unfold is_data in Hd; lia). done. }
        destruct (ensure_entry (fupd f n ((f n) <| i_indirect := b |>)) n s1 idx Hi1 Hn) as (r & s2 & He & Hen & Hr).
        { lia. } { rewrite fupd_eq. cbn. unfold is_data in Hd. lia. }
        rewrite fupd_eq in He, Hen, Hr. rewrite He. eexists _, _, _. split; [done|]. split.
        -- apply (ensured_after f n s ((f n) <| i_indirect := b |>) s1); done.
        -- destruct r; [done|]. by rewrite <- Hsl.
      * exists None, (f n), s. split; [done|].
        assert (slot s (f n) idx = 0) as Hz.
        { unfold slot. rewrite (proj2 (Z.ltb_ge idx 0)), (proj2 (Z.ltb_ge idx 10)), (proj2 (Z.eqb_eq _ _) E) by lia. done. }
        split; [apply ensured_refl; try done; by apply like_grows, like_refl|done].
    + destruct (ensure_entry f n s idx Hi Hn) as (r & s2 & He & Hen & Hr); [lia|done|].
      rewrite He. by eexists _, _, _.
Qed.
End files.
