(* ===== verification/FsWrite.v ===== *)
(** * Files: writing and reading back

    [byte_at] is the byte of a file at a position, 0 in a hole.  [wrote] is what the
    loop of [write_at] does to the file system: the bytes of one interval of one
    file are replaced, every other byte of every file stays, blocks stay unshared.
    [pread_loop] returns the bytes of a range without holes. *)

From S2P Require Import Prelude Csr Mem Vm Device CpuType Block FdTable MiniFs FsLayout FsFile.

(** ** Indexing *)

Lemma aget_splice off bs (l : list Z) i :
  0 ≤ off → off + Z.of_nat (length bs) ≤ Z.of_nat (length l) → 0 ≤ i →
  aget 0 (splice off bs l) i =
    if decide (off ≤ i < off + Z.of_nat (length bs)) then aget 0 bs (i - off) else aget 0 l i.
Proof.
  intros Ho Hl Hi. unfold aget. rewrite lookup_splice by done.
  destruct (decide (off ≤ i < _)).
  - rewrite decide_True by lia. do 2 f_equal. lia.
  - by rewrite decide_False by lia.
Qed.

Lemma aget_app (l r : list Z) i :
  0 ≤ i → aget 0 (l ++ r) i = if decide (i < Z.of_nat (length l)) then aget 0 l i else aget 0 r (i - Z.of_nat (length l)).
Proof.
  intros Hi. unfold aget. case_decide.
  - by rewrite lookup_app_l by lia.
  - rewrite lookup_app_r by lia. do 2 f_equal. lia.
Qed.

Lemma aget_take n (l : list Z) i : 0 ≤ i < Z.of_nat n → aget 0 (take n l) i = aget 0 l i.
Proof. intros. unfold aget. by rewrite lookup_take_lt by lia. Qed.

Lemma aget_slice off n (l : list Z) i : 0 ≤ off → 0 ≤ i < n → aget 0 (slice off n l) i = aget 0 l (off + i).
Proof.
  intros. unfold slice. rewrite aget_take by lia. unfold aget. rewrite lookup_drop. do 2 f_equal. lia.
Qed.

Lemma aget_zeros i : aget 0 zeros i = 0.
Proof.
  unfold aget, zeros. destruct (replicate 512 0 !! Z.to_nat i) eqn:E; [|done].
  by apply lookup_replicate in E as [-> _].
Qed.

Section files.
Context {D : Type} `{HD : BlockDriver D}.
Implicit Types (s : fs D) (f : Z → minifs_inode) (ino : minifs_inode).

Definition byte_at s ino (k : Z) : Z :=
  let b := slot s ino (k / 512) in if b =? 0 then 0 else aget 0 (sec s b) (k mod 512).
Definition mapped s ino (k : Z) : Prop := slot s ino (k / 512) ≠ 0.

(** ** A sector of data is replaced *)

Lemma inv_sectors f s s' :
  inv f s → fs_ok s' → bitmap s' = bitmap s →
  (∀ m, is_inode m → i_indirect (f m) ≠ 0 → sec s' (i_indirect (f m)) = sec s (i_indirect (f m))) →
  inv f s' ∧ ∀ m p, is_inode m → slot s' (f m) p = slot s (f m) p.
Proof.
  intros Hi Hok Hbm Hs. assert (∀ m p, is_inode m → slot s' (f m) p = slot s (f m) p) as Hsl.
  { intros m p Hm. apply slot_ext. by apply Hs. }
  split; [|done]. split; [done|apply Hi|..].
  - intros m p Hm Hp. rewrite Hsl by done. unfold used. rewrite Hbm. by apply Hi.
  - intros m1 m2 p q Hm1 Hm2 Hp Hq. rewrite !Hsl by done. by apply (inv_inj _ _ Hi).
Qed.

Lemma write_data f n s idx bs :
  inv f s → is_inode n → 0 ≤ idx < 138 → slot s (f n) idx ≠ 0 → is_sector bs →
  ∃ s', write_block (slot s (f n) idx) bs s = (Some tt, s') ∧ inv f s' ∧ bitmap s' = bitmap s ∧
    (∀ m p, is_inode m → slot s' (f m) p = slot s (f m) p) ∧
    (∀ b, 0 ≤ b < BLOCK_SECTOR_COUNT → sec s' b = if decide (b = slot s (f n) idx) then bs else sec s b).
Proof.
  intros Hi Hn Hidx Hz Hbs. assert (is_slot idx) as Hsi by (unfold is_slot; lia).
  destruct (inv_data _ _ Hi n idx Hn Hsi Hz) as [Hd Hu]. destruct (data_range _ Hd) as (Hr & Hr1 & _).
  destruct (write_block_ok s _ bs (inv_fs _ _ Hi) Hr Hbs Hr1) as (s' & Hw & Hok & Hbm & Hs).
  exists s'. split; [done|].
  destruct (inv_sectors f s s') as [Hi' Hsl]; try done.
  intros m Hm Hk. rewrite Hs by (apply data_range; by eapply inv_indirect).
  rewrite decide_False; [done|]. intros E.
  destruct (inv_inj _ _ Hi m n (-1) idx) as [_ ?]; try done; unfold is_slot; lia.
Qed.

(** ** What a write does *)

Definition same_file s s' ino : Prop := ∀ p, is_slot p →
  slot s' ino p = slot s ino p ∧ (slot s ino p ≠ 0 → sec s' (slot s ino p) = sec s (slot s ino p)).

Lemma same_file_trans s1 s2 s3 ino : same_file s1 s2 ino → same_file s2 s3 ino → same_file s1 s3 ino.
Proof.
  intros H1 H2 p Hp. destruct (H1 p Hp) as [E1 S1]. destruct (H2 p Hp) as [E2 S2]. rewrite E1 in *.
  split; [congruence|]. intros Hz. rewrite S2, S1 by done. done.
Qed.

Lemma same_file_byte s s' ino k : same_file s s' ino → 0 ≤ k < 138 * 512 → byte_at s' ino k = byte_at s ino k.
Proof.
  intros Hf Hk. unfold byte_at. destruct (Hf (k / 512)) as [E S].
  { unfold is_slot. Z.div_mod_to_equations. lia. }
  rewrite E. destruct (_ =? 0) eqn:Ez; bsimp; [done|]. by rewrite S.
Qed.

Record wrote f n s (offset : Z) (data : list Z) ino' s' : Prop := {
  wr_range : 0 ≤ offset ∧ offset + Z.of_nat (length data) ≤ 70656;
  wr_inv : inv (fupd f n ino') s';
  wr_meta : i_mode ino' = i_mode (f n) ∧ i_size ino' = i_size (f n) ∧ i_parent ino' = i_parent (f n);
  wr_mapped : ∀ k, offset ≤ k < offset + Z.of_nat (length data) → mapped s' ino' k;
  wr_byte : ∀ k, 0 ≤ k < 138 * 512 → byte_at s' ino' k =
    if decide (offset ≤ k < offset + Z.of_nat (length data)) then aget 0 data (k - offset) else byte_at s (f n) k;
  wr_keep : ∀ p, 0 ≤ p < 138 → slot s (f n) p ≠ 0 → slot s' ino' p = slot s (f n) p;
  wr_used : ∀ b, is_data b → used s b = true → used s' b = true;
  wr_others : ∀ m, is_inode m → m ≠ n → same_file s s' (f m);
  wr_table : ∀ b, 0 ≤ b < 38 → ¬ (2 ≤ b < 6) → sec s' b = sec s b;
}.

Lemma wrote_trans f n s off d1 ino1 s1 d2 ino2 s2 :
  wrote f n s off d1 ino1 s1 →
  wrote (fupd f n ino1) n s1 (off + Z.of_nat (length d1)) d2 ino2 s2 →
  wrote f n s off (d1 ++ d2) ino2 s2.
Proof.
  intros [R1 I1 (A1 & B1 & C1) M1 Y1 K1 U1 O1 T1] [R2 I2 (A2 & B2 & C2) M2 Y2 K2 U2 O2 T2].
  rewrite fupd_eq in *. split; rewrite ?length_app.
  - lia.
  - eapply inv_ext, I2. intros m. unfold fupd. by case_decide.
  - by rewrite A2, B2, C2.
  - intros k Hk. destruct (decide (k < off + Z.of_nat (length d1))); [|apply M2; lia].
    assert (mapped s1 ino1 k) as Hm by (apply M1; lia). unfold mapped in *.
    rewrite K2; [done| |done]. Z.div_mod_to_equations. lia.
  - intros k Hk. rewrite Y2, Y1 by done.
    destruct (decide (off ≤ k < off + Z.of_nat (length d1))).
    { rewrite decide_False, decide_True by lia. rewrite aget_app, decide_True by lia. done. }
    destruct (decide (off + _ ≤ k < _)); [|by rewrite decide_False by lia].
    rewrite decide_True by lia. rewrite aget_app, decide_False by lia. f_equal. lia.
  - intros p Hp Hz. rewrite K2, K1; rewrite ?K1; done.
  - auto.
  - intros m Hm Hne. eapply same_file_trans; [by apply O1|]. pose proof (O2 m Hm Hne) as Ho. by rewrite fupd_ne in Ho.
  - intros b Hb Hb2. by rewrite T2, T1.
Qed.

Lemma wrote_nil f n s idx offset ino' s' :
  inv f s → is_inode n → 0 ≤ idx < 138 → 0 ≤ offset ≤ 70656 → ensured f n s idx ino' s' → wrote f n s offset [] ino' s'.
Proof.
  intros Hi Hn Hidx Hoff [Hinv Hme Hk Ho Hz Hu Hs Hot].
  assert (∀ p, 0 ≤ p < 138 → slot s (f n) p ≠ 0 → slot s' ino' p = slot s (f n) p) as Hkeep.
  { intros p Hp Hnz. destruct (decide (p = idx)) as [->|]; auto. }
  assert (∀ m p, is_inode m → is_slot p → slot s (f m) p ≠ 0 → slot s (f m) p ≠ i_indirect (f n) ∨ (m = n ∧ p = -1)) as Hne.
  { intros m p Hm Hp Hnz. destruct (decide (slot s (f m) p = i_indirect (f n))) as [E|]; [right|by left].
    apply (inv_inj _ _ Hi m n p (-1)); try done. }
  split; try done.
  - cbn. lia.
  - intros k Hk'. cbn in Hk'. lia.
  - intros k Hk'. rewrite decide_False by (cbn; lia). unfold byte_at.
    assert (0 ≤ k / 512 < 138) as Hp by (Z.div_mod_to_equations; lia).
    assert (is_slot (k / 512)) as Hps by (unfold is_slot; lia).
    destruct (slot s (f n) (k / 512) =? 0) eqn:E; bsimp.
    + destruct (slot s' ino' (k / 512) =? 0) eqn:E'; bsimp; [done|].
      destruct (decide (k / 512 = idx)) as [Ei|]; [|by rewrite Hk in E'].
      rewrite Ei in *. rewrite (Hz E E'). apply aget_zeros.
    + rewrite Hkeep, (proj2 (Z.eqb_neq _ _)) by done. destruct (inv_data _ _ Hi n (k / 512)); try done.
      rewrite Hs; [done..|]. destruct (Hne n (k / 512)) as [?|[_ ?]]; try done; lia.
  - intros m Hm Hmn p Hp.
    assert (∀ q, is_slot q → slot s (f m) q ≠ 0 → sec s' (slot s (f m) q) = sec s (slot s (f m) q)) as Hsec.
    { intros q Hq Hnz. destruct (inv_data _ _ Hi m q); try done. apply Hs; [done..|].
      destruct (Hne m q) as [?|[? _]]; done. }
    split; [|auto]. apply slot_ext. intros Hnz. apply (Hsec (-1)); [unfold is_slot; lia|done].
  - intros b Hb Hb2. apply Hot; [unfold BLOCK_SECTOR_COUNT; lia|done|unfold is_data; lia].
Qed.

(** One round of the loop after [ensure_inode_block]: [data] replaces the bytes at
    [offset], which lie in one block. *)
Lemma wrote_chunk f n s offset data bs :
  inv f s → is_inode n → 0 ≤ offset < 70656 → offset + Z.of_nat (length data) ≤ 70656 →
  offset mod 512 + Z.of_nat (length data) ≤ 512 → bytes data →
  let b := slot s (f n) (offset / 512) in b ≠ 0 → bs = sec s b →
  ∃ s', write_block b (splice (offset mod 512) data bs) s = (Some tt, s') ∧ wrote f n s offset data (f n) s' ∧
    ∀ c, used s' c = used s c.
Proof.
  intros Hi Hn Hoff Hmax Hfit Hdata b Hb ->.
  assert (0 ≤ offset / 512 < 138) as Hidx by (Z.div_mod_to_equations; lia).
  assert (is_slot (offset / 512)) as Hsi by (unfold is_slot; lia).
  destruct (inv_data _ _ Hi n _ Hn Hsi Hb) as [Hd Hu]. fold b in Hd, Hu.
  destruct (data_range _ Hd) as (Hr & Hr1 & Hr2).
  pose proof (sec_ok s b (inv_fs _ _ Hi) Hr) as [Hl Hbs]. pose proof (Z.mod_pos_bound offset 512).
  destruct (write_data f n s (offset / 512) (splice (offset mod 512) data (sec s b))) as (s1 & Hw & Hi1 & Hbm & Hsl & Hs); try done.
  { split; [by rewrite length_splice by lia|by apply Forall_splice]. }
  fold b in Hw, Hs. exists s1. split; [done|].
  assert (∀ c, used s1 c = used s c) as Hus by (intros; unfold used; by rewrite Hbm).
  split; [|done].
  assert (∀ m p, is_inode m → is_slot p → slot s (f m) p ≠ 0 → ¬ (m = n ∧ p = offset / 512) →
    sec s1 (slot s (f m) p) = sec s (slot s (f m) p)) as Hother.
  { intros m p Hm Hp Hz Hne. rewrite Hs by (apply data_range; by eapply inv_data).
    rewrite decide_False; [done|]. intros E. destruct Hne. by apply (inv_inj _ _ Hi m n p (offset / 512)). }
  split; try done.
  - lia.
  - by apply fupd_self.
  - intros k Hk. unfold mapped. rewrite Hsl by done. replace (k / 512) with (offset / 512); [done|].
    Z.div_mod_to_equations. lia.
  - intros k Hk. unfold byte_at. rewrite Hsl by done.
    destruct (decide (k / 512 = offset / 512)) as [Ek|Ek].
    + rewrite Ek. fold b. rewrite (proj2 (Z.eqb_neq _ _) Hb). rewrite Hs, decide_True by done.
      rewrite aget_splice by (lia || apply Z.mod_pos_bound; lia).
      destruct (decide (offset ≤ k < _)); [rewrite decide_True|rewrite decide_False; [done|]]; Z.div_mod_to_equations; try lia.
      f_equal. lia.
    + rewrite decide_False by (intros ?; apply Ek; Z.div_mod_to_equations; lia).
      destruct (_ =? 0) eqn:Ez; bsimp; [done|]. rewrite Hother; try done; [|tauto].
      unfold is_slot. Z.div_mod_to_equations. lia.
  - intros p Hp Hz. by apply Hsl.
  - intros c Hc. by rewrite Hus.
  - intros m Hm Hmn p Hp. split; [by apply Hsl|]. intros Hz. apply Hother; try done. tauto.
  - intros c Hc Hc2. rewrite Hs by (unfold BLOCK_SECTOR_COUNT; lia). rewrite decide_False; [done|].
    unfold is_data in Hd. lia.
Qed.

Lemma wrote_like f n s s' offset :
  inv f s → is_inode n → 0 ≤ offset ≤ 70656 → like s s' → wrote f n s offset [] (f n) s'.
Proof.
  intros Hi Hn Hoff Hl. apply (wrote_nil f n s 0); [done..|lia|done|].
  by apply ensured_refl, like_grows.
Qed.

(** ** The loops *)

Definition disk_full s : Prop := ∀ b, is_data b → used s b = true.

(** A round that gets a block: [ensure_inode_block], the read of the block and the
    write. *)
Lemma write_round f n s offset data :
  inv f s → is_inode n → 0 ≤ offset < 70656 → offset + Z.of_nat (length data) ≤ 70656 →
  offset mod 512 + Z.of_nat (length data) ≤ 512 → bytes data →
  (∃ block ino1 s1 b s2 s3, ensure_inode_block (f n) (offset / 512) s = (Some block, ino1, s1) ∧
     read_block block s1 = (Some b, s2) ∧
     write_block block (splice (offset mod 512) data b) s2 = (Some tt, s3) ∧
     wrote f n s offset data ino1 s3) ∨
  (∃ ino1 s1, ensure_inode_block (f n) (offset / 512) s = (None, ino1, s1) ∧
     wrote f n s offset [] ino1 s1 ∧ disk_full s1).
Proof.
  intros Hi Hn Hoff Hmax Hfit Hdata.
  assert (0 ≤ offset / 512 < 138) as Hidx by (Z.div_mod_to_equations; lia).
  destruct (ensure_ok f n s (offset / 512) Hi Hn Hidx) as (r & ino1 & s1 & He & Hen & Hr).
  pose proof (wrote_nil f n s _ offset ino1 s1 Hi Hn Hidx ltac:(lia) Hen) as Hw.
  destruct r as [block|]; [left|right; exists ino1, s1; split_and!; [done..|exact (proj2 (proj2 Hr))]].
  destruct Hr as [Hsl Hd]. pose proof (wr_inv _ _ _ _ _ _ _ Hw) as Hi1.
  destruct (read_block_ok s1 block (inv_fs _ _ Hi1) ltac:(by apply data_range)) as (s2 & Hrd & Hl).
  pose proof (wrote_like _ n s1 s2 offset Hi1 Hn ltac:(lia) Hl) as Hw2. rewrite fupd_eq in Hw2.
  assert (wrote f n s offset [] ino1 s2) as Hw3.
  { apply (wrote_trans f n s offset [] ino1 s1 [] ino1 s2 Hw). by rewrite Z.add_0_r. }
  pose proof (wr_inv _ _ _ _ _ _ _ Hw3) as Hi2.
  assert (slot s2 ino1 (offset / 512) = block) as Hsl2.
  { pose proof (wr_keep _ _ _ _ _ _ _ Hw2 (offset / 512) Hidx) as Hk. rewrite fupd_eq, Hsl in Hk. apply Hk. unfold is_data in Hd. lia. }
  destruct (wrote_chunk (fupd f n ino1) n s2 offset data (sec s1 block) Hi2 Hn Hoff Hmax Hfit Hdata) as (s3 & Hwb & Hw4 & _).
  { rewrite fupd_eq, Hsl2. unfold is_data in Hd. lia. }
  { rewrite fupd_eq, Hsl2. symmetry. apply (lk_sec _ _ Hl). by apply data_range. }
  rewrite fupd_eq, Hsl2 in Hwb. rewrite fupd_eq in Hw4.
  exists block, ino1, s1, (sec s1 block), s2, s3. split_and!; try done.
  apply (wrote_trans f n s offset [] ino1 s2 data ino1 s3 Hw3). by rewrite Z.add_0_r.
Qed.

Lemma write_loop_ok fuel f n s offset source :
  inv f s → is_inode n → 0 ≤ offset → offset + Z.of_nat (length source) ≤ 65536 → bytes source →
  (length source < fuel)%nat →
  ∃ done ino' s', write_loop fuel (f n) offset source s = (Some done, ino', s') ∧
    0 ≤ done ≤ Z.of_nat (length source) ∧ wrote f n s offset (take (Z.to_nat done) source) ino' s' ∧
    (done < Z.of_nat (length source) → disk_full s').
Proof.
  revert f s offset source. induction fuel as [|fuel IH]; intros f s offset source Hi Hn Hoff Hmax Hb Hf; [lia|].
  cbn [write_loop]. destruct source as [|x source].
  { eexists _, _, _. split; [done|]. split; [cbn; lia|]. split; [|cbn; lia].
    apply wrote_like; try done; [cbn in Hmax; lia|]. by apply like_refl, Hi. }
  set (src := x :: source) in *. assert (0 < Z.of_nat (length src)) by (unfold src; cbn; lia).
  pose proof (Z.mod_pos_bound offset 512).
  set (chunk := Z.min (Z.of_nat (length src)) (512 - offset mod 512)) in *.
  assert (length (take (Z.to_nat chunk) src) = Z.to_nat chunk) as Hl by (rewrite length_take; lia).
  assert (bytes (take (Z.to_nat chunk) src)) as Hb1 by by apply Forall_take.
  destruct (write_round f n s offset (take (Z.to_nat chunk) src)) as
    [(block & ino1 & s1 & b & s2 & s3 & He & Hr & Hw & Hwr)|(ino1 & s1 & He & Hwr & Hfull)];
    try done; try lia; rewrite He; cbn iota beta.
  - unfold and_then. rewrite Hr. cbn [ok]. unfold ok. cbn iota beta. rewrite Hw.
    destruct (IH (fupd f n ino1) s3 (offset + chunk) (drop (Z.to_nat chunk) src)) as (done & ino' & s' & Hlp & Hdone & Hwr' & Hfull);
      try done; rewrite ?length_drop; try lia.
    { by apply Hwr. } { exact Hn. } { by apply Forall_drop. }
    rewrite length_drop in Hdone, Hfull. rewrite fupd_eq in Hlp. rewrite Hlp. cbn [option_map].
    eexists _, _, _. split; [done|]. split; [lia|]. split; [|intros; apply Hfull; lia].
    replace (Z.to_nat (chunk + done)) with (Z.to_nat chunk + Z.to_nat done)%nat by lia.
    rewrite <- take_take_drop. eapply wrote_trans; [done|]. by replace (Z.of_nat (length (take (Z.to_nat chunk) src))) with chunk by lia.
  - eexists _, _, _. split; [done|]. split; [lia|]. split; [|done]. exact Hwr.
Qed.

Lemma inode_block_ok f n s s0 idx :
  inv f s → is_inode n → like s s0 → 0 ≤ idx < 138 →
  ∃ s', inode_block (f n) idx s0 = (Some (slot s (f n) idx), s') ∧ like s s'.
Proof.
  intros Hi Hn Hl Hidx. unfold inode_block, slot. rewrite (proj2 (Z.ltb_ge idx 0)) by lia.
  change (MINIFS_DIRECT_BLOCKS + MINIFS_INDIRECT_BLOCKS) with 138. change MINIFS_DIRECT_BLOCKS with 10.
  destruct (idx <? 10) eqn:E; bsimp; [by exists s0|].
  rewrite (proj2 (Z.leb_gt _ _)) by lia. cbn [orb]. destruct (i_indirect (f n) =? 0) eqn:E0; bsimp; [by exists s0|].
  destruct (inv_indirect _ _ _ Hi Hn E0) as [Hd _].
  destruct (read_block_ok s0 _ (lk_ok _ _ Hl) ltac:(by apply data_range)) as (s1 & Hr & Hl1).
  rewrite (lk_sec _ _ Hl) in Hr by by apply data_range.
  exists s1. unfold or_else, and_then. rewrite Hr. split; [done|]. by eapply like_trans.
Qed.

(** The copy loop of [minifs_pread] over a range without holes. *)
Lemma pread_loop_ok fuel f n s s0 offset length :
  inv f s → is_inode n → like s s0 → 0 ≤ offset → offset + length ≤ 65536 → 0 ≤ length → length < Z.of_nat fuel →
  (∀ k, offset ≤ k < offset + length → mapped s (f n) k) →
  ∃ bs s', pread_loop fuel (f n) offset length s0 = (Some bs, s') ∧ like s s' ∧
    Z.of_nat (List.length bs) = length ∧ ∀ i, 0 ≤ i < length → aget 0 bs i = byte_at s (f n) (offset + i).
Proof.
  revert s0 offset length. induction fuel as [|fuel IH]; intros s0 offset length Hi Hn Hl Hoff Hmax H0 Hf Hm; [lia|].
  cbn [pread_loop]. destruct (length <=? 0) eqn:E; bsimp.
  { exists [], s0. split; [done|]. split; [done|]. split; [cbn; lia|]. intros; lia. }
  pose proof (Z.mod_pos_bound offset 512). set (chunk := Z.min length (512 - offset mod 512)).
  assert (0 ≤ offset / 512 < 138) as Hidx by (Z.div_mod_to_equations; lia).
  assert (mapped s (f n) offset) as Hb by (apply Hm; lia). unfold mapped in Hb.
  destruct (inode_block_ok f n s s0 (offset / 512) Hi Hn Hl Hidx) as (s1 & Hib & Hl1).
  destruct (inv_data _ _ Hi n (offset / 512)) as [Hd _]; [done|unfold is_slot; lia|done|].
  destruct (read_block_ok s1 _ (lk_ok _ _ Hl1) ltac:(by apply data_range)) as (s2 & Hr & Hl2).
  rewrite (lk_sec _ _ Hl1) in Hr by by apply data_range.
  destruct (IH s2 (offset + chunk) (length - chunk)) as (rest & s' & Hlp & Hl' & Hlen & Hbs);
    try done; try lia; [by apply (like_trans s s1)|intros; apply Hm; lia|].
  exists (slice (offset mod 512) chunk (sec s (slot s (f n) (offset / 512))) ++ rest), s'.
  assert (is_sector (sec s (slot s (f n) (offset / 512)))) as [Hsl _] by (apply sec_ok; [apply Hi|by apply data_range]).
  assert (List.length (slice (offset mod 512) chunk (sec s (slot s (f n) (offset / 512)))) = Z.to_nat chunk) as Hsc.
  { apply length_slice; lia. }
  split.
  { unfold and_then. rewrite Hib. unfold guard_m. rewrite (proj2 (Z.eqb_neq _ _) Hb). cbn [negb]. unfold ok at 1.
    rewrite Hr. fold chunk. by rewrite Hlp. }
  split; [done|]. split; [rewrite length_app; lia|].
  intros i Hi'. rewrite aget_app by lia. rewrite Hsc. case_decide.
  - rewrite aget_slice by lia. unfold byte_at. replace ((offset + i) / 512) with (offset / 512) by (Z.div_mod_to_equations; lia).
    rewrite (proj2 (Z.eqb_neq _ _) Hb). f_equal. Z.div_mod_to_equations. lia.
  - rewrite Hbs by lia. f_equal. lia.
Qed.

(** ** Storing the inode an operation holds *)

Lemma slot_fields s a b p : i_direct a = i_direct b → i_indirect a = i_indirect b → slot s a p = slot s b p.
Proof. intros E1 E2. unfold slot. by rewrite E1, E2. Qed.

Lemma byte_fields s a b k : i_direct a = i_direct b → i_indirect a = i_indirect b → byte_at s a k = byte_at s b k.
Proof. intros E1 E2. unfold byte_at. by rewrite (slot_fields s a b) by done. Qed.

Lemma inv_fields f g s :
  inv f s → (∀ m, is_inode m → inode_wf (g m) ∧ i_direct (g m) = i_direct (f m) ∧ i_indirect (g m) = i_indirect (f m)) →
  inv g s.
Proof.
  intros [Hok Hw Hd Hj] Hg.
  assert (∀ m p, is_inode m → slot s (g m) p = slot s (f m) p) as Hsl by (intros; apply slot_fields; by apply Hg).
  split; [done|intros; by apply Hg|..].
  - intros m p Hm Hp. rewrite Hsl by done. by apply Hd.
  - intros m1 m2 p q Hm1 Hm2 Hp Hq. rewrite !Hsl by done. by apply Hj.
Qed.

Lemma commit_inode f n s ino' ino2 :
  inv (fupd f n ino') s → is_inode n → inode_wf ino2 → i_direct ino2 = i_direct ino' → i_indirect ino2 = i_indirect ino' →
  (∀ m, is_inode m → m ≠ n → inode_at s m = f m) →
  ∃ s', write_inode n ino2 s = (Some tt, s') ∧ fs_inv s' ∧ bitmap s' = bitmap s ∧
    (∀ m, is_inode m → inode_at s' m = fupd f n ino2 m) ∧
    (∀ m, is_inode m → m ≠ n → same_file s s' (f m)) ∧
    (∀ k, 0 ≤ k < 138 * 512 → byte_at s' ino2 k = byte_at s ino' k ∧ (mapped s' ino2 k ↔ mapped s ino' k)).
Proof.
  intros Hi Hn Hwf Hd Hk Hot.
  destruct (write_inode_ok s n ino2 (inv_fs _ _ Hi) Hn Hwf) as (s' & Hw & Hok & Hbm & Hia & Hs).
  exists s'. split; [done|].
  assert (∀ m, is_inode m → inode_at s' m = fupd f n ino2 m) as Hin.
  { intros m Hm. rewrite Hia by done. unfold fupd. case_decide; [done|by apply Hot]. }
  assert (inv (fupd f n ino2) s) as Hi2.
  { apply (inv_fields (fupd f n ino')); [done|]. intros m Hm. unfold fupd. case_decide; [done|].
    split; [|done]. rewrite <- Hot by done. apply inode_at_wf; [apply Hi|done]. }
  assert (∀ b, is_data b → sec s' b = sec s b) as Hsd.
  { intros b Hb. apply Hs; by apply data_range. }
  destruct (inv_sectors (fupd f n ino2) s s' Hi2 Hok Hbm) as [Hi3 Hsl].
  { intros m Hm Hz. apply Hsd. by apply (inv_indirect _ _ _ Hi2 Hm). }
  split_and!; try done.
  - apply (inv_fields (fupd f n ino2)); [done|]. intros m Hm. rewrite Hin by done. split; [|done]. by apply Hi3.
  - intros m Hm Hne p Hp. pose proof (Hsl m p Hm) as E. rewrite fupd_ne in E by done. split; [done|].
    intros Hz. apply Hsd. pose proof (inv_data _ _ Hi2 m p Hm Hp) as H2. rewrite fupd_ne in H2 by done. by apply H2.
  - intros k Hk'. assert (is_slot (k / 512)) as Hp by (unfold is_slot; Z.div_mod_to_equations; lia).
    assert (slot s' ino2 (k / 512) = slot s ino' (k / 512)) as E.
    { pose proof (Hsl n (k / 512) Hn) as E. rewrite fupd_eq in E. rewrite E. by apply slot_fields. }
    unfold mapped, byte_at. rewrite E. split; [|done]. destruct (_ =? 0) eqn:Ez; bsimp; [done|].
    rewrite Hsd; [done|]. pose proof (inv_data _ _ Hi n (k / 512) Hn Hp) as H2. rewrite fupd_eq in H2. by apply H2.
Qed.

(** The contents of the files between operations. *)
Definition file_byte s (m k : Z) : Z := byte_at s (inode_at s m) k.
Definition file_size s (m : Z) : Z := i_size (inode_at s m).
Definition meta ino : Z * Z := (i_mode ino, i_parent ino).

Lemma fs_inv_like s s' : fs_inv s → like s s' → fs_inv s' ∧ inv (inode_at s) s'.
Proof.
  intros Hi Hl. pose proof (grows_inv _ _ _ Hi (like_grows _ _ Hl)) as Hi'. split; [|done].
  apply (inv_fields (inode_at s)); [done|]. intros m Hm. rewrite (like_inode _ _ m Hl Hm). split; [by apply Hi|done].
Qed.

Lemma write_at_ok s n offset source :
  fs_inv s → is_inode n → is_file (inode_at s n) = true → bytes source → 0 ≤ offset < 65536 →
  ∃ done s', write_at n offset source s = (Some done, s') ∧
    0 ≤ done ≤ Z.min (Z.of_nat (length source)) (65536 - offset) ∧ fs_inv s' ∧
    (done < Z.min (Z.of_nat (length source)) (65536 - offset) → disk_full s') ∧
    (∀ m, is_inode m → meta (inode_at s' m) = meta (inode_at s m) ∧
       file_size s' m = if decide (m = n) then Z.max (file_size s n) (offset + done) else file_size s m) ∧
    (∀ m k, is_inode m → 0 ≤ k < 138 * 512 → file_byte s' m k =
       if decide (m = n ∧ offset ≤ k < offset + done) then aget 0 source (k - offset) else file_byte s m k) ∧
    (∀ k, offset ≤ k < offset + done → mapped s' (inode_at s' n) k).
Proof.
  intros Hi Hn Hfile Hb Hoff. unfold write_at. change MINIFS_MAX_FILE_SIZE with 65536.
  rewrite (proj2 (Z.leb_gt _ _)) by lia. set (src := take (Z.to_nat (65536 - offset)) source).
  assert (Z.of_nat (length src) = Z.min (Z.of_nat (length source)) (65536 - offset)) as Hlen
    by (unfold src; rewrite length_take; lia).
  destruct (read_inode_ok s n (inv_fs _ _ Hi) Hn) as (s1 & Hr & Hl). unfold and_then at 1. rewrite Hr.
  unfold and_then at 1, guard_m. rewrite Hfile. unfold ok at 1. cbn iota beta.
  destruct (fs_inv_like s s1 Hi Hl) as [_ Hi1].
  destruct (write_loop_ok (S (length src)) (inode_at s) n s1 offset src) as (done & ino' & s2 & Hlp & Hdone & Hwr & Hfull);
    try assumption; try lia; [by apply Forall_take|].
  rewrite Hlp. rewrite Hlen in Hdone, Hfull.
  destruct Hwr as [Hrng Hi2 (Hme1 & Hme2 & Hme3) Hmap Hbyte Hkeep Hus Hoth Htab].
  assert (length (take (Z.to_nat done) src) = Z.to_nat done) as Hld by (rewrite length_take; lia). rewrite Hld in *.
  assert (inode_wf ino') as Hwf by (pose proof (inv_wf _ _ Hi2 n Hn) as W; by rewrite fupd_eq in W).
  set (ino2 := if i_size ino' <? offset + done then _ else _).
  assert (inode_wf ino2) as Hwf2.
  { unfold ino2. destruct (_ <? _); [|done]. apply inode_wf_size; [done|lia]. }
  assert (i_direct ino2 = i_direct ino' ∧ i_indirect ino2 = i_indirect ino' ∧ meta ino2 = meta ino' ∧
    i_size ino2 = Z.max (i_size ino') (offset + done)) as (Hid & Hik & Him & His).
  { unfold ino2. destruct (i_size ino' <? offset + done) eqn:E; bsimp; split_and!; try done; cbn; lia. }
  destruct (commit_inode (inode_at s) n s2 ino' ino2) as (s3 & Hw & Hi3 & Hbm3 & Hin3 & Hoth3 & Hby3); try done.
  { intros m Hm Hne. rewrite (inode_at_ext s1 s2 m Hm) by (intros; apply Htab; lia). by apply like_inode. }
  exists done, s3. split; [unfold and_then; by rewrite Hw|].
  split; [lia|]. split; [done|]. split; [intros H1 b Hd; unfold used; rewrite Hbm3; by apply Hfull|].
  split_and!.
  - intros m Hm. unfold file_size. rewrite Hin3 by done. unfold fupd. case_decide; [|done]. subst m.
    rewrite Him, His. unfold meta. by rewrite Hme1, Hme2, Hme3.
  - intros m k Hm Hk. unfold file_byte. rewrite Hin3 by done. unfold fupd. destruct (decide (m = n)) as [->|Hne].
    + rewrite (proj1 (Hby3 k Hk)), Hbyte by done.
      rewrite <- (same_file_byte s s1 (inode_at s n) k); [|intros p Hp; split; [by apply (grows_slot _ _ _ _ _ Hi (like_grows _ _ Hl))|]|done].
      * destruct (decide (offset ≤ k < offset + done)).
        -- rewrite !decide_True by (split_and?; done || lia). rewrite aget_take by lia. unfold src. by rewrite aget_take by lia.
        -- by rewrite !decide_False by (lia || tauto).
      * intros Hz. apply (lk_sec _ _ Hl). apply data_range. by apply (inv_data _ _ Hi).
    + rewrite decide_False by tauto.
      rewrite (same_file_byte s2 s3) by (try apply Hoth3; done). rewrite (same_file_byte s1 s2) by (try apply Hoth; done).
      apply same_file_byte; [|done]. intros p Hp. split; [by apply (grows_slot _ _ _ _ _ Hi (like_grows _ _ Hl))|].
      intros Hz. apply (lk_sec _ _ Hl). apply data_range. by apply (inv_data _ _ Hi).
  - intros k Hk. rewrite Hin3, fupd_eq by done. apply Hby3; [lia|]. apply Hmap. lia.
Qed.

Lemma minifs_pread_ok s n offset length :
  fs_inv s → is_inode n → is_file (inode_at s n) = true → 0 ≤ offset → 0 ≤ length →
  offset + length ≤ 65536 → offset + length ≤ file_size s n →
  (∀ k, offset ≤ k < offset + length → mapped s (inode_at s n) k) →
  ∃ bs s', minifs_pread n offset length s = (Some bs, s') ∧ like s s' ∧
    Z.of_nat (List.length bs) = length ∧ ∀ i, 0 ≤ i < length → aget 0 bs i = file_byte s n (offset + i).
Proof.
  intros Hi Hn Hfile Hoff H0 Hmax Hsize Hmap. unfold minifs_pread.
  destruct (read_inode_ok s n (inv_fs _ _ Hi) Hn) as (s1 & Hr & Hl). unfold and_then at 1. rewrite Hr.
  unfold and_then at 1, guard_m. rewrite Hfile. unfold ok at 1. cbn iota beta. fold (file_size s n).
  destruct (file_size s n <=? offset) eqn:E; bsimp.
  { exists [], s1. split; [done|]. split; [done|]. split; [cbn; lia|]. intros; lia. }
  rewrite Z.min_l by lia. apply (pread_loop_ok (S (Z.to_nat length)) (inode_at s)); assumption || lia.
Qed.

(** C22: what [write_at] stores is what [minifs_pread] returns.  On a consistent file
    system, writing bytes at an offset below the maximal size into a file stores a
    prefix of them, all of them up to the maximal size unless the disk is full;
    reading that range back returns exactly the prefix.  No other byte of this or of
    any other file changes, modes, parents and the other sizes stay, the size becomes
    the end of what was written if that is larger, and the result is consistent. *)
Theorem write_then_read s n offset source :
  fs_inv s → is_inode n → is_file (inode_at s n) = true → bytes source → 0 ≤ offset < 65536 →
  ∃ done s1, write_at n offset source s = (Some done, s1) ∧ fs_inv s1 ∧
    0 ≤ done ≤ Z.min (Z.of_nat (length source)) (65536 - offset) ∧
    (done < Z.min (Z.of_nat (length source)) (65536 - offset) → disk_full s1) ∧
    (∃ s2, minifs_pread n offset done s1 = (Some (take (Z.to_nat done) source), s2) ∧ like s1 s2) ∧
    (∀ m k, is_inode m → 0 ≤ k < 65536 → ¬ (m = n ∧ offset ≤ k < offset + done) →
       file_byte s1 m k = file_byte s m k) ∧
    (∀ m, is_inode m → meta (inode_at s1 m) = meta (inode_at s m) ∧
       file_size s1 m = if decide (m = n) then Z.max (file_size s n) (offset + done) else file_size s m).
Proof.
  intros Hi Hn Hfile Hb Hoff.
  destruct (write_at_ok s n offset source Hi Hn Hfile Hb Hoff) as (done & s1 & Hw & Hd & Hi1 & Hfull & Hme & Hby & Hmap).
  exists done, s1. split; [done|]. split; [done|]. split; [done|]. split; [done|].
  destruct (Hme n Hn) as [Hmn Hsn]. rewrite decide_True in Hsn by done. split.
  - destruct (minifs_pread_ok s1 n offset done) as (bs & s2 & Hp & Hl & Hlen & Hbs); try assumption; try lia.
    { assert (i_mode (inode_at s1 n) = i_mode (inode_at s n)) as Em by exact (f_equal fst Hmn). unfold is_file in *. by rewrite Em. }
    exists s2. split; [|done]. rewrite Hp. do 2 f_equal.
    assert (length (take (Z.to_nat done) source) = Z.to_nat done) as Ht by (rewrite length_take; lia).
    apply (list_eq_aget 0); [lia|]. intros i Hi'. rewrite Hbs, aget_take by lia.
    rewrite Hby by (assumption || lia). rewrite decide_True by lia. f_equal. lia.
  - split; [|done]. intros m k Hm Hk Hne. rewrite Hby by (assumption || lia). by rewrite decide_False.
Qed.
End files.

(** ** Witness *)

(** A zeroed disk is consistent (no directory, no file). *)
Definition blank : fs block_device := MkFs (BlockDevice.init ∅) (replicate 2048 0).
Definition demo_file : minifs_inode := zero_inode <| i_mode := MINIFS_MODE_FILE |> <| i_links := 1 |>.
(** ... with inode 1 made an empty file. *)
Definition demo_fs : fs block_device := (write_inode 1 demo_file blank).2.

Lemma blank_sec k : sec blank k = replicate 512 0.
Proof.
  unfold sec, blank. cbn [dev sector_at device_ops]. unfold load_bytes. apply list_eq. intros i.
  rewrite list_lookup_fmap. destruct (decide (i < 512)%nat).
  - rewrite lookup_seq_lt by done. rewrite lookup_replicate_2 by done. done.
  - rewrite !lookup_ge_None_2; rewrite ?length_replicate, ?length_seq; done || lia.
Qed.

Lemma slice_replicate {A} off n k (x : A) : 0 ≤ off → 0 ≤ n → off + n ≤ Z.of_nat k → slice off n (replicate k x) = replicate (Z.to_nat n) x.
Proof.
  intros. unfold slice. rewrite drop_replicate, take_replicate. f_equal. lia.
Qed.

Lemma blank_inode n : is_inode n → inode_at blank n = zero_inode.
Proof.
  intros Hn. destruct (inode_place n Hn) as (_ & _ & _ & Ho). unfold inode_at. rewrite blank_sec.
  rewrite slice_replicate by lia. by vm_compute.
Qed.

Ltac small_inode := split; [done|]; apply (bool_decide_unpack _); by vm_compute.
Lemma zero_inode_wf : inode_wf zero_inode.
Proof. small_inode. Qed.
Lemma demo_file_wf : inode_wf demo_file.
Proof. small_inode. Qed.

Lemma blank_ok : fs_inv blank.
Proof.
  assert (∀ n p, is_inode n → slot blank (inode_at blank n) p = 0) as Hsl.
  { intros n p Hn. rewrite blank_inode by done. unfold slot, zero_inode. cbn [i_indirect i_direct].
    repeat case_match; try done. bsimp. unfold aget. destruct (replicate 10 0 !! Z.to_nat p) eqn:E; [|done].
    by apply lookup_replicate in E as [-> _]. }
  split.
  - split; [split; [apply ram_ok_empty|split; [split; [done|]|split; by vm_compute]]|done| |].
    + apply Forall_replicate. lia.
    + apply Forall_replicate. lia.
    + intros k Hk. rewrite blank_sec. cbn [bitmap blank]. rewrite slice_replicate by lia. done.
  - intros n Hn. rewrite blank_inode by done. apply zero_inode_wf.
  - intros n p Hn _ Hz. by rewrite Hsl in Hz.
  - intros n m p q Hn _ _ _ Hz. by rewrite Hsl in Hz.
Qed.

Lemma demo_fs_ok : fs_inv demo_fs ∧ inode_at demo_fs 1 = demo_file.
Proof.
  assert (is_inode 1) as H1 by (unfold is_inode; lia).
  assert (inv (fupd (inode_at blank) 1 zero_inode) blank) as Hb.
  { apply (inv_fields (inode_at blank)); [exact blank_ok|]. intros m Hm. rewrite blank_inode by exact Hm.
    unfold fupd. case_decide; [|rewrite blank_inode by exact Hm]; (split; [apply zero_inode_wf|split; reflexivity]). }
  destruct (commit_inode (inode_at blank) 1 blank zero_inode demo_file Hb H1 demo_file_wf eq_refl eq_refl (λ m _ _, eq_refl))
    as (s' & Hw & Hi & _ & Hin & _).
  unfold demo_fs. rewrite Hw. cbn [snd]. split; [exact Hi|]. rewrite (Hin 1 H1). apply fupd_eq.
Qed.

(** Four bytes across a block boundary. *)
Lemma write_then_read_witness :
  ∃ s1 s2, write_at 1 510 [1; 2; 3; 4] demo_fs = (Some 4, s1) ∧ minifs_pread 1 510 4 s1 = (Some [1; 2; 3; 4], s2).
Proof.
  destruct demo_fs_ok as [Hi Hf].
  destruct (write_then_read demo_fs 1 510 [1; 2; 3; 4] Hi) as (d & s1 & Hw & _ & _ & _ & (s2 & Hr & _) & _).
  - unfold is_inode; lia.
  - rewrite Hf. reflexivity.
  - repeat (constructor; [lia|]). constructor.
  - lia.
  - assert ((write_at 1 510 [1; 2; 3; 4] demo_fs).1 = Some 4) as Hd by (vm_compute; reflexivity).
    rewrite Hw in Hd. cbn [fst] in Hd. injection Hd as ->. exists s1, s2. split; [exact Hw|exact Hr].
Defined.
