(* ===== verification/FsOps.v ===== *)
(** * File-system operations: what reads and what writes

    [reads] is the specification of an operation that only looks: from any state like
    [s] it leads to a state like [s], and its result satisfies a predicate about [s].
    [keeps] is the specification of an operation that may write: it leads from a
    consistent file system to a consistent one. *)

From S2P Require Import Prelude Csr Mem Vm Device CpuType Block FdTable MiniFs FsLayout FsFile FsWrite.

Section reads.
Context {D : Type} `{HD : BlockDriver D}.
Context (s : fs D).

Definition reads {A} (m : fs_m D A) (Q : A → Prop) : Prop := ∀ s0, like s s0 →
  ∃ r s', m s0 = (r, s') ∧ like s s' ∧ ∀ a, r = Some a → Q a.

Lemma reads_ok {A} (a : A) (Q : A → Prop) : Q a → reads (ok a) Q.
Proof. intros Ha s0 Hl. exists (Some a), s0. split; [done|]. split; [done|]. by intros ? [= <-]. Qed.

Lemma reads_fail {A} (Q : A → Prop) : reads fail Q.
Proof. intros s0 Hl. by exists None, s0. Qed.

Lemma reads_bind {A B} (m : fs_m D A) (k : A → fs_m D B) (Q : A → Prop) (R : B → Prop) :
  reads m Q → (∀ a, Q a → reads (k a) R) → reads (and_then m k) R.
Proof.
  intros Hm Hk s0 Hl. destruct (Hm s0 Hl) as (r & s1 & E & Hl1 & Hr). unfold and_then. rewrite E.
  destruct r as [a|]; [|by exists None, s1]. by apply (Hk a (Hr a eq_refl)).
Qed.

Lemma reads_conseq {A} (m : fs_m D A) (Q R : A → Prop) : reads m Q → (∀ a, Q a → R a) → reads m R.
Proof. intros Hm HQ s0 Hl. destruct (Hm s0 Hl) as (r & s1 & E & Hl1 & Hr). exists r, s1. eauto. Qed.

Lemma reads_guard b : reads (guard_m b) (λ _, b = true).
Proof. unfold guard_m. destruct b; [by apply reads_ok|apply reads_fail]. Qed.

Lemma reads_or_else {A} (m h : fs_m D A) (Q : A → Prop) : reads m Q → reads h Q → reads (or_else m h) Q.
Proof.
  intros Hm Hh s0 Hl. destruct (Hm s0 Hl) as (r & s1 & E & Hl1 & Hr). unfold or_else. rewrite E.
  destruct r as [a|]; [exists (Some a), s1; eauto|]. by apply Hh.
Qed.

Lemma reads_if {A} (b : bool) (m h : fs_m D A) (Q : A → Prop) :
  (b = true → reads m Q) → (b = false → reads h Q) → reads (if b then m else h) Q.
Proof. destruct b; auto. Qed.

(** ** Sectors and inodes *)

Lemma reads_block n :
  0 ≤ n → reads (read_block n) (λ b, 0 ≤ n < BLOCK_SECTOR_COUNT ∧ b = sec s n).
Proof.
  intros Hn s0 Hl. destruct (decide (n < BLOCK_SECTOR_COUNT)).
  - destruct (read_block_ok s0 n (lk_ok _ _ Hl)) as (s1 & E & Hl1); [lia|].
    exists (Some (sec s0 n)), s1. split; [done|]. split; [by eapply like_trans|].
    intros a [= <-]. split; [lia|]. apply (lk_sec _ _ Hl). lia.
  - exists None, s0. unfold read_block. rewrite bread_range by lia. split; [by destruct s0|]. by split.
Qed.

Lemma reads_inode n : 0 ≤ n → reads (read_inode n) (λ i, is_inode n ∧ i = inode_at s n).
Proof.
  intros Hn s0 Hl. destruct (decide (n < 256)).
  - assert (is_inode n) as Hi by (unfold is_inode; lia).
    destruct (read_inode_ok s0 n (lk_ok _ _ Hl) Hi) as (s1 & E & Hl1).
    exists (Some (inode_at s0 n)), s1. split; [done|]. split; [by eapply like_trans|].
    intros a [= <-]. split; [done|]. by apply like_inode.
  - exists None, s0. rewrite read_inode_range by lia. by split.
Qed.

Lemma inode_block_words ino idx : inode_wf ino → is_u32 (aget 0 (i_direct ino) idx) ∧ is_u32 (i_indirect ino).
Proof.
  intros Hw. apply inode_wf_fields in Hw as (Hl & Hd & _ & _ & _ & _ & Hi & _). split; [|done].
  unfold aget. destruct (i_direct ino !! Z.to_nat idx) eqn:E; cbn; [|lia]. by eapply (Forall_lookup_1 _ _ _ _ Hd).
Qed.

Hypothesis Hs : fs_ok s.

Lemma reads_inode_block ino idx :
  inode_wf ino → 0 ≤ idx →
  reads (inode_block ino idx) (λ b, is_u32 b ∧ (b ≠ 0 → 0 ≤ idx < 138 ∧ b = slot s ino idx)).
Proof using HD Hs.
  intros Hw Hidx. destruct (inode_block_words ino idx Hw) as [Hd Hk]. unfold inode_block.
  change (MINIFS_DIRECT_BLOCKS + MINIFS_INDIRECT_BLOCKS) with 138. change MINIFS_DIRECT_BLOCKS with 10.
  unfold slot. rewrite (proj2 (Z.ltb_ge idx 0)) by lia.
  destruct (idx <? 10) eqn:E; bsimp; [apply reads_ok; split; [done|]; intros _; split; [lia|done]|].
  destruct ((138 <=? idx) || (i_indirect ino =? 0)) eqn:E2; [apply reads_ok; split; [lia|done]|].
  bsimp. rewrite (proj2 (Z.eqb_neq _ _)) by done. apply reads_or_else; [|by apply reads_ok].
  eapply reads_bind; [apply reads_block; lia|]. intros b [Hr ->]. apply reads_ok.
  split; [apply word_at_range; by apply sec_ok|]. intros _. split; [lia|done].
Qed.

(** ** Directories *)

Definition entry_at ino (i block : Z) (b : list Z) (e : minifs_dirent) : Prop :=
  block ≠ 0 ∧ 0 ≤ i / 8 < 138 ∧ block = slot s ino (i / 8) ∧ 0 ≤ block < BLOCK_SECTOR_COUNT ∧ b = sec s block ∧
  e = decode_dirent (slice (i mod 8 * 64) 64 b).

Lemma reads_entry ino i :
  inode_wf ino → 0 ≤ i → reads (read_entry ino i) (λ '(block, b, e), entry_at ino i block b e).
Proof using HD Hs.
  intros Hw Hi. unfold read_entry. assert (0 ≤ i / 8) as Hi8 by (apply Z.div_pos; lia).
  eapply reads_bind; [by apply reads_inode_block|]. intros block [Hb Hsl].
  eapply reads_bind; [apply reads_guard|]. intros u Hz. cbn beta in Hz. bsimp. destruct (Hsl Hz) as [Hr Eb].
  eapply reads_bind; [apply reads_block; lia|]. intros b [Hn ->]. apply reads_ok. split_and!; try done; lia.
Qed.

Lemma reads_scan n i ino p :
  inode_wf ino → 0 ≤ i →
  reads (dir_scan n i ino p) (λ o, match o with
    | None => True
    | Some (j, block, b, e) => i ≤ j < i + Z.of_nat n ∧ entry_at ino j block b e ∧ p e = true
    end).
Proof using HD Hs.
  intros Hw. revert i. induction n as [|n IH]; intros i Hi; [by apply reads_ok|]. cbn [dir_scan].
  eapply reads_bind; [by apply reads_entry|]. intros [[block b] e] He.
  destruct (p e) eqn:E; [apply reads_ok; split; [lia|done]|].
  eapply reads_conseq; [apply IH; lia|]. intros [[[[j block'] b'] e']|]; [|done]. intros (? & ? & ?). split; [lia|done].
Qed.

Lemma reads_lookup d name : 0 ≤ d → reads (dir_lookup d name) (λ n, 0 ≤ n).
Proof using HD Hs.
  intros Hd. unfold dir_lookup. eapply reads_bind; [by apply reads_inode|]. intros ino [Hn ->].
  pose proof (inode_at_wf s d Hs Hn) as Hw.
  eapply reads_bind; [apply reads_guard|]. intros _ _.
  eapply reads_bind; [by apply reads_scan|]. intros [[[[j block] b] e]|] _; [|apply reads_fail].
  destruct (i32 (d_inode e) <? 0) eqn:E; [apply reads_fail|]. bsimp. by apply reads_ok.
Qed.

(** ** Paths *)

Lemma walk_reads fuel current cursor : 0 ≤ current → reads (walk fuel current cursor) (λ n, 0 ≤ n < 2147483648).
Proof using HD Hs.
  revert current cursor. induction fuel as [|fuel IH]; intros current cursor Hc; [apply reads_fail|].
  cbn [walk]. destruct (next_component cursor) as [| |name rest]; [apply reads_fail| |].
  - pose proof (i32_range current). destruct (i32 current <? 0) eqn:E; [apply reads_fail|]. bsimp. apply reads_ok. lia.
  - destruct (str_equal name DOT); [by apply IH|]. destruct (str_equal name DOTDOT).
    + eapply reads_bind; [by apply reads_inode|]. intros ino [Hn ->]. apply IH.
      pose proof (inode_at_wf s current Hs Hn) as Hw. apply inode_wf_fields in Hw. lia.
    + eapply reads_bind; [by apply reads_lookup|]. intros child Hch. by apply IH.
Qed.

Lemma reads_resolve cwd path : 0 ≤ cwd → reads (resolve cwd path) (λ n, 0 ≤ n < 2147483648).
Proof using HD Hs.
  intros Hc. unfold resolve. apply reads_if; [intros _; apply reads_fail|]. intros _. apply walk_reads.
  unfold MINIFS_ROOT_INODE. destruct (_ =? SLASH); lia.
Qed.

Definition is_name (name : list Z) : Prop := 0 < str_len name ≤ 55 ∧ bytes name.

Lemma trim_bytes path : bytes path → bytes (trim_slashes path).
Proof.
  intros Hb. unfold trim_slashes. assert (∀ p, bytes p → bytes (skip_slashes p)) as Hk.
  { intros p. induction p as [|c p IH]; [done|]. cbn. destruct (c =? SLASH); [|done]. intros H1. inversion H1; subst. auto. }
  pose proof (Hk (rev path)) as H1. destruct (skip_slashes (rev path)) as [|c p]; [by apply Forall_take|].
  apply Forall_rev. apply H1. by apply Forall_rev.
Qed.

Lemma reads_parent cwd path :
  0 ≤ cwd → bytes path → reads (resolve_parent cwd path) (λ '(parent, name), 0 ≤ parent < 2147483648 ∧ is_name name).
Proof using HD Hs.
  intros Hc Hb. unfold resolve_parent. apply reads_if; [intros _; apply reads_fail|]. intros _.
  set (name := drop _ _). apply reads_if; [intros _; apply reads_fail|]. intros Hn. bsimp.
  assert (is_name name) as Hname.
  { split; [unfold MINIFS_NAME_MAX in *; lia|]. apply Forall_drop. by apply trim_bytes. }
  apply reads_if; intros Hsl.
  - pose proof (i32_range cwd). apply reads_if; intros Hi; [apply reads_fail|]. bsimp. apply reads_ok. split; [lia|done].
  - apply reads_if; intros Hz; [apply reads_ok; by unfold MINIFS_ROOT_INODE|].
    eapply reads_bind; [by apply reads_resolve|]. intros parent Hp. by apply reads_ok.
Qed.

(** ** The operations that only read *)

Lemma pread_loop_reads fuel ino offset length :
  inode_wf ino → 0 ≤ offset → reads (pread_loop fuel ino offset length) (λ bs, bytes bs).
Proof using HD Hs.
  intros Hw. revert offset length. induction fuel as [|fuel IH]; intros offset length Hoff; [apply reads_fail|].
  cbn [pread_loop]. destruct (length <=? 0) eqn:El; bsimp; [by apply reads_ok|].
  pose proof (Z.mod_pos_bound offset 512). assert (0 ≤ offset / 512) by (apply Z.div_pos; lia).
  eapply reads_bind; [by apply reads_inode_block|]. intros block [Hb _].
  eapply reads_bind; [apply reads_guard|]. intros _ _.
  eapply reads_bind; [apply reads_block; lia|]. intros b [Hn ->].
  eapply reads_bind; [apply IH; lia|]. intros rest Hr. apply reads_ok.
  apply Forall_app_2; [|done]. apply Forall_slice. by apply sec_ok.
Qed.

Lemma reads_pread n offset length : 0 ≤ n → 0 ≤ offset → reads (minifs_pread n offset length) (λ bs, bytes bs).
Proof using HD Hs.
  intros Hn Ho. unfold minifs_pread. eapply reads_bind; [by apply reads_inode|]. intros ino [Hi ->].
  eapply reads_bind; [apply reads_guard|]. intros _ _. apply reads_if; intros _; [by apply reads_ok|].
  apply pread_loop_reads; [by apply inode_at_wf|done].
Qed.

Lemma reads_chdir cwd path : 0 ≤ cwd → reads (minifs_chdir cwd path) is_inode.
Proof using HD Hs.
  intros Hc. unfold minifs_chdir. eapply reads_bind; [by apply reads_resolve|]. intros n [Hn _].
  eapply reads_bind; [by apply reads_inode|]. intros ino [Hi ->].
  eapply reads_bind; [apply reads_guard|]. intros _ _. by apply reads_ok.
Qed.

Lemma reads_resolve_file cwd path : 0 ≤ cwd → reads (minifs_resolve_file cwd path) is_inode.
Proof using HD Hs.
  intros Hc. unfold minifs_resolve_file. eapply reads_bind; [by apply reads_resolve|]. intros n [Hn _].
  eapply reads_bind; [by apply reads_inode|]. intros ino [Hi ->].
  eapply reads_bind; [apply reads_guard|]. intros _ _. by apply reads_ok.
Qed.

Lemma reads_size n : 0 ≤ n → reads (minifs_inode_size n) (λ z, is_u32 z).
Proof using HD Hs.
  intros Hn. eapply reads_bind; [by apply reads_inode|]. intros ino [Hi ->]. apply reads_ok.
  pose proof (inode_at_wf s n Hs Hi) as Hw. apply inode_wf_fields in Hw. tauto.
Qed.

Lemma reads_mode n : 0 ≤ n → reads (minifs_inode_mode n) (λ z, is_u32 z).
Proof using HD Hs.
  intros Hn. eapply reads_bind; [by apply reads_inode|]. intros ino [Hi ->]. apply reads_ok.
  pose proof (inode_at_wf s n Hs Hi) as Hw. apply inode_wf_fields in Hw. tauto.
Qed.

Definition named_in_bytes (l : list minifs_dirent) : Prop := Forall (λ e, bytes (d_name e)) l.

Lemma entry_at_bytes ino i block b e : entry_at ino i block b e → bytes (d_name e).
Proof using HD Hs.
  intros (_ & _ & _ & Hr & -> & ->). unfold decode_dirent. cbn [d_name].
  apply Forall_slice, Forall_slice. by apply sec_ok.
Qed.

Lemma cstring_bytes l : bytes l → bytes (cstring l).
Proof using. induction 1 as [|c l Hc _ IH]; cbn; [done|]. by destruct (c =? 0); [|constructor]. Qed.

Lemma reads_list n i capacity ino : inode_wf ino → 0 ≤ i → reads (list_entries n i capacity ino) named_in_bytes.
Proof using HD Hs.
  intros Hw. revert i capacity. induction n as [|n IH]; intros i capacity Hi; [apply reads_ok; constructor|].
  cbn [list_entries]. apply reads_if; intros _; [apply reads_ok; constructor|].
  eapply reads_bind; [by apply reads_entry|]. intros [[block b] e] He.
  apply reads_if; intros _; [apply IH; lia|].
  eapply reads_bind; [apply IH; lia|]. intros rest Hr. apply reads_ok. constructor; [|done]. by eapply entry_at_bytes.
Qed.

Lemma reads_getdents cwd path capacity : 0 ≤ cwd →
  reads (minifs_getdents cwd path capacity) (λ l, bytes (default [] path) → named_in_bytes l).
Proof using HD Hs.
  intros Hc. unfold minifs_getdents. eapply (reads_bind _ _ (λ n, 0 ≤ n)).
  { assert (reads (if i32 cwd <? 0 then fail else ok (i32 cwd)) (λ n, 0 ≤ n)).
    { apply reads_if; intros Hi; [apply reads_fail|]. bsimp. by apply reads_ok. }
    destruct path as [[|c p]|]; [done| |done]. eapply reads_conseq; [by apply reads_resolve|]. intros n Hn. cbn in Hn. lia. }
  intros n Hn. eapply reads_bind; [apply reads_guard|]. intros _ _.
  eapply reads_bind; [by apply reads_inode|]. intros ino [Hi ->].
  apply reads_if; intros _; [|eapply reads_conseq; [apply reads_list; [by apply inode_at_wf|done]|by intros]].
  apply reads_if; intros _; apply reads_ok; intros Hb; [constructor|]. constructor; [|constructor].
  apply Forall_app_2; [by apply Forall_take, Forall_drop|]. by constructor; [|constructor].
Qed.

Lemma climb_reads fuel current acc : 0 ≤ current → bytes acc → reads (climb fuel current acc) (λ p, bytes p).
Proof using HD Hs.
  revert current acc. induction fuel as [|fuel IH]; intros current acc Hc Hb; [apply reads_fail|].
  cbn [climb]. apply reads_if; intros _; [by apply reads_ok|].
  eapply reads_bind; [by apply reads_inode|]. intros ino [Hi ->].
  assert (0 ≤ i_parent (inode_at s current)) as Hp.
  { pose proof (inode_at_wf s current Hs Hi) as Hw. apply inode_wf_fields in Hw. lia. }
  eapply reads_bind; [by apply reads_inode|]. intros par [Hpi ->].
  eapply reads_bind; [apply reads_scan; [by apply inode_at_wf|done]|]. intros r Hr.
  eapply reads_bind; [apply reads_guard|]. intros _ _. apply IH; [done|].
  constructor; [unfold SLASH; lia|]. apply Forall_app_2; [|done].
  destruct r as [[[[j block] b] e]|]; [|constructor]. destruct Hr as (_ & Hr & _).
  by eapply cstring_bytes, entry_at_bytes.
Qed.

Lemma reads_getcwd cwd length : 0 ≤ cwd → reads (minifs_getcwd cwd length) (λ p, bytes p).
Proof using HD Hs.
  intros Hc. unfold minifs_getcwd. apply reads_if; intros _; [apply reads_fail|].
  apply reads_if; intros _; [apply reads_ok; constructor; [unfold SLASH; lia|done]|].
  eapply reads_bind; [by apply climb_reads|]. intros path Hb.
  eapply reads_bind; [apply reads_guard|]. intros _ _. by apply reads_ok.
Qed.
End reads.
