(* ===== verification/FsInv.v ===== *)
(** * File-system operations keep the file system consistent

    [keeps] is the specification of an operation that may write: it leads from a
    consistent file system ([fs_inv]: the bitmap in memory is the one on disk, every
    block an inode refers to is a marked data block, no block is referred to twice)
    to a consistent one, whether it succeeds or fails. *)

From S2P Require Import Prelude Csr Mem Vm Device CpuType Block FdTable MiniFs FsLayout FsFile FsWrite FsOps.

Section keeps.
Context {D : Type} `{HD : BlockDriver D}.
Implicit Types (s : fs D) (f : Z → minifs_inode) (ino : minifs_inode).

(** Files have at most [MINIFS_MAX_FILE_SIZE] bytes. *)
Definition sized f : Prop := ∀ m, is_inode m → is_file (f m) = true → i_size (f m) ≤ MINIFS_MAX_FILE_SIZE.
Record fs_good s : Prop := { good_inv : fs_inv s; good_size : sized (inode_at s) }.

Lemma good_ok s : fs_good s → fs_ok s.
Proof. intros [Hi _]. exact (inv_fs _ _ Hi). Qed.

Lemma good_of f s : inv f s → (∀ m, is_inode m → inode_at s m = f m) → sized f → fs_good s.
Proof.
  intros Hi Hf Hz. split.
  - apply (inv_fields f); [done|]. intros m Hm. rewrite Hf by done. split; [by apply Hi|done].
  - intros m Hm. rewrite Hf by done. by apply Hz.
Qed.

Lemma good_like s s' : fs_good s → like s s' → fs_good s' ∧ inv (inode_at s) s'.
Proof.
  intros [Hi Hz] Hl. destruct (fs_inv_like s s' Hi Hl) as [_ Hi']. split; [|done].
  apply (good_of (inode_at s)); [done| |done]. intros m Hm. by apply like_inode.
Qed.

(** Writing an inode whose blocks are accounted for. *)
Lemma good_commit f n s ino' ino2 :
  inv (fupd f n ino') s → sized f → is_inode n → inode_wf ino2 →
  i_direct ino2 = i_direct ino' → i_indirect ino2 = i_indirect ino' →
  (is_file ino2 = true → i_size ino2 ≤ MINIFS_MAX_FILE_SIZE) →
  (∀ m, is_inode m → m ≠ n → inode_at s m = f m) →
  ∃ s', write_inode n ino2 s = (Some tt, s') ∧ fs_good s'.
Proof.
  intros Hi Hz Hn Hwf Hd Hk Hsz Hot.
  destruct (commit_inode f n s ino' ino2 Hi Hn Hwf Hd Hk Hot) as (s' & Hw & Hi' & _ & Hin & _).
  exists s'. split; [done|]. split; [done|]. intros m Hm. rewrite Hin by done. unfold fupd.
  case_decide; [done|by apply Hz].
Qed.

Definition keeps {A} (m : fs_m D A) (Q : A → Prop) : Prop := ∀ s, fs_good s →
  ∃ r s', m s = (r, s') ∧ fs_good s' ∧ ∀ a, r = Some a → Q a.

Lemma keeps_reads {A} (m : fs_m D A) (Q : A → Prop) : (∀ s, fs_good s → reads s m Q) → keeps m Q.
Proof.
  intros Hm s Hi. destruct (Hm s Hi s (like_refl _ (good_ok _ Hi))) as (r & s' & E & Hl & Hr).
  exists r, s'. split; [done|]. split; [exact (proj1 (good_like _ _ Hi Hl))|done].
Qed.

Lemma keeps_bind {A B} (m : fs_m D A) (k : A → fs_m D B) (Q : A → Prop) (R : B → Prop) :
  keeps m Q → (∀ a, Q a → keeps (k a) R) → keeps (and_then m k) R.
Proof.
  intros Hm Hk s Hi. destruct (Hm s Hi) as (r & s1 & E & Hi1 & Hr). unfold and_then. rewrite E.
  destruct r as [a|]; [|by exists None, s1]. by apply (Hk a (Hr a eq_refl)).
Qed.

Lemma keeps_ok {A} (a : A) (Q : A → Prop) : Q a → keeps (ok a) Q.
Proof. intros Ha. apply keeps_reads. intros s Hi. by apply reads_ok. Qed.
Lemma keeps_fail {A} (Q : A → Prop) : keeps fail Q.
Proof. apply keeps_reads. intros s Hi. apply reads_fail. Qed.
Lemma keeps_guard b : keeps (guard_m b) (λ _, b = true).
Proof. apply keeps_reads. intros s Hi. apply reads_guard. Qed.
Lemma keeps_if {A} (b : bool) (m h : fs_m D A) (Q : A → Prop) :
  (b = true → keeps m Q) → (b = false → keeps h Q) → keeps (if b then m else h) Q.
Proof. destruct b; auto. Qed.
Lemma keeps_conseq {A} (m : fs_m D A) (Q R : A → Prop) : keeps m Q → (∀ a, Q a → R a) → keeps m R.
Proof. intros Hm HQ s Hi. destruct (Hm s Hi) as (r & s1 & E & Hi1 & Hr). exists r, s1. eauto. Qed.

Lemma keeps_or_else {A} (m h : fs_m D A) (Q : A → Prop) : keeps m Q → keeps h Q → keeps (or_else m h) Q.
Proof.
  intros Hm Hh s Hi. destruct (Hm s Hi) as (r & s1 & E & Hi1 & Hr). unfold or_else. rewrite E.
  destruct r as [a|]; [exists (Some a), s1; eauto|]. by apply Hh.
Qed.

Lemma keeps_ignore {A} (m : fs_m D A) (Q : A → Prop) : keeps m Q → keeps (ignore m) (λ _, True).
Proof.
  intros Hm s Hi. destruct (Hm s Hi) as (r & s1 & E & Hi1 & Hr). unfold ignore. rewrite E. by exists (Some tt), s1.
Qed.

(** An operation that reads and then acts on what it read: what the reads found out
    is about [s], and the state is like [s] until the first write. *)
Definition acts s {A} (m : fs_m D A) (Q : A → Prop) : Prop := ∀ s0, like s s0 →
  ∃ r s', m s0 = (r, s') ∧ fs_good s' ∧ ∀ a, r = Some a → Q a.

Lemma keeps_acts {A} (m : fs_m D A) (Q : A → Prop) : (∀ s, fs_good s → acts s m Q) → keeps m Q.
Proof. intros Hm s Hi. by apply (Hm s Hi s (like_refl _ (good_ok _ Hi))). Qed.

Lemma acts_keeps s {A} (m : fs_m D A) (Q : A → Prop) : fs_good s → keeps m Q → acts s m Q.
Proof. intros Hi Hm s0 Hl. apply Hm. exact (proj1 (good_like _ _ Hi Hl)). Qed.

Lemma acts_read s {A B} (m : fs_m D A) (k : A → fs_m D B) (Q : A → Prop) (R : B → Prop) :
  fs_good s → reads s m Q → (∀ a, Q a → acts s (k a) R) → acts s (and_then m k) R.
Proof.
  intros Hi Hm Hk s0 Hl. destruct (Hm s0 Hl) as (r & s1 & E & Hl1 & Hr). unfold and_then. rewrite E.
  destruct r as [a|]; [by apply (Hk a (Hr a eq_refl))|].
  exists None, s1. split; [done|]. split; [exact (proj1 (good_like _ _ Hi Hl1))|done].
Qed.

Lemma acts_guard s b {B} (k : unit → fs_m D B) (R : B → Prop) :
  fs_good s → (b = true → acts s (k tt) R) → acts s (and_then (guard_m b) k) R.
Proof. intros Hi Hk. eapply acts_read; [done|apply reads_guard|]. intros [] Hb. auto. Qed.

Lemma acts_fail s {A} (Q : A → Prop) : fs_good s → acts s fail Q.
Proof. intros Hi. apply acts_keeps; [done|]. apply keeps_fail. Qed.

(** ** The inode bitmap *)

Lemma keeps_low n bs : 0 ≤ n < 2 → is_sector bs → keeps (write_block n bs) (λ _, True).
Proof.
  intros Hn Hb s Hi. destruct (write_block_ok s n bs (good_ok _ Hi)) as (s' & Hw & Hok & Hbm & Hs);
    [unfold BLOCK_SECTOR_COUNT; lia|done|lia|].
  exists (Some tt), s'. split; [done|]. split; [|done].
  assert (∀ m, is_inode m → inode_at s' m = inode_at s m) as Hia.
  { intros m Hm. apply inode_at_ext; [done|]. intros k Hk. rewrite Hs by (unfold BLOCK_SECTOR_COUNT; lia). by rewrite decide_False by lia. }
  destruct (inv_sectors (inode_at s) s s' (good_inv _ Hi) Hok Hbm) as [Hi' _].
  { intros m Hm Hz. destruct (inv_indirect _ _ _ (good_inv _ Hi) Hm Hz) as [Hd _]. rewrite Hs by by apply data_range.
    rewrite decide_False by (unfold is_data in Hd; lia). done. }
  by apply (good_of (inode_at s)); [| |apply good_size].
Qed.

Lemma bitmap_sector b i v : 0 ≤ i → is_sector b → is_sector (bitmap_set b i v).
Proof. intros Hi [Hl Hb]. split; [by rewrite length_bitmap_set|by apply bitmap_set_bytes]. Qed.

Lemma keeps_alloc_inode : keeps alloc_inode (λ n, is_inode n).
Proof using HD.
  unfold alloc_inode. eapply (keeps_bind _ _ is_sector).
  { apply keeps_reads. intros s Hi. eapply reads_conseq; [by apply reads_block|]. intros b [Hr ->]. by apply sec_ok; [exact (good_ok _ Hi)|]. }
  intros b Hb. destruct (find_from _ _ _) as [i|] eqn:E; [|apply keeps_fail].
  apply find_from_Some in E as (Hr & _). eapply keeps_bind; [apply keeps_low; [unfold MINIFS_INODE_BITMAP_START; lia|]|].
  - apply bitmap_sector; [lia|done].
  - intros _ _. apply keeps_ok. unfold is_inode. lia.
Qed.

Lemma keeps_free_inode n : 0 ≤ n → keeps (free_inode_number n) (λ _, True).
Proof using HD.
  intros Hn. unfold free_inode_number. apply keeps_if; intros _; [by apply keeps_ok|]. eapply keeps_ignore.
  eapply (keeps_bind _ _ is_sector).
  { apply keeps_reads. intros s Hi. eapply reads_conseq; [by apply reads_block|]. intros b [Hr ->]. by apply sec_ok; [exact (good_ok _ Hi)|]. }
  intros b Hb. apply keeps_low; [unfold MINIFS_INODE_BITMAP_START; lia|]. by apply bitmap_sector.
Qed.

(** ** Writing an inode or a directory *)

(** An inode that refers to less. *)
Lemma inv_forget f n ino' s :
  inv (fupd f n ino') s → is_inode n → inode_wf (f n) →
  (∀ p, is_slot p → slot s (f n) p ≠ 0 → slot s (f n) p = slot s ino' p) → inv f s.
Proof.
  intros [Hok Hw Hd Hj] Hn Hwf Hsl.
  assert (∀ m p, is_inode m → is_slot p → slot s (f m) p ≠ 0 → slot s (f m) p = slot s (fupd f n ino' m) p) as Hall.
  { intros m p Hm Hp Hz. unfold fupd. case_decide; [subst; by apply Hsl|done]. }
  split; [done|..].
  - intros m Hm. destruct (decide (m = n)) as [->|]; [done|]. pose proof (Hw m Hm) as Hwm. by rewrite fupd_ne in Hwm.
  - intros m p Hm Hp Hz. pose proof (Hall m p Hm Hp Hz) as E. rewrite E in *. by apply Hd.
  - intros m1 m2 p q Hm1 Hm2 Hp Hq Hz E. assert (slot s (f m2) q ≠ 0) as Hz2 by congruence.
    rewrite (Hall m1 p), (Hall m2 q) in E by done. apply (Hj m1 m2 p q); try done. by rewrite <- Hall.
Qed.

Definition no_blocks ino : Prop := inode_wf ino ∧ i_direct ino = replicate 10 0 ∧ i_indirect ino = 0 ∧ i_size ino = 0.

Lemma no_blocks_slot s ino p : no_blocks ino → slot s ino p = 0.
Proof.
  intros (_ & Hd & Hk & _). unfold slot. rewrite Hk, Hd. repeat case_match; try done. bsimp.
  unfold aget. destruct (replicate 10 0 !! Z.to_nat p) eqn:E; [|done]. by apply lookup_replicate in E as [-> _].
Qed.

Lemma inv_clear f n ino s : inv f s → no_blocks ino → inv (fupd f n ino) s.
Proof.
  intros [Hok Hw Hd Hj] Hno.
  assert (∀ m p, slot s (fupd f n ino m) p = if decide (m = n) then 0 else slot s (f m) p) as Hall.
  { intros m p. unfold fupd. case_decide; [by apply no_blocks_slot|done]. }
  split; [done|..].
  - intros m Hm. unfold fupd. case_decide; [apply Hno|by apply Hw].
  - intros m p Hm Hp. rewrite Hall. case_decide; [done|by apply Hd].
  - intros m1 m2 p q Hm1 Hm2 Hp Hq. rewrite !Hall. case_decide; [done|]. case_decide; [done|]. by apply Hj.
Qed.

Lemma keeps_write_inode n ino : is_inode n → no_blocks ino → keeps (write_inode n ino) (λ _, True).
Proof.
  intros Hn Hno s Hi. destruct (good_commit (inode_at s) n s ino ino) as (s' & Hw & Hi'); try done.
  - apply inv_clear; [apply (good_inv _ Hi)|done].
  - apply (good_size _ Hi).
  - apply Hno.
  - intros _. destruct Hno as (_ & _ & _ & ->). by unfold MINIFS_MAX_FILE_SIZE.
  - by exists (Some tt), s'.
Qed.

(** A data sector of an inode on disk is replaced. *)
Lemma write_slot s s0 n idx bs :
  fs_good s → like s s0 → is_inode n → 0 ≤ idx < 138 → slot s (inode_at s n) idx ≠ 0 → is_sector bs →
  ∃ s', write_block (slot s (inode_at s n) idx) bs s0 = (Some tt, s') ∧ fs_good s'.
Proof.
  intros Hi Hl Hn Hidx Hz Hb. destruct (good_like s s0 Hi Hl) as [Hi0 _].
  assert (slot s (inode_at s n) idx = slot s0 (inode_at s0 n) idx) as E.
  { rewrite (like_inode s s0) by done. symmetry. by apply (grows_slot _ _ _ _ _ (good_inv _ Hi) (like_grows _ _ Hl)). }
  rewrite E in *. destruct (write_data (inode_at s0) n s0 idx bs (good_inv _ Hi0) Hn Hidx Hz Hb) as (s' & Hw & Hi' & Hbm & _ & Hs).
  exists s'. split; [done|]. destruct (inv_data _ _ (good_inv _ Hi0) n idx) as [Hd _]; [done|unfold is_slot; lia|done|].
  assert (∀ m, is_inode m → inode_at s' m = inode_at s0 m) as Hia.
  { intros m Hm. apply inode_at_ext; [done|]. intros k Hk. rewrite Hs by (unfold BLOCK_SECTOR_COUNT; lia).
    rewrite decide_False by (unfold is_data in Hd; lia). done. }
  by apply (good_of (inode_at s0)); [| |apply good_size].
Qed.

Lemma encode_dirent_ok e : length (d_name e) = 56%nat → bytes (d_name e) →
  Z.of_nat (length (encode_dirent e)) = 64 ∧ bytes (encode_dirent e).
Proof.
  intros Hl Hb. split; [unfold encode_dirent; rewrite !length_app, Hl; done|].
  unfold encode_dirent. apply Forall_app_2; [|apply Forall_app_2; [|done]]; apply le_encode_bytes.
Qed.

Lemma name_field_ok name : is_name name → length (name_field name) = 56%nat ∧ bytes (name_field name).
Proof.
  intros [Hl Hb]. unfold str_len in Hl. unfold name_field. split; [rewrite length_app, length_replicate; lia|].
  apply Forall_app_2; [done|]. apply Forall_replicate. lia.
Qed.

(** A failing [ensure_inode_block] may have given the inode an indirect block. *)
Lemma ensure_none ino idx s ino' s' :
  ensure_inode_block ino idx s = (None, ino', s') →
  i_direct ino' = i_direct ino ∧ (i_indirect ino ≠ 0 → i_indirect ino' = i_indirect ino).
Proof.
  unfold ensure_inode_block. destruct (_ <=? idx); [by intros [= <- <-]|]. destruct (idx <? _).
  { destruct (_ =? 0); [|done]. destruct (alloc_data_block s) as [[b|] s1]; [done|by intros [= <- <-]]. }
  destruct (i_indirect ino =? 0) eqn:E; bsimp.
  - destruct (alloc_data_block s) as [[b|] s1]; [|by intros [= <- <-]].
    destruct (and_then _ _ s1) as [r s2]. intros [= -> <- <-]. done.
  - destruct (and_then _ _ s) as [r s2]. by intros [= -> <- <-].
Qed.

Lemma ensure_none_inv f n s idx ino' s' :
  inv (fupd f n ino') s' → is_inode n → inode_wf (f n) → ensure_inode_block (f n) idx s = (None, ino', s') → inv f s'.
Proof.
  intros Hi Hn Hwf He. apply ensure_none in He as [Hd Hk]. apply (inv_forget f n ino'); [done..|].
  intros p _. unfold slot. rewrite Hd. destruct (p <? 0); [intros Hz; by rewrite Hk|]. destruct (p <? 10); [done|].
  destruct (i_indirect (f n) =? 0) eqn:E; bsimp; [done|]. rewrite Hk by done. by rewrite (proj2 (Z.eqb_neq _ _)).
Qed.

(** The end of [dir_add]: [data] is put at entry [index]. *)
Lemma dir_put f d s index data (isz : minifs_inode → Z) :
  inv f s → sized f → (∀ m, is_inode m → inode_at s m = f m) → is_inode d → is_dir (f d) = true → 0 ≤ index →
  Z.of_nat (length data) = 64 → bytes data →
  ∃ r s', (let '(r, inode, s) := ensure_inode_block (f d) (index / 8) s in
     match r with
     | None => (None, s)
     | Some block =>
         (and_then (read_block block) (λ b,
          and_then (write_block block (splice (index mod 8 * 64) data b)) (λ _,
          let inode := if index =? isz inode then inode <| i_size := u32 (i_size inode + 64) |> else inode in
          write_inode d inode))) s
     end) = (r, s') ∧ fs_good s'.
Proof using HD.
  intros Hi Hsz Hat Hd Hdir Hx Hlen Hb. destruct (decide (index / 8 < 138)) as [Hlt|Hge].
  2: { unfold ensure_inode_block. change (MINIFS_DIRECT_BLOCKS + MINIFS_INDIRECT_BLOCKS) with 138.
       rewrite (proj2 (Z.leb_le _ _)) by lia. exists None, s. split; [done|].
       by apply (good_of f). }
  assert (index * 64 / 512 = index / 8) as E1 by (Z.div_mod_to_equations; lia).
  assert (index * 64 mod 512 = index mod 8 * 64) as E2 by (Z.div_mod_to_equations; lia).
  assert (∀ s', (∀ b, 0 ≤ b < 38 → ¬ (2 ≤ b < 6) → sec s' b = sec s b) → ∀ m, is_inode m → inode_at s' m = f m) as Hext.
  { intros s' Ht m Hm. rewrite <- Hat by done. apply inode_at_ext; [done|]. intros k Hk. apply Ht; lia. }
  destruct (write_round f d s (index * 64) data Hi Hd) as
    [(block & ino1 & s1 & b & s2 & s3 & He & Hr & Hw & Hwr)|(ino1 & s1 & He & Hwr & _)];
    try assumption; try (Z.div_mod_to_equations; lia); rewrite E1 in He; rewrite He.
  - unfold and_then. rewrite Hr. rewrite E2 in Hw. rewrite Hw.
    pose proof (wr_inv _ _ _ _ _ _ _ Hwr) as Hi3. pose proof (inv_wf _ _ Hi3 d Hd) as Hwf. rewrite fupd_eq in Hwf.
    set (ino2 := if _ =? _ then _ else _).
    assert (is_file ino2 = false) as Hnf.
    { assert (i_mode ino2 = i_mode (f d)) as Hm2.
      { destruct (wr_meta _ _ _ _ _ _ _ Hwr) as [<- _]. unfold ino2. by destruct (_ =? _). }
      unfold is_file, is_dir in *. rewrite Hm2. bsimp. rewrite Hdir. done. }
    destruct (good_commit f d s3 ino1 ino2 Hi3 Hsz Hd) as (s4 & Hw4 & Hi4);
      try (unfold ino2; destruct (_ =? _); done).
    + unfold ino2. destruct (_ =? _); [|done]. apply inode_wf_size; [done|]. apply u32_range.
    + by rewrite Hnf.
    + intros m Hm _. apply Hext; [|done]. apply (wr_table _ _ _ _ _ _ _ Hwr).
    + rewrite Hw4. by exists (Some tt), s4.
  - exists None, s1. split; [done|]. apply (good_of f); [| |done].
    + apply (ensure_none_inv f d s (index / 8) ino1); [by apply (wr_inv _ _ _ _ _ _ _ Hwr)|done|by apply Hi|done].
    + apply Hext. apply (wr_table _ _ _ _ _ _ _ Hwr).
Qed.

Lemma dir_count_range ino : inode_wf ino → 0 ≤ dir_count ino.
Proof. intros Hw. apply inode_wf_fields in Hw. unfold dir_count. Z.div_mod_to_equations. lia. Qed.

Lemma keeps_dir_add d name child mode : 0 ≤ d → is_name name → keeps (dir_add d name child mode) (λ _, True).
Proof using HD.
  intros Hd Hname. apply keeps_acts. intros s Hi. pose proof (good_ok _ Hi) as Hs. unfold dir_add.
  eapply (acts_read s _ _ (λ _, True)); [done|..].
  { apply reads_or_else; [|by apply reads_ok]. eapply reads_bind; [by apply reads_lookup|]. intros. by apply reads_ok. }
  intros found _. apply acts_guard; [done|]. intros _. apply acts_guard; [done|]. intros _.
  eapply acts_read; [done|by apply reads_inode|]. intros ino [Hn ->].
  apply acts_guard; [done|]. intros Hdir. pose proof (inode_at_wf s d Hs Hn) as Hw.
  eapply acts_read; [done|by apply reads_scan|]. intros r Hr s0 Hl.
  destruct (good_like s s0 Hi Hl) as [_ Hi0].
  set (index := match r with Some _ => _ | None => _ end).
  destruct (encode_dirent_ok (MkDirent child mode (name_field name))) as [Hlen Hb]; [by apply name_field_ok..|].
  destruct (dir_put (inode_at s) d s0 index (encode_dirent (MkDirent child mode (name_field name))) dir_count Hi0
    (good_size _ Hi)) as (o & s' & E & Hi'); try assumption.
  - intros m Hm. by apply like_inode.
  - unfold index. destruct r as [[[[j b] bs] e]|]; [lia|by apply dir_count_range].
  - exists o, s'. split; [exact E|]. done.
Qed.

Lemma keeps_dir_remove d name : 0 ≤ d → keeps (dir_remove d name) (λ _, True).
Proof using HD.
  intros Hd. apply keeps_acts. intros s Hi. pose proof (good_ok _ Hi) as Hs. unfold dir_remove.
  eapply acts_read; [done|by apply reads_inode|]. intros ino [Hn ->]. pose proof (inode_at_wf s d Hs Hn) as Hw.
  eapply acts_read; [done|by apply reads_scan|]. intros [[[[j block] b] e]|]; [|intros _; by apply acts_fail].
  intros (Hj & (Hz & Hidx & -> & Hr & -> & _) & _) s0 Hl.
  destruct (sec_ok s _ Hs Hr) as [Hlen Hb]. pose proof (Z.mod_pos_bound j 8).
  destruct (write_slot s s0 d (j / 8) (splice (j mod 8 * 64) (le32 NO_INODE) (sec s (slot s (inode_at s d) (j / 8)))))
    as (s' & E & Hi'); try done.
  { split; [rewrite length_splice; [done|lia|]|apply Forall_splice; [apply le_encode_bytes|done]].
    rewrite Hlen. unfold le32. rewrite length_le_encode. lia. }
  exists (Some tt), s'. done.
Qed.

(** ** Releasing the blocks of an inode *)

Lemma free_ok s b : fs_ok s → ∃ s', free_data_block b s = (Some tt, s') ∧ fs_ok s' ∧
  (∀ c, is_data c → used s' c = if decide (c = b) then false else used s c) ∧
  (∀ m, 0 ≤ m < BLOCK_SECTOR_COUNT → ¬ (2 ≤ m < 6) → sec s' m = sec s m).
Proof.
  intros Hs. unfold free_data_block. destruct (_ || _) eqn:E.
  - exists s. split; [done|]. split; [done|]. split; [|done]. intros c Hc. rewrite decide_False; [done|].
    apply orb_true_iff in E. unfold is_data, MINIFS_DATA_START, MINIFS_BLOCK_COUNT in *. lia.
  - apply orb_false_iff in E. unfold MINIFS_DATA_START, MINIFS_BLOCK_COUNT in E.
    destruct (update_bitmap_ok s b false Hs) as (s' & Hu & Hok & Hbm & Hsec); [lia|].
    exists s'. unfold ignore. rewrite Hu. split; [done|]. split; [done|]. split; [|done].
    intros c Hc. apply used_set; [done|done|lia|unfold is_data in Hc; lia].
Qed.

(** What freeing the blocks of [P] does. *)
Record freed s (P : Z → Prop) s' : Prop := {
  fr_ok : fs_ok s';
  fr_in : ∀ c, is_data c → P c → used s' c = false;
  fr_out : ∀ c, is_data c → ¬ P c → used s' c = used s c;
  fr_sec : ∀ m, 0 ≤ m < BLOCK_SECTOR_COUNT → ¬ (2 ≤ m < 6) → sec s' m = sec s m;
}.

Lemma freed_none s P : fs_ok s → (∀ c, is_data c → ¬ P c) → freed s P s.
Proof. intros Hs HP. split; try done. intros c Hc Hp. by destruct (HP c Hc). Qed.

Lemma freed_trans s1 s2 s3 P Q : freed s1 P s2 → freed s2 Q s3 → freed s1 (λ c, P c ∨ Q c) s3.
Proof.
  intros [Ok1 I1 O1 S1] [Ok2 I2 O2 S2]. split; [done|..].
  - intros c Hc Hr. destruct (used s3 c) eqn:E; [|done].
    assert (¬ Q c) as Hq by (intros Hq; rewrite I2 in E by done; done).
    rewrite O2 in E by done. destruct Hr as [Hp|Hq']; [by rewrite I1 in E|done].
  - intros c Hc Hr. rewrite O2 by tauto. apply O1; tauto.
  - intros m Hm Hn. by rewrite S2, S1.
Qed.

Lemma freed_ext s P Q s' : freed s P s' → (∀ c, is_data c → P c ↔ Q c) → freed s Q s'.
Proof. intros [? ? ? ?] HP. split; try done; intros c Hc Hq; rewrite <- HP in Hq; auto. Qed.

Lemma freed_like s s' : like s s' → freed s (λ _, False) s'.
Proof.
  intros Hl. split; [exact (lk_ok _ _ Hl)|done| |].
  - intros c Hc _. unfold used. by rewrite (lk_bitmap _ _ Hl).
  - intros m Hm _. by apply (lk_sec _ _ Hl).
Qed.

Lemma free_blocks_ok l s : fs_ok s → ∃ s', free_blocks l s = (Some tt, s') ∧ freed s (λ c, c ∈ l) s'.
Proof.
  revert s. induction l as [|b l IH]; intros s Hs.
  - exists s. split; [done|]. apply freed_none; [done|]. intros c _. apply not_elem_of_nil.
  - destruct (free_ok s b Hs) as (s1 & E1 & Hok1 & Hus1 & Hsec1). destruct (IH s1 Hok1) as (s2 & E2 & Hf2).
    exists s2. cbn [free_blocks]. unfold and_then. rewrite E1. split; [done|].
    apply (freed_ext s (λ c, c = b ∨ c ∈ l)); [|by intros c _; rewrite elem_of_cons].
    apply (freed_trans s s1 s2 (λ c, c = b)); [|done].
    split; [done|..|done]; intros c Hc Hb; rewrite Hus1 by done; [by rewrite decide_True|by rewrite decide_False].
Qed.

Lemma elem_direct ino c : length (i_direct ino) = 10%nat →
  c ∈ i_direct ino ↔ ∃ p, 0 ≤ p < 10 ∧ aget 0 (i_direct ino) p = c.
Proof.
  intros Hl. rewrite list_elem_of_lookup. split.
  - intros [i Hi]. pose proof (lookup_lt_Some _ _ _ Hi). exists (Z.of_nat i). split; [lia|].
    unfold aget. by rewrite Nat2Z.id, Hi.
  - intros (p & Hp & <-). exists (Z.to_nat p). unfold aget.
    destruct (lookup_lt_is_Some_2 (i_direct ino) (Z.to_nat p)) as [x Hx]; [lia|]. by rewrite Hx.
Qed.

Lemma elem_indirect b c : c ∈ indirect_entries b ↔ ∃ p, 10 ≤ p < 138 ∧ word_at (p - 10) b = c.
Proof.
  unfold indirect_entries. rewrite list_elem_of_fmap. split.
  - intros (k & -> & Hk). apply elem_of_seq in Hk. exists (Z.of_nat k + 10). split; [lia|]. f_equal. lia.
  - intros (p & Hp & <-). exists (Z.to_nat (p - 10)). rewrite elem_of_seq, Z2Nat.id by lia. split; [done|lia].
Qed.

Definition cleared ino : minifs_inode :=
  ino <| i_direct := map (λ _, 0) (i_direct ino) |> <| i_indirect := 0 |> <| i_size := 0 |>.

Lemma cleared_no_blocks ino : inode_wf ino → no_blocks (cleared ino).
Proof.
  intros Hw. apply inode_wf_fields in Hw as (Hl & _ & Hf).
  assert (map (λ _, 0) (i_direct ino) = replicate 10 0) as E.
  { rewrite <- Hl. clear. induction (i_direct ino); [done|]. cbn. by f_equal. }
  split; [|done]. apply inode_wf_fields. cbn. rewrite E.
  split; [done|]. split; [apply Forall_replicate; lia|]. intuition lia.
Qed.

(** [truncate_inode] frees exactly the blocks the inode refers to. *)
Lemma truncate_ok f n s :
  inv f s → is_inode n →
  ∃ s', truncate_inode (f n) s = (Some (cleared (f n)), s') ∧
    freed s (λ c, ∃ p, is_slot p ∧ slot s (f n) p = c) s'.
Proof.
  intros Hi Hn. pose proof (inv_fs _ _ Hi) as Hs. pose proof (inv_wf _ _ Hi n Hn) as Hw.
  apply inode_wf_fields in Hw as (Hl & _). unfold truncate_inode.
  destruct (free_blocks_ok (i_direct (f n)) s Hs) as (s1 & E1 & Hf1). unfold and_then at 1. rewrite E1.
  assert (∀ c, is_data c → (∃ p, is_slot p ∧ slot s (f n) p = c) ↔
    c ∈ i_direct (f n) ∨ i_indirect (f n) ≠ 0 ∧ (c ∈ indirect_entries (sec s (i_indirect (f n))) ∨ c = i_indirect (f n))) as HP.
  { intros c Hc. assert (c ≠ 0) as Hc0 by (unfold is_data in Hc; lia).
    rewrite elem_direct, elem_indirect by done. unfold slot, is_slot.
    destruct (i_indirect (f n) =? 0) eqn:Ek; bsimp.
    - split; [|intros [(p & Hp & E)|[? _]]; [|done]].
      + intros (p & Hp & E). destruct (p <? 0) eqn:E0; bsimp; [congruence|].
        destruct (p <? 10) eqn:E10; bsimp; [|congruence]. left. exists p. split; [lia|done].
      + exists p. split; [lia|]. rewrite (proj2 (Z.ltb_ge p 0)), (proj2 (Z.ltb_lt p 10)) by lia. done.
    - split.
      + intros (p & Hp & E). destruct (p <? 0) eqn:E0; bsimp; [right; split; [done|by right]|].
        destruct (p <? 10) eqn:E10; bsimp; [left; exists p; split; [lia|done]|].
        right. split; [done|]. left. exists p. split; [lia|done].
      + intros [(p & Hp & E)|[_ [(p & Hp & E)|E]]].
        * exists p. split; [lia|]. rewrite (proj2 (Z.ltb_ge p 0)), (proj2 (Z.ltb_lt p 10)) by lia. done.
        * exists p. split; [lia|]. rewrite (proj2 (Z.ltb_ge p 0)), (proj2 (Z.ltb_ge p 10)) by lia. done.
        * exists (-1). split; [lia|done]. }
  destruct (i_indirect (f n) =? 0) eqn:Ek; bsimp.
  { exists s1. split; [done|]. eapply freed_ext; [done|]. intros c Hc. rewrite HP by done. tauto. }
  destruct (inv_indirect _ _ _ Hi Hn Ek) as [Hd _]. destruct (data_range _ Hd) as (Hr & Hr1 & _).
  destruct (read_block_ok s1 (i_indirect (f n)) (fr_ok _ _ _ Hf1) Hr) as (s2 & E2 & Hl2).
  rewrite (fr_sec _ _ _ Hf1) in E2 by done.
  destruct (free_blocks_ok (indirect_entries (sec s (i_indirect (f n)))) s2 (lk_ok _ _ Hl2)) as (s3 & E3 & Hf3).
  destruct (free_ok s3 (i_indirect (f n)) (fr_ok _ _ _ Hf3)) as (s4 & E4 & Hok4 & Hus4 & Hsec4).
  exists s4. unfold and_then, ignore. rewrite E2, E3. cbn [snd]. rewrite E4. split; [done|].
  assert (freed s3 (λ c, c = i_indirect (f n)) s4) as Hf4.
  { split; [done|..|done]; intros c Hc Hb; rewrite Hus4 by done; [by rewrite decide_True|by rewrite decide_False]. }
  eapply freed_ext.
  - eapply freed_trans; [exact Hf1|]. eapply freed_trans; [exact (freed_like _ _ Hl2)|].
    eapply freed_trans; [exact Hf3|exact Hf4].
  - intros c Hc. cbn. rewrite HP by done. tauto.
Qed.

(** Without an inode's blocks the others are as before. *)
Lemma inv_release f n s s' ino' :
  inv f s → is_inode n → freed s (λ c, ∃ p, is_slot p ∧ slot s (f n) p = c) s' → no_blocks ino' →
  inv (fupd f n ino') s' .
Proof.
  intros Hi Hn [Hok _ Hout Hsec] Hno.
  assert (∀ m p, is_inode m → slot s' (f m) p = slot s (f m) p) as Hsl.
  { intros m p Hm. apply slot_ext. intros Hz. apply Hsec; apply data_range; by apply (inv_indirect _ _ _ Hi Hm). }
  assert (∀ m p, is_inode m → slot s' (fupd f n ino' m) p = if decide (m = n) then 0 else slot s (f m) p) as Hall.
  { intros m p Hm. unfold fupd. case_decide; [by apply no_blocks_slot|by apply Hsl]. }
  split; [done|..].
  - intros m Hm. unfold fupd. case_decide; [apply Hno|by apply Hi].
  - intros m p Hm Hp. rewrite Hall by done. case_decide as Hne; [done|]. intros Hz.
    destruct (inv_data _ _ Hi m p Hm Hp Hz) as [Hd Hu]. split; [done|]. rewrite Hout; [done|done|].
    intros (q & Hq & E). destruct Hne. by apply (inv_inj _ _ Hi m n p q).
  - intros m1 m2 p q Hm1 Hm2 Hp Hq. rewrite !Hall by done. case_decide; [done|]. case_decide.
    + intros Hz E. congruence.
    + by apply (inv_inj _ _ Hi).
Qed.

(** Truncating an inode and writing one without blocks in its place. *)
Lemma acts_clear s n (g : minifs_inode → minifs_inode) {B} (k : minifs_inode → fs_m D B) (R : B → Prop) :
  fs_good s → is_inode n → no_blocks (g (cleared (inode_at s n))) → keeps (k (cleared (inode_at s n))) R →
  acts s (and_then (truncate_inode (inode_at s n)) (λ ino, and_then (write_inode n (g ino)) (λ _, k ino))) R.
Proof.
  intros Hi Hn Hno Hk s0 Hl. destruct (good_like s s0 Hi Hl) as [_ Hi0].
  destruct (truncate_ok (inode_at s) n s0 Hi0 Hn) as (s1 & E1 & Hf).
  pose proof (inv_release (inode_at s) n s0 s1 _ Hi0 Hn Hf Hno) as Hi1.
  destruct (good_commit (inode_at s) n s1 _ _ Hi1 (good_size _ Hi) Hn (proj1 Hno) eq_refl eq_refl) as (s2 & Hw & Hi2).
  { intros _. destruct Hno as (_ & _ & _ & ->). by unfold MINIFS_MAX_FILE_SIZE. }
  { intros m Hm _. rewrite (inode_at_ext s0 s1 m Hm); [by apply like_inode|]. intros j Hj.
    apply (fr_sec _ _ _ Hf); unfold BLOCK_SECTOR_COUNT; lia. }
  unfold and_then at 1. rewrite E1. unfold and_then at 1. rewrite Hw. by apply Hk.
Qed.

Lemma good_cleared s n : fs_good s → is_inode n → no_blocks (cleared (inode_at s n)).
Proof. intros Hi Hn. apply cleared_no_blocks. apply inode_at_wf; [exact (good_ok _ Hi)|done]. Qed.

(** ** The operations *)

Lemma new_inode_no_blocks mode parent : is_u32 mode → is_u32 parent →
  no_blocks (zero_inode <| i_mode := mode |> <| i_parent := parent |> <| i_links := 1 |>).
Proof.
  intros Hm Hp. split; [|done]. apply inode_wf_fields. cbn. split; [done|]. split; [by repeat constructor|]. repeat split; try lia; try apply Hm; try apply Hp.
Qed.

Lemma keeps_create_node parent name mode :
  is_u32 parent → is_name name → is_u32 mode → keeps (create_node parent name mode) is_inode.
Proof using HD.
  intros Hp Hname Hm. unfold create_node. eapply keeps_bind; [apply keeps_alloc_inode|]. intros n Hn.
  apply keeps_or_else.
  - eapply keeps_bind; [apply keeps_write_inode; [done|by apply new_inode_no_blocks]|]. intros _ _.
    eapply keeps_bind; [apply keeps_dir_add; [lia|done]|]. intros _ _. by apply keeps_ok.
  - eapply keeps_bind; [apply keeps_free_inode; unfold is_inode in Hn; lia|]. intros _ _. apply keeps_fail.
Qed.

Lemma keeps_mkdir cwd path : 0 ≤ cwd → bytes path → keeps (minifs_mkdir cwd path) (λ _, True).
Proof using HD.
  intros Hc Hb. unfold minifs_mkdir. eapply keeps_bind.
  { apply keeps_reads. intros s Hi. by apply reads_parent; [apply good_ok| |]. }
  intros [parent name] [Hp Hname]. eapply keeps_bind; [|intros _ _; by apply keeps_ok].
  by apply keeps_create_node; [lia| |].
Qed.

Lemma keeps_unlink opened cwd path : 0 ≤ cwd → bytes path → keeps (minifs_unlink opened cwd path) (λ _, True).
Proof using HD.
  intros Hc Hb. apply keeps_acts. intros s Hi. pose proof (good_ok _ Hi) as Hs. unfold minifs_unlink.
  eapply acts_read; [done|by apply reads_parent|]. intros [parent name] [Hp Hname].
  eapply acts_read; [done|apply reads_lookup; [done|lia]|]. intros n Hn0. apply acts_guard; [done|]. intros _.
  eapply acts_read; [done|by apply reads_inode|]. intros ino [Hn ->].
  eapply (acts_read s _ _ (λ _, True)); [done|..].
  { apply reads_if; intros _; [|by apply reads_ok].
    eapply reads_conseq; [apply reads_scan; [done|by apply inode_at_wf|done]|done]. }
  intros busy _. apply acts_guard; [done|]. intros _.
  apply (acts_clear s n (λ _, zero_inode)); [done|done|by split; [apply zero_inode_wf|]|].
  eapply keeps_bind; [apply keeps_dir_remove; lia|]. intros _ _. by apply keeps_free_inode.
Qed.

Lemma keeps_open_node cwd path flags :
  0 ≤ cwd → bytes path → keeps (open_node cwd path flags) (λ '(n, ino), is_inode n ∧ inode_wf ino).
Proof using HD.
  intros Hc Hb. unfold open_node. eapply (keeps_bind _ _ (λ n, 0 ≤ n)).
  { apply keeps_or_else.
    - apply keeps_reads. intros s Hi. eapply reads_conseq; [by apply reads_resolve; [apply good_ok|]|].
      intros n Hn. cbn in Hn. lia.
    - apply keeps_if; intros _; [|apply keeps_fail]. eapply keeps_bind.
      + apply keeps_reads. intros s Hi. by apply reads_parent; [apply good_ok| |].
      + intros [parent name] [Hp Hname]. eapply keeps_conseq; [by apply keeps_create_node; [lia| |]|].
        intros n Hn. unfold is_inode in Hn. lia. }
  intros n Hn0. apply keeps_acts. intros s Hi. pose proof (good_ok _ Hi) as Hs.
  eapply acts_read; [done|by apply reads_inode|]. intros ino [Hn ->]. apply acts_guard; [done|]. intros Hf.
  destruct (negb _).
  - apply (acts_clear s n (λ ino, ino)); [done|done|by apply good_cleared|]. apply keeps_ok.
    split; [done|]. by apply good_cleared.
  - apply acts_keeps; [done|]. apply keeps_ok. split; [done|]. by apply inode_at_wf.
Qed.

Lemma keeps_write_at n offset source :
  0 ≤ n → 0 ≤ offset → bytes source → keeps (write_at n offset source) (λ k, 0 ≤ k ≤ Z.of_nat (length source) ∧
    (0 < k → offset + k ≤ MINIFS_MAX_FILE_SIZE)).
Proof using HD.
  intros Hn Ho Hb s Hi. destruct (decide (offset < 65536)) as [Hlt|Hge].
  2: { exists (Some 0), s. unfold write_at. rewrite (proj2 (Z.leb_le _ _)) by (unfold MINIFS_MAX_FILE_SIZE; lia).
       split; [done|]. split; [done|]. intros k [= <-]. lia. }
  destruct (decide (is_inode n ∧ is_file (inode_at s n) = true)) as [[Hin Hf]|Hne].
  - destruct (write_at_ok s n offset source (good_inv _ Hi) Hin Hf Hb) as (k & s' & E & Hk & Hi' & _ & Hm & _); [lia|].
    exists (Some k), s'. split; [done|]. split.
    + split; [done|]. intros m Hmi Hmf. destruct (Hm m Hmi) as [Hme Hsz]. fold (file_size s' m). rewrite Hsz.
      pose proof (good_size _ Hi) as Hz. pose proof (f_equal fst Hme) as Hmode. change (i_mode (inode_at s' m) = i_mode (inode_at s m)) in Hmode.
      case_decide; [subst m; pose proof (Hz n Hin Hf); unfold file_size, MINIFS_MAX_FILE_SIZE in *; lia|].
      apply Hz; [done|]. unfold is_file in *. by rewrite <- Hmode.
    + intros ? [= <-]. unfold MINIFS_MAX_FILE_SIZE. lia.
  - unfold write_at. rewrite (proj2 (Z.leb_gt _ _)) by (unfold MINIFS_MAX_FILE_SIZE; lia).
    destruct (decide (is_inode n)) as [Hin|Hout].
    + destruct (read_inode_ok s n (good_ok _ Hi) Hin) as (s1 & E & Hl). unfold and_then at 1. rewrite E.
      unfold and_then at 1, guard_m. destruct (is_file (inode_at s n)) eqn:Ef; [tauto|].
      exists None, s1. split; [done|]. by destruct (good_like s s1 Hi Hl).
    + unfold and_then at 1. rewrite read_inode_range by (unfold is_inode in Hout; lia). by exists None, s.
Qed.
End keeps.
