(* ===== verification/FsFiles.v ===== *)
(** * Calls on files keep the whole file layer consistent

    The exported operations of minifs.c together: the file system ([fs_good] of
    [FsInv]) and the descriptor tables ([fd_inv] of [FdTable]) with the file offsets.
    [file_step] is one call; [files_consistent] is the invariant of every sequence of
    them, [write_bounds] bounds what a write and a seek return, and [fs_loops_terminate]
    shows that the loops end before the fuel the definitions give them. *)

From S2P Require Import Prelude Csr Mem Vm Device CpuType Block FdTable MiniFs FsLayout FsFile FsWrite FsOps FsInv.

(** ** Open descriptions *)

Section descriptions.
Implicit Types (s : fd_state) (k fd i : Z).

(** A description in [s'] of a file is the same in [s]. *)
Definition quiet s s' : Prop := ∀ k, of_used (get_of s' k) = true → of_type (get_of s' k) = OFD_FILE →
  of_used (get_of s k) = true ∧ of_type (get_of s k) = OFD_FILE ∧
  of_flags (get_of s' k) = of_flags (get_of s k) ∧ of_inode (get_of s' k) = of_inode (get_of s k) ∧
  of_offset (get_of s' k) = of_offset (get_of s k).

Lemma quiet_refl s : quiet s s.
Proof. intros k. tauto. Qed.

Lemma quiet_trans s1 s2 s3 : quiet s1 s2 → quiet s2 s3 → quiet s1 s3.
Proof.
  intros H1 H2 k Hu Ht. destruct (H2 k Hu Ht) as (Hu2 & Ht2 & -> & -> & ->).
  destruct (H1 k Hu2 Ht2) as (Hu1 & Ht1 & -> & -> & ->). tauto.
Qed.

Lemma quiet_procs s s' : open_files s' = open_files s → quiet s s'.
Proof. intros E k. unfold get_of. rewrite E. tauto. Qed.

Lemma quiet_upd_pf i f s : quiet s (upd_pf i f s).
Proof. by apply quiet_procs. Qed.

Lemma quiet_if (b : bool) s s' : quiet s s' → quiet s (if b then s' else s).
Proof. destruct b; [done|]. intros _. apply quiet_refl. Qed.

Lemma get_of_upd_cases k f s j :
  get_of (upd_of k f s) j = get_of s j ∨ Z.to_nat j = Z.to_nat k ∧ get_of (upd_of k f s) j = f (get_of s j).
Proof.
  unfold get_of, upd_of, aget, aset. simpl.
  destruct (decide (Z.to_nat j = Z.to_nat k)) as [E|E]; [|left; by rewrite list_lookup_insert_ne by done].
  destruct (decide (Z.to_nat k < length (open_files s))%nat).
  - right. split; [done|]. rewrite E, list_lookup_insert_eq by done. done.
  - left. by rewrite list_insert_ge by lia.
Qed.

Lemma quiet_upd k f s :
  (∀ o, of_used (f o) = true → of_type (f o) = OFD_FILE → of_used o = true ∧ of_type o = OFD_FILE ∧
     of_flags (f o) = of_flags o ∧ of_inode (f o) = of_inode o ∧ of_offset (f o) = of_offset o) →
  quiet s (upd_of k f s).
Proof. intros Hf j. destruct (get_of_upd_cases k f s j) as [->|[_ ->]]; [tauto|apply Hf]. Qed.

Lemma quiet_put k s : quiet s (put_ofd k s).
Proof.
  unfold put_ofd. destruct (_ || _); [apply quiet_refl|].
  assert (quiet s (upd_of k (λ f, f <| of_refs := i32 (of_refs f - 1) |>) s)) as H1 by (apply quiet_upd; naive_solver).
  destruct (_ =? 0); [|done]. eapply quiet_trans; [done|]. apply quiet_upd. naive_solver.
Qed.

Lemma quiet_inc k s : quiet s (inc_ofd k s).
Proof. apply quiet_upd. naive_solver. Qed.

Lemma quiet_alloc ty fl ino s : ty ≠ OFD_FILE → quiet s (alloc_ofd ty fl ino s).2.
Proof.
  intros Ht. unfold alloc_ofd. destruct (find_from _ _ _); [|apply quiet_refl]. apply quiet_upd. naive_solver.
Qed.

Lemma quiet_fold n j (f : Z → fd_state → fd_state) s :
  (∀ i s, quiet s (f i s)) → quiet s (fold_for n j f s).
Proof.
  intros Hf. revert j s. induction n as [|n IH]; intros j s; [apply quiet_refl|].
  cbn [fold_for]. eapply quiet_trans; [apply Hf|apply IH].
Qed.

Lemma quiet_close_slot i fd s : quiet s (close_slot i fd s).
Proof.
  unfold close_slot. eapply quiet_trans; [|apply quiet_upd_pf]. apply quiet_if, quiet_put.
Qed.

Lemma quiet_process_init pid s : quiet s (minifs_process_init pid s).2.
Proof.
  unfold minifs_process_init. destruct (find_process pid s); [apply quiet_refl|].
  destruct (find_from _ _ _) as [i|]; [|apply quiet_refl].
  set (s0 := upd_pf i _ s). set (s1 := fold_for _ _ _ _).
  assert (quiet s s1) as H1.
  { eapply quiet_trans; [apply (quiet_procs s s0); done|]. apply quiet_fold. intros. apply quiet_upd_pf. }
  pose proof (quiet_alloc OFD_CONSOLE_IN MINIFS_O_RDONLY 0 s1 ltac:(done)) as Ha.
  destruct (alloc_ofd OFD_CONSOLE_IN _ _ s1) as [a s2]. cbn [snd] in Ha.
  pose proof (quiet_alloc OFD_CONSOLE_OUT MINIFS_O_WRONLY 0 s2 ltac:(done)) as Hb.
  destruct (alloc_ofd OFD_CONSOLE_OUT _ _ s2) as [b s3]. cbn [snd] in Hb.
  pose proof (quiet_alloc OFD_CONSOLE_OUT MINIFS_O_WRONLY 0 s3 ltac:(done)) as Hc.
  destruct (alloc_ofd OFD_CONSOLE_OUT _ _ s3) as [c s4]. cbn [snd] in Hc.
  assert (quiet s s4) as H4 by (eapply quiet_trans; [exact H1|]; eapply quiet_trans; [exact Ha|]; by eapply quiet_trans).
  destruct (_ || _); cbn [snd].
  - eapply quiet_trans; [|apply quiet_upd_pf]. do 3 (eapply quiet_trans; [|apply quiet_put]). done.
  - do 3 (eapply quiet_trans; [|apply quiet_upd_pf]). done.
Qed.

Lemma quiet_process_fork p c s : quiet s (minifs_process_fork p c s).2.
Proof.
  unfold minifs_process_fork. destruct (find_process p s) as [parent|]; [|apply quiet_refl].
  pose proof (quiet_process_init c s) as Hi. destruct (minifs_process_init c s) as [rc s1]. cbn [snd] in Hi.
  destruct (rc <? 0); [done|]. destruct (find_process c s1) as [child|]; [|done].
  eapply quiet_trans; [exact Hi|]. cbn [snd].
  eapply quiet_trans; [apply quiet_upd_pf|]. apply quiet_fold. intros fd t.
  unfold fork_fd. eapply quiet_trans; [|apply quiet_if, quiet_inc].
  eapply quiet_trans; [|apply quiet_upd_pf]. apply quiet_if, quiet_put.
Qed.

Lemma quiet_close_all pid s : quiet s (minifs_close_all pid s).
Proof.
  unfold minifs_close_all. destruct (find_process pid s) as [i|]; [|apply quiet_refl].
  eapply quiet_trans; [apply (quiet_fold 16 0 (close_slot i)); intros; apply quiet_close_slot|apply quiet_upd_pf].
Qed.

Lemma quiet_set_cloexec pid fd on s : quiet s (minifs_set_cloexec pid fd on s).2.
Proof.
  unfold minifs_set_cloexec. destruct (find_process pid s) as [i|]; [|apply quiet_refl].
  destruct (_ || _ || _); [apply quiet_refl|]. destruct (negb _); apply quiet_upd_pf.
Qed.

Lemma quiet_close_exec pid s : quiet s (minifs_close_exec_fds pid s).
Proof.
  unfold minifs_close_exec_fds. destruct (find_process pid s) as [i|]; [|apply quiet_refl].
  apply quiet_fold. intros fd t. destruct (negb _); [|apply quiet_refl].
  eapply quiet_trans; [apply quiet_close_slot|apply quiet_upd_pf].
Qed.

Lemma quiet_close pid fd s : quiet s (minifs_close pid fd s).2.
Proof.
  unfold minifs_close. destruct (find_process pid s) as [i|]; [|apply quiet_refl].
  destruct (_ || _); [apply quiet_refl|]. cbn [snd].
  do 2 (eapply quiet_trans; [|apply quiet_upd_pf]). apply quiet_put.
Qed.

Lemma quiet_dup2 pid o n s : quiet s (minifs_dup2 pid o n s).2.
Proof.
  unfold minifs_dup2. destruct (find_process pid s) as [i|]; [|apply quiet_refl].
  destruct (_ || _); [apply quiet_refl|]. destruct (o =? n); [apply quiet_refl|]. cbn [snd].
  eapply quiet_trans; [|apply quiet_upd_pf]. eapply quiet_trans; [|apply quiet_inc].
  eapply quiet_trans; [|apply quiet_upd_pf]. apply quiet_if, quiet_put.
Qed.

(** What holds of an open file: without [O_APPEND] its offset is within a file's
    greatest size. *)
Definition of_ok (o : open_file) : Prop := of_used o = true → of_type o = OFD_FILE →
  is_inode (of_inode o) ∧ is_u32 (of_offset o) ∧
  (Z.land (of_flags o) MINIFS_O_APPEND = 0 → of_offset o ≤ MINIFS_MAX_FILE_SIZE).
Definition offsets_ok s : Prop := ∀ k, of_ok (get_of s k).

Lemma quiet_offsets s s' : quiet s s' → offsets_ok s → offsets_ok s'.
Proof.
  intros Hq Ho k Hu Ht. destruct (Hq k Hu Ht) as (Hu' & Ht' & -> & -> & ->). by apply Ho.
Qed.

Lemma offsets_upd s k f : offsets_ok s → (of_ok (get_of s k) → of_ok (f (get_of s k))) → offsets_ok (upd_of k f s).
Proof.
  intros Ho Hf j. destruct (get_of_upd_cases k f s j) as [->|[E ->]]; [apply Ho|].
  assert (get_of s j = get_of s k) as -> by (unfold get_of, aget; by rewrite E). by apply Hf.
Qed.

Lemma offsets_open i flags n size s :
  offsets_ok s → is_inode n → is_u32 size → offsets_ok (open_inode i flags n size s).2.
Proof.
  intros Ho Hn Hsz. unfold open_inode, alloc_ofd. destruct (find_from _ _ _) as [k|] eqn:E; [|done].
  apply find_from_Some in E as (Hk & Hfree & _). rewrite (proj2 (Z.ltb_ge _ _)) by lia.
  set (s1 := upd_of k _ s). set (s2 := if negb (Z.land flags _ =? 0) then _ else _).
  assert (offsets_ok s2) as H2.
  { assert (offsets_ok s1) as H1.
    { apply offsets_upd; [done|]. intros _ _ _. cbn. split; [done|]. split; [lia|]. by unfold MINIFS_MAX_FILE_SIZE. }
    unfold s2. destruct (negb (Z.land flags 0x400 =? 0)) eqn:Ef; [|done]. apply offsets_upd; [done|]. bsimp.
    unfold s1. destruct (get_of_upd_cases k (λ _, MkOpenFile true 1 OFD_FILE flags n 0) s k) as [->|[_ ->]].
    - destruct (get_of s k) as [u r ty fl ino off]. intros _ Hu. cbn in Hu, Hfree. by rewrite Hu in Hfree.
    - intros _ _ _. cbn. split; [done|]. split; [done|]. done. }
  destruct (install_fd i k s2) as [fd s3] eqn:Ei.
  assert (quiet s2 s3) as H3.
  { unfold install_fd in Ei. destruct (find_from _ _ _); injection Ei as <- <-; [by apply quiet_procs|apply quiet_refl]. }
  cbn [snd]. destruct (fd <? 0); (eapply quiet_offsets; [|exact H2]); [|done].
  eapply quiet_trans; [exact H3|apply quiet_put].
Qed.
End descriptions.

(** ** Calls *)

Section calls.
Context {D : Type} `{HD : BlockDriver D}.
Implicit Types (f : files D).

Record files_good f : Prop := {
  fg_fs : fs_good (f_fs f);
  fg_fds : fd_inv (f_fds f);
  fg_offsets : offsets_ok (f_fds f);
}.

Lemma on_fs_good {A} (m : fs_m D A) (Q : A → Prop) f :
  keeps m Q → files_good f →
  ∃ r s, on_fs m f = (r, f <| f_fs := s |>) ∧ files_good (f <| f_fs := s |>) ∧ ∀ a, r = Some a → Q a.
Proof.
  intros Hm [Hs Hf Ho]. destruct (Hm _ Hs) as (r & s & E & Hs' & Hr). exists r, s. unfold on_fs. rewrite E. done.
Qed.

Lemma step_fs {A} (m : fs_m D A) (Q : A → Prop) f : keeps m Q → files_good f → files_good (on_fs m f).2.
Proof. intros Hm Hg. by destruct (on_fs_good m Q f Hm Hg) as (r & s & -> & Hg' & _). Qed.

Lemma step_reads {A} (m : fs_m D A) (Q : fs D → A → Prop) f :
  (∀ s, fs_ok s → reads s m (Q s)) → files_good f → files_good (on_fs m f).2.
Proof.
  intros Hm. apply (step_fs m (λ _, True)). apply keeps_reads. intros s Hs.
  eapply reads_conseq; [apply Hm; by apply good_ok|done].
Qed.

Lemma step_fds f s : files_good f → fd_inv s → quiet (f_fds f) s → files_good (f <| f_fds := s |>).
Proof. intros [Hs Hf Ho] Hi Hq. split; [done|done|]. by eapply quiet_offsets. Qed.

Lemma on_fds_snd {A} (m : fd_state → A * fd_state) f : (on_fds m f).2 = f <| f_fds := (m (f_fds f)).2 |>.
Proof. unfold on_fds. by destruct (m _). Qed.

Lemma step_on_fds {A} (m : fd_state → A * fd_state) f :
  files_good f → (∀ s, fd_inv s → fd_inv (m s).2) → (∀ s, quiet s (m s).2) → files_good (on_fds m f).2.
Proof. intros Hg Hi Hq. rewrite on_fds_snd. apply step_fds; [done|apply Hi, Hg|done]. Qed.

(** *** Reading *)

Lemma pread_loop_length s fuel ino offset length :
  fs_ok s → inode_wf ino → 0 ≤ offset → 0 ≤ length →
  reads s (pread_loop fuel ino offset length) (λ bs, bytes bs ∧ Z.of_nat (List.length bs) = length).
Proof using HD.
  intros Hs Hw. revert offset length. induction fuel as [|fuel IH]; intros offset length Hoff Hlen; [apply reads_fail|].
  cbn [pread_loop]. destruct (length <=? 0) eqn:El; bsimp; [apply reads_ok; split; [done|cbn; lia]|].
  pose proof (Z.mod_pos_bound offset 512). assert (0 ≤ offset / 512) by (apply Z.div_pos; lia).
  eapply reads_bind; [by apply reads_inode_block|]. intros block [Hb _].
  eapply reads_bind; [apply reads_guard|]. intros _ _.
  eapply reads_bind; [apply reads_block; lia|]. intros b [Hn ->].
  eapply reads_bind; [apply IH; lia|]. intros rest [Hr Hl]. apply reads_ok.
  destruct (sec_ok s block Hs Hn) as [Hbl Hbb]. split.
  - apply Forall_app_2; [by apply Forall_slice|done].
  - rewrite length_app, length_slice by lia. lia.
Qed.

Lemma pread_length s n offset length :
  fs_good s → 0 ≤ n → 0 ≤ offset → 0 ≤ length →
  reads s (minifs_pread n offset length) (λ bs, bytes bs ∧ Z.of_nat (List.length bs) ≤ length ∧
    (bs ≠ [] → offset + Z.of_nat (List.length bs) ≤ MINIFS_MAX_FILE_SIZE)).
Proof using HD.
  intros Hg Hn Ho Hl. pose proof (good_ok _ Hg) as Hs. unfold minifs_pread.
  eapply reads_bind; [by apply reads_inode|]. intros ino [Hi ->].
  eapply reads_bind; [apply reads_guard|]. intros u Hf. cbn beta in Hf.
  pose proof (good_size _ Hg n Hi Hf) as Hz. apply reads_if; intros Hb; bsimp; [by apply reads_ok|].
  eapply reads_conseq; [apply pread_loop_length; [done|by apply inode_at_wf|lia..]|].
  intros bs [Hbs Hlen]. split; [done|]. split; [lia|]. intros _. lia.
Qed.

(** *** The descriptor operations *)

Lemma open_file_range pid fd s k : get_open_file pid fd s = Some k → 0 ≤ k < 64 ∧ of_used (get_of s k) = true.
Proof.
  unfold get_open_file. destruct (find_process pid s) as [i|]; [|done]. destruct (_ || _); [done|].
  destruct (_ || _) eqn:E; [done|]. intros [= <-]. bsimp. unfold MINIFS_MAX_OPEN_FILES in *. split; [lia|done].
Qed.

Lemma set_offset_good f k g :
  files_good f → 0 ≤ k < 64 → is_u32 g →
  (Z.land (of_flags (get_of (f_fds f) k)) MINIFS_O_APPEND = 0 → g ≤ MINIFS_MAX_FILE_SIZE) →
  files_good (f <| f_fds := upd_of k (λ o, o <| of_offset := g |>) (f_fds f) |>).
Proof.
  intros [Hs Hf Ho] Hk Hu Hg. split; [done| |].
  - change (fd_inv (upd_of k (λ o, o <| of_offset := g |>) (f_fds f))). by apply rc_of_meta.
  - apply offsets_upd; [done|]. intros Hok Hus Ht. destruct (Hok Hus Ht) as (Hi & _). done.
Qed.

Lemma get_of_offset f k g :
  files_good f → 0 ≤ k < 64 → of_offset (get_of (upd_of k (λ o, o <| of_offset := g o |>) (f_fds f)) k) = g (get_of (f_fds f) k).
Proof.
  intros [_ Hf _] Hk. rewrite get_of_upd; [by rewrite decide_True|rewrite (rc_of_len _ _ Hf); lia|lia].
Qed.

Lemma advance_good f k n :
  files_good f → 0 ≤ k < 64 → is_u32 (of_offset (get_of (f_fds f) k) + n) →
  (Z.land (of_flags (get_of (f_fds f) k)) MINIFS_O_APPEND = 0 → of_offset (get_of (f_fds f) k) + n ≤ MINIFS_MAX_FILE_SIZE) →
  files_good (advance k n f) ∧ of_offset (get_of (f_fds (advance k n f)) k) = of_offset (get_of (f_fds f) k) + n.
Proof.
  intros Hg Hk Hn Hmax.
  assert (u32 (of_offset (get_of (f_fds f) k) + n) = of_offset (get_of (f_fds f) k) + n) as E by (apply Z.mod_small; lia).
  split.
  - assert (advance k n f = f <| f_fds := upd_of k (λ o, o <| of_offset := of_offset (get_of (f_fds f) k) + n |>) (f_fds f) |>) as ->.
    { unfold advance, upd_of. by rewrite E. }
    by apply set_offset_good.
  - etrans; [|exact E]. exact (get_of_offset f k (λ o, u32 (of_offset o + n)) Hg Hk).
Qed.

Definition offset_of f (k : Z) : Z := of_offset (get_of (f_fds f) k).

Lemma open_good pid cwd path flags f :
  files_good f → 0 ≤ cwd → bytes path → files_good (minifs_open pid cwd path flags f).2.
Proof using HD.
  intros Hg Hc Hb. unfold minifs_open. destruct (find_process pid (f_fds f)) as [i|] eqn:Ei; [|done].
  destruct (_ || _); [done|].
  destruct (on_fs_good _ _ f (keeps_open_node cwd path flags Hc Hb) Hg) as (r & s & E & Hg' & Hr). rewrite E. destruct r as [[n ino]|]; [|done].
  destruct (Hr _ eq_refl) as [Hn Hw]. apply inode_wf_fields in Hw. rewrite on_fds_snd. split.
  - apply Hg'.
  - by eapply open_inode_inv; [apply (fg_fds _ Hg)|].
  - apply offsets_open; [apply (fg_offsets _ Hg)|done|tauto].
Qed.

Lemma lseek_good pid fd offset whence f :
  files_good f →
  let '(r, f') := minifs_lseek pid fd offset whence f in
  files_good f' ∧ (r = -1 ∨ 0 ≤ r ≤ MINIFS_MAX_FILE_SIZE ∧ ∀ k, get_open_file pid fd (f_fds f) = Some k → offset_of f' k = r).
Proof using HD.
  intros Hg. unfold minifs_lseek. destruct (get_open_file pid fd (f_fds f)) as [k|] eqn:Ek; [|by split; [|left]].
  destruct (open_file_range _ _ _ _ Ek) as [Hk Hu].
  destruct (negb _) eqn:Et; [by split; [|left]|]. bsimp.
  destruct (fg_offsets _ Hg k Hu) as (Hi & _); [done|].
  set (step := if whence =? MINIFS_SEEK_CUR then _ else _).
  assert (∃ base f1, step = (base, f1) ∧ files_good f1 ∧ f_fds f1 = f_fds f) as (base & f1 & -> & Hg1 & E1).
  { unfold step. destruct (whence =? MINIFS_SEEK_CUR); [by eexists _, f|].
    destruct (whence =? MINIFS_SEEK_END); [|by destruct (negb _); eexists _, f].
    assert (keeps (read_inode (of_inode (get_of (f_fds f) k))) (λ _, True)) as Hr.
    { apply keeps_reads. intros s Hs. eapply reads_conseq; [apply reads_inode; unfold is_inode in Hi; lia|done]. }
    destruct (on_fs_good _ _ f Hr Hg) as (r & s & -> & Hg' & _). destruct r; by eexists _, _. }
  destruct base as [base|]; [|by split; [|left]]. destruct (_ || _) eqn:E; [by split; [|left]|]. bsimp.
  split; [apply set_offset_good; [done|done|unfold MINIFS_MAX_FILE_SIZE in *; lia|lia]|].
  right. split; [lia|]. intros k' [= <-]. exact (get_of_offset f1 k (λ _, base + offset) Hg1 Hk).
Qed.

Lemma write_good pid fd buffer f :
  files_good f → bytes buffer →
  let '(n, f') := minifs_write pid fd buffer f in
  files_good f' ∧ ∀ k, get_open_file pid fd (f_fds f) = Some k → of_type (get_of (f_fds f) k) = OFD_FILE →
    -1 ≤ n ≤ Z.of_nat (length buffer) ∧
    (0 < n → n ≤ offset_of f' k ≤ MINIFS_MAX_FILE_SIZE ∧
       (Z.land (of_flags (get_of (f_fds f) k)) MINIFS_O_APPEND = 0 → offset_of f' k = offset_of f k + n)).
Proof using HD.
  intros Hg Hb. unfold minifs_write. destruct (get_open_file pid fd (f_fds f)) as [k|] eqn:Ek; [|done].
  destruct (open_file_range _ _ _ _ Ek) as [Hk Hu].
  destruct (of_type (get_of (f_fds f) k) =? OFD_CONSOLE_OUT) eqn:Et.
  { bsimp. split; [by destruct Hg|]. intros k' [= <-] Ht. rewrite Et in Ht. discriminate Ht. }
  destruct (_ || _) eqn:E; [by split; [|intros; lia]|]. bsimp. destruct (fg_offsets _ Hg k Hu) as (Hi & Ho & _); [done|].
  set (step := if negb (Z.land (of_flags (get_of (f_fds f) k)) MINIFS_O_APPEND =? 0) then _ else _).
  assert (∃ r f1, step = (r, f1) ∧ files_good f1 ∧ is_u32 (offset_of f1 k) ∧
    (Z.land (of_flags (get_of (f_fds f) k)) MINIFS_O_APPEND = 0 → offset_of f1 k = offset_of f k)) as (r & f1 & -> & Hg1 & Ho1 & Hsame).
  { unfold step. destruct (negb (_ =? 0)) eqn:Ea; [|by exists (Some tt), f]. bsimp.
    assert (keeps (read_inode (of_inode (get_of (f_fds f) k))) (λ i, is_u32 (i_size i))) as Hr.
    { apply keeps_reads. intros s Hs. eapply reads_conseq; [apply reads_inode; unfold is_inode in Hi; lia|].
      intros i [Hn ->]. pose proof (inode_at_wf s _ (good_ok _ Hs) Hn) as Hw. apply inode_wf_fields in Hw. tauto. }
    destruct (on_fs_good _ _ f Hr Hg) as (r & s & -> & Hg' & Hr'). destruct r as [ino|]; [|by eexists None, _].
    pose proof (Hr' _ eq_refl) as Hsz. eexists (Some tt), _. split; [done|]. split; [by apply set_offset_good|].
    split; [|done]. exact (eq_ind_r (λ z, is_u32 z) Hsz (get_of_offset f k (λ _, i_size ino) Hg Hk)). }
  destruct r as [u|]; [|by split; [|intros; lia]].
  assert (keeps (write_at (of_inode (get_of (f_fds f) k)) (offset_of f1 k) (take (Z.to_nat (Z.min (Z.of_nat (length buffer)) 0xffffffff)) buffer))
    (λ n, 0 ≤ n ≤ Z.of_nat (length (take (Z.to_nat (Z.min (Z.of_nat (length buffer)) 0xffffffff)) buffer)) ∧
          (0 < n → offset_of f1 k + n ≤ MINIFS_MAX_FILE_SIZE))) as Hw.
  { apply keeps_write_at; [unfold is_inode in Hi; lia|lia|by apply Forall_take]. }
  rewrite length_take in Hw. destruct (on_fs_good _ _ f1 Hw Hg1) as (r & s & Er & Hg2 & Hr).
  unfold offset_of in Er at 1. rewrite Er. destruct r as [n|]; [|by split; [|intros; lia]].
  destruct (Hr n eq_refl) as [Hn Hmax]. destruct (0 <? n) eqn:En; bsimp; [|split; [done|]; intros; lia].
  destruct (advance_good (f1 <| f_fs := s |>) k n Hg2 Hk) as [Ha Ho2].
  - pose proof (Hmax En). unfold MINIFS_MAX_FILE_SIZE, offset_of in *. cbn. lia.
  - intros _. by apply Hmax.
  - split; [done|]. intros k' [= <-] Ht. split; [lia|]. intros _. unfold offset_of at 1 2 3.
    change (get_of (f_fds (f1 <| f_fs := s |>)) k) with (get_of (f_fds f1) k) in Ho2. rewrite Ho2.
    fold (offset_of f1 k). split; [split; [lia|by apply Hmax]|]. intros Ha0. by rewrite Hsame.
Qed.
(** The characters [uart_getc] returns, in their order. *)
Context (key : Z → Z).

Lemma read_good pid fd length f :
  files_good f → 0 ≤ length →
  let '(r, f') := minifs_read key pid fd length f in
  files_good f' ∧ ∀ k bs, get_open_file pid fd (f_fds f) = Some k → of_type (get_of (f_fds f) k) = OFD_FILE →
    r = Some bs → Z.of_nat (List.length bs) ≤ length ∧ offset_of f' k = offset_of f k + Z.of_nat (List.length bs) ∧
      (bs ≠ [] → offset_of f' k ≤ MINIFS_MAX_FILE_SIZE).
Proof using HD.
  intros Hg Hlen. unfold minifs_read. destruct (get_open_file pid fd (f_fds f)) as [k|] eqn:Ek; [|done].
  destruct (open_file_range _ _ _ _ Ek) as [Hk Hu].
  destruct (of_type (get_of (f_fds f) k) =? OFD_CONSOLE_IN) eqn:Et.
  { bsimp. split; [by destruct Hg|]. intros k' bs [= <-] Ht. rewrite Et in Ht. discriminate Ht. }
  destruct (_ || _) eqn:E; [done|]. bsimp. destruct (fg_offsets _ Hg k Hu) as (Hi & Ho & _); [done|].
  assert (keeps (minifs_pread (of_inode (get_of (f_fds f) k)) (of_offset (get_of (f_fds f) k)) (Z.min length 0xffffffff))
    (λ bs, bytes bs ∧ Z.of_nat (List.length bs) ≤ Z.min length 0xffffffff ∧
      (bs ≠ [] → of_offset (get_of (f_fds f) k) + Z.of_nat (List.length bs) ≤ MINIFS_MAX_FILE_SIZE))) as Hk'.
  { apply keeps_reads. intros s Hs. apply pread_length; [done|unfold is_inode in Hi; lia|lia|lia]. }
  destruct (on_fs_good _ _ f Hk' Hg) as (r & s & Er & Hg' & Hr). rewrite Er.
  destruct r as [bs|]; [|by split; [|intros ? ? _ _ [=]]]. destruct (Hr bs eq_refl) as (_ & Hl & Hb).
  assert (is_u32 (of_offset (get_of (f_fds f) k) + Z.of_nat (List.length bs)) ∧
    (Z.land (of_flags (get_of (f_fds f) k)) MINIFS_O_APPEND = 0 →
       of_offset (get_of (f_fds f) k) + Z.of_nat (List.length bs) ≤ MINIFS_MAX_FILE_SIZE)) as [Hu32 Hmx].
  { destruct (decide (bs = [])) as [->|Hne]; [rewrite Z.add_0_r; by apply (fg_offsets _ Hg k Hu)|].
    pose proof (Hb Hne). unfold MINIFS_MAX_FILE_SIZE in *. split; [lia|]. intros _. lia. }
  destruct (advance_good (f <| f_fs := s |>) k _ Hg' Hk Hu32 Hmx) as [Ha Ho2].
  split; [done|]. intros k' bs' [= <-] _ [= <-]. split; [lia|]. unfold offset_of. rewrite Ho2. split; [done|exact Hb].
Qed.

(** One call of an operation of minifs.h.  A current directory is an inode number and
    strings and buffers hold bytes; a process is never forked to its own pid. *)
Inductive file_step : files D → files D → Prop :=
| step_process_init f pid : file_step f (on_fds (minifs_process_init pid) f).2
| step_process_fork f parent child : parent ≠ child → file_step f (on_fds (minifs_process_fork parent child) f).2
| step_close_all f pid : file_step f (f <| f_fds := minifs_close_all pid (f_fds f) |>)
| step_set_cloexec f pid fd on : file_step f (on_fds (minifs_set_cloexec pid fd on) f).2
| step_close_exec f pid : file_step f (f <| f_fds := minifs_close_exec_fds pid (f_fds f) |>)
| step_close f pid fd : file_step f (on_fds (minifs_close pid fd) f).2
| step_dup2 f pid oldfd newfd : file_step f (on_fds (minifs_dup2 pid oldfd newfd) f).2
| step_open f pid cwd path flags : 0 ≤ cwd → bytes path → file_step f (minifs_open pid cwd path flags f).2
| step_read f pid fd length : 0 ≤ length → file_step f (minifs_read key pid fd length f).2
| step_write f pid fd buffer : bytes buffer → file_step f (minifs_write pid fd buffer f).2
| step_lseek f pid fd offset whence : file_step f (minifs_lseek pid fd offset whence f).2
| step_mkdir f cwd path : 0 ≤ cwd → bytes path → file_step f (on_fs (minifs_mkdir cwd path) f).2
| step_unlink f cwd path : 0 ≤ cwd → bytes path → file_step f (unlink cwd path f).2
| step_chdir f cwd path : 0 ≤ cwd → file_step f (on_fs (minifs_chdir cwd path) f).2
| step_getcwd f cwd length : 0 ≤ cwd → file_step f (on_fs (minifs_getcwd cwd length) f).2
| step_getdents f cwd path capacity : 0 ≤ cwd → file_step f (on_fs (minifs_getdents cwd path capacity) f).2
| step_resolve_file f cwd path : 0 ≤ cwd → file_step f (on_fs (minifs_resolve_file cwd path) f).2
| step_inode_size f n : 0 ≤ n → file_step f (on_fs (minifs_inode_size n) f).2
| step_inode_mode f n : 0 ≤ n → file_step f (on_fs (minifs_inode_mode n) f).2
| step_pread f n offset length : 0 ≤ n → 0 ≤ offset → 0 ≤ length → file_step f (on_fs (minifs_pread n offset length) f).2.

Lemma file_step_good f f' : file_step f f' → files_good f → files_good f'.
Proof using HD.
  intros Hs Hg. destruct Hs; try (apply step_on_fds; [done|..]).
  - intros s Hs. destruct (minifs_process_init pid s) as [rc s'] eqn:E. by destruct (minifs_process_init_inv _ _ _ _ Hs E).
  - apply quiet_process_init.
  - intros s Hs. destruct (minifs_process_fork parent child s) as [rc s'] eqn:E.
    by destruct (minifs_process_fork_spec _ _ _ _ _ Hs ltac:(done) E).
  - apply quiet_process_fork.
  - apply step_fds; [done|apply minifs_close_all_inv, Hg|apply quiet_close_all].
  - intros s Hs. by apply minifs_set_cloexec_inv.
  - apply quiet_set_cloexec.
  - apply step_fds; [done|apply minifs_close_exec_fds_inv, Hg|apply quiet_close_exec].
  - intros s Hs. by apply minifs_close_inv.
  - apply quiet_close.
  - intros s Hs. by apply minifs_dup2_inv.
  - apply quiet_dup2.
  - by apply open_good.
  - pose proof (read_good pid fd length f Hg ltac:(done)) as Hr. destruct (minifs_read _ _ _ _ _). apply Hr.
  - pose proof (write_good pid fd buffer f Hg ltac:(done)) as Hr. destruct (minifs_write _ _ _ _). apply Hr.
  - pose proof (lseek_good pid fd offset whence f Hg) as Hr. destruct (minifs_lseek _ _ _ _ _). apply Hr.
  - eapply step_fs; [by apply keeps_mkdir|done].
  - eapply step_fs; [by apply keeps_unlink|done].
  - eapply step_reads; [|done]. intros. by apply reads_chdir.
  - eapply step_reads; [|done]. intros. by apply reads_getcwd.
  - eapply step_reads; [|done]. intros. by apply reads_getdents.
  - eapply step_reads; [|done]. intros. by apply reads_resolve_file.
  - eapply step_reads; [|done]. intros. by apply reads_size.
  - eapply step_reads; [|done]. intros. by apply reads_mode.
  - eapply step_reads; [|done]. intros. by apply reads_pread.
Qed.
End calls.

(** ** Every reachable state *)

Section reachable.
Context {D : Type} `{HD : BlockDriver D}.
Context (key : Z → Z).
Implicit Types (f : files D).

Lemma rtc_file_good f f' : rtc (file_step key) f f' → files_good f → files_good f'.
Proof using HD. induction 1; [done|]. intros Hg. eauto using file_step_good. Qed.

(** C21: every sequence of file calls keeps the file layer consistent.  Whatever the
    calls do, succeed or fail, in the states they lead to no block belongs to two
    places of one or two inodes, every block an inode refers to is a data block marked
    in the bitmap, the bitmap in memory is the one on the disk, no file is longer than
    64 KiB, every open description is counted exactly by the descriptors that refer to
    it, and the offset of an open file is within 64 KiB unless it appends. *)
Theorem files_consistent f f' :
  files_good f → rtc (file_step key) f f' →
  let s := f_fs f' in
  (∀ n m p q, is_inode n → is_inode m → is_slot p → is_slot q → slot s (inode_at s n) p ≠ 0 →
     slot s (inode_at s n) p = slot s (inode_at s m) q → n = m ∧ p = q) ∧
  (∀ n p, is_inode n → is_slot p → slot s (inode_at s n) p ≠ 0 →
     is_data (slot s (inode_at s n) p) ∧ used s (slot s (inode_at s n) p) = true) ∧
  (∀ k, 0 ≤ k < 4 → sec s (MINIFS_DATA_BITMAP_START + k) = slice (k * 512) 512 (bitmap s)) ∧
  (∀ n, is_inode n → is_file (inode_at s n) = true → i_size (inode_at s n) ≤ MINIFS_MAX_FILE_SIZE) ∧
  (∀ k, 0 ≤ k < MINIFS_MAX_OPEN_FILES → of_used (get_of (f_fds f') k) = true →
     of_refs (get_of (f_fds f') k) = Z.of_nat (refcount k (f_fds f')) ∧
     (of_type (get_of (f_fds f') k) = OFD_FILE → Z.land (of_flags (get_of (f_fds f') k)) MINIFS_O_APPEND = 0 →
        0 ≤ of_offset (get_of (f_fds f') k) ≤ MINIFS_MAX_FILE_SIZE)).
Proof using HD.
  intros Hg Hr. pose proof (rtc_file_good f f' Hr Hg) as [[Hi Hz] Hf Ho]. cbn zeta.
  split; [exact (inv_inj _ _ Hi)|]. split; [exact (inv_data _ _ Hi)|].
  split; [exact (fo_synced _ (inv_fs _ _ Hi))|]. split; [exact Hz|].
  intros k Hk Hu. pose proof (rc_count _ _ Hf k Hk) as Hc. rewrite Hu in Hc. split; [lia|].
  intros Ht Ha. destruct (Ho k Hu Ht) as (_ & Hof & Hmax). split; [lia|auto].
Qed.
End reachable.

(** A disk with an empty root directory, and the tables of process 7. *)
Definition root_dir : minifs_inode := zero_inode <| i_mode := MINIFS_MODE_DIR |> <| i_links := 1 |>.
Definition root_fs : fs block_device := (write_inode 0 root_dir blank).2.
Definition demo_files : files block_device := MkFiles root_fs demo_fd [] 0.
Definition demo_open : files block_device := (minifs_open 7 0 (chars "/a") (Z.lor 2 MINIFS_O_CREATE) demo_files).2.

Lemma demo_path : bytes (chars "/a").
Proof. change (bytes [47; 97]). repeat (constructor; [lia|]). constructor. Qed.

Lemma blank_good : fs_good blank.
Proof.
  split; [exact blank_ok|]. intros m Hm. rewrite blank_inode by exact Hm. intros Hf. discriminate Hf.
Qed.

Lemma demo_files_good : files_good demo_files.
Proof.
  assert (is_inode 0) as H0 by (unfold is_inode; lia).
  assert (no_blocks root_dir) as Hno.
  { apply (new_inode_no_blocks MINIFS_MODE_DIR 0); [unfold MINIFS_MODE_DIR; lia|lia]. }
  destruct (keeps_write_inode 0 root_dir H0 Hno blank blank_good) as (r & s' & E & Hg & _).
  split.
  - cbn [demo_files f_fs]. unfold root_fs. rewrite E. exact Hg.
  - apply fd_reach_inv, demo_fd_reach.
  - apply (quiet_offsets fd_init); [exact (quiet_process_init 7 fd_init)|].
    intros k Hu. exfalso. revert Hu. unfold get_of, fd_init, aget. cbn [open_files].
    destruct (replicate 64 of_zero !! Z.to_nat k) eqn:Ek; [|discriminate]. by apply lookup_replicate in Ek as [-> _].
Qed.

(** The file is created, three bytes are written to it, and no other inode has its
    block. *)
Lemma files_consistent_witness :
  ∃ f', rtc (file_step (λ _, 10)) demo_files f' ∧ (minifs_write 7 3 [1; 2; 3] demo_open).1 = 3 ∧
    used (f_fs f') (slot (f_fs f') (inode_at (f_fs f') 1) 0) = true.
Proof.
  exists (minifs_write 7 3 [1; 2; 3] demo_open).2.
  assert (bytes [1; 2; 3]) as Hb by (repeat (constructor; [lia|]); constructor).
  assert (rtc (file_step (λ _, 10)) demo_files (minifs_write 7 3 [1; 2; 3] demo_open).2) as Hr.
  { apply (rtc_l _ demo_files demo_open).
    - exact (step_open _ demo_files 7 0 (chars "/a") (Z.lor 2 MINIFS_O_CREATE) (Z.le_refl 0) demo_path).
    - apply rtc_once. exact (step_write _ demo_open 7 3 [1; 2; 3] Hb). }
  split; [exact Hr|]. split; [vm_compute; reflexivity|].
  destruct (files_consistent (λ _, 10) demo_files _ demo_files_good Hr) as (_ & Hd & _).
  apply (Hd 1 0); [unfold is_inode; lia|unfold is_slot; lia|]. vm_compute. discriminate.
Defined.

(** ** Bounds *)

Section bounds.
Context {D : Type} `{HD : BlockDriver D}.
Context (key : Z → Z).
Implicit Types (f : files D).

(** C39: what [minifs_read], [minifs_write] and [minifs_lseek] return for an open file
    is bounded, and the offset they leave agrees with it: a read returns at most the
    bytes asked for, a write at most the bytes given, a position that bytes were read
    up to or written up to lies within 64 KiB, and a seek to anywhere else (whatever
    the offset and origin) is refused. *)
Theorem io_bounds f pid fd k :
  files_good f → get_open_file pid fd (f_fds f) = Some k → of_type (get_of (f_fds f) k) = OFD_FILE →
  (∀ length bs f', 0 ≤ length → minifs_read key pid fd length f = (Some bs, f') →
     Z.of_nat (List.length bs) ≤ length ∧ offset_of f' k = offset_of f k + Z.of_nat (List.length bs) ∧
     (bs ≠ [] → offset_of f' k ≤ MINIFS_MAX_FILE_SIZE)) ∧
  (∀ buffer n f', bytes buffer → minifs_write pid fd buffer f = (n, f') →
     -1 ≤ n ≤ Z.of_nat (length buffer) ∧
     (0 < n → n ≤ offset_of f' k ≤ MINIFS_MAX_FILE_SIZE ∧
        (Z.land (of_flags (get_of (f_fds f) k)) MINIFS_O_APPEND = 0 → offset_of f' k = offset_of f k + n))) ∧
  (∀ offset whence r f', minifs_lseek pid fd offset whence f = (r, f') →
     r = -1 ∨ 0 ≤ r ≤ MINIFS_MAX_FILE_SIZE ∧ offset_of f' k = r).
Proof using HD.
  intros Hg Hk Ht. split; [|split].
  - intros length bs f' Hl E. pose proof (read_good key pid fd length f Hg Hl) as Hr. rewrite E in Hr.
    by apply (proj2 Hr).
  - intros buffer n f' Hb E. pose proof (write_good pid fd buffer f Hg Hb) as Hr. rewrite E in Hr.
    by apply (proj2 Hr).
  - intros offset whence r f' E. pose proof (lseek_good pid fd offset whence f Hg) as Hr. rewrite E in Hr.
    destruct Hr as [_ [?|[? Ho]]]; [by left|right]. split; [done|]. by apply Ho.
Qed.
End bounds.

Lemma demo_open_good : files_good demo_open.
Proof.
  apply open_good; [exact demo_files_good|lia|exact demo_path].
Qed.

(** A seek to the end of the largest file, and one past it. *)
Lemma io_bounds_witness :
  (minifs_lseek 7 3 65536 0 demo_open).1 = 65536 ∧ (minifs_lseek 7 3 65537 0 demo_open).1 = -1 ∧
  offset_of (minifs_lseek 7 3 65536 0 demo_open).2 3 = 65536.
Proof.
  split; [vm_compute; reflexivity|]. split; [vm_compute; reflexivity|].
  assert (get_open_file 7 3 (f_fds demo_open) = Some 3) as Hk by (vm_compute; reflexivity).
  assert (of_type (get_of (f_fds demo_open) 3) = OFD_FILE) as Ht by (vm_compute; reflexivity).
  destruct (io_bounds (λ _, 10) demo_open 7 3 3 demo_open_good Hk Ht) as (_ & _ & Hl).
  assert ((minifs_lseek 7 3 65536 0 demo_open).1 = 65536) as E by (vm_compute; reflexivity).
  destruct (minifs_lseek 7 3 65536 0 demo_open) as [r f'] eqn:El. cbn [fst snd] in *.
  destruct (Hl 65536 0 r f' El) as [->|[_ ->]]; [discriminate E|exact E].
Defined.

(** ** Termination *)

Section loops.
Context {D : Type} `{BlockOps D}.
Implicit Types (s : fs D) (ino : minifs_inode).

Lemma skip_slashes_length p : (length (skip_slashes p) ≤ length p)%nat.
Proof. induction p as [|c p IH]; [done|]. cbn. destruct (c =? SLASH); cbn; lia. Qed.

Lemma scan_component_length room p name rest :
  scan_component room p = Some (name, rest) → (length p = length name + length rest)%nat.
Proof.
  revert p name. induction room as [|room IH]; intros [|c p] name; cbn; try (by intros [= <- <-]);
    (destruct (c =? SLASH); [by intros [= <- <-]|]); [done|].
  destruct (scan_component room p) as [[n r]|] eqn:E; [|done]. intros [= <- <-]. cbn. by rewrite (IH _ _ E).
Qed.

Lemma scan_component_S room c p : scan_component (S room) (c :: p) =
  if c =? SLASH then Some ([], c :: p)
  else match scan_component room p with None => None | Some (name, rest) => Some (c :: name, rest) end.
Proof. done. Qed.

Lemma next_component_shorter p name rest : next_component p = CompName name rest → (length rest < length p)%nat.
Proof.
  unfold next_component. pose proof (skip_slashes_length p) as Hl.
  assert (∀ c q, skip_slashes p = c :: q → (c =? SLASH) = false) as Hns.
  { clear. induction p as [|d p IH]; [done|]. intros c q. cbn. destruct (d =? SLASH) eqn:E; [apply IH|].
    by intros [= <- <-]. }
  destruct (skip_slashes p) as [|c q] eqn:Es; [done|]. specialize (Hns c q eq_refl).
  destruct (scan_component 55 (c :: q)) as [[n r]|] eqn:E; [|done]. intros [= <- <-].
  rewrite scan_component_S, Hns in E. destruct (scan_component 54 q) as [[n' r']|] eqn:E'; [|done].
  injection E as <- <-. apply scan_component_length in E'. cbn in Hl. lia.
Qed.

Lemma walk_fuel n m current cursor s :
  (length cursor < n)%nat → (length cursor < m)%nat → walk n current cursor s = walk m current cursor s.
Proof.
  revert m current cursor s. induction n as [|n IH]; intros [|m] current cursor s Hn Hm; try lia.
  cbn [walk]. destruct (next_component cursor) as [| |name rest] eqn:E; [done|done|].
  apply next_component_shorter in E.
  assert (∀ c s, walk n c rest s = walk m c rest s) as Hw by (intros; apply IH; lia).
  destruct (str_equal name DOT); [apply Hw|].
  destruct (str_equal name DOTDOT); unfold and_then; [destruct (read_inode _ s) as [[i|] s1]|destruct (dir_lookup _ _ s) as [[i|] s1]]; done || apply Hw.
Qed.

Lemma pread_fuel n m ino offset length s :
  (Z.to_nat length < n)%nat → (Z.to_nat length < m)%nat → pread_loop n ino offset length s = pread_loop m ino offset length s.
Proof.
  revert m offset length s. induction n as [|n IH]; intros [|m] offset length s Hn Hm; try lia.
  cbn [pread_loop]. destruct (length <=? 0) eqn:E; bsimp; [done|]. pose proof (Z.mod_pos_bound offset 512).
  unfold and_then. destruct (inode_block _ _ s) as [[b|] s1]; [|done]. destruct (guard_m _ s1) as [[u|] s2]; [|done].
  destruct (read_block b s2) as [[bs|] s3]; [|done]. rewrite (IH m); [done|lia..].
Qed.

Lemma write_fuel n m ino offset source s :
  (length source < n)%nat → (length source < m)%nat → write_loop n ino offset source s = write_loop m ino offset source s.
Proof.
  revert m ino offset source s. induction n as [|n IH]; intros [|m] ino offset source s Hn Hm; try lia.
  cbn [write_loop]. destruct source as [|x source]; [done|]. pose proof (Z.mod_pos_bound offset 512).
  destruct (ensure_inode_block _ _ s) as [[r ino1] s1].
  destruct r as [block|]; [|done]. unfold and_then, ok. destruct (read_block block s1) as [[b|] s2]; [|done].
  destruct (write_block _ _ s2) as [[u|] s3]; [|done].
  rewrite (IH m); [done|..]; rewrite length_drop; cbn [length] in *; lia.
Qed.

Lemma climb_fuel n m current acc s :
  MINIFS_PATH_MAX - str_len acc < Z.of_nat n → MINIFS_PATH_MAX - str_len acc < Z.of_nat m →
  str_len acc ≤ MINIFS_PATH_MAX → climb n current acc s = climb m current acc s.
Proof.
  revert m current acc s. induction n as [|n IH]; intros [|m] current acc s Hn Hm Ha; try lia.
  cbn [climb]. destruct (current =? MINIFS_ROOT_INODE); [done|].
  unfold and_then. destruct (read_inode current s) as [[ino|] s1]; [|done].
  destruct (read_inode _ s1) as [[par|] s2]; [|done]. destruct (scan_dir _ _ s2) as [[r|] s3]; [|done].
  set (name := match r with Some _ => _ | None => _ end).
  destruct (negb _) eqn:E; cbn [guard_m]; [|done]. unfold ok. bsimp.
  assert (str_len (SLASH :: name ++ acc) = 1 + str_len name + str_len acc) as El.
  { unfold str_len. cbn [length]. rewrite length_app. lia. }
  assert (0 ≤ str_len name) by (unfold str_len; lia).
  apply IH; rewrite El; lia.
Qed.

End loops.
