(* ===== verification/AddrSpace.v ===== *)
(** * User address spaces (os/kernel/user.c, lines 59-188, 407-492)

    A [task_address_space] is passed by pointer in C and by value here: an
    operation that changes it returns the new value.  Pages and page tables live
    in the memory of [mem_state]; [0] is [NULL].  Loops that copy between the
    kernel and user pages take a fuel argument that is shown to suffice.

    [space_ok] ties the list of mappings of a space to the page tables the MMU of
    [Vm] walks, and the theorems say what a user program can reach, that [fork]
    copies memory without sharing or leaking pages, and that the kernel's copy
    routines read and write exactly the user's bytes. *)

From S2P Require Import Prelude Csr Mem Vm.

Definition USER_MAX_PAGES : Z := 64.
Definition USER_MIN_VA : Z := 0x10000.
Definition USER_STACK_TOP : Z := 0x200000.
Definition USER_STACK_PAGES : Z := 4.
Definition USER_STACK_BOTTOM : Z := USER_STACK_TOP - USER_STACK_PAGES * 4096.

Record user_page_mapping := MkMapping {
  um_va : Z;
  um_page : Z;
  um_flags : Z;
}.
#[global] Instance user_page_mapping_eta : Settable user_page_mapping := λ u,
  MkMapping (um_va u) (um_page u) (um_flags u).
Definition um_zero : user_page_mapping := MkMapping 0 0 0.

Record task_address_space := MkSpace {
  as_root : Z;
  as_l1_mmio : Z;
  as_l0_user : Z;
  as_pages : list user_page_mapping;
  as_page_count : Z;
  as_satp : Z;
}.
#[global] Instance task_address_space_eta : Settable task_address_space := λ a,
  MkSpace (as_root a) (as_l1_mmio a) (as_l0_user a) (as_pages a) (as_page_count a) (as_satp a).

Definition mapping (sp : task_address_space) (i : Z) : user_page_mapping :=
  aget um_zero (as_pages sp) i.

(** ** Operations *)

Definition zero_page (page : Z) (m : ram_t) : ram_t :=
  fold_for 512 0 (λ i m, store64 m (page + 8 * i) 0) m.

Definition copy_page (destination source : Z) (m : ram_t) : ram_t :=
  fold_for 512 0 (λ i m, store64 m (destination + 8 * i) (load64 m (source + 8 * i))) m.

(** Every field is assigned, so the result does not depend on the argument. *)
Definition zero_space : task_address_space := MkSpace 0 0 0 (replicate 64 um_zero) 0 0.

Definition user_space_destroy (sp : task_address_space) (s : mem_state)
    : task_address_space * mem_state :=
  let s := fold_for (Z.to_nat (as_page_count sp)) 0 (λ i s,
    if negb (um_page (mapping sp i) =? 0) then kfree (um_page (mapping sp i)) s else s) s in
  let s := if negb (as_l0_user sp =? 0) then kfree (as_l0_user sp) s else s in
  let s := if negb (as_l1_mmio sp =? 0) then kfree (as_l1_mmio sp) s else s in
  let s := if negb (as_root sp =? 0) then kfree (as_root sp) s else s in
  (zero_space, s).

(** The stores of [create_empty_space] into its three table pages. *)
Definition fresh_tables (v : vm_state) (root l1 l0 : Z) (m : ram_t) : ram_t :=
  let m := copy_page root (kernel_l2 v) m in
  let m := copy_page l1 (kernel_l1_mmio v) m in
  let m := zero_page l0 m in
  let m := set_pte root 0 (PTE (Z.shiftr l1 12) PTE_V) m in
  set_pte l1 0 (PTE (Z.shiftr l0 12) (Z.lor PTE_V PTE_U)) m.

(** The space is returned also on failure, as [user_space_destroy] left it. *)
Definition create_empty_space (v : vm_state) (sp : task_address_space) (s : mem_state)
    : Z * task_address_space * mem_state :=
  if (kernel_l2 v =? 0) || (kernel_l1_mmio v =? 0) then (-1, sp, s)
  else
    let sp := zero_space in
    let '(root, s) := kalloc s in
    let '(l1, s) := kalloc s in
    let '(l0, s) := kalloc s in
    let sp := sp <| as_root := root |> <| as_l1_mmio := l1 |> <| as_l0_user := l0 |> in
    if (root =? 0) || (l1 =? 0) || (l0 =? 0) then
      let '(sp, s) := user_space_destroy sp s in (-1, sp, s)
    else
      (0, sp <| as_satp := Z.lor SATP_SV39 (Z.shiftr root 12) |>,
       s <| ram := fresh_tables v root l1 l0 (ram s) |>).

(** [va & ~(PAGE_SIZE - 1ULL)] *)
Definition page_base (va : Z) : Z := Z.land va (u64 (Z.lnot (PAGE_SIZE - 1))).

(** The index of the mapping found. *)
Definition find_mapping (sp : task_address_space) (va : Z) : option Z :=
  find_from (Z.to_nat (as_page_count sp)) 0 (λ i, um_va (mapping sp i) =? page_base va).

Definition l0_index (va : Z) : Z := Z.land (Z.shiftr va 12) 0x1ff.

(** [flags | PTE_U | PTE_V] *)
Definition leaf_flags (flags : Z) : Z := Z.lor flags (Z.lor PTE_U PTE_V).

(** [space->pages[i] = e], and [space->pages[space->page_count++] = e]. *)
Definition set_mapping (i : Z) (e : user_page_mapping) (sp : task_address_space)
    : task_address_space := sp <| as_pages := aset (as_pages sp) i e |>.
Definition add_mapping (e : user_page_mapping) (sp : task_address_space) : task_address_space :=
  sp <| as_pages := aset (as_pages sp) (as_page_count sp) e |>
     <| as_page_count := u32 (as_page_count sp + 1) |>.

Definition map_user_page (va flags : Z) (sp : task_address_space) (s : mem_state)
    : Z * task_address_space * mem_state :=
  if (va <? USER_MIN_VA) || (USER_STACK_TOP <=? va) || negb (Z.land va (PAGE_SIZE - 1) =? 0)
  then (-1, sp, s)
  else
    match find_mapping sp va with
    | Some i =>
        let e := (mapping sp i) <| um_flags := Z.lor (um_flags (mapping sp i)) flags |> in
        (0, set_mapping i e sp,
         s <| ram := set_pte (as_l0_user sp) (l0_index va)
                       (PTE (Z.shiftr (um_page e) 12) (leaf_flags (um_flags e))) (ram s) |>)
    | None =>
        if USER_MAX_PAGES <=? as_page_count sp then (-1, sp, s)
        else
          let '(page, s) := kalloc s in
          if page =? 0 then (-1, sp, s)
          else
            let m := zero_page page (ram s) in
            (0, add_mapping (MkMapping va page flags) sp,
             s <| ram := set_pte (as_l0_user sp) (l0_index va)
                           (PTE (Z.shiftr page 12) (leaf_flags flags)) m |>)
    end.

(** The chunk of a copy that starts at user address [a] with [left] bytes to go. *)
Definition chunk_at (a left : Z) : Z :=
  let within := Z.land a (PAGE_SIZE - 1) in
  if PAGE_SIZE - within <? left then PAGE_SIZE - within else left.

(** [source] is a kernel buffer of [length source] bytes. *)
Fixpoint copy_to_loop (fuel : nat) (sp : task_address_space) (destination : Z)
    (source : list Z) (done : Z) (m : ram_t) : option (Z * ram_t) :=
  match fuel with
  | O => None
  | S fuel =>
      if done <? Z.of_nat (length source) then
        match find_mapping sp (u64 (destination + done)) with
        | None => Some (-1, m)
        | Some i =>
            let a := u64 (destination + done) in
            let within := Z.land a (PAGE_SIZE - 1) in
            let chunk := chunk_at a (Z.of_nat (length source) - done) in
            let m := store_bytes m (um_page (mapping sp i) + within) (slice done chunk source) in
            copy_to_loop fuel sp destination source (done + chunk) m
        end
      else Some (0, m)
  end.

Definition copy_to_space (sp : task_address_space) (destination : Z) (source : list Z) (m : ram_t)
    : Z * ram_t :=
  default (-1, m) (copy_to_loop (S (length source)) sp destination source 0 m).

(** The bytes written to the destination buffer so far are accumulated. *)
Fixpoint copy_from_loop (fuel : nat) (sp : task_address_space) (source length done : Z)
    (acc : list Z) (m : ram_t) : option (Z * list Z) :=
  match fuel with
  | O => None
  | S fuel =>
      if done <? length then
        match find_mapping sp (u64 (source + done)) with
        | None => Some (-1, acc)
        | Some i =>
            let a := u64 (source + done) in
            let within := Z.land a (PAGE_SIZE - 1) in
            let chunk := chunk_at a (length - done) in
            let bytes := load_bytes m (um_page (mapping sp i) + within) (Z.to_nat chunk) in
            copy_from_loop fuel sp source length (done + chunk) (acc ++ bytes) m
        end
      else Some (0, acc)
  end.

Definition copy_from_space (sp : task_address_space) (source length : Z) (m : ram_t)
    : Z * list Z :=
  default (-1, []) (copy_from_loop (S (Z.to_nat length)) sp source length 0 [] m).

(** One round of the loop of [user_space_clone]. *)
Definition clone_page (source : task_address_space) (i : Z)
    : M (task_address_space * mem_state) (option Z) := λ '(dst, s),
  let '(rc, dst, s) := map_user_page (um_va (mapping source i)) (um_flags (mapping source i)) dst s in
  if rc <? 0 then
    let '(dst, s) := user_space_destroy dst s in (Some (-1), (dst, s))
  else
    match find_mapping dst (um_va (mapping source i)) with
    | Some j => (None, (dst, s <| ram := copy_page (um_page (mapping dst j))
                                  (um_page (mapping source i)) (ram s) |>))
    | None => (None, (dst, s))   (* not reached: the page was just mapped *)
    end.

Definition user_space_clone (v : vm_state) (dst source : task_address_space) (s : mem_state)
    : Z * task_address_space * mem_state :=
  let '(rc, dst, s) := create_empty_space v dst s in
  if rc <? 0 then (-1, dst, s)
  else
    let '(r, (dst, s)) :=
      for_each (Z.to_nat (as_page_count source)) 0 (clone_page source) (dst, s) in
    match r with Some rc => (rc, dst, s) | None => (0, dst, s) end.

(** The permission loop of [copy_from_user] and [copy_to_user]: every page of
    [address .. limit) must be mapped with the permission [flag]. *)
Fixpoint check_pages (fuel : nat) (sp : task_address_space) (flag address limit : Z)
    : option bool :=
  match fuel with
  | O => None
  | S fuel =>
      if address <? limit then
        match find_mapping sp address with
        | None => Some false
        | Some i =>
            if negb (bit (um_flags (mapping sp i)) flag) then Some false
            else check_pages fuel sp flag (u64 (page_base address + PAGE_SIZE)) limit
        end
      else Some true
  end.

(** [space] is the current task's space ([None] is [NULL]); a destination or
    source buffer in the kernel is never [NULL]. *)
Definition copy_from_user (space : option task_address_space) (source length : Z) (m : ram_t)
    : Z * list Z :=
  if length =? 0 then (0, [])
  else
    match space with
    | None => (-1, [])
    | Some sp =>
        if u64 (source + length) <? source then (-1, [])
        else if default false (check_pages (S (Z.to_nat length)) sp PTE_R source (u64 (source + length)))
        then copy_from_space sp source length m
        else (-1, [])
    end.

Definition copy_to_user (space : option task_address_space) (destination : Z) (source : list Z)
    (m : ram_t) : Z * ram_t :=
  let length := Z.of_nat (length source) in
  if length =? 0 then (0, m)
  else
    match space with
    | None => (-1, m)
    | Some sp =>
        if u64 (destination + length) <? destination then (-1, m)
        else if default false
          (check_pages (S (Z.to_nat length)) sp PTE_W destination (u64 (destination + length)))
        then copy_to_space sp destination source m
        else (-1, m)
    end.

(** [copy_string_from_user]: the bytes placed in the destination and the result. *)
Fixpoint copy_string_loop (n : nat) (space : option task_address_space) (source i : Z)
    (acc : list Z) (m : ram_t) : option Z * list Z :=
  match n with
  | O => (None, acc)
  | S n =>
      let '(rc, bs) := copy_from_user space (u64 (source + i)) 1 m in
      let acc := acc ++ bs in
      if rc <? 0 then (Some (-1), acc)
      else if aget 0 acc i =? 0 then (Some i, acc)
      else copy_string_loop n space source (i + 1) acc m
  end.

Definition copy_string_from_user (space : option task_address_space) (source capacity : Z)
    (m : ram_t) : Z * list Z :=
  if capacity =? 0 then (-1, [])
  else
    match copy_string_loop (Z.to_nat capacity) space source 0 [] m with
    | (Some rc, bs) => (i32 rc, bs)
    | (None, bs) => (-1, aset bs (capacity - 1) 0)
    end.

(** ** Contents of pages *)

Lemma load8_zero_page p m x :
  load8 (zero_page p m) x = if decide (p ≤ x < p + PAGE_SIZE) then 0 else load8 m x.
Proof.
  unfold zero_page, PAGE_SIZE.
  pose (I := λ k (m' : ram_t), load8 m' x = if decide (p ≤ x < p + 8 * k) then 0 else load8 m x).
  apply (fold_for_ind I 512 0); unfold I.
  - rewrite decide_False; [done|lia].
  - intros j m' Hj IH. unfold store64. rewrite load8_store_bytes.
    unfold le64. rewrite length_le_encode. change (Z.of_nat 8) with 8.
    destruct (decide (p + 8 * j ≤ x < p + 8 * j + 8)) as [Hd|Hd].
    + rewrite decide_True by lia. change (le_encode 8 0) with (replicate 8 0).
      apply aget_replicate. lia.
    + rewrite IH. case_decide; [by rewrite decide_True by lia|]. rewrite decide_False; [done|lia].
Qed.

Lemma ram_ok_zero_page p m : ram_ok m → ram_ok (zero_page p m).
Proof.
  intros. apply (fold_for_ind (λ _, ram_ok) 512 0); [done|]. intros. by apply ram_ok_store64.
Qed.

Lemma zero_page_outside p m ps : p ∈ ps → same_outside ps m (zero_page p m).
Proof.
  intros. apply same_outside_fold. intros j m' Hj.
  change (store64 m' (p + 8 * j) 0) with (set_pte p j 0 m').
  apply set_pte_outside; [done|lia|done].
Qed.

Lemma ram_ok_copy_page d s m : ram_ok m → ram_ok (copy_page d s m).
Proof.
  intros. apply (fold_for_ind (λ _, ram_ok) 512 0); [done|]. intros. by apply ram_ok_store64.
Qed.

Lemma copy_page_outside d s m ps : d ∈ ps → same_outside ps m (copy_page d s m).
Proof.
  intros. apply same_outside_fold. intros j m' Hj.
  change (store64 m' (d + 8 * j) ?v) with (set_pte d j v m').
  apply set_pte_outside; [done|lia|done].
Qed.

Lemma load8_copy_page d s m x :
  aligned d → aligned s → d ≠ s → ram_ok m →
  load8 (copy_page d s m) x =
    if decide (d ≤ x < d + PAGE_SIZE) then load8 m (s + (x - d)) else load8 m x.
Proof.
  intros Hd Hs Hne Hm. unfold copy_page.
  assert (∀ y k, 0 ≤ k ≤ 512 → s ≤ y < s + PAGE_SIZE → ¬ (d ≤ y < d + 8 * k)) as Hdis.
  { intros y k Hk Hy. unfold aligned, PAGE_SIZE in *. Z.div_mod_to_equations. lia. }
  pose (I := λ k (m' : ram_t), 0 ≤ k ≤ 512 ∧ ram_ok m' ∧
     ∀ x, load8 m' x = if decide (d ≤ x < d + 8 * k) then load8 m (s + (x - d)) else load8 m x).
  apply (fold_for_ind I 512 0); unfold I.
  - split_and!; [lia..|done|]. intros y. rewrite decide_False; [done|lia].
  - intros j m' Hj (Hk & Hm' & IH). split_and!; [lia..|by apply ram_ok_store64|].
    intros y. rewrite load8_copy64 by done. case_decide as Hy.
    + rewrite decide_True by lia.
      rewrite IH, decide_False by (apply Hdis; unfold PAGE_SIZE; lia). f_equal. lia.
    + rewrite IH. case_decide; [by rewrite decide_True by lia|]. rewrite decide_False; [done|lia].
Qed.

(** Entries of a table page that was zeroed or copied. *)
Lemma pte_zero_page p m i : 0 ≤ i < 512 → pte (zero_page p m) p i = 0.
Proof.
  intros Hi. unfold pte, load64, PTE_SIZE.
  rewrite (load_bytes_shift _ ∅ _ 0); [by vm_compute|]. intros k Hk.
  rewrite load8_zero_page, decide_True by (unfold PAGE_SIZE; lia). done.
Qed.

Lemma pte_copy_page d s m i :
  aligned d → aligned s → d ≠ s → ram_ok m → 0 ≤ i < 512 →
  pte (copy_page d s m) d i = pte m s i.
Proof.
  intros. unfold pte, load64, PTE_SIZE. f_equal. apply load_bytes_shift. intros k Hk.
  rewrite load8_copy_page, decide_True by (done || unfold PAGE_SIZE; lia). f_equal. lia.
Qed.

(** Tables outside the written pages keep their entries. *)
Lemma pte_outside ps m m' t i :
  same_outside ps m m' → aligned t → Forall aligned ps → t ∉ ps → 0 ≤ i < 512 →
  pte m' t i = pte m t i.
Proof.
  intros Hs Ht Hps Hn Hi. unfold pte, load64, PTE_SIZE. f_equal.
  apply (same_outside_load ps _ _ t); try done; unfold PAGE_SIZE; lia.
Qed.

Lemma pte_zero_other p m t i :
  aligned p → aligned t → t ≠ p → 0 ≤ i < 512 → pte (zero_page p m) t i = pte m t i.
Proof.
  intros. apply (pte_outside [p]); try done; [apply zero_page_outside; by left|by constructor|].
  by intros ->%list_elem_of_singleton.
Qed.

Lemma pte_copy_other d s m t i :
  aligned d → aligned t → t ≠ d → 0 ≤ i < 512 → pte (copy_page d s m) t i = pte m t i.
Proof.
  intros. apply (pte_outside [d]); try done; [apply copy_page_outside; by left|by constructor|].
  by intros ->%list_elem_of_singleton.
Qed.

(** ** Well-formed address spaces *)

Definition space_pages (sp : task_address_space) : list Z :=
  as_root sp :: as_l1_mmio sp :: as_l0_user sp
    :: ((λ i, um_page (mapping sp i)) <$> seqZ 0 (as_page_count sp)).

(** The entry of the level-0 table for page number [i]. *)
Definition user_pte (sp : task_address_space) (i : Z) : Z :=
  match find_mapping sp (PAGE_SIZE * i) with
  | Some j => PTE (Z.shiftr (um_page (mapping sp j)) 12) (leaf_flags (um_flags (mapping sp j)))
  | None => 0
  end.

Definition table_pages (sp : task_address_space) : list Z :=
  [as_root sp; as_l1_mmio sp; as_l0_user sp].

Definition mapping_ok (e : user_page_mapping) : Prop :=
  aligned (um_va e) ∧ USER_MIN_VA ≤ um_va e < USER_STACK_TOP
  ∧ 0 ≤ um_flags e ∧ Z.ldiff (um_flags e) RWX = 0.

(** The mapping list and its pages, without the tables. *)
Record space_list (sp : task_address_space) : Prop := {
  sl_count : 0 ≤ as_page_count sp ≤ 64;
  sl_len : length (as_pages sp) = 64%nat;
  sl_pages : Forall dram_page (space_pages sp);
  sl_nodup : NoDup (space_pages sp);
  sl_va : ∀ i, 0 ≤ i < as_page_count sp → mapping_ok (mapping sp i);
  sl_inj : ∀ i j, 0 ≤ i < as_page_count sp → 0 ≤ j < as_page_count sp →
    um_va (mapping sp i) = um_va (mapping sp j) → i = j;
}.

Definition kernel_pages (v : vm_state) : list Z :=
  [kernel_l2 v; kernel_l1_dram v; kernel_l1_mmio v].

(** The tables of the space agree with the list, and share the kernel's part. *)
Record space_ok (v : vm_state) (m : ram_t) (sp : task_address_space) : Prop := {
  so_list : space_list sp;
  so_kernel : Forall (λ p, p ∉ space_pages sp) (kernel_pages v);
  so_root : ∀ i, 0 ≤ i < 512 → pte m (as_root sp) i =
    if i =? 0 then PTE (Z.shiftr (as_l1_mmio sp) 12) PTE_V else pte m (kernel_l2 v) i;
  so_l1 : ∀ i, 0 ≤ i < 512 → strip_ad (pte m (as_l1_mmio sp) i) =
    if i =? 0 then PTE (Z.shiftr (as_l0_user sp) 12) (Z.lor PTE_V PTE_U) else mmio_pte i;
  so_l0 : ∀ i, 0 ≤ i < 512 → strip_ad (pte m (as_l0_user sp) i) = user_pte sp i;
  so_satp : as_satp sp = Z.lor SATP_SV39 (Z.shiftr (as_root sp) 12);
}.

Lemma page_base_eq va : is_u64 va → page_base va = PAGE_SIZE * (va / PAGE_SIZE).
Proof. apply land_page_mask. Qed.

Lemma find_mapping_Some sp va i :
  find_mapping sp va = Some i →
  0 ≤ i < as_page_count sp ∧ um_va (mapping sp i) = page_base va.
Proof.
  unfold find_mapping. intros (Hi & Hp & _)%find_from_Some. bsimp.
  split; [|done]. lia.
Qed.

Lemma find_mapping_None sp va :
  find_mapping sp va = None →
  ∀ i, 0 ≤ i < as_page_count sp → um_va (mapping sp i) ≠ page_base va.
Proof.
  unfold find_mapping. rewrite find_from_None. intros H i Hi.
  specialize (H i ltac:(lia)). by bsimp.
Qed.

Lemma find_mapping_ext sp va va' :
  page_base va = page_base va' → find_mapping sp va = find_mapping sp va'.
Proof. intros H. unfold find_mapping. by rewrite H. Qed.

Lemma find_mapping_high sp va :
  space_list sp → is_u64 va → USER_STACK_TOP ≤ va → find_mapping sp va = None.
Proof.
  intros Hsp Hva Hhi. destruct (find_mapping sp va) as [i|] eqn:E; [|done].
  apply find_mapping_Some in E as [Hi Hv]. destruct (sl_va _ Hsp _ Hi) as (_ & Hr & _).
  rewrite page_base_eq in Hv by done. unfold USER_STACK_TOP, PAGE_SIZE in *.
  Z.div_mod_to_equations. lia.
Qed.

Lemma mapping_page sp i :
  0 ≤ i < as_page_count sp → um_page (mapping sp i) ∈ space_pages sp.
Proof.
  intros Hi. unfold space_pages. do 3 right.
  apply (list_elem_of_fmap_2 (λ i, um_page (mapping sp i))). apply elem_of_seqZ. lia.
Qed.

Lemma rwx_flags_range flags : 0 ≤ flags → Z.ldiff flags RWX = 0 → 0 ≤ flags < 16.
Proof. intros H0 H. assert (flags ≤ RWX) by (apply Z.ldiff_le; done). change RWX with 14 in *. lia. Qed.

Lemma leaf_flags_range flags : 0 ≤ flags < 16 → 0 ≤ leaf_flags flags < 1024.
Proof.
  intros H. unfold leaf_flags.
  assert (flags ∈ seqZ 0 16) as Hf by (apply elem_of_seqZ; lia). revert Hf. clear H.
  change (seqZ 0 16) with [0;1;2;3;4;5;6;7;8;9;10;11;12;13;14;15].
  rewrite !elem_of_cons, elem_of_nil. intros Hf.
  repeat (destruct Hf as [->|Hf]; [vm_compute; by split|]). done.
Qed.

Lemma leaf_flags_bits flags mask :
  Z.land mask (Z.lor PTE_U PTE_V) = 0 → Z.land (leaf_flags flags) mask = Z.land flags mask.
Proof.
  intros H. unfold leaf_flags. rewrite Z.land_lor_distr_l, (Z.land_comm (Z.lor PTE_U PTE_V)), H.
  by rewrite Z.lor_0_r.
Qed.

(** ** What the MMU does with such a space *)

Section walks.
Context (v : vm_state) (c : csr_file) (m : ram_t) (sp : task_address_space).
Hypothesis Hk : kernel_tables m v.
Hypothesis Hsp : space_ok v m sp.
Hypothesis Hsatp : csr_load SATP c = as_satp sp.

Lemma space_satp_root : satp_root c (as_root sp).
Proof using Hsp Hsatp.
  split; [|by rewrite Hsatp, (so_satp _ _ _ Hsp)].
  eapply (proj1 (Forall_forall _ _) (sl_pages _ (so_list _ _ _ Hsp))). by left.
Qed.

Lemma space_l1_page : dram_page (as_l1_mmio sp).
Proof using Hsp.
  eapply (proj1 (Forall_forall _ _) (sl_pages _ (so_list _ _ _ Hsp))). right. by left.
Qed.

Lemma space_l0_page : dram_page (as_l0_user sp).
Proof using Hsp.
  eapply (proj1 (Forall_forall _ _) (sl_pages _ (so_list _ _ _ Hsp))). do 2 right. by left.
Qed.

(** The result of a walk below 2 MiB. *)
Definition user_walk (type : AccessType) (mode vaddr : Z) : Exception + Z :=
  match find_mapping sp vaddr with
  | None => inl (Exc LoadPageFault vaddr)
  | Some i =>
      match leaf_fault type mode (leaf_flags (um_flags (mapping sp i))) with
      | Some e => inl (Exc e vaddr)
      | None => inr (um_page (mapping sp i) + vaddr mod PAGE_SIZE)
      end
  end.

Lemma translate_user_page vaddr type mode :
  0 ≤ vaddr < MEGAPAGE →
  (translate c m vaddr type mode).1 = user_walk type mode vaddr.
Proof using Hsp Hsatp.
  intros Hv. unfold MEGAPAGE in Hv.
  assert (vpn 2 vaddr = 0 ∧ vpn 1 vaddr = 0 ∧ vpn 0 vaddr = vaddr / 4096) as (V2 & V1 & V0).
  { rewrite !vpn_mod by lia. change (2 ^ (12 + 9 * 2)) with 1073741824.
    change (2 ^ (12 + 9 * 1)) with 2097152. change (2 ^ (12 + 9 * 0)) with 4096.
    Z.div_mod_to_equations. lia. }
  pose proof space_satp_root as Hroot. pose proof space_l1_page as H1. pose proof space_l0_page as H0.
  rewrite (translate_l1 _ _ (as_root sp) (as_l1_mmio sp) PTE_V) by
    (done || rewrite V2; by rewrite (so_root _ _ _ Hsp 0)).
  cbv zeta. pose proof (so_l1 _ _ _ Hsp 0 ltac:(lia)) as E1. rewrite Z.eqb_refl in E1. rewrite V1.
  assert (0 ≤ Z.lor PTE_V PTE_U < 1024) as HVU by done.
  pose proof (table_pte_fields _ _ H0 HVU) as [Ht Hm].
  rewrite <- (bit_strip _ PTE_V), <- is_table_strip, <- (strip_ad_shiftr (pte m (as_l1_mmio sp) 0)), E1
    by done.
  unfold bit, is_table. rewrite !Hm by done. cbn [negb]. rewrite Ht.
  change (negb (negb (Z.land (Z.lor PTE_V PTE_U) PTE_V =? 0))) with false.
  change (negb (Z.land (Z.lor PTE_V PTE_U) (Z.lor PTE_R (Z.lor PTE_W PTE_X)) =? 0)) with false.
  cbn iota. rewrite walk_entry_spec by (done || apply vpn_range).
  pose proof (so_l0 _ _ _ Hsp _ (vpn_range 0 vaddr)) as E0. unfold user_pte in E0.
  rewrite (find_mapping_ext sp _ vaddr) in E0.
  2:{ rewrite V0, !page_base_eq by (unfold PAGE_SIZE; Z.div_mod_to_equations; lia).
      unfold PAGE_SIZE. by rewrite (Z.mul_comm 4096 (vaddr / 4096)), Z.div_mul, Z.mul_comm by lia. }
  unfold user_walk. rewrite <- (bit_strip _ PTE_V) by done. destruct (find_mapping sp vaddr) as [i|] eqn:F.
  - apply find_mapping_Some in F as [Hi _].
    destruct (sl_va _ (so_list _ _ _ Hsp) _ Hi) as (_ & _ & Hf0 & Hf).
    pose proof (rwx_flags_range _ Hf0 Hf) as Hfr.
    pose proof (proj1 (Forall_forall _ _) (sl_pages _ (so_list _ _ _ Hsp)) _ (mapping_page _ _ Hi)) as Hpg.
    destruct (table_pte_fields _ _ Hpg (leaf_flags_range _ Hfr)) as [_ Hm2].
    unfold bit. rewrite E0, Hm2 by done.
    assert (Z.land (leaf_flags (um_flags (mapping sp i))) PTE_V = PTE_V) as ->.
    { unfold leaf_flags. apply Z.bits_inj'. intros n _. rewrite Z.land_spec, !Z.lor_spec.
      by destruct (Z.testbit (um_flags _) n), (Z.testbit PTE_U n), (Z.testbit PTE_V n). }
    change (negb (PTE_V =? 0)) with true. cbn iota.
    apply leaf_page; [done..|]. by apply leaf_flags_range.
  - unfold bit. by rewrite E0.
Qed.

(** Every walk through the space: user pages below 2 MiB, the kernel's
    mappings above. *)
Lemma translate_space vaddr type mode :
  0 ≤ vaddr < 2 ^ 39 →
  (translate c m vaddr type mode).1 =
    if vaddr <? MEGAPAGE then user_walk type mode vaddr
    else walk_result type mode vaddr (kernel_window vaddr).
Proof using Hk Hsp Hsatp.
  intros Hv. destruct (vaddr <? MEGAPAGE) eqn:Hlt; bsimp.
  { apply translate_user_page. lia. }
  pose proof space_satp_root as Hroot. pose proof space_l1_page as H1.
  pose proof (vpn_range 2 vaddr) as R2. pose proof (vpn_range 1 vaddr) as R1.
  pose proof (so_root _ _ _ Hsp _ R2) as Er. destruct (vpn 2 vaddr =? 0) eqn:E0; bsimp.
  - pose proof (so_l1 _ _ _ Hsp _ R1) as E1. rewrite (proj2 (Z.eqb_neq (vpn 1 vaddr) 0)) in E1.
    2:{ rewrite vpn_mod in E0 |- * by lia. unfold MEGAPAGE in *.
        change (2 ^ (12 + 9 * 2)) with 1073741824 in *. change (2 ^ (12 + 9 * 1)) with 2097152.
        Z.div_mod_to_equations. lia. }
    destruct (window_mmio vaddr) as [(base & Hp & Hb & Hbr & Hsum & Hw)|[Hp Hw]]; [done..| |].
    + rewrite (translate_mega c m (as_root sp) (as_l1_mmio sp) base
        (Z.lor PTE_V (Z.lor PTE_R PTE_W))) by (done || congruence).
      by rewrite Hsum, Hw.
    + rewrite (translate_no_l1 c m (as_root sp) (as_l1_mmio sp) PTE_V) by (done || congruence).
      by rewrite Hw.
  - rewrite (kt_l2_entries _ _ Hk _ R2), (proj2 (Z.eqb_neq _ _) E0) in Er.
    pose proof (kernel_walk (csr_store SATP (Z.lor SATP_SV39 (Z.shiftr (kernel_l2 v) 12)) c) m v
      vaddr type mode) as HW.
    destruct (vpn 2 vaddr =? 2) eqn:E2; bsimp.
    + pose proof (kt_dram_entries _ _ Hk _ R1) as He.
      destruct (window_dram vaddr) as [(base & Hp & Hb & Hbr & Hsum & Hw)|[Hp Hw]]; [done..| |].
      * rewrite (translate_mega c m (as_root sp) (kernel_l1_dram v) base (Z.lor PTE_V RWX))
          by (done || apply Hk || congruence). by rewrite Hsum, Hw.
      * rewrite (translate_no_l1 c m (as_root sp) (kernel_l1_dram v) PTE_V)
          by (done || apply Hk || congruence). by rewrite Hw.
    + rewrite (translate_no_root c m (as_root sp)) by (done || rewrite Er; done).
      rewrite <- HW; [|split; [apply Hk|by apply csr_load_store_plain_eq]|done|done].
      rewrite (translate_no_root _ m (kernel_l2 v)); [done|split; [apply Hk|by apply csr_load_store_plain_eq]|].
      rewrite (kt_l2_entries _ _ Hk _ R2).
      by rewrite (proj2 (Z.eqb_neq _ _) E0), (proj2 (Z.eqb_neq _ _) E2).
Qed.
End walks.

(** ** Frames *)

Lemma strip_outside ps m m' t i :
  same_outside ps m m' → aligned t → Forall aligned ps → t ∉ ps → 0 ≤ i < 512 →
  strip_ad (pte m' t i) = strip_ad (pte m t i).
Proof. intros. f_equal. by eapply pte_outside. Qed.

Lemma kernel_tables_frame v m m' ps :
  kernel_tables m v → same_outside ps m m' → Forall aligned ps →
  Forall (λ p, p ∉ ps) (kernel_pages v) → kernel_tables m' v.
Proof.
  intros Hk Hs Ha Hn. unfold kernel_pages in Hn. rewrite !Forall_cons in Hn.
  destruct Hn as (N2 & Nd & Nm & _). destruct Hk as [K2 Kd Km Kn E2 Ed Em]. split; try done.
  - intros i Hi. rewrite (pte_outside ps m) by (done || apply K2). auto.
  - intros i Hi. rewrite (strip_outside ps m) by (done || apply Kd). auto.
  - intros i Hi. rewrite (strip_outside ps m) by (done || apply Km). auto.
Qed.

Lemma space_page sp p : space_list sp → p ∈ space_pages sp → dram_page p.
Proof. intros H. apply (proj1 (Forall_forall _ _) (sl_pages _ H)). Qed.

Lemma table_space_page sp p : p ∈ table_pages sp → p ∈ space_pages sp.
Proof. unfold table_pages, space_pages. rewrite !elem_of_cons, elem_of_nil. tauto. Qed.

Lemma space_ok_frame v m m' sp ps :
  space_ok v m sp → kernel_tables m v → same_outside ps m m' → Forall aligned ps →
  Forall (λ p, p ∉ ps) (kernel_pages v) → Forall (λ p, p ∉ ps) (table_pages sp) →
  space_ok v m' sp.
Proof.
  intros Hsp Hk Hs Ha Hn Hm. unfold table_pages in Hm. rewrite !Forall_cons in Hm.
  destruct Hm as (Nr & N1 & N0 & _). unfold kernel_pages in Hn. rewrite !Forall_cons in Hn.
  destruct Hn as (N2 & _). destruct Hsp as [Sl Sk Sr S1 S0 St].
  assert (∀ p, p ∈ [as_root sp; as_l1_mmio sp; as_l0_user sp] → aligned p) as Hal.
  { intros p Hp. apply (space_page sp p Sl). unfold space_pages.
    rewrite !elem_of_cons in Hp |- *. rewrite elem_of_nil in Hp. tauto. }
  split; try done.
  - intros i Hi. rewrite (pte_outside ps m m' (as_root sp)), (pte_outside ps m m' (kernel_l2 v)).
    all: first [done | apply Hal; by left | apply Hk | auto].
  - intros i Hi. rewrite (strip_outside ps m m' (as_l1_mmio sp)); try done; auto.
    apply Hal. right. by left.
  - intros i Hi. rewrite (strip_outside ps m m' (as_l0_user sp)); try done; auto.
    apply Hal. do 2 right. by left.
Qed.

(** ** The kernel's memory

    [kmem start v F s]: the allocator represents the free pages [F], memory
    holds bytes, and the kernel tables are intact and not free. *)

Record kmem (start : Z) (v : vm_state) (F : gset Z) (s : mem_state) : Prop := {
  km_rep : mem_rep start F s;
  km_ram : ram_ok (ram s);
  km_tables : kernel_tables (ram s) v;
  km_kernel : Forall (λ p, p ∉ F) (kernel_pages v);
}.

Section kernel_memory.
Context (start : Z) (v : vm_state).
Implicit Types (F : gset Z) (s : mem_state) (sp : task_address_space).

Lemma km_page F s p : kmem start v F s → is_page start p → dram_page p.
Proof using. intros H. eapply heap_dram_page, (rep_start _ _ _ (km_rep _ _ _ _ H)). Qed.

Lemma km_free_page F s p : kmem start v F s → p ∈ F → is_page start p ∧ dram_page p ∧ p ∉ kernel_pages v.
Proof using.
  intros H Hp. pose proof (rep_free_page _ _ _ _ (km_rep _ _ _ _ H) Hp) as Hi.
  split; [done|]. split; [by eapply km_page|]. intros Hk.
  by apply (proj1 (Forall_forall _ _) (km_kernel _ _ _ _ H) _ Hk).
Qed.

Lemma km_write F s ps m' :
  kmem start v F s → same_outside ps (ram s) m' → ram_ok m' →
  Forall (λ p, aligned p ∧ p ∉ F ∧ p ∉ kernel_pages v) ps →
  kmem start v F (s <| ram := m' |>).
Proof using.
  intros [Hr Hm Ht Hk] Hs Hm' Hps. split; cbn [ram set_field]; try done.
  - eapply mem_rep_frame; [done..|]. eapply Forall_impl; [exact Hps|]. by intros p (? & ? & _).
  - eapply kernel_tables_frame; [done..| |].
    + eapply Forall_impl; [exact Hps|]. by intros p (? & _).
    + rewrite Forall_forall in Hps |- *. intros p Hp Hin. by apply Hps in Hin as (_ & _ & ?).
Qed.

Lemma km_kalloc F s p s' :
  kmem start v F s → kalloc s = (p, s') →
  (p = 0 ∧ F = ∅ ∧ kmem start v F s' ∧ ram s' = ram s)
  ∨ (p ∈ F ∧ p ≠ 0 ∧ is_page start p ∧ dram_page p ∧ p ∉ kernel_pages v
     ∧ kmem start v (F ∖ {[p]}) s' ∧ ram s' = ram s).
Proof using.
  intros H Hk. destruct (kalloc_cases _ _ _ _ _ (km_rep _ _ _ _ H) Hk)
    as [(-> & -> & Hr & He)|(Hp & Hn & Hi & Hr & He)].
  - left. split_and!; try done. destruct H. split; rewrite ?He; done.
  - right. destruct (km_free_page _ _ _ H Hp) as (_ & Hd & Hnk). split_and!; try done; [apply Hd..|].
    destruct H as [_ Hm Ht Hkp]. split; rewrite ?He; try done.
    eapply Forall_impl; [exact Hkp|]. intros q. cbn beta. set_solver.
Qed.

Lemma km_kfree F s p :
  kmem start v F s → is_page start p → p ∉ F → p ∉ kernel_pages v →
  kmem start v ({[p]} ∪ F) (kfree p s) ∧ same_outside [p] (ram s) (ram (kfree p s)).
Proof using.
  intros H Hi Hn Hnk. pose proof (km_page _ _ _ H Hi) as [Ha Hd].
  assert (ram (kfree p s) = store64 (ram s) p (free_list s)) as Hram.
  { unfold kfree. destruct Hi as [Hi _]. pose proof (rep_start _ _ _ (km_rep _ _ _ _ H)) as [Hs0 _].
    unfold _kernel_start, _stack_top, STACK_GUARD in *.
    rewrite (proj2 (Z.eqb_neq p 0)), land_page_offset by lia. rewrite Ha. cbn [negb Z.eqb].
    by rewrite (proj2 (Z.ltb_ge p _)), (proj2 (Z.leb_gt _ p)) by lia. }
  assert (same_outside [p] (ram s) (ram (kfree p s))) as Hs.
  { rewrite Hram. apply (same_outside_store p); unfold le64, PAGE_SIZE;
      rewrite ?length_le_encode; [by left|lia..]. }
  split; [|done]. split.
  - apply kfree_refines_aux; [apply H|done|done].
  - rewrite Hram. apply ram_ok_store64, H.
  - eapply kernel_tables_frame; [apply H|exact Hs|by repeat constructor|].
    rewrite Forall_forall. intros q Hq [->|[]%elem_of_nil]%elem_of_cons. done.
  - apply Forall_forall. intros q Hq. pose proof (proj1 (Forall_forall _ _) (km_kernel _ _ _ _ H) _ Hq).
    cbn beta in *. rewrite elem_of_union, elem_of_singleton. intros [->|]; done.
Qed.

(** Freeing a list of pages that are held. *)
Definition kfree_all (ps : list Z) (s : mem_state) : mem_state := foldl (λ s p, kfree p s) s ps.

Definition held (F : gset Z) (ps : list Z) : Prop :=
  NoDup ps ∧ Forall (λ p, is_page start p ∧ p ∉ F ∧ p ∉ kernel_pages v) ps.

Lemma held_nil F : held F [].
Proof using. split; constructor. Qed.

Lemma held_cons F p ps :
  held F (p :: ps) ↔ (is_page start p ∧ p ∉ F ∧ p ∉ kernel_pages v) ∧ p ∉ ps ∧ held F ps.
Proof using. unfold held. rewrite NoDup_cons, Forall_cons. tauto. Qed.

Lemma km_kfree_all F s ps :
  kmem start v F s → held F ps →
  kmem start v (list_to_set ps ∪ F) (kfree_all ps s) ∧ same_outside ps (ram s) (ram (kfree_all ps s)).
Proof using.
  revert F s. induction ps as [|p ps IH]; intros F s Hk Hh; simpl.
  - by rewrite (left_id_L ∅ (∪)).
  - apply held_cons in Hh as ((Hi & Hn & Hnk) & Hnp & Hnd & Hh).
    destruct (km_kfree F s p) as [Hk1 Hs1]; [done..|].
    destruct (IH _ _ Hk1) as [Hk2 Hs2].
    + split; [done|]. rewrite Forall_forall in Hh |- *. intros q Hq.
      destruct (Hh q Hq) as (? & ? & ?). split_and!; try done.
      rewrite elem_of_union, elem_of_singleton. intros [->|]; done.
    + split.
      * by replace ({[p]} ∪ list_to_set ps ∪ F) with (list_to_set ps ∪ ({[p]} ∪ F)) by set_solver.
      * etrans.
        { eapply same_outside_mono; [|exact Hs1]. intros x ->%list_elem_of_singleton. by left. }
        eapply same_outside_mono; [|exact Hs2]. by intros x ?; right.
Qed.
End kernel_memory.

(** ** [user_space_destroy] *)

Definition mapped_pages (sp : task_address_space) : list Z :=
  (λ i, um_page (mapping sp i)) <$> seqZ 0 (as_page_count sp).

Definition destroy_list (sp : task_address_space) : list Z :=
  mapped_pages sp ++ [as_l0_user sp; as_l1_mmio sp; as_root sp].

Lemma kfree_guard p s : (if negb (p =? 0) then kfree p s else s) = kfree p s.
Proof. unfold kfree. by destruct (p =? 0). Qed.

Lemma kfree_all_app ps qs s : kfree_all (ps ++ qs) s = kfree_all qs (kfree_all ps s).
Proof. apply foldl_app. Qed.

Lemma kfree_all_filter ps s : kfree_all (filter (λ p, p ≠ 0) ps) s = kfree_all ps s.
Proof.
  revert s. induction ps as [|p ps IH]; intros s; [done|]. rewrite filter_cons.
  case_decide as Hp; simpl; [apply IH|]. rewrite IH. assert (p = 0) as -> by lia. done.
Qed.

Lemma fold_for_seqZ {S} (f : Z → S → S) n i s :
  fold_for n i f s = foldl (λ s j, f j s) s (seqZ i (Z.of_nat n)).
Proof.
  revert i s. induction n as [|n IH]; intros i s; [done|].
  rewrite seqZ_cons by lia. simpl. rewrite IH. do 2 f_equal; lia.
Qed.

Lemma user_space_destroy_eq sp s :
  0 ≤ as_page_count sp →
  user_space_destroy sp s = (zero_space, kfree_all (destroy_list sp) s).
Proof.
  intros Hc. unfold user_space_destroy, destroy_list. cbv zeta.
  rewrite !kfree_guard, kfree_all_app. simpl. do 4 f_equal.
  rewrite fold_for_seqZ, Z2Nat.id by done. unfold kfree_all, mapped_pages.
  generalize (seqZ 0 (as_page_count sp)). intros l. revert s.
  induction l as [|i l IH]; intros s; simpl; [done|]. by rewrite kfree_guard, IH.
Qed.

Lemma destroy_list_perm sp : destroy_list sp ≡ₚ space_pages sp.
Proof.
  unfold destroy_list, space_pages. fold (mapped_pages sp).
  rewrite (Permutation_app_comm (mapped_pages sp)).
  apply (Permutation_app_tail (mapped_pages sp) (l := [_; _; _]) (l' := [_; _; _])).
  etrans; [apply Permutation_rev|]. done.
Qed.

Lemma held_perm start v F ps qs : ps ≡ₚ qs → held start v F ps → held start v F qs.
Proof. unfold held. by intros ->. Qed.

Lemma same_outside_perm ps qs m m' : ps ≡ₚ qs → same_outside ps m m' → same_outside qs m m'.
Proof. intros Hp. apply same_outside_mono. intros x. by rewrite Hp. Qed.

(** Every page of the space goes back to the allocator, and only those pages
    are written. *)
Lemma user_space_destroy_spec start v F s sp :
  kmem start v F s → held start v F (space_pages sp) → 0 ≤ as_page_count sp →
  ∃ s', user_space_destroy sp s = (zero_space, s') ∧
    kmem start v (list_to_set (space_pages sp) ∪ F) s' ∧
    same_outside (space_pages sp) (ram s) (ram s').
Proof.
  intros Hk Hh Hc. rewrite user_space_destroy_eq by done. eexists. split; [reflexivity|].
  pose proof (destroy_list_perm sp) as Hp.
  destruct (km_kfree_all start v F s (destroy_list sp)) as [H1 H2]; [done|by eapply held_perm|].
  split.
  - by replace (list_to_set (C := gset Z) (space_pages sp)) with
      (list_to_set (C := gset Z) (destroy_list sp)) by (by rewrite Hp).
  - by eapply same_outside_perm.
Qed.

(** ** [create_empty_space] *)

Definition fresh_space (root l1 l0 : Z) : task_address_space :=
  MkSpace root l1 l0 (replicate 64 um_zero) 0 (Z.lor SATP_SV39 (Z.shiftr root 12)).

Section fresh.
Context (v : vm_state) (root l1 l0 : Z) (m : ram_t).
Hypothesis Hk : kernel_tables m v.
Hypothesis Hm : ram_ok m.
Hypothesis Dr : dram_page root.
Hypothesis D1 : dram_page l1.
Hypothesis D0 : dram_page l0.
Hypothesis Hnd : NoDup [root; l1; l0].
Hypothesis Hnk : Forall (λ p, p ∉ [root; l1; l0]) (kernel_pages v).

Let Ar : aligned root := proj1 Dr.
Let A1 : aligned l1 := proj1 D1.
Let A0 : aligned l0 := proj1 D0.
Let Ak : aligned (kernel_l2 v) := proj1 (kt_l2 _ _ Hk).
Let Am : aligned (kernel_l1_mmio v) := proj1 (kt_mmio _ _ Hk).

Let fresh_ne : root ≠ l1 ∧ root ≠ l0 ∧ l1 ≠ l0.
Proof. rewrite !NoDup_cons, !elem_of_cons in Hnd. tauto. Qed.

Let kernel_ne :
  (kernel_l2 v ∉ [root; l1; l0]) ∧ (kernel_l1_mmio v ∉ [root; l1; l0]).
Proof. unfold kernel_pages in Hnk. rewrite !Forall_cons in Hnk. tauto. Qed.

Lemma fresh_tables_outside : same_outside [root; l1; l0] m (fresh_tables v root l1 l0 m).
Proof using.
  unfold fresh_tables. apply set_pte_outside; [right; by left|lia|].
  apply set_pte_outside; [by left|lia|].
  etrans; [|apply zero_page_outside; do 2 right; by left].
  etrans; [|apply copy_page_outside; right; by left].
  apply copy_page_outside. by left.
Qed.

Lemma fresh_tables_ram : ram_ok (fresh_tables v root l1 l0 m).
Proof using Hm.
  apply ram_ok_store64, ram_ok_store64, ram_ok_zero_page, ram_ok_copy_page, ram_ok_copy_page, Hm.
Qed.

Lemma fresh_root i :
  0 ≤ i < 512 → pte (fresh_tables v root l1 l0 m) root i =
    if i =? 0 then PTE (Z.shiftr l1 12) PTE_V else pte m (kernel_l2 v) i.
Proof using Hk Hm Dr D1 D0 Hnd Hnk.
  intros Hi. destruct fresh_ne as (N1 & N2 & N3). destruct kernel_ne as [K2 Km].
  assert (root ≠ kernel_l2 v) by (intros E; apply K2; rewrite <- E; by left).
  unfold fresh_tables.
  rewrite pte_set_other; [|done..|lia|done|by apply page_pte_range].
  rewrite pte_set_same; [|done|lia|done|by apply page_pte_range]. destruct (i =? 0); [done|].
  rewrite (pte_zero_other l0), (pte_copy_other l1) by assumption. by apply pte_copy_page.
Qed.

Lemma fresh_l1 i :
  0 ≤ i < 512 → strip_ad (pte (fresh_tables v root l1 l0 m) l1 i) =
    if i =? 0 then PTE (Z.shiftr l0 12) (Z.lor PTE_V PTE_U) else mmio_pte i.
Proof using Hk Hm Dr D1 D0 Hnd Hnk.
  intros Hi. destruct fresh_ne as (N1 & N2 & N3). destruct kernel_ne as [K2 Km].
  assert (l1 ≠ kernel_l1_mmio v) by (intros E; apply Km; rewrite <- E; right; by left).
  assert (root ≠ kernel_l1_mmio v) by (intros E; apply Km; rewrite <- E; by left).
  unfold fresh_tables.
  rewrite pte_set_same; [|done|lia|done|by apply page_pte_range]. destruct (i =? 0).
  { pose proof (dram_page_ppn _ D0) as [? _]. by apply strip_ad_id. }
  rewrite pte_set_other; [|done|done|by apply not_eq_sym|lia|done|by apply page_pte_range].
  rewrite (pte_zero_other l0) by assumption.
  rewrite pte_copy_page by (assumption || by apply ram_ok_copy_page).
  rewrite (pte_copy_other root) by (assumption || by apply not_eq_sym).
  by apply (kt_mmio_entries _ _ Hk).
Qed.

Lemma fresh_l0 i : 0 ≤ i < 512 → pte (fresh_tables v root l1 l0 m) l0 i = 0.
Proof using Dr D1 D0 Hnd.
  intros Hi. destruct fresh_ne as (N1 & N2 & N3). unfold fresh_tables.
  rewrite pte_set_other by (assumption || lia || by apply not_eq_sym || by apply page_pte_range).
  rewrite pte_set_other by (assumption || lia || by apply not_eq_sym || by apply page_pte_range).
  by apply pte_zero_page.
Qed.

Lemma fresh_space_ok : space_ok v (fresh_tables v root l1 l0 m) (fresh_space root l1 l0).
Proof using Hk Hm Dr D1 D0 Hnd Hnk.
  destruct kernel_ne as [K2 Km]. split; cbn [as_root as_l1_mmio as_l0_user as_satp fresh_space].
  - split; try done; try (intros; cbn in *; lia).
    unfold space_pages. cbn [as_root as_l1_mmio as_l0_user fresh_space].
    rewrite seqZ_nil by done. by rewrite !Forall_cons.
  - done.
  - intros i Hi. rewrite fresh_root by done. bcase; [done|].
    symmetry. apply (pte_outside [root; l1; l0]); try done; [apply fresh_tables_outside|].
    by repeat constructor.
  - exact fresh_l1.
  - intros i Hi. rewrite fresh_l0 by done. done.
  - done.
Qed.
End fresh.

(** A space whose pages are held by the kernel. *)
Definition space_in (start : Z) (v : vm_state) (F : gset Z) (m : ram_t) (sp : task_address_space)
    : Prop := space_ok v m sp ∧ held start v F (space_pages sp).

Lemma held_subset start v (F F' : gset Z) ps :
  F' ⊆ F → held start v F ps → held start v F' ps.
Proof.
  intros Hsub [Hn Hf]. split; [done|]. eapply Forall_impl; [exact Hf|].
  intros p (? & ? & ?). split_and!; try done. intros ?. set_solver.
Qed.

Lemma space_pages_fresh root l1 l0 : space_pages (fresh_space root l1 l0) = [root; l1; l0].
Proof. unfold space_pages. cbn [fresh_space as_root as_l1_mmio as_l0_user as_page_count]. by rewrite seqZ_nil. Qed.

Section create.
Context (start : Z) (v : vm_state).

(** Some of the three allocations failed: what was obtained is given back. *)
Lemma create_fail F s0 s ps root l1 l0 :
  kmem start v ∅ s → held start v ∅ ps → ram s = ram s0 → F = list_to_set ps →
  filter (λ p, p ≠ 0) [l0; l1; root] = ps →
  ∃ s', user_space_destroy
      (zero_space <| as_root := root |> <| as_l1_mmio := l1 |> <| as_l0_user := l0 |>) s
      = (zero_space, s') ∧ kmem start v F s' ∧ same_outside (elements F) (ram s0) (ram s').
Proof using.
  intros Hk Hh Hr -> Hp. rewrite user_space_destroy_eq by done.
  eexists. split; [reflexivity|]. rewrite <- kfree_all_filter.
  unfold destroy_list, mapped_pages. rewrite seqZ_nil by done. cbn [fmap list_fmap app].
  cbn [as_l0_user as_l1_mmio as_root set_field zero_space]. rewrite Hp.
  destruct (km_kfree_all start v ∅ s ps) as [H1 H2]; [done..|].
  rewrite (right_id_L ∅ (∪)) in H1. split; [done|].
  rewrite Hr in H2. eapply same_outside_mono; [|exact H2]. intros x Hx.
  by rewrite elem_of_elements, elem_of_list_to_set.
Qed.

Lemma create_empty_space_spec F s sp0 :
  kmem start v F s →
  ∃ rc sp s', create_empty_space v sp0 s = (rc, sp, s') ∧
  ((rc = 0 ∧ as_page_count sp = 0 ∧ ∃ F', kmem start v F' s' ∧ space_in start v F' (ram s') sp ∧
      F = list_to_set (space_pages sp) ∪ F' ∧
      same_outside (space_pages sp) (ram s) (ram s'))
   ∨ (rc = -1 ∧ sp = zero_space ∧ (size F < 3)%nat ∧ kmem start v F s' ∧
      same_outside (elements F) (ram s) (ram s'))).
Proof using.
  intros Hk. unfold create_empty_space.
  destruct (kt_l2 _ _ (km_tables _ _ _ _ Hk)) as [_ Hb2].
  destruct (kt_mmio _ _ (km_tables _ _ _ _ Hk)) as [_ Hbm].
  rewrite (proj2 (Z.eqb_neq (kernel_l2 v) 0)), (proj2 (Z.eqb_neq (kernel_l1_mmio v) 0))
    by (unfold DRAM_BASE in *; lia). cbn [orb].
  destruct (kalloc s) as [root s1] eqn:E1. destruct (kalloc s1) as [l1 s2] eqn:E2.
  destruct (kalloc s2) as [l0 s3] eqn:E3. cbv zeta.
  assert (∀ ps, kmem start v ∅ s3 → held start v ∅ ps → ram s3 = ram s → F = list_to_set ps →
    filter (λ p, p ≠ 0) [l0; l1; root] = ps → (length ps < 3)%nat →
    ∃ rc sp s', (let '(sp, s) := user_space_destroy (zero_space <| as_root := root |>
        <| as_l1_mmio := l1 |> <| as_l0_user := l0 |>) s3 in (-1, sp, s)) = (rc, sp, s') ∧
      (rc = -1 ∧ sp = zero_space ∧ (size F < 3)%nat ∧ kmem start v F s' ∧
      same_outside (elements F) (ram s) (ram s'))) as Hfail.
  { intros ps K Hh HR HF Hp Hl.
    destruct (create_fail F s s3 ps root l1 l0) as (s' & -> & K' & S'); [done..|].
    eexists _, _, _. split; [reflexivity|]. split_and!; try done.
    rewrite HF, size_list_to_set by apply Hh. done. }
  destruct (km_kalloc _ _ _ _ _ _ Hk E1) as [(-> & -> & K1 & R1)|(P1 & N1 & I1 & D1 & NK1 & K1 & R1)].
  { destruct (km_kalloc _ _ _ _ _ _ K1 E2) as [(-> & _ & K2 & R2)|(P2 & _)]; [|set_solver].
    destruct (km_kalloc _ _ _ _ _ _ K2 E3) as [(-> & _ & K3 & R3)|(P3 & _)]; [|set_solver].
    cbn [orb Z.eqb]. destruct (Hfail []) as (? & ? & ? & -> & ?); try done;
      [apply held_nil|congruence|simpl; lia|eauto 10]. }
  rewrite (proj2 (Z.eqb_neq root 0)) by done. cbn [orb].
  destruct (km_kalloc _ _ _ _ _ _ K1 E2) as [(-> & HF1 & K2 & R2)|(P2 & N2 & I2 & D2 & NK2 & K2 & R2)].
  { rewrite HF1 in K2.
    destruct (km_kalloc _ _ _ _ _ _ K2 E3) as [(-> & _ & K3 & R3)|(P3 & _)]; [|set_solver].
    cbn [orb Z.eqb]. destruct (Hfail [root]) as (? & ? & ? & -> & ?); try done; [..|eauto 10].
    - rewrite held_cons. split; [split; [done|set_solver]|split; [apply not_elem_of_nil|apply held_nil]].
    - congruence.
    - apply set_eq. intros x. destruct (decide (x = root)); set_solver.
    - rewrite !filter_cons. repeat case_decide; done || lia.
    - simpl. lia. }
  rewrite (proj2 (Z.eqb_neq l1 0)) by done. cbn [orb].
  assert (root ≠ l1) as N12 by (clear - P2; set_solver).
  destruct (km_kalloc _ _ _ _ _ _ K2 E3) as [(-> & HF2 & K3 & R3)|(P3 & N3 & I3 & D3 & NK3 & K3 & R3)].
  { rewrite HF2 in K3. cbn [orb Z.eqb].
    destruct (Hfail [l1; root]) as (? & ? & ? & -> & ?); try done; [..|eauto 10].
    - rewrite !held_cons. split_and!; try done; try apply I1; try apply I2; try apply held_nil.
      + intros ?%list_elem_of_singleton. congruence.
      + apply not_elem_of_nil.
    - congruence.
    - clear - P1 P2 HF2. apply set_eq. intros x.
      destruct (decide (x = root)); [set_solver|]. destruct (decide (x = l1)); set_solver.
    - rewrite !filter_cons. repeat case_decide; done || lia.
    - simpl. lia. }
  rewrite (proj2 (Z.eqb_neq l0 0)) by done. cbn [orb].
  assert (root ≠ l0 ∧ l1 ≠ l0) as [N13 N23] by (clear - P3; set_solver).
  pose proof (NoDup_three _ _ _ N12 N13 N23) as Hnd.
  assert (Forall (λ p, p ∉ [root; l1; l0]) (kernel_pages v)) as Hnk.
  { apply Forall_forall. intros p Hp. rewrite !elem_of_cons, elem_of_nil. naive_solver. }
  exists 0, (fresh_space root l1 l0), (s3 <| ram := fresh_tables v root l1 l0 (ram s3) |>).
  split; [reflexivity|]. left. split; [done|]. split; [done|].
  exists (F ∖ {[root]} ∖ {[l1]} ∖ {[l0]}). rewrite !space_pages_fresh. cbn [ram set_field].
  assert (ram s3 = ram s) as R by congruence.
  assert (held start v (F ∖ {[root]} ∖ {[l1]} ∖ {[l0]}) [root; l1; l0]) as Hh.
  { split; [done|]. rewrite !Forall_cons. split_and!; try done; try apply I1; try apply I2;
      try apply I3; clear; set_solver. }
  split_and!.
  - eapply (km_write start v _ s3 [root; l1; l0]); [done|apply fresh_tables_outside| |].
    + apply fresh_tables_ram, (km_ram _ _ _ _ K3).
    + destruct Hh as [_ Hh]. eapply Forall_impl; [exact Hh|].
      intros p (Hp & ? & ?). split_and!; try done. apply Hp.
  - split; [|by rewrite space_pages_fresh].
    apply fresh_space_ok; try done; apply K3.
  - clear - P1 P2 P3. apply set_eq. intros x. destruct (decide (x = root)); [set_solver|].
    destruct (decide (x = l1)); [set_solver|]. destruct (decide (x = l0)); set_solver.
  - rewrite <- R. apply fresh_tables_outside.
Qed.
End create.

(** ** [map_user_page] *)

Section mappings.
Context (sp : task_address_space).
Hypothesis Hsp : space_list sp.

Lemma mapping_set i e j :
  0 ≤ i < as_page_count sp → 0 ≤ j < as_page_count sp →
  mapping (set_mapping i e sp) j = if decide (j = i) then e else mapping sp j.
Proof using Hsp.
  intros Hi Hj. pose proof (sl_count _ Hsp). pose proof (sl_len _ Hsp).
  unfold mapping, set_mapping. cbn [as_pages set_field]. case_decide as Hd.
  - subst. rewrite aget_aset_eq; [done|lia].
  - rewrite aget_aset_ne; [done|lia..].
Qed.

Lemma find_mapping_set i e va :
  0 ≤ i < as_page_count sp → um_va e = um_va (mapping sp i) →
  find_mapping (set_mapping i e sp) va = find_mapping sp va.
Proof using Hsp.
  intros Hi He. unfold find_mapping. change (as_page_count (set_mapping i e sp)) with (as_page_count sp).
  apply find_from_ext. intros j Hj. rewrite mapping_set by lia. case_decide; [by subst; rewrite He|done].
Qed.

Lemma space_pages_set i e :
  0 ≤ i < as_page_count sp → um_page e = um_page (mapping sp i) →
  space_pages (set_mapping i e sp) = space_pages sp.
Proof using Hsp.
  intros Hi He. unfold space_pages. cbn [as_root as_l1_mmio as_l0_user as_page_count set_mapping set_field].
  do 3 f_equal. apply list_fmap_ext. intros k j Hj%list_elem_of_lookup_2%elem_of_seqZ.
  rewrite mapping_set by lia. case_decide; [by subst|done].
Qed.

Lemma space_list_set i e :
  0 ≤ i < as_page_count sp → um_page e = um_page (mapping sp i) →
  um_va e = um_va (mapping sp i) → mapping_ok e → space_list (set_mapping i e sp).
Proof using Hsp.
  intros Hi Hp Hv He. pose proof (space_pages_set i e Hi Hp) as Hpg. destruct Hsp as [H1 H2 H3 H4 H5 H6].
  split; rewrite ?Hpg; try done.
  - change (as_pages (set_mapping i e sp)) with (aset (as_pages sp) i e). by rewrite length_aset.
  - intros j Hj. rewrite mapping_set by done. case_decide; [done|]. by apply H5.
  - intros j k Hj Hk. change (as_page_count (set_mapping i e sp)) with (as_page_count sp) in *.
    rewrite !mapping_set by done. intros E. apply H6; [done..|].
    repeat case_decide; subst; congruence.
Qed.

Hypothesis Hroom : as_page_count sp < 64.

Lemma add_mapping_count e : as_page_count (add_mapping e sp) = as_page_count sp + 1.
Proof using Hsp Hroom.
  pose proof (sl_count _ Hsp). cbn [add_mapping as_page_count set_field]. apply u32_small. lia.
Qed.

Lemma mapping_add e j :
  0 ≤ j → mapping (add_mapping e sp) j = if decide (j = as_page_count sp) then e else mapping sp j.
Proof using Hsp Hroom.
  intros Hj. pose proof (sl_count _ Hsp). pose proof (sl_len _ Hsp).
  unfold mapping, add_mapping. cbn [as_pages set_field]. case_decide as Hd.
  - subst. rewrite aget_aset_eq; [done|lia].
  - rewrite aget_aset_ne; [done|lia..].
Qed.

Lemma find_mapping_add e va :
  find_mapping (add_mapping e sp) va =
    match find_mapping sp va with
    | Some i => Some i
    | None => if um_va e =? page_base va then Some (as_page_count sp) else None
    end.
Proof using Hsp Hroom.
  pose proof (sl_count _ Hsp). unfold find_mapping. rewrite add_mapping_count.
  replace (Z.to_nat (as_page_count sp + 1)) with (S (Z.to_nat (as_page_count sp))) by lia.
  rewrite find_from_snoc.
  rewrite (find_from_ext _ 0 _ (λ i, um_va (mapping sp i) =? page_base va)).
  2:{ intros j Hj. rewrite mapping_add, decide_False by lia. done. }
  rewrite Z.add_0_l, Z2Nat.id, mapping_add, decide_True by lia. done.
Qed.

Lemma space_pages_add e : space_pages (add_mapping e sp) = space_pages sp ++ [um_page e].
Proof using Hsp Hroom.
  pose proof (sl_count _ Hsp). unfold space_pages. rewrite add_mapping_count.
  cbn [as_root as_l1_mmio as_l0_user add_mapping set_field app]. do 3 f_equal.
  rewrite seqZ_app by lia. rewrite fmap_app. f_equal.
  - apply list_fmap_ext. intros k j Hj%list_elem_of_lookup_2%elem_of_seqZ.
    fold (add_mapping e sp). rewrite mapping_add, decide_False by lia. done.
  - rewrite Z.add_0_l, seqZ_cons, seqZ_nil by lia. cbn [fmap list_fmap]. fold (add_mapping e sp).
    rewrite mapping_add, decide_True by lia. done.
Qed.

Lemma space_list_add e :
  mapping_ok e → dram_page (um_page e) → um_page e ∉ space_pages sp →
  find_mapping sp (um_va e) = None → space_list (add_mapping e sp).
Proof using Hsp Hroom.
  intros He Hd Hn Hf. pose proof (sl_count _ Hsp) as Hc.
  assert (page_base (um_va e) = um_va e) as Hb.
  { destruct He as (Ha & Hr & _). unfold aligned, USER_MIN_VA, USER_STACK_TOP, PAGE_SIZE in *.
    rewrite page_base_eq by lia. unfold PAGE_SIZE. Z.div_mod_to_equations. lia. }
  pose proof (find_mapping_None _ _ Hf) as Hnone. rewrite Hb in Hnone.
  split; rewrite ?space_pages_add, ?add_mapping_count.
  - lia.
  - cbn [add_mapping as_pages set_field]. rewrite length_aset. apply Hsp.
  - apply Forall_app_2; [apply Hsp|by constructor].
  - apply NoDup_app. split_and!; [apply Hsp| |apply NoDup_singleton].
    intros x Hx ->%list_elem_of_singleton. done.
  - intros i Hi. rewrite mapping_add by lia. case_decide; [done|]. apply Hsp. lia.
  - intros i j Hi Hj. rewrite !mapping_add by lia. repeat case_decide; try lia.
    + intros E. subst. destruct (Hnone j); [lia|done].
    + intros E. subst. destruct (Hnone i); [lia|done].
    + apply Hsp; lia.
Qed.
End mappings.

Definition good_va (va : Z) : Prop := aligned va ∧ USER_MIN_VA ≤ va < USER_STACK_TOP.

Lemma good_va_test va :
  0 ≤ va →
  ((va <? USER_MIN_VA) || (USER_STACK_TOP <=? va) || negb (Z.land va (PAGE_SIZE - 1) =? 0)) = false
  ↔ good_va va.
Proof.
  intros Hv. rewrite land_page_offset by done. rewrite !orb_false_iff, negb_false_iff.
  rewrite Z.ltb_ge, Z.leb_gt, Z.eqb_eq. unfold good_va, aligned. tauto.
Qed.

Lemma good_va_base va : good_va va → page_base va = va ∧ l0_index va = va / PAGE_SIZE
  ∧ 0 ≤ va / PAGE_SIZE < 512 ∧ ∀ i, (PAGE_SIZE * i = va ↔ i = va / PAGE_SIZE).
Proof.
  unfold good_va, aligned, USER_MIN_VA, USER_STACK_TOP. intros [Ha Hr].
  rewrite page_base_eq by lia. change (l0_index va) with (vpn 0 va). rewrite vpn_mod by lia.
  change (2 ^ (12 + 9 * 0)) with 4096. unfold PAGE_SIZE in *.
  split_and!; try (Z.div_mod_to_equations; lia).
Qed.

Lemma page_base_index i : 0 ≤ i < 512 → page_base (PAGE_SIZE * i) = PAGE_SIZE * i.
Proof.
  intros. rewrite page_base_eq by (unfold PAGE_SIZE; lia). f_equal.
  unfold PAGE_SIZE. rewrite Z.mul_comm. apply Z.div_mul. lia.
Qed.

(** The byte a user program sees at an address. *)
Definition user_byte (sp : task_address_space) (m : ram_t) (va : Z) : option Z :=
  (λ i, load8 m (um_page (mapping sp i) + va mod PAGE_SIZE)) <$> find_mapping sp va.
Definition user_flags (sp : task_address_space) (va : Z) : option Z :=
  (λ i, um_flags (mapping sp i)) <$> find_mapping sp va.

Lemma load8_outside ps m m' q k :
  same_outside ps m m' → aligned q → Forall aligned ps → q ∉ ps → 0 ≤ k < PAGE_SIZE →
  load8 m' (q + k) = load8 m (q + k).
Proof.
  intros Hs Hq Hps Hn Hk. unfold load8. rewrite Hs; [done|].
  rewrite Forall_forall in *. intros p Hp.
  apply (page_disjoint q); [done|by apply Hps|congruence|lia].
Qed.

Lemma user_byte_outside sp ps m m' va :
  space_list sp → same_outside ps m m' → Forall aligned ps →
  Forall (λ p, p ∉ ps) (mapped_pages sp) → user_byte sp m' va = user_byte sp m va.
Proof.
  intros Hsp Hs Ha Hn. unfold user_byte. destruct (find_mapping sp va) as [i|] eqn:E; [|done].
  apply find_mapping_Some in E as [Hi _]. simpl. f_equal.
  apply (load8_outside ps); try done.
  - by apply (space_page sp), mapping_page.
  - apply (proj1 (Forall_forall _ _) Hn). unfold mapped_pages.
    apply (list_elem_of_fmap_2 (λ i, um_page (mapping sp i))), elem_of_seqZ. lia.
  - apply Z.mod_pos_bound. unfold PAGE_SIZE. lia.
Qed.

Section map_page.
Context (start : Z) (v : vm_state).

Lemma table_pages_ne sp :
  space_list sp →
  as_root sp ≠ as_l0_user sp ∧ as_l1_mmio sp ≠ as_l0_user sp ∧
  Forall (λ p, p ∉ [as_l0_user sp]) (mapped_pages sp) ∧
  aligned (as_root sp) ∧ aligned (as_l1_mmio sp) ∧ aligned (as_l0_user sp).
Proof using.
  intros Hsp. pose proof (sl_nodup _ Hsp) as Hn. pose proof (sl_pages _ Hsp) as Hp.
  unfold space_pages in Hn, Hp. fold (mapped_pages sp) in Hn, Hp.
  rewrite !NoDup_cons, !elem_of_cons in Hn. rewrite !Forall_cons in Hp.
  destruct Hp as (Hr & H1 & H0 & _). destruct Hn as (Nr & N1 & N0 & _).
  split_and!; [tauto|tauto| |apply Hr|apply H1|apply H0].
  apply Forall_forall. intros p Hp ->%list_elem_of_singleton. done.
Qed.

(** Installing one entry of the level-0 table. *)
Lemma space_ok_l0 m sp sp' idx p :
  kernel_tables m v → space_ok v m sp → space_list sp' →
  as_root sp' = as_root sp → as_l1_mmio sp' = as_l1_mmio sp → as_l0_user sp' = as_l0_user sp →
  as_satp sp' = as_satp sp → Forall (λ p, p ∉ space_pages sp') (kernel_pages v) →
  0 ≤ idx < 512 → is_u64 p → strip_ad p = user_pte sp' idx →
  (∀ i, 0 ≤ i < 512 → i ≠ idx → user_pte sp' i = user_pte sp i) →
  space_ok v (set_pte (as_l0_user sp) idx p m) sp'.
Proof using.
  intros Hk [Sl Sk Sr S1 S0 St] Hl Er E1 E0 Es Hkp Hidx Hp Hnew Hold.
  destruct (table_pages_ne sp Sl) as (Nr & N1 & _ & Ar & A1 & A0).
  assert (kernel_l2 v ≠ as_l0_user sp) as Nk.
  { unfold kernel_pages in Sk. rewrite Forall_cons in Sk. destruct Sk as [Sk _].
    intros E. apply Sk. rewrite E. do 2 right. by left. }
  split; rewrite ?Er, ?E1, ?E0, ?Es; try done.
  - intros i Hi. rewrite !pte_set_other by (assumption || apply (kt_l2 _ _ Hk)). auto.
  - intros i Hi. rewrite pte_set_other by assumption. auto.
  - intros i Hi. rewrite pte_set_same by assumption. destruct (i =? idx) eqn:E; bsimp.
    + by subst.
    + rewrite Hold by done. auto.
Qed.
Definition map_view (va flags : Z) (sp sp' : task_address_space) (m m' : ram_t) : Prop :=
  (∀ a, user_byte sp' m' a =
     if decide (page_base a = va) then Some (default 0 (user_byte sp m a)) else user_byte sp m a)
  ∧ (∀ a, user_flags sp' a =
     if decide (page_base a = va) then Some (Z.lor (default 0 (user_flags sp a)) flags)
     else user_flags sp a).

Lemma leaf_pte_ok page flags :
  dram_page page → 0 ≤ flags → Z.ldiff flags RWX = 0 →
  is_u64 (PTE (Z.shiftr page 12) (leaf_flags flags)) ∧
  strip_ad (PTE (Z.shiftr page 12) (leaf_flags flags)) = PTE (Z.shiftr page 12) (leaf_flags flags).
Proof using.
  intros Hd H0 Hf. pose proof (rwx_flags_range _ H0 Hf) as Hr.
  pose proof (leaf_flags_range _ Hr) as Hl. split; [by apply page_pte_range|].
  apply strip_ad_id; [by apply dram_page_ppn|done|].
  rewrite leaf_flags_bits by done. apply Z.bits_inj'. intros n Hn.
  pose proof (f_equal (λ z, Z.testbit z n) Hf) as Hb. cbn beta in Hb.
  rewrite Z.ldiff_spec, Z.bits_0 in Hb. rewrite Z.land_spec, Z.bits_0.
  assert (Z.testbit RWX n && Z.testbit AD n = false) as Hx
    by (rewrite <- Z.land_spec; by rewrite Z.bits_0).
  by destruct (Z.testbit flags n), (Z.testbit RWX n), (Z.testbit AD n).
Qed.

Lemma lor_rwx f g : Z.ldiff f RWX = 0 → Z.ldiff g RWX = 0 → Z.ldiff (Z.lor f g) RWX = 0.
Proof using.
  intros Hf Hg. apply Z.bits_inj'. intros n Hn.
  pose proof (f_equal (λ z, Z.testbit z n) Hf) as H1. pose proof (f_equal (λ z, Z.testbit z n) Hg) as H2.
  cbn beta in H1, H2. rewrite Z.ldiff_spec, Z.bits_0 in H1, H2 |- *. rewrite Z.lor_spec.
  by destruct (Z.testbit f n), (Z.testbit g n), (Z.testbit RWX n).
Qed.

(** A page that is already mapped gains permissions. *)
Lemma map_existing F s sp va flags i :
  kmem start v F s → space_in start v F (ram s) sp → good_va va →
  0 ≤ flags → Z.ldiff flags RWX = 0 → find_mapping sp va = Some i →
  let e := (mapping sp i) <| um_flags := Z.lor (um_flags (mapping sp i)) flags |> in
  let m := set_pte (as_l0_user sp) (l0_index va)
    (PTE (Z.shiftr (um_page e) 12) (leaf_flags (um_flags e))) (ram s) in
  kmem start v F (s <| ram := m |>) ∧ space_in start v F m (set_mapping i e sp) ∧
  space_pages (set_mapping i e sp) = space_pages sp ∧
  same_outside (space_pages sp) (ram s) m ∧ map_view va flags sp (set_mapping i e sp) (ram s) m.
Proof using.
  intros Hk [Hok Hh] Hva Hf0 Hf Hi e m. pose proof (so_list _ _ _ Hok) as Sl.
  destruct (find_mapping_Some _ _ _ Hi) as [Hir Hiv].
  destruct (good_va_base _ Hva) as (Hb & Hidx & Hidxr & Hiff).
  destruct (table_pages_ne sp Sl) as (Nr & N1 & Nm & Ar & A1 & A0).
  pose proof (sl_va _ Sl _ Hir) as (Ev & Evr & Ef0 & Ef).
  assert (mapping_ok e) as He.
  { split; [exact Ev|]. split; [exact Evr|]. split; [by apply Z.lor_nonneg|by apply lor_rwx]. }
  pose proof (space_pages_set sp Sl i e Hir eq_refl) as Hpg.
  assert (same_outside [as_l0_user sp] (ram s) m) as Hs1.
  { apply set_pte_outside; [by left|lia|done]. }
  assert (same_outside (space_pages sp) (ram s) m) as Hs.
  { eapply same_outside_mono; [|exact Hs1]. intros x ->%list_elem_of_singleton. do 2 right. by left. }
  assert (dram_page (um_page e)) as Hd by (by apply (space_page sp), mapping_page).
  destruct (leaf_pte_ok (um_page e) (um_flags e)) as [Hp Hst]; [done|apply He..|].
  assert (ram_ok m) as Hrm by (apply ram_ok_store64, Hk).
  refine (conj _ (conj _ (conj Hpg (conj Hs (conj _ _))))).
  - eapply km_write; [done|exact Hs|done|]. eapply Forall_impl; [apply Hh|].
    intros p (Hp' & ? & ?). split_and!; try done. apply Hp'.
  - split; [|by rewrite Hpg]. unfold m. rewrite Hidx.
    apply (space_ok_l0 _ sp _ (va / PAGE_SIZE)); try done.
    + apply Hk.
    + by apply space_list_set.
    + rewrite Hpg. apply Hok.
    + rewrite Hst. unfold user_pte. rewrite find_mapping_set by done.
      rewrite (proj2 (Hiff _) eq_refl), Hi, mapping_set, decide_True by done. done.
    + intros j Hj Hne. unfold user_pte. rewrite find_mapping_set by done.
      destruct (find_mapping sp (PAGE_SIZE * j)) as [k|] eqn:Ek; [|done].
      destruct (find_mapping_Some _ _ _ Ek) as [Hkr Hkv]. rewrite mapping_set by done.
      rewrite decide_False; [done|]. intros ->. rewrite Hiv, Hb, page_base_index in Hkv by done.
      by apply Hne, Hiff.
  - intros a. rewrite <- (user_byte_outside sp [as_l0_user sp] (ram s) m) by (done || by constructor).
    unfold user_byte. rewrite find_mapping_set by done. case_decide as Ha.
    + rewrite (find_mapping_ext sp a va) by congruence. rewrite Hi. simpl.
      rewrite mapping_set, decide_True by done. done.
    + destruct (find_mapping sp a) as [k|] eqn:Ek; [|done]. simpl.
      destruct (find_mapping_Some _ _ _ Ek) as [Hkr Hkv]. rewrite mapping_set by done.
      by case_decide; subst.
  - intros a. unfold user_flags. rewrite find_mapping_set by done. case_decide as Ha.
    + rewrite (find_mapping_ext sp a va) by congruence. rewrite Hi. simpl.
      rewrite mapping_set, decide_True by done. done.
    + destruct (find_mapping sp a) as [k|] eqn:Ek; [|done]. simpl.
      destruct (find_mapping_Some _ _ _ Ek) as [Hkr Hkv]. rewrite mapping_set by done.
      rewrite decide_False; [done|]. intros ->. congruence.
Qed.
(** A fresh page is mapped. *)
Lemma map_fresh F s sp va flags page :
  kmem start v (F ∖ {[page]}) s → space_in start v F (ram s) sp → good_va va →
  0 ≤ flags → Z.ldiff flags RWX = 0 → find_mapping sp va = None → as_page_count sp < 64 →
  page ∈ F → is_page start page → dram_page page → page ∉ kernel_pages v →
  let e := MkMapping va page flags in
  let m := set_pte (as_l0_user sp) (l0_index va)
    (PTE (Z.shiftr page 12) (leaf_flags flags)) (zero_page page (ram s)) in
  kmem start v (F ∖ {[page]}) (s <| ram := m |>) ∧
  space_in start v (F ∖ {[page]}) m (add_mapping e sp) ∧
  space_pages (add_mapping e sp) = space_pages sp ++ [page] ∧
  same_outside (space_pages sp ++ [page]) (ram s) m ∧
  map_view va flags sp (add_mapping e sp) (ram s) m.
Proof using.
  intros Hk [Hok Hh] Hva Hf0 Hf Hnone Hroom Hpf Hpi Hd Hpk e m. pose proof (so_list _ _ _ Hok) as Sl.
  destruct (good_va_base _ Hva) as (Hb & Hidx & Hidxr & Hiff).
  destruct (table_pages_ne sp Sl) as (Nr & N1 & Nm & Ar & A1 & A0).
  assert (page ∉ space_pages sp) as Hpn.
  { intros Hin. by apply (proj1 (Forall_forall _ _) (proj2 Hh)) in Hin as (_ & ? & _). }
  assert (mapping_ok e) as He by (split; [apply Hva|split; [apply Hva|done]]).
  pose proof (space_pages_add sp Sl Hroom e) as Hpg. cbn [um_page e] in Hpg.
  pose proof (sl_count _ Sl) as Hc.
  assert (same_outside [page] (ram s) (zero_page page (ram s))) as Hz
    by (apply zero_page_outside; by left).
  assert (same_outside [page; as_l0_user sp] (ram s) m) as Hs1.
  { apply set_pte_outside; [right; by left|lia|].
    eapply same_outside_mono; [|exact Hz]. intros x ->%list_elem_of_singleton. by left. }
  assert (same_outside (space_pages sp ++ [page]) (ram s) m) as Hs.
  { eapply same_outside_mono; [|exact Hs1]. intros x. rewrite !elem_of_cons, elem_of_nil, elem_of_app.
    intros [->|[->|[]]]; [right; by left|left; do 2 right; by left]. }
  destruct (leaf_pte_ok page flags) as [Hp Hst]; [done..|].
  assert (ram_ok m) as Hrm by (apply ram_ok_store64, ram_ok_zero_page, Hk).
  assert (held start v (F ∖ {[page]}) (space_pages sp ++ [page])) as Hh'.
  { destruct Hh as [Hnd Hf']. split.
    - apply NoDup_app. split; [done|]. split; [|apply NoDup_singleton].
      by intros x Hx ->%list_elem_of_singleton.
    - apply Forall_app_2; [|repeat constructor; try apply Hpi; [set_solver|done]].
      eapply Forall_impl; [exact Hf'|]. intros p (? & ? & ?). split; [done|]. split; [set_solver|done]. }
  assert (Forall (λ p, p ∉ [page]) (kernel_pages v)) as Hkp.
  { apply Forall_forall. by intros p Hp' ->%list_elem_of_singleton. }
  refine (conj _ (conj _ (conj Hpg (conj Hs (conj _ _))))).
  - eapply km_write; [done|exact Hs|done|]. eapply Forall_impl; [apply Hh'|].
    intros p (Hp' & ? & ?). split; [apply Hp'|done].
  - split; [|by rewrite Hpg]. unfold m. rewrite Hidx.
    apply (space_ok_l0 (zero_page page (ram s)) sp _ (va / PAGE_SIZE));
      [ | | |reflexivity|reflexivity|reflexivity|reflexivity| |exact Hidxr|exact Hp| | ].
    + eapply kernel_tables_frame; [apply Hk|exact Hz|by constructor; [apply Hd|]|done].
    + eapply space_ok_frame; [exact Hok|apply Hk|exact Hz|by constructor; [apply Hd|]|done|].
      apply Forall_forall. by intros p Hp'%table_space_page ->%list_elem_of_singleton.
    + apply space_list_add; done.
    + rewrite Hpg. eapply Forall_impl; [apply Forall_and; split; [apply Hok|exact Hkp]|].
      intros p [? ?]. rewrite elem_of_app. tauto.
    + rewrite Hst. unfold user_pte. rewrite find_mapping_add by done.
      rewrite (proj2 (Hiff _) eq_refl), Hnone. cbn [um_va e]. rewrite Hb, Z.eqb_refl.
      rewrite mapping_add, decide_True by (done || lia). done.
    + intros j Hj Hne. unfold user_pte. rewrite find_mapping_add by done.
      destruct (find_mapping sp (PAGE_SIZE * j)) as [k|] eqn:Ek.
      * destruct (find_mapping_Some _ _ _ Ek) as [Hkr Hkv].
        by rewrite mapping_add, decide_False by (done || lia).
      * rewrite page_base_index by done. cbn [um_va e].
        rewrite (proj2 (Z.eqb_neq va _)); [done|]. intros E. by apply Hne, Hiff.
  - intros a. unfold user_byte. rewrite find_mapping_add by done. cbn [um_va e]. case_decide as Ha.
    + rewrite (find_mapping_ext sp a va), Hnone, Ha, Z.eqb_refl by congruence. cbn [fmap option_fmap option_map].
      rewrite mapping_add, decide_True by (done || lia). cbn [um_page e default]. f_equal.
      assert (0 ≤ a mod PAGE_SIZE < PAGE_SIZE) as Hm by (apply Z.mod_pos_bound; unfold PAGE_SIZE; lia).
      unfold m. rewrite (load8_outside [as_l0_user sp] (zero_page page (ram s))).
      * by rewrite load8_zero_page, decide_True by lia.
      * apply set_pte_outside; [by left|lia|done].
      * apply Hd.
      * by constructor.
      * intros ->%list_elem_of_singleton. apply Hpn. do 2 right. by left.
      * done.
    + rewrite (proj2 (Z.eqb_neq va _)) by congruence.
      destruct (find_mapping sp a) as [k|] eqn:Ek; [|done]. cbn [fmap option_fmap option_map].
      destruct (find_mapping_Some _ _ _ Ek) as [Hkr Hkv].
      rewrite mapping_add, decide_False by (done || lia). f_equal.
      apply (load8_outside [page; as_l0_user sp]); try done.
      * by apply (space_page sp), mapping_page.
      * constructor; [apply Hd|by constructor].
      * rewrite !elem_of_cons, elem_of_nil. intros [E|[E|[]]].
        -- apply Hpn. rewrite <- E. by apply mapping_page.
        -- apply (proj1 (Forall_forall _ _) Nm (um_page (mapping sp k))); [|rewrite E; by left].
           unfold mapped_pages. apply (list_elem_of_fmap_2 (λ i, um_page (mapping sp i))), elem_of_seqZ. lia.
      * apply Z.mod_pos_bound. unfold PAGE_SIZE. lia.
  - intros a. unfold user_flags. rewrite find_mapping_add by done. cbn [um_va e]. case_decide as Ha.
    + rewrite (find_mapping_ext sp a va), Hnone, Ha, Z.eqb_refl by congruence. cbn [fmap option_fmap option_map].
      by rewrite mapping_add, decide_True by (done || lia).
    + rewrite (proj2 (Z.eqb_neq va _)) by congruence.
      destruct (find_mapping sp a) as [k|] eqn:Ek; [|done]. cbn [fmap option_fmap option_map].
      destruct (find_mapping_Some _ _ _ Ek) as [Hkr Hkv].
      by rewrite mapping_add, decide_False by (done || lia).
Qed.

(** [map_user_page] on every branch. *)
Lemma map_user_page_spec F s sp va flags :
  kmem start v F s → space_in start v F (ram s) sp → 0 ≤ va → 0 ≤ flags → Z.ldiff flags RWX = 0 →
  ∃ rc sp' s', map_user_page va flags sp s = (rc, sp', s') ∧
  ((rc = -1 ∧ sp' = sp ∧ kmem start v F s' ∧ ram s' = ram s ∧
      (¬ good_va va ∨ find_mapping sp va = None ∧ (as_page_count sp = 64 ∨ F = ∅)))
   ∨ (rc = 0 ∧ good_va va ∧ ∃ F', kmem start v F' s' ∧ space_in start v F' (ram s') sp' ∧
      list_to_set (space_pages sp') ∪ F' = list_to_set (space_pages sp) ∪ F ∧
      space_pages sp ⊆ space_pages sp' ∧ same_outside (space_pages sp') (ram s) (ram s') ∧
      as_page_count sp' = as_page_count sp +
        (match find_mapping sp va with Some _ => 0 | None => 1 end) ∧
      map_view va flags sp sp' (ram s) (ram s'))).
Proof using.
  intros Hk Hin Hva0 Hf0 Hf. destruct Hin as [Hok Hh]. pose proof (so_list _ _ _ Hok) as Sl.
  pose proof (sl_count _ Sl) as Hc. unfold map_user_page.
  destruct ((va <? USER_MIN_VA) || _ || _) eqn:Ht.
  { eexists _, _, _. split; [reflexivity|]. left. split_and!; try done. left.
    rewrite <- good_va_test by done. by rewrite Ht. }
  apply good_va_test in Ht; [|done]. destruct (find_mapping sp va) as [i|] eqn:Hi.
  - destruct (map_existing F s sp va flags i) as (H1 & H2 & H3 & H4 & H5); [done..|].
    eexists _, _, _. split; [reflexivity|]. right. split; [done|]. split; [done|]. exists F.
    split; [exact H1|]. split; [exact H2|].
    rewrite H3. split; [done|]. split; [done|]. split; [exact H4|]. split; [|exact H5].
    symmetry. apply Z.add_0_r.
  - destruct (USER_MAX_PAGES <=? as_page_count sp) eqn:Hm; bsimp; unfold USER_MAX_PAGES in Hm.
    { eexists _, _, _. split; [reflexivity|]. left. split_and!; try done. right. split; [done|]. left. lia. }
    destruct (kalloc s) as [page s1] eqn:Ek.
    destruct (km_kalloc _ _ _ _ _ _ Hk Ek) as [(-> & -> & K1 & R1)|(P & N & I & D & NK & K1 & R1)].
    { eexists _, _, _. split; [reflexivity|]. left. split_and!; try done. right. auto. }
    rewrite (proj2 (Z.eqb_neq page 0)) by done.
    destruct (map_fresh F s1 sp va flags page) as (H1 & H2 & H3 & H4 & H5); try done;
      [by rewrite R1|].
    eexists _, _, _. split; [reflexivity|]. right. split; [done|]. split; [done|].
    exists (F ∖ {[page]}). split; [exact H1|]. split; [exact H2|].
    rewrite H3. rewrite <- R1.
    split; [|split; [by apply list_subseteq_app_l|split; [exact H4|split; [by apply add_mapping_count|exact H5]]]].
    rewrite list_to_set_app_L. cbn [list_to_set].
    clear - P. apply set_eq. intros x. destruct (decide (x = page)); set_solver.
Qed.
End map_page.
