(* ===== verification/UserMem.v ===== *)
(** * Theorems about user memory (os/kernel/user.c)

    The operations are defined in [AddrSpace]; here are the theorems on [fork]'s
    copy of an address space, on the kernel's routines that copy bytes to and from
    user space, and on what a user program can reach through the MMU. *)

From S2P Require Import Prelude Csr Mem Vm AddrSpace.

(** ** [user_space_clone] *)

Lemma mapping_page_inj sp i j :
  space_list sp → 0 ≤ i < as_page_count sp → 0 ≤ j < as_page_count sp →
  um_page (mapping sp i) = um_page (mapping sp j) → i = j.
Proof.
  intros Hsp Hi Hj E. pose proof (sl_nodup _ Hsp) as Hn. unfold space_pages in Hn.
  rewrite !NoDup_cons in Hn. destruct Hn as (_ & _ & _ & Hn).
  assert (Z.to_nat i = Z.to_nat j); [|lia].
  eapply NoDup_lookup; [exact Hn| |]; rewrite list_lookup_fmap, lookup_seqZ_lt by lia; simpl;
    [done|]. rewrite !Z2Nat.id, !Z.add_0_l by lia. by rewrite E.
Qed.

Lemma mapped_not_table sp i :
  space_list sp → 0 ≤ i < as_page_count sp → um_page (mapping sp i) ∉ table_pages sp.
Proof.
  intros Hsp Hi. pose proof (sl_nodup _ Hsp) as Hn.
  change (space_pages sp) with (table_pages sp ++ mapped_pages sp) in Hn.
  apply NoDup_app in Hn as (_ & Hd & _). intros Hin. apply (Hd _ Hin).
  unfold mapped_pages. apply (list_elem_of_fmap_2 (λ i, um_page (mapping sp i))), elem_of_seqZ. lia.
Qed.

(** Overwriting one mapped page changes the bytes of that page only. *)
Lemma user_byte_page sp m m' i f :
  space_list sp → 0 ≤ i < as_page_count sp →
  same_outside [um_page (mapping sp i)] m m' →
  (∀ k, 0 ≤ k < PAGE_SIZE → load8 m' (um_page (mapping sp i) + k) = f k) →
  ∀ a, user_byte sp m' a =
    if decide (find_mapping sp a = Some i) then Some (f (a mod PAGE_SIZE)) else user_byte sp m a.
Proof.
  intros Hsp Hi Hs Hf a. unfold user_byte.
  assert (0 ≤ a mod PAGE_SIZE < PAGE_SIZE) as Hm by (apply Z.mod_pos_bound; unfold PAGE_SIZE; lia).
  destruct (find_mapping sp a) as [j|] eqn:E.
  - cbn [fmap option_fmap option_map]. case_decide as Hd.
    + injection Hd as ->. f_equal. auto.
    + f_equal. destruct (find_mapping_Some _ _ _ E) as [Hj _].
      apply (load8_outside [um_page (mapping sp i)]); try done.
      * by apply (space_page sp), mapping_page.
      * constructor; [|constructor]. by apply (space_page sp), mapping_page.
      * intros Heq%list_elem_of_singleton. apply mapping_page_inj in Heq; [congruence|done..].
  - rewrite decide_False by congruence. done.
Qed.

Section clone.
Context (start : Z) (v : vm_state) (F : gset Z) (s0 : mem_state) (src : task_address_space).
Hypothesis Hsrc : space_in start v F (ram s0) src.

Let Ssrc : space_list src := so_list _ _ _ (proj1 Hsrc).

(** What the child sees after [k] rounds. *)
Definition clone_view {A} (k : Z) (f : Z → option A) (a : Z) : option A :=
  match find_mapping src a with Some j => if j <? k then f a else None | None => None end.

Definition clone_inv (k : Z) (st : task_address_space * mem_state) : Prop :=
  let '(dst, s) := st in
  ∃ Fk, kmem start v Fk s ∧ space_in start v Fk (ram s) dst ∧
    F = list_to_set (space_pages dst) ∪ Fk ∧ as_page_count dst = k ∧
    same_outside (elements F) (ram s0) (ram s) ∧
    (∀ a, user_byte dst (ram s) a = clone_view k (user_byte src (ram s0)) a) ∧
    (∀ a, user_flags dst a = clone_view k (user_flags src) a).

Definition clone_failed (rc : Z) (st : task_address_space * mem_state) : Prop :=
  rc = -1 ∧ st.1 = zero_space ∧ kmem start v F st.2 ∧
  same_outside (elements F) (ram s0) (ram st.2) ∧
  Z.of_nat (size F) < 3 + as_page_count src.

Lemma src_mapping_find k a :
  0 ≤ k < as_page_count src → find_mapping src a = Some k ↔ page_base a = um_va (mapping src k).
Proof using Hsrc.
  intros Hk. split.
  - by intros [_ <-]%find_mapping_Some.
  - intros Hb. destruct (find_mapping src a) as [j|] eqn:E.
    + apply find_mapping_Some in E as [Hj Hv]. f_equal. apply (sl_inj _ Ssrc); congruence.
    + by destruct (find_mapping_None _ _ E k Hk).
Qed.

Lemma clone_view_skip {A} k (f : Z → option A) a :
  0 ≤ k → find_mapping src a ≠ Some k → clone_view k f a = clone_view (k + 1) f a.
Proof using.
  intros Hk Hne. unfold clone_view. destruct (find_mapping src a) as [j|]; [|done].
  assert (j ≠ k) by congruence.
  destruct (j <? k) eqn:?, (j <? k + 1) eqn:?; bsimp; done || lia.
Qed.

Lemma src_page_stable s k :
  same_outside (elements F) (ram s0) (ram s) → 0 ≤ k < as_page_count src →
  Forall aligned (elements F) →
  ∀ o, 0 ≤ o < PAGE_SIZE →
  load8 (ram s) (um_page (mapping src k) + o) = load8 (ram s0) (um_page (mapping src k) + o).
Proof using Hsrc.
  intros Hs Hk Ha o Ho. apply (load8_outside (elements F)); try done.
  - by apply (space_page src), mapping_page.
  - rewrite elem_of_elements. by apply (proj1 (Forall_forall _ _) (proj2 (proj2 Hsrc))), mapping_page.
Qed.
Lemma elements_aligned : kmem start v F s0 → Forall aligned (elements F).
Proof using.
  intros Hk. apply Forall_forall. intros p Hp%elem_of_elements.
  by destruct (km_free_page _ _ _ _ _ Hk Hp) as ([_ ?] & _).
Qed.

Lemma space_pages_in_F dst s (Fk : gset Z) :
  F = list_to_set (space_pages dst) ∪ Fk →
  same_outside (space_pages dst) (ram s0) (ram s) → same_outside (elements F) (ram s0) (ram s).
Proof using.
  intros HF. apply same_outside_mono. intros x Hx. rewrite elem_of_elements, HF.
  apply elem_of_union_l. by apply elem_of_list_to_set.
Qed.

Lemma clone_destroy k dst s Fk rc dst' s' :
  kmem start v Fk s → space_in start v Fk (ram s) dst → F = list_to_set (space_pages dst) ∪ Fk →
  as_page_count dst = k → same_outside (elements F) (ram s0) (ram s) → Fk = ∅ → k < as_page_count src →
  user_space_destroy dst s = (dst', s') → rc = -1 → clone_failed rc (dst', s').
Proof using.
  intros Hk [Hok Hh] HF Hc Hs HFk Hlt Hd ->. pose proof (sl_count _ (so_list _ _ _ Hok)) as Hcr.
  destruct (user_space_destroy_spec start v Fk s dst) as (s1 & Hd' & Hk' & Hs'); [done..|lia|].
  rewrite Hd in Hd'. injection Hd' as -> ->. rewrite <- HF in Hk'.
  unfold clone_failed. cbn [fst snd]. split; [done|]. split; [done|]. split; [done|]. split.
  - etrans; [exact Hs|]. eapply same_outside_mono; [|exact Hs']. intros x Hx.
    rewrite elem_of_elements, HF. apply elem_of_union_l. by apply elem_of_list_to_set.
  - rewrite HF, HFk, (right_id_L ∅ (∪)), size_list_to_set by apply Hh.
    unfold space_pages. cbn [length]. rewrite length_fmap, length_seqZ. lia.
Qed.

(** One round of the loop. *)
Lemma clone_step k st r st' :
  kmem start v F s0 → 0 ≤ k < as_page_count src → clone_inv k st →
  clone_page src k st = (r, st') →
  match r with Some rc => clone_failed rc st' | None => clone_inv (k + 1) st' end.
Proof using Hsrc.
  intros Hk0 Hk Hinv Hstep. destruct st as [dst s].
  destruct Hinv as (Fk & Km & Hin & HF & Hc & Hs & Hbytes & Hflags).
  pose proof (elements_aligned Hk0) as Hal.
  pose proof (sl_va _ Ssrc _ Hk) as (Va & Vr & Vf0 & Vf).
  assert (good_va (um_va (mapping src k))) as Hgood by done.
  destruct (good_va_base _ Hgood) as (Vb & _). set (va := um_va (mapping src k)) in *.
  assert (find_mapping src va = Some k) as Hfk by (by apply src_mapping_find).
  assert (find_mapping dst va = None) as Hfd.
  { specialize (Hflags va). unfold user_flags at 1, clone_view in Hflags. rewrite Hfk in Hflags.
    rewrite Z.ltb_irrefl in Hflags. by destruct (find_mapping dst va). }
  unfold clone_page in Hstep.
  destruct (map_user_page_spec start v Fk s dst va (um_flags (mapping src k)))
    as (rc & dst1 & s1 & Hmap & Hcase); [done|done| |done|done|].
  { destruct Hgood as [_ Hg]. unfold USER_MIN_VA in Hg. lia. }
  fold va in Hstep. rewrite Hmap in Hstep.
  destruct Hcase as [(-> & -> & Km1 & R1 & [Hbad|[_ Hfull]])|(-> & _ & F1 & Km1 & Hin1 & HF1 & Hsub & Hs1 & Hc1 & Hv1)].
  - done.
  - cbn [Z.ltb Z.compare] in Hstep. destruct (user_space_destroy dst s1) as [d' s'] eqn:Hd.
    injection Hstep as <- <-. pose proof (sl_count _ Ssrc).
    apply (clone_destroy k dst s1 Fk); try done; try (by rewrite R1); [|lia].
    destruct Hfull as [?|?]; [lia|done].
  - cbn [Z.ltb Z.compare] in Hstep. rewrite Hfd in Hc1. destruct Hin1 as [Hok1 Hh1].
    pose proof (so_list _ _ _ Hok1) as Sl1. destruct Hv1 as [Hvb Hvf].
    assert (∃ j, find_mapping dst1 va = Some j) as [j Hj].
    { specialize (Hvf va). rewrite decide_True in Hvf by done. unfold user_flags at 1 in Hvf.
      destruct (find_mapping dst1 va) as [j|]; [by exists j|done]. }
    rewrite Hj in Hstep. injection Hstep as <- <-.
    destruct (find_mapping_Some _ _ _ Hj) as [Hjr Hjv].
    set (pg := um_page (mapping dst1 j)) in *. set (q := um_page (mapping src k)) in *.
    set (m2 := copy_page pg q (ram s1)).
    assert (pg ∈ space_pages dst1) as Hpg by (by apply mapping_page).
    assert (F = list_to_set (space_pages dst1) ∪ F1) as HF' by (by rewrite HF1, HF).
    assert (pg ∈ F) as HpF by (rewrite HF'; apply elem_of_union_l; by apply elem_of_list_to_set).
    assert (q ∉ F) as HqF.
    { by apply (proj1 (Forall_forall _ _) (proj2 (proj2 Hsrc))), mapping_page. }
    assert (pg ≠ q) as Hne by congruence.
    pose proof (proj1 (Forall_forall _ _) (proj2 Hh1) _ Hpg) as (Hpi & HpF1 & Hpk).
    pose proof (space_page _ _ Sl1 Hpg) as [Hpa _].
    assert (dram_page q) as [Hqa _] by (by apply (space_page src), mapping_page).
    assert (same_outside [pg] (ram s1) m2) as Hs2 by (apply copy_page_outside; by left).
    assert (same_outside (elements F) (ram s0) (ram s1)) as Hs01.
    { etrans; [exact Hs|]. eapply same_outside_mono; [|exact Hs1]. intros x Hx.
      rewrite elem_of_elements, HF'. apply elem_of_union_l. by apply elem_of_list_to_set. }
    assert (∀ o, 0 ≤ o < PAGE_SIZE → load8 m2 (pg + o) = load8 (ram s0) (q + o)) as Hcopy.
    { intros o Ho. unfold m2.
      rewrite load8_copy_page by (done || apply (km_ram _ _ _ _ Km1)).
      rewrite decide_True by lia. replace (q + (pg + o - pg)) with (q + o) by lia.
      by apply src_page_stable. }
    pose proof (user_byte_page dst1 (ram s1) m2 j _ Sl1 Hjr Hs2 Hcopy) as Hub.
    assert (∀ a, find_mapping dst1 a = Some j ↔ page_base a = va) as Hja.
    { intros a. split; [|intros Ha; by rewrite (find_mapping_ext dst1 a va) by congruence].
      intros [_ Hx]%find_mapping_Some. congruence. }
    exists F1. refine (conj _ (conj _ (conj HF' (conj _ (conj _ (conj _ _)))))); cbn [ram set_field].
    + eapply km_write; [done|exact Hs2|apply ram_ok_copy_page, Km1|by constructor].
    + split; [|done]. eapply space_ok_frame; [exact Hok1|apply Km1|exact Hs2|by constructor| |].
      * apply Forall_forall. by intros p Hp ->%list_elem_of_singleton.
      * apply Forall_forall. intros p Hp ->%list_elem_of_singleton. by eapply mapped_not_table.
    + lia.
    + etrans; [exact Hs01|]. eapply same_outside_mono; [|exact Hs2].
      intros x ->%list_elem_of_singleton. by apply elem_of_elements.
    + intros a. rewrite Hub. destruct (decide (page_base a = va)) as [Ha|Ha].
      * rewrite decide_True by (by apply Hja). unfold clone_view, user_byte.
        rewrite (proj2 (src_mapping_find k a Hk)) by done.
        by rewrite (proj2 (Z.ltb_lt k (k + 1))) by lia.
      * rewrite decide_False by (by rewrite Hja). rewrite Hvb, decide_False, Hbytes by exact Ha.
        apply clone_view_skip; [lia|]. by rewrite src_mapping_find.
    + intros a. rewrite Hvf. destruct (decide (page_base a = va)) as [Ha|Ha].
      * unfold user_flags at 1. rewrite (find_mapping_ext dst a va), Hfd by congruence.
        unfold clone_view, user_flags. rewrite (proj2 (src_mapping_find k a Hk)) by done.
        by rewrite (proj2 (Z.ltb_lt k (k + 1))) by lia.
      * rewrite Hflags. apply clone_view_skip; [lia|]. by rewrite src_mapping_find.
Qed.
Lemma user_space_clone_spec dst0 rc dst s :
  kmem start v F s0 → user_space_clone v dst0 src s0 = (rc, dst, s) →
  (rc = 0 ∧ clone_inv (as_page_count src) (dst, s)) ∨ clone_failed rc (dst, s).
Proof using Hsrc.
  intros Hk Hc. pose proof (sl_count _ Ssrc) as Hcount. unfold user_space_clone in Hc.
  destruct (create_empty_space_spec start v F s0 dst0 Hk) as (rc1 & sp & s1 & Hcr & Hcase).
  rewrite Hcr in Hc.
  destruct Hcase as [(-> & Hpc & F1 & Km & Hin & HF & Hs)|(-> & -> & Hsz & Km & Hs)].
  - cbn [Z.ltb Z.compare] in Hc.
    destruct (for_each (Z.to_nat (as_page_count src)) 0 (clone_page src) (sp, s1)) as [r st] eqn:Hl.
    pose proof (for_each_ind clone_inv clone_failed _ 0 _ _ r st Hl) as H.
    assert (clone_inv 0 (sp, s1)) as H0.
    { exists F1. refine (conj Km (conj Hin (conj HF (conj Hpc (conj _ (conj _ _)))))).
      - by eapply space_pages_in_F.
      - intros a. unfold user_byte at 1, find_mapping at 1, clone_view. rewrite Hpc. simpl.
        destruct (find_mapping src a) as [j|] eqn:E; [|done].
        apply find_mapping_Some in E as [Hj _]. by rewrite (proj2 (Z.ltb_ge j 0)) by lia.
      - intros a. unfold user_flags at 1, find_mapping at 1, clone_view. rewrite Hpc. simpl.
        destruct (find_mapping src a) as [j|] eqn:E; [|done].
        apply find_mapping_Some in E as [Hj _]. by rewrite (proj2 (Z.ltb_ge j 0)) by lia. }
    specialize (H H0). rewrite Z.add_0_l, Z2Nat.id in H by lia.
    assert (match r with Some v => clone_failed v st | None => clone_inv (as_page_count src) st end)
      as Hr.
    { apply H. intros j t o t' Hj Hi Hb. eapply clone_step; [done|lia|done|done]. }
    destruct st as [d s']. destruct r as [rc'|]; injection Hc as <- <- <-; [by right|by left].
  - cbn [Z.ltb Z.compare] in Hc. injection Hc as <- <- <-. right.
    split; [done|]. split; [done|]. split; [done|]. split; [done|]. lia.
Qed.
End clone.

(** ** Copying between kernel buffers and user pages *)

Lemma chunk_at_spec a left :
  0 ≤ a → 0 < left →
  0 < chunk_at a left ≤ left ∧ a mod PAGE_SIZE + chunk_at a left ≤ PAGE_SIZE
  ∧ (chunk_at a left < left → a mod PAGE_SIZE + chunk_at a left = PAGE_SIZE).
Proof.
  intros Ha Hl. unfold chunk_at. rewrite land_page_offset by done.
  assert (0 ≤ a mod PAGE_SIZE < PAGE_SIZE) by (apply Z.mod_pos_bound; unfold PAGE_SIZE; lia).
  destruct (PAGE_SIZE - a mod PAGE_SIZE <? left) eqn:?; bsimp; lia.
Qed.

(** The addresses of one chunk lie in one page. *)
Lemma chunk_page a k :
  0 ≤ a → 0 ≤ k → a mod PAGE_SIZE + k < PAGE_SIZE → a + k < 2 ^ 64 →
  page_base (a + k) = page_base a ∧ (a + k) mod PAGE_SIZE = a mod PAGE_SIZE + k.
Proof.
  intros Ha Hk Hm Hr. rewrite !page_base_eq by lia. unfold PAGE_SIZE in *.
  split; Z.div_mod_to_equations; lia.
Qed.

Lemma same_page_offset a b :
  is_u64 a → is_u64 b → page_base a = page_base b → b - a = b mod PAGE_SIZE - a mod PAGE_SIZE.
Proof.
  intros Ha Hb. rewrite !page_base_eq by done. unfold PAGE_SIZE. Z.div_mod_to_equations. lia.
Qed.

Section copying.
Context (sp : task_address_space).
Hypothesis Hsp : space_list sp.

Lemma mapping_data_page va i :
  find_mapping sp va = Some i →
  dram_page (um_page (mapping sp i)) ∧ um_page (mapping sp i) ∈ mapped_pages sp.
Proof using Hsp.
  intros [Hi _]%find_mapping_Some. split; [by apply (space_page sp), mapping_page|].
  unfold mapped_pages. apply (list_elem_of_fmap_2 (λ i, um_page (mapping sp i))), elem_of_seqZ. lia.
Qed.

(** One chunk written to a mapped page. *)
Lemma store_chunk m a i bs :
  find_mapping sp a = Some i → 0 ≤ a → a + Z.of_nat (length bs) < 2 ^ 64 →
  a mod PAGE_SIZE + Z.of_nat (length bs) ≤ PAGE_SIZE →
  let m' := store_bytes m (um_page (mapping sp i) + a mod PAGE_SIZE) bs in
  same_outside (mapped_pages sp) m m' ∧
  ∀ b, is_u64 b → user_byte sp m' b =
    if decide (a ≤ b < a + Z.of_nat (length bs)) then Some (aget 0 bs (b - a)) else user_byte sp m b.
Proof using Hsp.
  intros Hi Ha Hr Hl m'. destruct (mapping_data_page _ _ Hi) as [_ Hmp].
  destruct (find_mapping_Some _ _ _ Hi) as [Hir Hiv].
  assert (0 ≤ a mod PAGE_SIZE < PAGE_SIZE) as Hw by (apply Z.mod_pos_bound; unfold PAGE_SIZE; lia).
  set (pg := um_page (mapping sp i)) in *.
  assert (same_outside [pg] m m') as Hs by (apply (same_outside_store pg); [by left|lia|lia]).
  split. { eapply same_outside_mono; [|exact Hs]. by intros x ->%list_elem_of_singleton. }
  intros b Hb. rewrite (user_byte_page sp m m' i (λ o, load8 m' (pg + o))) by done.
  case_decide as Hbi.
  - destruct (find_mapping_Some _ _ _ Hbi) as [_ Hbv].
    pose proof (same_page_offset a b ltac:(lia) Hb ltac:(congruence)) as Ho.
    unfold m'. rewrite load8_store_bytes.
    destruct (decide (a ≤ b < a + Z.of_nat (length bs))) as [Hin|Hout].
    + rewrite decide_True by lia. do 2 f_equal. lia.
    + rewrite decide_False by lia. unfold user_byte. by rewrite Hbi.
  - rewrite decide_False; [done|]. intros Hin. apply Hbi. rewrite <- Hi. apply find_mapping_ext.
    replace b with (a + (b - a)) by lia. apply chunk_page; lia.
Qed.

Lemma copy_to_loop_spec fuel dest src done m :
  0 ≤ dest → dest + Z.of_nat (length src) < 2 ^ 64 → 0 ≤ done ≤ Z.of_nat (length src) →
  Z.of_nat (length src) - done < Z.of_nat fuel →
  ∃ rc m', copy_to_loop fuel sp dest src done m = Some (rc, m') ∧
    same_outside (mapped_pages sp) m m' ∧
    ((rc = 0 ∧ (∀ k, done ≤ k < Z.of_nat (length src) → find_mapping sp (dest + k) ≠ None) ∧
        ∀ b, is_u64 b → user_byte sp m' b =
          if decide (dest + done ≤ b < dest + Z.of_nat (length src))
          then Some (aget 0 src (b - dest)) else user_byte sp m b)
     ∨ (rc = -1 ∧ ∃ k, done ≤ k < Z.of_nat (length src) ∧ find_mapping sp (dest + k) = None)).
Proof using Hsp.
  intros Hd Hr. revert done m. induction fuel as [|fuel IH]; intros done m H0 Hf; [lia|].
  cbn [copy_to_loop]. destruct (done <? Z.of_nat (length src)) eqn:Hlt; bsimp.
  2:{ eexists _, _. split; [reflexivity|]. split; [done|]. left. split; [done|].
      split; [intros; lia|]. intros b Hb. rewrite decide_False; [done|lia]. }
  rewrite u64_small by lia. destruct (find_mapping sp (dest + done)) as [i|] eqn:Hi.
  2:{ eexists _, _. split; [reflexivity|]. split; [done|]. right. split; [done|]. by exists done. }
  cbv zeta. rewrite land_page_offset by lia.
  set (chunk := chunk_at (dest + done) (Z.of_nat (length src) - done)).
  destruct (chunk_at_spec (dest + done) (Z.of_nat (length src) - done)) as (Hc1 & Hc2 & Hc3); [lia..|].
  fold chunk in Hc1, Hc2, Hc3.
  assert (length (slice done chunk src) = Z.to_nat chunk) as Hsl by (apply length_slice; lia).
  destruct (store_chunk m (dest + done) i (slice done chunk src)) as [Hs1 Hb1];
    [done|lia|rewrite Hsl; lia|rewrite Hsl; lia|].
  set (m1 := store_bytes m (um_page (mapping sp i) + (dest + done) mod PAGE_SIZE) (slice done chunk src)) in *.
  rewrite Hsl, Z2Nat.id in Hb1 by lia.
  destruct (IH (done + chunk) m1) as (rc & m' & -> & Hs2 & Hcase); [lia..|].
  eexists _, _. split; [reflexivity|]. split; [by etrans|].
  assert (∀ k, done ≤ k < done + chunk → find_mapping sp (dest + k) = Some i) as Hfound.
  { intros k Hk. rewrite <- Hi. apply find_mapping_ext.
    replace (dest + k) with (dest + done + (k - done)) by lia. apply chunk_page; lia. }
  destruct Hcase as [(-> & Hall & Hb2)|(-> & k & Hk & Hn)].
  - left. split; [done|]. split.
    + intros k Hk. destruct (decide (k < done + chunk)); [by rewrite Hfound by lia|]. apply Hall. lia.
    + intros b Hb. rewrite Hb2, Hb1 by done.
      destruct (decide (dest + done ≤ b < dest + Z.of_nat (length src))) as [Hin|Hout].
      * destruct (decide (dest + (done + chunk) ≤ b < dest + Z.of_nat (length src))); [done|].
        rewrite decide_True by lia. f_equal. unfold aget, slice.
        rewrite lookup_take_lt, lookup_drop by lia. f_equal. f_equal. lia.
      * rewrite decide_False by lia. by rewrite decide_False by lia.
  - right. split; [done|]. exists k. split; [lia|done].
Qed.

(** [copy_to_space] writes exactly the requested bytes of the user's memory, or
    reports an unmapped address in the range. *)
Lemma copy_to_space_spec dest src m rc m' :
  0 ≤ dest → dest + Z.of_nat (length src) < 2 ^ 64 → copy_to_space sp dest src m = (rc, m') →
  same_outside (mapped_pages sp) m m' ∧
  ((rc = 0 ∧ (∀ k, 0 ≤ k < Z.of_nat (length src) → find_mapping sp (dest + k) ≠ None) ∧
      ∀ b, is_u64 b → user_byte sp m' b =
        if decide (dest ≤ b < dest + Z.of_nat (length src))
        then Some (aget 0 src (b - dest)) else user_byte sp m b)
   ∨ (rc = -1 ∧ ∃ k, 0 ≤ k < Z.of_nat (length src) ∧ find_mapping sp (dest + k) = None)).
Proof using Hsp.
  intros Hd Hr. unfold copy_to_space.
  destruct (copy_to_loop_spec (S (length src)) dest src 0 m) as (rc1 & m1 & -> & Hs & Hcase); [lia..|].
  cbn [default]. intros [= <- <-]. rewrite Z.add_0_r in Hcase. done.
Qed.

Lemma copy_from_loop_spec fuel source len done acc m :
  0 ≤ source → source + len < 2 ^ 64 → 0 ≤ done ≤ len → len - done < Z.of_nat fuel →
  Z.of_nat (length acc) = done →
  (∀ k, 0 ≤ k < done → user_byte sp m (source + k) = Some (aget 0 acc k)) →
  ∃ rc bs, copy_from_loop fuel sp source len done acc m = Some (rc, bs) ∧
    ((rc = 0 ∧ Z.of_nat (length bs) = len ∧
        ∀ k, 0 ≤ k < len → user_byte sp m (source + k) = Some (aget 0 bs k))
     ∨ (rc = -1 ∧ ∃ k, done ≤ k < len ∧ find_mapping sp (source + k) = None)).
Proof using Hsp.
  intros Hd Hr. revert done acc. induction fuel as [|fuel IH]; intros done acc H0 Hf Hlen Hacc; [lia|].
  cbn [copy_from_loop]. destruct (done <? len) eqn:Hlt; bsimp.
  2:{ eexists _, _. split; [reflexivity|]. left. split; [done|]. split; [lia|]. intros. apply Hacc. lia. }
  rewrite u64_small by lia. destruct (find_mapping sp (source + done)) as [i|] eqn:Hi.
  2:{ eexists _, _. split; [reflexivity|]. right. split; [done|]. by exists done. }
  cbv zeta. rewrite land_page_offset by lia. set (chunk := chunk_at (source + done) (len - done)).
  destruct (chunk_at_spec (source + done) (len - done)) as (Hc1 & Hc2 & Hc3); [lia..|].
  fold chunk in Hc1, Hc2, Hc3.
  destruct (IH (done + chunk) (acc ++ load_bytes m (um_page (mapping sp i) +
    (source + done) mod PAGE_SIZE) (Z.to_nat chunk))) as (rc & bs & -> & Hcase).
  - lia.
  - lia.
  - rewrite length_app, length_load_bytes. lia.
  - intros k Hk. destruct (decide (k < done)).
    + rewrite Hacc by lia. unfold aget. by rewrite lookup_app_l by lia.
    + assert (page_base (source + k) = page_base (source + done) ∧
        (source + k) mod PAGE_SIZE = (source + done) mod PAGE_SIZE + (k - done)) as [Hb Hm].
      { replace (source + k) with (source + done + (k - done)) by lia. apply chunk_page; lia. }
      unfold user_byte. rewrite (find_mapping_ext sp _ _ Hb), Hi. cbn [fmap option_fmap option_map].
      f_equal. unfold aget. rewrite lookup_app_r, lookup_load_bytes by lia. simpl. f_equal. lia.
  - eexists _, _. split; [reflexivity|]. destruct Hcase as [?|(-> & k & Hk & Hn)]; [by left|].
    right. split; [done|]. exists k. split; [lia|done].
Qed.

Lemma copy_from_space_spec source len m rc bs :
  0 ≤ source → 0 ≤ len → source + len < 2 ^ 64 → copy_from_space sp source len m = (rc, bs) →
  (rc = 0 ∧ Z.of_nat (length bs) = len ∧
     ∀ k, 0 ≤ k < len → user_byte sp m (source + k) = Some (aget 0 bs k))
  ∨ (rc = -1 ∧ ∃ k, 0 ≤ k < len ∧ find_mapping sp (source + k) = None).
Proof using Hsp.
  intros Hd Hl Hr. unfold copy_from_space.
  destruct (copy_from_loop_spec (S (Z.to_nat len)) source len 0 [] m) as (rc1 & bs1 & -> & Hcase);
    [lia..|done|intros; lia|]. cbn [default]. by intros [= <- <-].
Qed.

(** The permission loop visits one address of every page of the range. *)
Definition has_perm (flag a : Z) : Prop :=
  ∃ f, user_flags sp a = Some f ∧ bit f flag = true.

Lemma has_perm_page flag a b : page_base a = page_base b → has_perm flag a → has_perm flag b.
Proof using. unfold has_perm, user_flags. intros E. by rewrite (find_mapping_ext sp a b E). Qed.

Lemma check_pages_spec fuel flag address limit :
  0 ≤ address → limit < 2 ^ 64 → address < 2 ^ 64 → (0 < fuel)%nat →
  limit - address < Z.of_nat fuel →
  ∃ b, check_pages fuel sp flag address limit = Some b ∧
    (b = true ↔ ∀ a, address ≤ a < limit → has_perm flag a).
Proof using Hsp.
  intros Ha Hl. revert address Ha. induction fuel as [|fuel IH]; intros address Ha Ha2 Hf0 Hf; [lia|].
  cbn [check_pages]. destruct (address <? limit) eqn:Hlt; bsimp.
  2:{ exists true. split; [done|]. split; [intros _ a ?; lia|done]. }
  destruct (find_mapping sp address) as [i|] eqn:Hi.
  2:{ exists false. split; [done|]. split; [done|]. intros H.
      destruct (H address) as (f & Hfl & _); [lia|]. unfold user_flags in Hfl. by rewrite Hi in Hfl. }
  destruct (find_mapping_Some _ _ _ Hi) as [Hir Hiv].
  assert (has_perm flag address ↔ bit (um_flags (mapping sp i)) flag = true) as Hp.
  { unfold has_perm, user_flags. rewrite Hi. cbn [fmap option_fmap option_map].
    split; [by intros (f & [= <-] & ?)|]. intros ?. eauto. }
  destruct (bit (um_flags (mapping sp i)) flag); cbn [negb].
  2:{ exists false. split; [done|]. split; [done|]. intros H. apply Hp, H. lia. }
  destruct (sl_va _ Hsp _ Hir) as (_ & Hvr & _). rewrite Hiv in Hvr.
  assert (page_base address = PAGE_SIZE * (address / PAGE_SIZE)) as Hpb by (apply page_base_eq; lia).
  assert (address < page_base address + PAGE_SIZE ≤ address + PAGE_SIZE) as Hnext
    by (rewrite Hpb; unfold PAGE_SIZE; Z.div_mod_to_equations; lia).
  unfold USER_STACK_TOP, USER_MIN_VA in Hvr. rewrite u64_small by (unfold PAGE_SIZE in *; lia).
  destruct (IH (page_base address + PAGE_SIZE)) as (b & -> & Hb); [unfold PAGE_SIZE in *; lia..|].
  exists b. split; [done|]. rewrite Hb. split.
  - intros H a Hra. destruct (decide (a < page_base address + PAGE_SIZE)) as [Hin|].
    + apply (has_perm_page _ address); [|by apply Hp].
      rewrite (page_base_eq a), Hpb by lia. f_equal. rewrite Hpb in Hin. unfold PAGE_SIZE in *.
      Z.div_mod_to_equations. lia.
    + apply H. lia.
  - intros H a Hra. apply H. lia.
Qed.
End copying.

(** ** A concrete machine: kernel tables, one process with a read-write page *)

Definition demo_boot : mem_state * vm_state * csr_file := vm_init demo_mem (MkVm 0 0 0) ∅.
Definition demo_vm : vm_state := demo_boot.1.2.
Definition demo_space_st : Z * task_address_space * mem_state :=
  let '(_, sp, s) := create_empty_space demo_vm zero_space demo_boot.1.1 in
  map_user_page 0x10000 (Z.lor PTE_R PTE_W) sp s.
Definition demo_sp : task_address_space := demo_space_st.1.2.
Definition demo_s : mem_state := demo_space_st.2.

Lemma demo_boot_kmem : ∃ F, kmem 0x80300000 demo_vm F demo_boot.1.1.
Proof.
  destruct (vm_init_spec 0x80300000 (heap_pages 0x80300000) demo_mem (MkVm 0 0 0) ∅)
    as (F' & s' & v & c' & E & Ht & Hs & Hrep & HF & N1 & N2 & N3).
  - exact demo_mem_rep.
  - apply Nat2Z.inj_le. rewrite <- (rep_count _ _ _ demo_mem_rep). by vm_compute.
  - pose proof (vm_init_ram_ok demo_mem (MkVm 0 0 0) ∅ ram_ok_empty) as Hr.
    unfold demo_vm, demo_boot. rewrite E in Hr |- *. cbn [fst snd] in Hr |- *.
    exists F'. split; [done..|]. by repeat constructor.
Qed.

Lemma demo_kmem : ∃ F, kmem 0x80300000 demo_vm F demo_s ∧ space_in 0x80300000 demo_vm F (ram demo_s) demo_sp.
Proof.
  destruct demo_boot_kmem as [F0 K0].
  assert (demo_space_st.1.1 = 0) as Hrc by (by vm_compute).
  assert ((create_empty_space demo_vm zero_space demo_boot.1.1).1.1 = 0) as Hrc0 by (by vm_compute).
  unfold demo_s, demo_sp. revert Hrc. unfold demo_space_st.
  destruct (create_empty_space_spec 0x80300000 demo_vm F0 demo_boot.1.1 zero_space K0)
    as (rc & sp & s' & E & Hc). rewrite E in Hrc0 |- *. cbn [fst] in Hrc0.
  destruct Hc as [(-> & Hpc & F1 & K1 & H1 & _)|(-> & -> & _)]; [|done].
  destruct (map_user_page_spec 0x80300000 demo_vm F1 s' sp 0x10000 (Z.lor PTE_R PTE_W))
    as (rc2 & sp2 & s2 & E2 & Hc2); [done..|]. rewrite E2. cbn [fst snd].
  destruct Hc2 as [(-> & _)|(-> & _ & F2 & K2 & H2 & _)]; [done|]. intros _. exists F2. split; [exact K2|exact H2].
Qed.

(** ** Theorems *)

Definition access_flag (type : AccessType) : Z :=
  match type with Instruction => PTE_X | Load => PTE_R | Store => PTE_W end.

Lemma leaf_fault_user type f :
  0 ≤ f → Z.ldiff f RWX = 0 →
  leaf_fault type User (leaf_flags f) = None ↔ bit f (access_flag type) = true.
Proof.
  intros H0 Hf. unfold leaf_fault, bit, access_flag.
  assert (Z.land (leaf_flags f) PTE_U = PTE_U) as ->.
  { unfold leaf_flags. apply Z.bits_inj'. intros n _. rewrite Z.land_spec, !Z.lor_spec.
    by destruct (Z.testbit f n), (Z.testbit PTE_U n), (Z.testbit PTE_V n). }
  change (negb (negb (PTE_U =? 0))) with false. rewrite andb_false_r.
  rewrite !leaf_flags_bits by done. by destruct type; destruct (Z.land f _ =? 0).
Qed.

(** C23: with the address space of a process installed in [satp], a user-mode access
    of the MMU succeeds exactly when the kernel's mapping list has the page with
    the permission needed, and then it reaches that page and no other memory;
    in supervisor mode all of DRAM stays mapped to itself. *)
Theorem user_mode_reaches_own_pages start v F s sp c va type pa :
  kmem start v F s → space_in start v F (ram s) sp → csr_load SATP c = as_satp sp →
  0 ≤ va < 2 ^ 39 →
  ((translate c (ram s) va type User).1 = inr pa ↔
     ∃ i, find_mapping sp va = Some i ∧ bit (um_flags (mapping sp i)) (access_flag type) = true ∧
          pa = um_page (mapping sp i) + va mod PAGE_SIZE)
  ∧ (DRAM_BASE ≤ va < DRAM_BASE + DRAM_SIZE →
     (translate c (ram s) va type Supervisor).1 = inr va).
Proof.
  intros Hk [Hok _] Hc Hv. pose proof (so_list _ _ _ Hok) as Sl.
  rewrite !(translate_space v c (ram s) sp) by (done || apply Hk).
  split.
  - destruct (va <? MEGAPAGE) eqn:Hm; bsimp.
    + unfold user_walk. destruct (find_mapping sp va) as [i|] eqn:E.
      * destruct (find_mapping_Some _ _ _ E) as [Hi _].
        destruct (sl_va _ Sl _ Hi) as (_ & _ & Hf0 & Hf).
        pose proof (leaf_fault_user type _ Hf0 Hf) as Hl.
        destruct (leaf_fault type User _).
        -- split; [done|]. intros (j & [= <-] & Hb & _). by apply Hl in Hb.
        -- split; [intros [= <-]; exists i; split; [done|]; split; [by apply Hl|done]|].
           by intros (j & [= <-] & _ & ->).
      * split; [done|]. by intros (j & ? & _).
    + rewrite find_mapping_high by (done || unfold USER_STACK_TOP, MEGAPAGE in *; lia).
      split; [|by intros (j & ? & _)]. unfold walk_result.
      unfold kernel_window. repeat (destruct (_ || _) || destruct (_ && _)); by destruct type.
  - intros Hd. rewrite (proj2 (Z.ltb_ge va MEGAPAGE)) by (unfold DRAM_BASE, MEGAPAGE in *; lia).
    unfold kernel_window. rewrite (proj2 (Z.leb_le _ va)), (proj2 (Z.ltb_lt va _)) by lia.
    by destruct type.
Qed.

Definition demo_csr : csr_file := csr_store SATP (as_satp demo_sp) ∅.

Lemma user_mode_reaches_own_pages_witness :
  (translate demo_csr (ram demo_s) 0x10008 Load User).1 = inr (um_page (mapping demo_sp 0) + 8)
  ∧ (translate demo_csr (ram demo_s) 0x80200000 Instruction Supervisor).1 = inr 0x80200000.
Proof.
  destruct demo_kmem as (F & Hk & Hin).
  assert (csr_load SATP demo_csr = as_satp demo_sp) as Hc by (by vm_compute).
  destruct (user_mode_reaches_own_pages 0x80300000 demo_vm F demo_s demo_sp demo_csr 0x10008 Load
    (um_page (mapping demo_sp 0) + 8) Hk Hin Hc) as [H _]; [lia|].
  destruct (user_mode_reaches_own_pages 0x80300000 demo_vm F demo_s demo_sp demo_csr 0x80200000
    Instruction 0 Hk Hin Hc) as [_ H2]; [lia|].
  split; [|apply H2; unfold DRAM_BASE, DRAM_SIZE; lia].
  apply (proj2 H). exists 0.
  split; [by vm_compute|split; [by vm_compute|by vm_compute]].
Defined.

(** C25: [user_space_clone] (the memory half of [fork]): on success the child is a
    well-formed space whose pages were free and are disjoint from the parent's,
    and it maps the same addresses with the same permissions and the same bytes;
    on failure, possible only when memory is short, every page obtained is given
    back.  The parent's memory is unchanged either way. *)
Theorem user_space_clone_correct start v F s src dst0 rc dst s' :
  kmem start v F s → space_in start v F (ram s) src → user_space_clone v dst0 src s = (rc, dst, s') →
  (∀ a, user_byte src (ram s') a = user_byte src (ram s) a) ∧
  ((rc = 0 ∧ (∃ F', kmem start v F' s' ∧ space_in start v F' (ram s') dst ∧
                F = list_to_set (space_pages dst) ∪ F') ∧
    space_pages dst ## space_pages src ∧
    ∀ a, user_byte dst (ram s') a = user_byte src (ram s) a ∧ user_flags dst a = user_flags src a)
   ∨ (rc = -1 ∧ dst = zero_space ∧ kmem start v F s' ∧
      Z.of_nat (size F) < 3 + as_page_count src)).
Proof.
  intros Hk Hsrc Hc. pose proof (so_list _ _ _ (proj1 Hsrc)) as Sl.
  pose proof (elements_aligned start v F s Hk) as Hal.
  assert (Forall (λ p, p ∉ elements F) (mapped_pages src)) as Hdis.
  { apply Forall_forall. intros p (i & -> & Hi%elem_of_seqZ)%list_elem_of_fmap. rewrite elem_of_elements.
    by apply (proj1 (Forall_forall _ _) (proj2 (proj2 Hsrc))), mapping_page. }
  assert (∀ {A} (f : Z → option A) a, (find_mapping src a = None → f a = None) →
    clone_view src (as_page_count src) f a = f a) as Hview.
  { intros A f a Hn. unfold clone_view. destruct (find_mapping src a) as [j|] eqn:E; [|by rewrite Hn].
    destruct (find_mapping_Some _ _ _ E) as [Hj _]. by rewrite (proj2 (Z.ltb_lt j _)) by lia. }
  destruct (user_space_clone_spec start v F s src Hsrc dst0 rc dst s' Hk Hc)
    as [[-> (F' & K & Hin & HF & Hcnt & Hs & Hb & Hfl)]|(-> & Hd & K & Hs & Hsz)].
  - split. { intros a. by apply (user_byte_outside src (elements F)). }
    left. split; [done|]. split; [by exists F'|]. split.
    + intros x Hx Hx2. apply (proj1 (Forall_forall _ _) (proj2 (proj2 Hsrc))) in Hx2 as (_ & Hn & _).
      apply Hn. rewrite HF. apply elem_of_union_l. by apply elem_of_list_to_set.
    + intros a. rewrite Hb, Hfl, !Hview; [done| |]; unfold user_byte, user_flags; by intros ->.
  - split. { intros a. by apply (user_byte_outside src (elements F)). } by right.
Qed.

Definition demo_clone : Z * task_address_space * mem_state :=
  user_space_clone demo_vm zero_space demo_sp demo_s.

Lemma user_space_clone_correct_witness :
  demo_clone.1.1 = 0 ∧
  user_byte demo_clone.1.2 (ram demo_clone.2) 0x10000 = user_byte demo_sp (ram demo_s) 0x10000.
Proof.
  destruct demo_kmem as (F & Hk & Hin).
  assert (demo_clone.1.1 = 0) as H0 by (by vm_compute).
  destruct (user_space_clone_correct 0x80300000 demo_vm F demo_s demo_sp zero_space
    demo_clone.1.1 demo_clone.1.2 demo_clone.2 Hk Hin) as [_ [(_ & _ & _ & H)|(H & _)]].
  - unfold demo_clone. by destruct (user_space_clone _ _ _ _) as [[? ?] ?].
  - exact (conj H0 (proj1 (H 0x10000))).
  - rewrite H0 in H. discriminate.
Defined.

Lemma check_range sp flag a len :
  space_list sp → 0 ≤ a → 0 < len → a + len < 2 ^ 64 →
  default false (check_pages (S (Z.to_nat len)) sp flag a (a + len)) = true
  ↔ ∀ b, a ≤ b < a + len → has_perm sp flag b.
Proof.
  intros Hsp Ha Hl Hr.
  destruct (check_pages_spec sp Hsp (S (Z.to_nat len)) flag a (a + len)) as (b & -> & Hb); [lia..|].
  done.
Qed.

Lemma has_perm_mapped sp flag a : has_perm sp flag a → find_mapping sp a ≠ None.
Proof. unfold has_perm, user_flags. intros (f & Hf & _) E. by rewrite E in Hf. Qed.

Lemma copy_from_user_aux sp source len m rc bs :
  space_list sp → 0 ≤ source → 0 ≤ len → source + len < 2 ^ 64 →
  copy_from_user (Some sp) source len m = (rc, bs) →
  (rc = 0 ∧ (∀ a, source ≤ a < source + len → has_perm sp PTE_R a) ∧ Z.of_nat (length bs) = len ∧
     ∀ k, 0 ≤ k < len → user_byte sp m (source + k) = Some (aget 0 bs k))
  ∨ (rc = -1 ∧ bs = [] ∧ ¬ ∀ a, source ≤ a < source + len → has_perm sp PTE_R a).
Proof.
  intros Hsp Hs Hl Hr. unfold copy_from_user. destruct (len =? 0) eqn:E0; bsimp.
  { intros [= <- <-]. left. split_and!; [done|intros; lia|done|intros; lia]. }
  rewrite u64_small, (proj2 (Z.ltb_ge _ _)) by lia.
  pose proof (check_range sp PTE_R source len Hsp Hs ltac:(lia) Hr) as Hc.
  destruct (default false _).
  - intros Hcp. pose proof (proj1 Hc eq_refl) as Hall.
    destruct (copy_from_space_spec sp Hsp source len m rc bs) as [(-> & Hlen & Hb)|(-> & k & Hk & Hn)];
      [lia..|done| |].
    + left. done.
    + exfalso. apply (has_perm_mapped sp PTE_R (source + k)); [|done]. apply Hall. lia.
  - intros [= <- <-]. right. split; [done|]. split; [done|]. intros H. by apply Hc in H.
Qed.

Lemma copy_to_user_aux sp dest src m rc m' :
  space_list sp → 0 ≤ dest → dest + Z.of_nat (length src) < 2 ^ 64 →
  copy_to_user (Some sp) dest src m = (rc, m') →
  (rc = 0 ∧ (∀ a, dest ≤ a < dest + Z.of_nat (length src) → has_perm sp PTE_W a) ∧
     same_outside (mapped_pages sp) m m' ∧
     ∀ b, is_u64 b → user_byte sp m' b =
       if decide (dest ≤ b < dest + Z.of_nat (length src))
       then Some (aget 0 src (b - dest)) else user_byte sp m b)
  ∨ (rc = -1 ∧ m' = m ∧ ¬ ∀ a, dest ≤ a < dest + Z.of_nat (length src) → has_perm sp PTE_W a).
Proof.
  intros Hsp Hs Hr. unfold copy_to_user. destruct (Z.of_nat (length src) =? 0) eqn:E0; bsimp.
  { intros [= <- <-]. left. split; [done|]. split; [intros; lia|]. split; [done|].
    intros b Hb. rewrite decide_False; [done|lia]. }
  rewrite u64_small, (proj2 (Z.ltb_ge _ _)) by lia.
  pose proof (check_range sp PTE_W dest (Z.of_nat (length src)) Hsp Hs ltac:(lia) Hr) as Hc.
  destruct (default false _).
  - intros Hcp. pose proof (proj1 Hc eq_refl) as Hall.
    destruct (copy_to_space_spec sp Hsp dest src m rc m') as [Ho [(-> & _ & Hb)|(-> & k & Hk & Hn)]];
      [lia..|done| |].
    + left. done.
    + exfalso. apply (has_perm_mapped sp PTE_W (dest + k)); [|done]. apply Hall. lia.
  - intros [= <- <-]. right. split; [done|]. split; [done|]. intros H. by apply Hc in H.
Qed.

(** C26: [copy_to_user] succeeds exactly when the process may write every byte of
    the range; then the range holds the source bytes, every other byte of the
    process is unchanged, and no memory outside its mapped pages is written.
    When it fails it writes nothing. *)
Theorem copy_to_user_correct sp dest src m rc m' :
  space_list sp → 0 ≤ dest → dest + Z.of_nat (length src) < 2 ^ 64 →
  copy_to_user (Some sp) dest src m = (rc, m') →
  (rc = 0 ∧ (∀ a, dest ≤ a < dest + Z.of_nat (length src) → has_perm sp PTE_W a) ∧
     same_outside (mapped_pages sp) m m' ∧
     ∀ b, is_u64 b → user_byte sp m' b =
       if decide (dest ≤ b < dest + Z.of_nat (length src))
       then Some (aget 0 src (b - dest)) else user_byte sp m b)
  ∨ (rc = -1 ∧ m' = m ∧ ¬ ∀ a, dest ≤ a < dest + Z.of_nat (length src) → has_perm sp PTE_W a).
Proof. apply copy_to_user_aux. Qed.

Lemma demo_space_list : space_list demo_sp.
Proof. destruct demo_kmem as (F & _ & [H _]). exact (so_list _ _ _ H). Qed.

Lemma copy_to_user_correct_witness :
  let r := copy_to_user (Some demo_sp) 0x10ffe [7; 8] (ram demo_s) in
  r.1 = 0 ∧ user_byte demo_sp r.2 0x10fff = Some 8.
Proof.
  assert ((copy_to_user (Some demo_sp) 0x10ffe [7; 8] (ram demo_s)).1 = 0) as H0 by (by vm_compute).
  intros r. split; [exact H0|]. unfold r. clear r.
  destruct (copy_to_user_correct demo_sp 0x10ffe [7; 8] (ram demo_s) _ _ demo_space_list
    ltac:(lia) ltac:(simpl; lia) (surjective_pairing _)) as [(_ & _ & _ & H)|(H & _)].
  - etransitivity; [exact (H 0x10fff ltac:(lia))|reflexivity].
  - rewrite H0 in H. discriminate.
Defined.

(** What the kernel writes into a process with [copy_to_user] it reads back with
    [copy_from_user], on every range the process may read. *)
Theorem copy_user_roundtrip sp a src m m' :
  space_list sp → 0 ≤ a → a + Z.of_nat (length src) < 2 ^ 64 →
  copy_to_user (Some sp) a src m = (0, m') →
  (∀ b, a ≤ b < a + Z.of_nat (length src) → has_perm sp PTE_R b) →
  copy_from_user (Some sp) a (Z.of_nat (length src)) m' = (0, src).
Proof.
  intros Hsp Ha Hr Hw Hp.
  destruct (copy_to_user_aux _ _ _ _ _ _ Hsp Ha Hr Hw) as [(_ & _ & _ & Hb)|(? & _)]; [|done].
  destruct (copy_from_user (Some sp) a (Z.of_nat (length src)) m') as [rc bs] eqn:Hc.
  destruct (copy_from_user_aux _ _ (Z.of_nat (length src)) _ _ _ Hsp Ha ltac:(lia) Hr Hc) as [(-> & _ & Hl & Hk)|(_ & _ & Hn)];
    [|done].
  f_equal. apply (list_eq_aget 0); [lia|]. intros i Hi. specialize (Hk i ltac:(lia)).
  rewrite Hb, decide_True in Hk by lia. injection Hk as <-. f_equal. lia.
Qed.

Lemma copy_user_roundtrip_witness :
  copy_from_user (Some demo_sp) 0x10ffe 2 (copy_to_user (Some demo_sp) 0x10ffe [7; 8] (ram demo_s)).2
  = (0, [7; 8]).
Proof.
  refine (copy_user_roundtrip demo_sp 0x10ffe [7; 8] (ram demo_s) _ demo_space_list
    ltac:(lia) ltac:(simpl; lia) _ _).
  - assert ((copy_to_user (Some demo_sp) 0x10ffe [7; 8] (ram demo_s)).1 = 0) as H0 by (by vm_compute).
    rewrite <- H0 at 1. exact (surjective_pairing _).
  - intros b Hb. exists (Z.lor PTE_R PTE_W). simpl in Hb.
    assert (b = 0x10ffe ∨ b = 0x10fff) as [-> | ->] by lia; split; by vm_compute.
Defined.

(** C27: a process that is forked and whose copy is then destroyed leaves the
    allocator as it was: [user_space_clone] followed by [user_space_destroy] of the
    child leaks no page and frees no page of the parent. *)
Theorem fork_exit_no_leak start v F s src dst0 dst s1 sp2 s2 :
  kmem start v F s → space_in start v F (ram s) src →
  user_space_clone v dst0 src s = (0, dst, s1) → user_space_destroy dst s1 = (sp2, s2) →
  kmem start v F s2 ∧ mem_free_pages s2 = mem_free_pages s ∧
  space_in start v F (ram s2) src ∧ ∀ a, user_byte src (ram s2) a = user_byte src (ram s) a.
Proof.
  intros Hk Hsrc Hc Hd. pose proof (so_list _ _ _ (proj1 Hsrc)) as Sl.
  destruct (user_space_clone_spec start v F s src Hsrc dst0 0 dst s1 Hk Hc)
    as [[_ (F' & K & Hin & HF & Hcnt & Hs & _)]|(? & _)]; [|done].
  destruct (user_space_destroy_spec start v F' s1 dst K (proj2 Hin)) as (s3 & E & K3 & Hs3);
    [rewrite Hcnt; apply (sl_count _ Sl)|].
  rewrite E in Hd. injection Hd as <- <-. rewrite <- HF in K3. split; [done|].
  split. { unfold mem_free_pages.
    by rewrite (rep_count _ _ _ (km_rep _ _ _ _ K3)), (rep_count _ _ _ (km_rep _ _ _ _ Hk)). }
  pose proof (elements_aligned start v F s Hk) as Hal.
  assert (same_outside (elements F) (ram s) (ram s3)) as Hall.
  { etrans; [exact Hs|]. eapply same_outside_mono; [|exact Hs3]. intros x Hx.
    rewrite elem_of_elements, HF. apply elem_of_union_l. by apply elem_of_list_to_set. }
  assert (∀ p, p ∈ space_pages src → p ∉ elements F) as Hdis.
  { intros p Hp. rewrite elem_of_elements. by apply (proj1 (Forall_forall _ _) (proj2 (proj2 Hsrc))). }
  split; [split; [|apply Hsrc]|].
  - eapply space_ok_frame; [apply Hsrc|apply Hk|exact Hall|done| |].
    + eapply Forall_impl; [apply Hk|]. intros p Hp. by rewrite elem_of_elements.
    + apply Forall_forall. intros p Hp. by apply Hdis, table_space_page.
  - intros a. apply (user_byte_outside src (elements F)); try done.
    apply Forall_forall. intros p Hp. apply Hdis. by do 3 right.
Qed.

Lemma fork_exit_no_leak_witness :
  mem_free_pages (user_space_destroy demo_clone.1.2 demo_clone.2).2 = mem_free_pages demo_s.
Proof.
  destruct demo_kmem as (F & Hk & Hin).
  assert (user_space_clone demo_vm zero_space demo_sp demo_s = (0, demo_clone.1.2, demo_clone.2)) as Hc.
  { assert (demo_clone.1.1 = 0) as H0 by (by vm_compute). rewrite <- H0 at 1.
    unfold demo_clone. by destruct (user_space_clone _ _ _ _) as [[? ?] ?]. }
  exact (proj1 (proj2 (fork_exit_no_leak 0x80300000 demo_vm F demo_s demo_sp zero_space
    demo_clone.1.2 demo_clone.2 _ _ Hk Hin Hc (surjective_pairing _)))).
Defined.
