(* ===== verification/Task.v ===== *)
(** * Processes and the scheduler (os/kernel/task.c, switch.S)

    [kernel] holds the static variables of task.c together with the states the
    process code works on: the control registers, the descriptor tables, physical
    memory and the callee-saved registers of the CPU.  A [struct task *] is the
    index of the entry in [tasks] ([NULL] is [None]); the trap frame is the list of
    the 32 registers saved by the trap entry. *)

From S2P Require Import Prelude Csr Mem FdTable Vm AddrSpace.

Definition MAX_TASKS : Z := 16.
Definition TASK_NAME_LEN : Z := 16.
Definition TASK_REG_COUNT : Z := 32.
Definition TASK_DEFAULT_QUANTUM : Z := 1.
Definition TASK_WAIT_BLOCKED : Z := -2.
Definition TASK_KERNEL_STACK_SIZE : Z := 4 * 4096.
Definition MINIFS_ROOT_INODE : Z := 0.

Inductive task_state := TASK_UNUSED | TASK_READY | TASK_RUNNING | TASK_BLOCKED | TASK_ZOMBIE.
Inductive sched_policy := SCHED_FCFS | SCHED_RR.

#[global] Instance task_state_eq_dec : EqDecision task_state.
Proof. solve_decision. Defined.
#[global] Instance sched_policy_eq_dec : EqDecision sched_policy.
Proof. solve_decision. Defined.

(** [ra], [sp] and [s0 .. s11]. *)
Record context := MkContext {
  ctx_ra : Z;
  ctx_sp : Z;
  ctx_s : list Z;
}.
#[global] Instance context_eta : Settable context := λ c,
  MkContext (ctx_ra c) (ctx_sp c) (ctx_s c).

Record trap_context := MkTrapContext {
  tc_regs : list Z;
  tc_epc : Z;
  tc_status : Z;
  tc_satp : Z;
}.
#[global] Instance trap_context_eta : Settable trap_context := λ c,
  MkTrapContext (tc_regs c) (tc_epc c) (tc_status c) (tc_satp c).

(** What a task sleeps on: a child ([current] itself) or a synchronisation
    object at an address. *)
Inductive channel := ChNull | ChTask (i : Z) | ChAddr (a : Z).
#[global] Instance channel_eq_dec : EqDecision channel.
Proof. solve_decision. Defined.

Record task := MkTask {
  ctx : context;
  trap_ctx : trap_context;
  stack : Z;
  state : task_state;
  pid : Z;
  ppid : Z;
  exit_code : Z;
  wait_target : Z;
  wait_channel : channel;
  time_slice : Z;
  ticks_left : Z;
  created_order : Z;
  ready_order : Z;
  runtime_ticks : Z;
  context_switches : Z;
  cwd_inode : Z;
  has_user_space : bool;
  address_space : task_address_space;
  name : list Z;
}.
#[global] Instance task_eta : Settable task := λ t,
  MkTask (ctx t) (trap_ctx t) (stack t) (state t) (pid t) (ppid t) (exit_code t)
    (wait_target t) (wait_channel t) (time_slice t) (ticks_left t) (created_order t)
    (ready_order t) (runtime_ticks t) (context_switches t) (cwd_inode t) (has_user_space t)
    (address_space t) (name t).

Definition zero_task : task :=
  MkTask (MkContext 0 0 (replicate 12 0)) (MkTrapContext (replicate 32 0) 0 0 0) 0 TASK_UNUSED
    0 0 0 0 ChNull 0 0 0 0 0 0 0 false zero_space (replicate 16 0).

Record kernel := MkKernel {
  tasks : list task;
  current : option Z;
  task_count : Z;
  next_pid : Z;
  order_counter : Z;
  scheduler_policy : sched_policy;
  scheduler_quantum : Z;
  switch_samples : Z;
  max_switch_ticks : Z;
  csrs : csr_file;
  fds : fd_state;
  memory : mem_state;
  cpu : context;
}.
#[global] Instance kernel_eta : Settable kernel := λ k,
  MkKernel (tasks k) (current k) (task_count k) (next_pid k) (order_counter k)
    (scheduler_policy k) (scheduler_quantum k) (switch_samples k) (max_switch_ticks k)
    (csrs k) (fds k) (memory k) (cpu k).

Definition get_task (k : kernel) (i : Z) : task := aget zero_task (tasks k) i.
Definition upd_task (i : Z) (f : task → task) (k : kernel) : kernel :=
  k <| tasks := aset (tasks k) i (f (get_task k i)) |>.
Definition is_state (s : task_state) (t : task) : bool := bool_decide (state t = s).

(** ** Names *)

Fixpoint copy_chars (n : nat) (i : Z) (src dst : list Z) : list Z :=
  match n with
  | O => aset dst i 0
  | S n => if aget 0 src i =? 0 then aset dst i 0
           else copy_chars n (i + 1) src (aset dst i (aget 0 src i))
  end.

Definition copy_name (dst : list Z) (src : option (list Z)) : list Z :=
  match src with
  | None => aset dst 0 0
  | Some s => copy_chars 15 0 s dst
  end.

Fixpoint name_equal_from (n : nat) (i : Z) (a b : list Z) : bool :=
  match n with
  | O => false
  | S n =>
      if aget 0 a i =? aget 0 b i
      then (if aget 0 a i =? 0 then true else name_equal_from n (i + 1) a b)
      else false
  end.
Definition name_equal (a b : list Z) : bool := name_equal_from 16 0 a b.

Definition str_idle : list Z := [105; 100; 108; 101; 0].
Definition str_shell : list Z := [115; 104; 101; 108; 108; 0].
Definition str_fork_child : list Z := [102; 111; 114; 107; 45; 99; 104; 105; 108; 100; 0].

(** ** Selection *)

Definition find_pid (p : Z) (k : kernel) : option Z :=
  find_from 16 0 (λ i, negb (is_state TASK_UNUSED (get_task k i)) && (pid (get_task k i) =? p)).

Definition has_ready_non_idle (k : kernel) : bool :=
  match find_from 15 1 (λ i, is_state TASK_READY (get_task k i)) with
  | Some _ => true | None => false
  end.

Definition select_rr (k : kernel) : option Z :=
  let start := match current k with Some c => (c + 1) mod MAX_TASKS | None => 0 end in
  (λ i, (start + i) mod MAX_TASKS) <$>
    find_from 16 0 (λ i, is_state TASK_READY (get_task k ((start + i) mod MAX_TASKS))).

Fixpoint fcfs_scan (n : nat) (i : Z) (best : option Z) (k : kernel) : option Z :=
  match n with
  | O => best
  | S n =>
      let better :=
        is_state TASK_READY (get_task k i) &&
        match best with
        | None => true
        | Some b => ready_order (get_task k i) <? ready_order (get_task k b)
        end in
      fcfs_scan n (i + 1) (if better then Some i else best) k
  end.
Definition select_fcfs (k : kernel) : option Z := fcfs_scan 16 0 None k.

Definition select_next (k : kernel) : option Z :=
  match scheduler_policy k with SCHED_FCFS => select_fcfs k | SCHED_RR => select_rr k end.

(** [++order_counter] *)
Definition bump_order (k : kernel) : kernel := k <| order_counter := u64 (order_counter k + 1) |>.

(** The task becomes READY at the end of the order. *)
Definition make_ready (i : Z) (k : kernel) : kernel :=
  let k := bump_order k in
  upd_task i (λ t, t <| state := TASK_READY |> <| ready_order := order_counter k |>) k.
(** ... and its wait channel is cleared. *)
Definition wake (i : Z) (k : kernel) : kernel :=
  make_ready i (upd_task i (λ t, t <| wait_channel := ChNull |>) k).

(** ** Context switches *)

Definition save_trap_context (c : csr_file) (tf : list Z) (t : task) : task :=
  t <| trap_ctx := MkTrapContext tf (trap_epc_read c) (trap_status_read c) (csr_load SATP c) |>.

Definition kernel_stack_top (t : task) : Z :=
  if stack t =? 0 then _stack_top else stack t + TASK_KERNEL_STACK_SIZE.

(** The new trap frame and control registers. *)
Definition restore_trap_context (t : task) (c : csr_file) : list Z * csr_file :=
  let c := trap_epc_write (tc_epc (trap_ctx t)) c in
  let c := trap_status_write (tc_status (trap_ctx t)) c in
  let c := trap_scratch_write (kernel_stack_top t) c in
  let c := if negb (csr_load SATP c =? tc_satp (trap_ctx t))
           then csr_store SATP (tc_satp (trap_ctx t)) c else c in
  (tc_regs (trap_ctx t), c).

(** The part of [switch_from_trap] a timer tick adds: the state after the
    accounting, and whether the current task goes on ([return 0]). *)
Definition tick_current (c : Z) (k : kernel) : bool * kernel :=
  let k := upd_task c (λ t, t <| runtime_ticks := u64 (runtime_ticks t + 1) |>) k in
  let t := get_task k c in
  if bool_decide (scheduler_policy k = SCHED_FCFS) && negb (pid t =? 0) && is_state TASK_RUNNING t
  then (true, k)
  else if bool_decide (scheduler_policy k = SCHED_RR) && is_state TASK_RUNNING t
          && negb (pid t =? 0) && (1 <? ticks_left t)
  then (true, upd_task c (λ t, t <| ticks_left := ticks_left t - 1 |>) k)
  else if (pid t =? 0) && negb (has_ready_non_idle k) then (true, k)
  else (false, k).

(** The selection and the switch to the selected task. *)
Definition switch_task (c : Z) (tf : list Z) (k : kernel) : bool * list Z * kernel :=
  let k := if is_state TASK_RUNNING (get_task k c) then make_ready c k else k in
  match select_next k with
  | None =>
      (false, tf,
       if is_state TASK_READY (get_task k c)
       then upd_task c (λ t, t <| state := TASK_RUNNING |> <| ticks_left := time_slice t |>) k
       else k)
  | Some n =>
      let k := upd_task n (λ t, t <| state := TASK_RUNNING |> <| ticks_left := time_slice t |>
                                  <| context_switches := u64 (context_switches t + 1) |>) k in
      let k := k <| current := Some n |> in
      let '(tf, c') := restore_trap_context (get_task k n) (csrs k) in
      (negb (n =? c), tf, k <| csrs := c' |>)
  end.

Definition switch_from_trap (tf : list Z) (force : bool) (k : kernel) : bool * list Z * kernel :=
  match current k with
  | None => (false, tf, k)
  | Some c =>
      if task_count k <=? 1 then (false, tf, k)
      else
        let k := upd_task c (save_trap_context (csrs k) tf) k in
        let '(stay, k) := if force then (false, k) else tick_current c k in
        if stay then (false, tf, k) else switch_task c tf k
  end.

(** [start] and [stop] are the two readings of [timer_now]. *)
Definition account_switch (start stop : Z) (switched : bool) (k : kernel) : kernel :=
  if switched then
    let elapsed := u64 (stop - start) in
    k <| switch_samples := u64 (switch_samples k + 1) |>
      <| max_switch_ticks :=
           if max_switch_ticks k <? elapsed then elapsed else max_switch_ticks k |>
  else k.

Definition sched_tick (start stop : Z) (tf : list Z) (k : kernel) : bool * list Z * kernel :=
  let '(switched, tf, k) := switch_from_trap tf false k in
  (switched, tf, account_switch start stop switched k).

Definition task_reschedule (start stop : Z) (tf : list Z) (k : kernel) : bool * list Z * kernel :=
  let '(switched, tf, k) := switch_from_trap tf true k in
  (switched, tf, account_switch start stop switched k).

(** [switch_to(&prev->ctx, &next->ctx)]: the callee-saved registers of the CPU
    are stored in [prev] and loaded from [next]. *)
Definition switch_to (prev next : Z) (k : kernel) : kernel :=
  let k := upd_task prev (λ t, t <| ctx := cpu k |>) k in
  k <| cpu := ctx (get_task k next) |>.

Definition yield (k : kernel) : kernel :=
  match current k with
  | None => k
  | Some c =>
      if task_count k <=? 1 then k
      else
        let k := if is_state TASK_RUNNING (get_task k c) then make_ready c k else k in
        match select_next k with
        | None => upd_task c (λ t, t <| state := TASK_RUNNING |>) k
        | Some n =>
            if n =? c then upd_task c (λ t, t <| state := TASK_RUNNING |>) k
            else
              let k := upd_task n (λ t, t <| state := TASK_RUNNING |>
                <| ticks_left := time_slice t |>
                <| context_switches := u64 (context_switches t + 1) |>) k in
              switch_to c n (k <| current := Some n |>)
        end
  end.

(** ** Creation *)

Section lifecycle.
(** The address of the array [task_stacks] (placed by the linker). *)
Context (task_stacks : Z).
Definition stack_of (slot : Z) : Z := task_stacks + slot * TASK_KERNEL_STACK_SIZE.

Definition init_slot (i : Z) (k : kernel) : kernel :=
  let k := if negb (is_state TASK_UNUSED (get_task k i)) && (0 <=? pid (get_task k i))
           then k <| fds := minifs_close_all (pid (get_task k i)) (fds k) |> else k in
  upd_task i (λ t, t <| state := TASK_UNUSED |> <| pid := -1 |> <| ppid := -1 |> <| stack := 0 |>
    <| has_user_space := false |> <| cwd_inode := MINIFS_ROOT_INODE |>
    <| name := aset (name t) 0 0 |>) k.

Definition task_init (k : kernel) : kernel :=
  let k := fold_for 16 0 init_slot k in
  let k := k <| task_count := 1 |> <| next_pid := 1 |> <| order_counter := 0 |>
             <| switch_samples := 0 |> <| max_switch_ticks := 0 |> in
  let k := bump_order k in
  let k := upd_task 0 (λ t, t <| state := TASK_RUNNING |> <| pid := 0 |> <| ppid := -1 |>
    <| stack := 0 |> <| time_slice := scheduler_quantum k |> <| ticks_left := scheduler_quantum k |>
    <| created_order := order_counter k |> <| ready_order := order_counter k |>
    <| trap_ctx := (trap_ctx t) <| tc_satp := csr_load SATP (csrs k) |>
                     <| tc_status := Z.lor (trap_status_read (csrs k)) SSTATUS_SPP |> |>
    <| cwd_inode := MINIFS_ROOT_INODE |> <| name := copy_name (name t) (Some str_idle) |>) k in
  let k := k <| current := Some 0 |> in
  k <| fds := (minifs_process_init 0 (fds k)).2 |>.

Definition free_slot (k : kernel) : option Z :=
  find_from 15 1 (λ i, is_state TASK_UNUSED (get_task k i)).

(** [next_pid++] *)
Definition bump_pid (k : kernel) : kernel := k <| next_pid := i32 (next_pid k + 1) |>.

(** What [task_create] and [task_fork_from_trap] set up alike. *)
Definition fresh_task (slot : Z) (k : kernel) (t : task) : task :=
  t <| stack := stack_of slot |> <| pid := next_pid k |> <| state := TASK_READY |>
    <| exit_code := 0 |> <| wait_target := -1 |> <| wait_channel := ChNull |>
    <| time_slice := scheduler_quantum k |> <| ticks_left := scheduler_quantum k |>
    <| created_order := u64 (order_counter k + 1) |> <| ready_order := u64 (order_counter k + 1) |>
    <| runtime_ticks := 0 |> <| context_switches := 0 |>.

Definition task_create (entry : Z) (nm : option (list Z)) (k : kernel) : Z * kernel :=
  if (entry =? 0) || (MAX_TASKS <=? task_count k) then (-1, k)
  else
    match free_slot k with
    | None => (-1, k)
    | Some slot =>
        let sp := stack_of slot + TASK_KERNEL_STACK_SIZE in
        let new := λ t, (fresh_task slot k t)
          <| ppid := match current k with Some c => pid (get_task k c) | None => -1 end |>
          <| cwd_inode := match current k with
                          | Some c => cwd_inode (get_task k c) | None => MINIFS_ROOT_INODE end |>
          <| has_user_space := false |>
          <| name := copy_name (name t) nm |>
          <| ctx := (ctx t) <| ctx_ra := entry |> <| ctx_sp := sp |> |>
          <| trap_ctx := MkTrapContext (aset (replicate 32 0) 2 sp) entry
               (Z.lor (Z.lor (trap_status_read (csrs k)) SSTATUS_SPP) SSTATUS_SPIE)
               (csr_load SATP (csrs k)) |> in
        let p := next_pid k in
        let k := bump_order (bump_pid (upd_task slot new k)) in
        let k := k <| task_count := task_count k + 1 |> in
        let '(rc, f) := minifs_process_init p (fds k) in
        let k := k <| fds := f |> in
        if rc <? 0 then
          (-1, (upd_task slot (λ t, t <| stack := 0 |> <| state := TASK_UNUSED |>) k)
                 <| task_count := task_count k - 1 |>)
        else (p, k)
    end.

Definition task_fork_from_trap (tf : list Z) (child_epc : Z) (space : task_address_space)
    (k : kernel) : Z * kernel :=
  match current k with
  | None => (-1, k)
  | Some c =>
      if MAX_TASKS <=? task_count k then (-1, k)
      else
        match free_slot k with
        | None => (-1, k)
        | Some slot =>
            let new := λ t, (fresh_task slot k t)
              <| ppid := pid (get_task k c) |>
              <| cwd_inode := cwd_inode (get_task k c) |>
              <| has_user_space := true |>
              <| address_space := space |>
              <| name := copy_name (name t) (Some str_fork_child) |>
              <| trap_ctx := MkTrapContext (aset tf 10 0) child_epc
                   (Z.land (trap_status_read (csrs k)) (u64 (Z.lnot SSTATUS_SPP)))
                   (as_satp space) |> in
            let p := next_pid k in
            let k := bump_order (bump_pid (upd_task slot new k)) in
            let k := k <| task_count := task_count k + 1 |> in
            let '(rc, f) := minifs_process_fork (pid (get_task k c)) p (fds k) in
            let k := k <| fds := f |> in
            if rc <? 0 then
              (-1, (upd_task slot (λ t, t <| has_user_space := false |> <| stack := 0 |>
                                         <| state := TASK_UNUSED |>) k)
                     <| task_count := task_count k - 1 |>)
            else (p, k)
        end
  end.
End lifecycle.

(** ** Address spaces and accessors *)

Definition task_attach_address_space (space : task_address_space) (k : kernel) : Z * kernel :=
  match current k with
  | None => (-1, k)
  | Some c =>
      (0, upd_task c (λ t, t <| address_space := space |> <| has_user_space := true |>
                             <| trap_ctx := (trap_ctx t) <| tc_satp := as_satp space |> |>) k)
  end.

(** The old space is the second result. *)
Definition task_replace_address_space (space : task_address_space) (k : kernel)
    : Z * option task_address_space * kernel :=
  match current k with
  | None => (-1, None, k)
  | Some c =>
      if negb (has_user_space (get_task k c)) then (-1, None, k)
      else (0, Some (address_space (get_task k c)),
            upd_task c (λ t, t <| address_space := space |>
                               <| trap_ctx := (trap_ctx t) <| tc_satp := as_satp space |> |>) k)
  end.

Definition task_current_address_space (k : kernel) : option task_address_space :=
  match current k with
  | None => None
  | Some c => if has_user_space (get_task k c) then Some (address_space (get_task k c)) else None
  end.

Definition task_current_initial_trap_context (k : kernel) : option (list Z) :=
  (λ c, tc_regs (trap_ctx (get_task k c))) <$> current k.
Definition task_set_current_entry (entry : Z) (k : kernel) : kernel :=
  match current k with
  | None => k
  | Some c => upd_task c (λ t, t <| trap_ctx := (trap_ctx t) <| tc_epc := entry |> |>) k
  end.
Definition task_current_entry (k : kernel) : Z :=
  match current k with None => 0 | Some c => tc_epc (trap_ctx (get_task k c)) end.
Definition task_current_state (k : kernel) : task_state :=
  match current k with None => TASK_UNUSED | Some c => state (get_task k c) end.
Definition task_current_pid (k : kernel) : Z :=
  match current k with None => -1 | Some c => pid (get_task k c) end.
Definition task_current_cwd (k : kernel) : Z :=
  match current k with None => MINIFS_ROOT_INODE | Some c => cwd_inode (get_task k c) end.
Definition task_set_current_cwd (inode : Z) (k : kernel) : kernel :=
  match current k with None => k | Some c => upd_task c (λ t, t <| cwd_inode := inode |>) k end.
Definition task_set_current_name (nm : option (list Z)) (k : kernel) : kernel :=
  match current k with
  | None => k | Some c => upd_task c (λ t, t <| name := copy_name (name t) nm |>) k
  end.
Definition task_current_kernel_stack_top (k : kernel) : Z :=
  match current k with None => _stack_top | Some c => kernel_stack_top (get_task k c) end.
Definition task_prepare_trap_return (k : kernel) : kernel :=
  k <| csrs := trap_scratch_write (task_current_kernel_stack_top k) (csrs k) |>.

(** ** Exit, kill and wait *)

(** A parent blocked in [waitpid] for this child is woken. *)
Definition wake_parent (child : Z) (k : kernel) : kernel :=
  match find_pid (ppid (get_task k child)) k with
  | None => k
  | Some p =>
      let parent := get_task k p in
      if is_state TASK_BLOCKED parent &&
         ((wait_target parent <? 0) || (wait_target parent =? pid (get_task k child)))
      then wake p k else k
  end.

(** The children of a dead task are given to the idle task (its pid, which the
    loop does not assign, is read once). *)
Definition reparent (dead : Z) (k : kernel) : kernel :=
  let dead_pid := pid (get_task k dead) in
  fold_for 15 1 (λ i k,
    if negb (is_state TASK_UNUSED (get_task k i)) && (ppid (get_task k i) =? dead_pid)
    then upd_task i (λ t, t <| ppid := 0 |>) k else k) k.

Definition task_exit (code : Z) (k : kernel) : kernel :=
  match current k with
  | None => k
  | Some c =>
      if pid (get_task k c) =? 0 then k
      else
        let k := upd_task c (λ t, t <| exit_code := code |> <| state := TASK_ZOMBIE |>) k in
        let k := k <| fds := minifs_close_all (pid (get_task k c)) (fds k) |> in
        reparent c (wake_parent c k)
  end.

Definition task_kill (p code : Z) (k : kernel) : Z * kernel :=
  match find_pid p k with
  | None => (-1, k)
  | Some i =>
      let t := get_task k i in
      if (pid t =? 0) || bool_decide (current k = Some i) || is_state TASK_ZOMBIE t
         || is_state TASK_UNUSED t || name_equal (name t) str_shell
      then (-1, k)
      else
        let k := upd_task i (λ t, t <| exit_code := code |> <| state := TASK_ZOMBIE |>
                                    <| wait_channel := ChNull |>) k in
        let k := k <| fds := minifs_close_all (pid (get_task k i)) (fds k) |> in
        (0, reparent i (wake_parent i k))
  end.

(** The scan of [task_waitpid]: a zombie child that matches, and whether any
    child matches. *)
Fixpoint wait_scan (n : nat) (i : Z) (has_child : bool) (p : Z) (c : Z) (k : kernel)
    : option Z * bool :=
  match n with
  | O => (None, has_child)
  | S n =>
      let child := get_task k i in
      if is_state TASK_UNUSED child || negb (ppid child =? pid (get_task k c))
      then wait_scan n (i + 1) has_child p c k
      else if (0 <? p) && negb (pid child =? p) then wait_scan n (i + 1) has_child p c k
      else if negb (is_state TASK_ZOMBIE child) then wait_scan n (i + 1) true p c k
      else (Some i, true)
  end.

(** Reaping the zombie in slot [i]. *)
Definition reap (i : Z) (k : kernel) : kernel :=
  let child_pid := pid (get_task k i) in
  let k := if has_user_space (get_task k i)
           then let '(sp, m) := user_space_destroy (address_space (get_task k i)) (memory k) in
                (upd_task i (λ t, t <| address_space := sp |>) k) <| memory := m |>
           else k in
  let k := k <| fds := minifs_close_all child_pid (fds k) |> in
  let k := upd_task i (λ t, t <| stack := 0 |> <| has_user_space := false |>
    <| state := TASK_UNUSED |> <| pid := -1 |> <| ppid := -1 |> <| name := aset (name t) 0 0 |>) k in
  k <| task_count := task_count k - 1 |>.

(** The result, and the exit code stored through [status]. *)
Definition task_waitpid (p : Z) (nohang : bool) (k : kernel) : Z * option Z * kernel :=
  match current k with
  | None => (-1, None, k)
  | Some c =>
      match wait_scan 15 1 false p c k with
      | (Some i, _) => (pid (get_task k i), Some (exit_code (get_task k i)), reap i k)
      | (None, false) => (-1, None, k)
      | (None, true) =>
          if nohang then (0, None, k)
          else (TASK_WAIT_BLOCKED, None,
                upd_task c (λ t, t <| wait_target := p |> <| wait_channel := ChTask c |>
                                   <| state := TASK_BLOCKED |>) k)
      end
  end.

Definition task_wait (k : kernel) : Z * kernel :=
  let '(p, _, k) := task_waitpid (-1) true k in (if p =? 0 then -1 else p, k).

(** ** Blocking and waking *)

(** [task_block] up to its [ecall]: interrupts are masked while the task is
    marked as blocked. *)
Definition task_block (ch : channel) (k : kernel) : kernel :=
  match current k with
  | None => k
  | Some c =>
      if pid (get_task k c) =? 0 then k
      else
        let '(irq, cs) := local_irq_save (csrs k) in
        let k := k <| csrs := cs |> in
        let k := upd_task c (λ t, t <| wait_channel := ch |> <| state := TASK_BLOCKED |>) k in
        k <| csrs := local_irq_restore irq (csrs k) |>
  end.

Definition sleeps_on (ch : channel) (t : task) : bool :=
  is_state TASK_BLOCKED t && bool_decide (wait_channel t = ch).

Definition task_wake_one (ch : channel) (k : kernel) : Z * kernel :=
  let '(irq, cs) := local_irq_save (csrs k) in
  let k := k <| csrs := cs |> in
  match find_from 15 1 (λ i, sleeps_on ch (get_task k i)) with
  | Some i =>
      let k := wake i k in
      let k := k <| csrs := local_irq_restore irq (csrs k) |> in
      (pid (get_task k i), k)
  | None => (-1, k <| csrs := local_irq_restore irq (csrs k) |>)
  end.

Definition task_wake_all (ch : channel) (k : kernel) : Z * kernel :=
  let '(irq, cs) := local_irq_save (csrs k) in
  let '(count, k) := fold_for 15 1 (λ i '(count, k),
    if sleeps_on ch (get_task k i) then (count + 1, wake i k) else (count, k))
    (0, k <| csrs := cs |>) in
  (count, k <| csrs := local_irq_restore irq (csrs k) |>).

(** ** Parameters and listing *)

Definition task_set_scheduler (policy : sched_policy) (k : kernel) : kernel :=
  k <| scheduler_policy := policy |>.

Definition task_set_quantum (ticks : Z) (k : kernel) : kernel :=
  let ticks := if ticks =? 0 then 1 else ticks in
  let k := k <| scheduler_quantum := ticks |> in
  fold_for 16 0 (λ i k,
    if negb (is_state TASK_UNUSED (get_task k i))
    then upd_task i (λ t, t <| time_slice := ticks |> <| ticks_left := ticks |>) k else k) k.

Record task_info := MkInfo {
  ti_pid : Z;
  ti_ppid : Z;
  ti_state : task_state;
  ti_runtime_ticks : Z;
  ti_context_switches : Z;
  ti_name : list Z;
}.

(** [names] are the bytes that were in the entries' name fields. *)
Fixpoint collect_processes (n : nat) (i capacity : Z) (names : list (list Z)) (k : kernel)
    : list task_info :=
  match n with
  | O => []
  | S n =>
      if capacity <=? 0 then []
      else
        let t := get_task k i in
        if is_state TASK_UNUSED t then collect_processes n (i + 1) capacity names k
        else MkInfo (pid t) (ppid t) (state t) (runtime_ticks t) (context_switches t)
               (copy_name (default (replicate 16 0) (head names)) (Some (name t)))
             :: collect_processes n (i + 1) (capacity - 1) (tail names) k
  end.

Definition task_get_processes (capacity : Z) (names : list (list Z)) (k : kernel)
    : Z * list task_info :=
  if capacity <? 0 then (-1, [])
  else
    let es := collect_processes 16 0 capacity names k in (Z.of_nat (length es), es).
