(* ===== verification/Process.v ===== *)
(** * Process table: invariant and life cycle (os/kernel/task.c)

    [task_table] is the part of the process table the invariant speaks of: the
    state, pid and parent of every slot.  [table_ok] is preserved by every
    operation; the relation [kstep] collects the operations the kernel performs
    and the theorems at the end speak of every state reached from [task_init]. *)

From S2P Require Import Prelude Csr Mem FdTable Vm AddrSpace Task.

(** ** The table *)

Record slot := MkSlot { sl_state : task_state; sl_pid : Z; sl_ppid : Z }.
#[global] Instance slot_eta : Settable slot := λ s, MkSlot (sl_state s) (sl_pid s) (sl_ppid s).

Definition slot_of (t : task) : slot := MkSlot (state t) (pid t) (ppid t).
Definition free_slot_value : slot := slot_of zero_task.

Record task_table := MkTable {
  tb_slots : list slot;
  tb_current : option Z;
  tb_count : Z;
  tb_next : Z;
}.
Definition table (k : kernel) : task_table :=
  MkTable (slot_of <$> tasks k) (current k) (task_count k) (next_pid k).

Definition slot_at (l : list slot) (i : Z) : slot := aget free_slot_value l i.
Definition used (s : slot) : Prop := sl_state s ≠ TASK_UNUSED.
#[global] Instance used_dec s : Decision (used s).
Proof. unfold used. apply _. Defined.
Definition used_count (l : list slot) : nat := sum_list_with (λ s, if decide (used s) then 1 else 0)%nat l.

Definition in_table (i : Z) : Prop := 0 ≤ i < 16.

(** The part of the invariant that concerns single slots. *)
Record slots_ok (t : task_table) : Prop := {
  so_len : length (tb_slots t) = 16%nat;
  so_current : ∃ c, tb_current t = Some c ∧ in_table c ∧ used (slot_at (tb_slots t) c);
  so_idle : sl_pid (slot_at (tb_slots t) 0) = 0 ∧
    (sl_state (slot_at (tb_slots t) 0) = TASK_READY ∨
     sl_state (slot_at (tb_slots t) 0) = TASK_RUNNING);
  so_range : ∀ i, in_table i → i ≠ 0 → used (slot_at (tb_slots t) i) →
    0 < sl_pid (slot_at (tb_slots t) i) < tb_next t;
  so_unique : ∀ i j, in_table i → in_table j → used (slot_at (tb_slots t) i) →
    used (slot_at (tb_slots t) j) →
    sl_pid (slot_at (tb_slots t) i) = sl_pid (slot_at (tb_slots t) j) → i = j;
  so_next : 1 ≤ tb_next t;
  so_count : tb_count t = Z.of_nat (used_count (tb_slots t));
  so_running : ∀ i, in_table i → sl_state (slot_at (tb_slots t) i) = TASK_RUNNING →
    tb_current t = Some i;
}.

(** Every process but the idle task has a parent that is alive. *)
Definition live_parent (l : list slot) (i j : Z) : Prop :=
  in_table j ∧ j ≠ i ∧ used (slot_at l j) ∧ sl_state (slot_at l j) ≠ TASK_ZOMBIE ∧
  sl_pid (slot_at l j) = sl_ppid (slot_at l i).
Definition parents_ok (l : list slot) : Prop :=
  ∀ i, in_table i → i ≠ 0 → used (slot_at l i) → ∃ j, live_parent l i j.

Record table_ok (t : task_table) : Prop := {
  to_slots : slots_ok t;
  to_parents : parents_ok (tb_slots t);
}.

(** ** Basic lemmas *)

Lemma slot_at_set l i s j :
  length l = 16%nat → in_table i → in_table j →
  slot_at (aset l i s) j = if decide (j = i) then s else slot_at l j.
Proof.
  intros Hl Hi Hj. unfold slot_at, in_table in *. case_decide as E.
  - subst. apply aget_aset_eq. lia.
  - apply aget_aset_ne; lia.
Qed.

Lemma used_count_set l i s :
  length l = 16%nat → in_table i →
  Z.of_nat (used_count (aset l i s)) =
    Z.of_nat (used_count l) - (if decide (used (slot_at l i)) then 1 else 0)
      + (if decide (used s) then 1 else 0).
Proof.
  intros Hl Hi. unfold in_table in Hi. unfold used_count, aset.
  pose proof (lookup_aget free_slot_value l i ltac:(lia)) as Hx. fold (slot_at l i) in Hx.
  pose proof (sum_list_with_insert (λ s, if decide (used s) then 1 else 0)%nat l _ _ s Hx) as H.
  cbn beta in H. destruct (decide (used (slot_at l i))), (decide (used s)); lia.
Qed.

Lemma used_count_pos l i :
  length l = 16%nat → in_table i → used (slot_at l i) → (1 ≤ used_count l)%nat.
Proof.
  intros Hl Hi Hu. unfold in_table in Hi.
  pose proof (lookup_aget free_slot_value l i ltac:(lia)) as Hx. fold (slot_at l i) in Hx.
  pose proof (sum_list_with_lookup (λ s, if decide (used s) then 1 else 0)%nat l _ _ Hx) as H.
  cbn beta in H. rewrite decide_True in H by done. done.
Qed.

Lemma used_count_ext l l' :
  length l' = length l →
  (∀ i, 0 ≤ i < Z.of_nat (length l) → sl_state (slot_at l' i) = sl_state (slot_at l i)) →
  used_count l' = used_count l.
Proof.
  revert l'. induction l as [|x l IH]; intros [|y l'] Hl Hs; try done. unfold used_count. cbn [sum_list_with].
  assert (sl_state y = sl_state x) as H0 by (apply (Hs 0); cbn; lia).
  f_equal.
  - destruct (decide (used y)) as [a|a], (decide (used x)) as [b|b]; unfold used in a, b;
      rewrite H0 in a; done.
  - apply IH; [by injection Hl|]. intros i Hi. specialize (Hs (i + 1)). unfold slot_at, aget in *.
    replace (Z.to_nat (i + 1)) with (S (Z.to_nat i)) in Hs by lia. cbn in Hs. apply Hs. cbn. lia.
Qed.

Lemma used_count_le l : length l = 16%nat → (used_count l ≤ 16)%nat.
Proof.
  intros <-. unfold used_count. induction l as [|x l IH]; cbn; [lia|]. destruct (decide (used x)); lia.
Qed.

Lemma used_count_full l :
  length l = 16%nat → (∀ i, in_table i → used (slot_at l i)) → used_count l = 16%nat.
Proof.
  intros Hl Hall. transitivity (length l); [|done]. unfold used_count.
  assert (Forall used l) as Hf.
  { apply Forall_lookup. intros n x Hx. specialize (Hall (Z.of_nat n)). unfold slot_at, aget in Hall.
    rewrite Nat2Z.id, Hx in Hall. apply Hall. apply lookup_lt_Some in Hx. unfold in_table. lia. }
  clear Hl Hall. induction Hf as [|x l Hx _ IH]; cbn; [done|]. rewrite decide_True by done. lia.
Qed.

(** The slot invariant depends on states and pids only. *)
Lemma slots_ok_ext t t' :
  slots_ok t → length (tb_slots t') = 16%nat → tb_current t' = tb_current t →
  tb_count t' = tb_count t → tb_next t' = tb_next t →
  (∀ i, in_table i → sl_state (slot_at (tb_slots t') i) = sl_state (slot_at (tb_slots t) i) ∧
                     sl_pid (slot_at (tb_slots t') i) = sl_pid (slot_at (tb_slots t) i)) →
  slots_ok t'.
Proof.
  intros [Hl (c & Hc & Hci & Hcu) [H0p H0s] Hr Hu Hn Hcnt Hrun] Hl' Hcur Hct Hnx He.
  assert (∀ i, in_table i → used (slot_at (tb_slots t') i) ↔ used (slot_at (tb_slots t) i)) as Hus.
  { intros i Hi. unfold used. by rewrite (proj1 (He i Hi)). }
  assert (in_table 0) as I0 by done.
  split; rewrite ?Hcur, ?Hct, ?Hnx; try done.
  - exists c. split; [done|]. split; [done|]. by apply Hus.
  - rewrite (proj1 (He 0 I0)), (proj2 (He 0 I0)). done.
  - intros i Hi Hi0 Hiu. rewrite (proj2 (He i Hi)). apply Hr; [done|done|by apply Hus].
  - intros i j Hi Hj Hiu Hju. rewrite (proj2 (He i Hi)), (proj2 (He j Hj)). apply Hu; [done|done|by apply Hus..].
  - rewrite Hcnt. f_equal. symmetry. apply used_count_ext; [congruence|]. intros i Hi. apply He. unfold in_table. lia.
  - intros i Hi. rewrite (proj1 (He i Hi)). auto.
Qed.

(** Two used slots: the count is at least two. *)
Lemma used_count_two l i j :
  length l = 16%nat → in_table i → in_table j → i ≠ j →
  used (slot_at l i) → used (slot_at l j) → (2 ≤ used_count l)%nat.
Proof.
  intros Hl Hi Hj Hne Hui Huj.
  pose proof (used_count_set l i free_slot_value Hl Hi) as H.
  rewrite decide_True, decide_False in H by (done || by intros ?).
  assert (1 ≤ used_count (aset l i free_slot_value))%nat; [|lia].
  apply (used_count_pos _ j); [by rewrite length_aset|done|].
  rewrite slot_at_set by done. by rewrite decide_False.
Qed.

Lemma slot_of_get k i : slot_at (tb_slots (table k)) i = slot_of (get_task k i).
Proof.
  unfold slot_at, get_task, table, aget. cbn [tb_slots]. rewrite list_lookup_fmap.
  by destruct (tasks k !! Z.to_nat i).
Qed.

Lemma fmap_aset {A B} (f : A → B) l i x : f <$> aset l i x = aset (f <$> l) i (f x).
Proof. unfold aset. apply list_fmap_insert. Qed.

Lemma get_task_upd k i f j :
  length (tasks k) = 16%nat → in_table i → in_table j →
  get_task (upd_task i f k) j = if decide (j = i) then f (get_task k i) else get_task k j.
Proof.
  intros Hl Hi Hj. unfold get_task at 1, upd_task. unfold in_table in *. cbn [tasks set_field].
  case_decide as E; [subst; apply aget_aset_eq; lia|]. apply aget_aset_ne; lia.
Qed.

Lemma length_tasks_upd k i f : length (tasks (upd_task i f k)) = length (tasks k).
Proof. cbn [upd_task tasks set_field]. apply length_aset. Qed.

Lemma length_tasks_upd_16 k i f : length (tasks k) = 16%nat → length (tasks (upd_task i f k)) = 16%nat.
Proof. by rewrite length_tasks_upd. Qed.

Lemma table_len k : slots_ok (table k) → length (tasks k) = 16%nat.
Proof. intros H. pose proof (so_len _ H) as Hl. cbn [tb_slots table] in Hl. by rewrite length_fmap in Hl. Qed.

(** An update changes one slot of the table. *)
Lemma table_upd k i f :
  table (upd_task i f k) =
    MkTable (aset (tb_slots (table k)) i (slot_of (f (get_task k i))))
      (current k) (task_count k) (next_pid k).
Proof. unfold table, upd_task. cbn. by rewrite fmap_aset. Qed.

(** ... or none, when it touches other fields. *)
Lemma table_upd_same k i f :
  length (tasks k) = 16%nat → in_table i →
  slot_of (f (get_task k i)) = slot_of (get_task k i) → table (upd_task i f k) = table k.
Proof.
  intros Hl Hi Hf. rewrite table_upd, Hf. unfold table at 2. f_equal.
  rewrite <- slot_of_get. apply aset_aget. cbn [table tb_slots]. rewrite length_fmap.
  unfold in_table in Hi. lia.
Qed.

(** ** Transitions of the table *)

Section transitions.
Context (l : list slot) (cur : option Z) (cnt nxt : Z).
Let t := MkTable l cur cnt nxt.

(** A used slot changes its state (and possibly its parent). *)
Lemma slots_state i s p :
  slots_ok t → in_table i → used (slot_at l i) → s ≠ TASK_UNUSED →
  (i = 0 → s = TASK_READY ∨ s = TASK_RUNNING) → (s = TASK_RUNNING → cur = Some i) →
  slots_ok (MkTable (aset l i (MkSlot s (sl_pid (slot_at l i)) p)) cur cnt nxt).
Proof using.
  intros [Hl (c & Hc & Hci & Hcu) [H0p H0s] Hr Hu Hn Hcnt Hrun] Hi Hiu Hs Hs0 Hsr.
  cbn [t tb_slots tb_current tb_count tb_next] in *.
  assert (∀ j, in_table j → slot_at (aset l i (MkSlot s (sl_pid (slot_at l i)) p)) j =
    if decide (j = i) then MkSlot s (sl_pid (slot_at l i)) p else slot_at l j) as Hat.
  { intros. by apply slot_at_set. }
  assert (∀ j, in_table j → used (slot_at (aset l i (MkSlot s (sl_pid (slot_at l i)) p)) j) →
    used (slot_at l j)) as Hused by (intros j Hj; rewrite Hat by done; by case_decide; subst).
  assert (∀ j, in_table j → sl_pid (slot_at (aset l i (MkSlot s (sl_pid (slot_at l i)) p)) j) =
    sl_pid (slot_at l j)) as Hpid by (intros j Hj; rewrite Hat by done; by case_decide; subst).
  assert (in_table 0) as I0 by done.
  split; cbn [tb_slots tb_current tb_count tb_next].
  - by rewrite length_aset.
  - exists c. split; [done|]. split; [done|]. rewrite Hat by done. by case_decide.
  - rewrite Hpid by done. split; [done|]. rewrite Hat by done. case_decide; [by apply Hs0|done].
  - intros j Hj Hne Hju. rewrite Hpid by done. auto.
  - intros j k Hj Hk Hju Hku. rewrite !Hpid by done. auto.
  - done.
  - rewrite Hcnt. rewrite (used_count_set l i) by done. rewrite !decide_True by done. lia.
  - intros j Hj. rewrite Hat by done. case_decide as E; [|by apply Hrun].
    subst j. cbn [sl_state]. intros ->. by apply Hsr.
Qed.

Lemma parents_state i s :
  parents_ok l → length l = 16%nat → in_table i → used (slot_at l i) → s ≠ TASK_UNUSED → s ≠ TASK_ZOMBIE →
  parents_ok (aset l i (MkSlot s (sl_pid (slot_at l i)) (sl_ppid (slot_at l i)))).
Proof using.
  intros Hp Hl Hi Hiu Hs Hz j Hj Hj0 Hju. rewrite slot_at_set in Hju by done.
  assert (used (slot_at l j)) as Hju' by (by case_decide; subst).
  destruct (Hp j Hj Hj0 Hju') as (q & Hq & Hqj & Hqu & Hqz & Hqp). exists q.
  unfold live_parent. rewrite !slot_at_set by done.
  split_and!; try done; repeat case_decide; subst; done.
Qed.

(** The CPU is given to another task. *)
Lemma slots_dispatch n :
  slots_ok t → in_table n → used (slot_at l n) →
  (∀ j, in_table j → sl_state (slot_at l j) ≠ TASK_RUNNING) →
  slots_ok (MkTable (aset l n (MkSlot TASK_RUNNING (sl_pid (slot_at l n)) (sl_ppid (slot_at l n))))
    (Some n) cnt nxt).
Proof using.
  intros [Hl Hc [H0p H0s] Hr Hu Hn Hcnt Hrun] Hi Hiu Hidle.
  cbn [t tb_slots tb_current tb_count tb_next] in *.
  set (l' := aset l n _).
  assert (∀ j, in_table j → slot_at l' j = if decide (j = n) then
    MkSlot TASK_RUNNING (sl_pid (slot_at l n)) (sl_ppid (slot_at l n)) else slot_at l j) as Hat.
  { intros. by apply slot_at_set. }
  assert (∀ j, in_table j → used (slot_at l' j) → used (slot_at l j)) as Hused
    by (intros j Hj; rewrite Hat by done; by case_decide; subst).
  assert (∀ j, in_table j → sl_pid (slot_at l' j) = sl_pid (slot_at l j)) as Hpid
    by (intros j Hj; rewrite Hat by done; by case_decide; subst).
  assert (in_table 0) as I0 by done.
  split; cbn [tb_slots tb_current tb_count tb_next].
  - by unfold l'; rewrite length_aset.
  - exists n. split; [done|]. split; [done|]. rewrite Hat by done. by rewrite decide_True.
  - rewrite Hpid by done. split; [done|]. rewrite Hat by done. case_decide; [by right|done].
  - intros j Hj Hne Hju. rewrite Hpid by done. auto.
  - intros j k Hj Hk Hju Hku. rewrite !Hpid by done. auto.
  - done.
  - rewrite Hcnt. unfold l'. rewrite (used_count_set l n) by done. rewrite !decide_True by done. lia.
  - intros j Hj. rewrite Hat by done. case_decide as E; [by subst|]. intros Hr'. by destruct (Hidle j).
Qed.

(** A free slot is taken by a new process. *)
Lemma table_alloc i p :
  table_ok t → in_table i → i ≠ 0 → ¬ used (slot_at l i) →
  (∃ j, in_table j ∧ used (slot_at l j) ∧ sl_state (slot_at l j) ≠ TASK_ZOMBIE ∧ sl_pid (slot_at l j) = p) →
  table_ok (MkTable (aset l i (MkSlot TASK_READY nxt p)) cur (cnt + 1) (nxt + 1)).
Proof using.
  intros [[Hl (c & Hc & Hci & Hcu) [H0p H0s] Hr Hu Hn Hcnt Hrun] Hp] Hi Hi0 Hfree Hpar.
  cbn [t tb_slots tb_current tb_count tb_next] in *. set (l' := aset l i _).
  assert (∀ j, in_table j → slot_at l' j = if decide (j = i) then MkSlot TASK_READY nxt p
    else slot_at l j) as Hat by (intros; by apply slot_at_set).
  assert (in_table 0) as I0 by done.
  assert (∀ j, in_table j → used (slot_at l j) → sl_pid (slot_at l j) < nxt) as Hlt.
  { intros j Hj Hju. destruct (decide (j = 0)) as [->|]; [lia|]. by apply Hr. }
  assert (∀ j, in_table j → used (slot_at l j) → j ≠ i) as Hne by (intros j Hj Hju ->; done).
  split; [split|]; cbn [tb_slots tb_current tb_count tb_next].
  - by unfold l'; rewrite length_aset.
  - exists c. split; [done|]. split; [done|]. rewrite Hat, decide_False by auto. done.
  - rewrite Hat, decide_False by auto. done.
  - intros j Hj Hj0. rewrite Hat by done. case_decide; [cbn; lia|].
    intros Hju. specialize (Hr j Hj Hj0 Hju). lia.
  - intros j k Hj Hk. rewrite !Hat by done.
    destruct (decide (j = i)), (decide (k = i)); subst; cbn [sl_pid]; try done; [| |auto].
    + intros _ Hku E. pose proof (Hlt k Hk Hku). lia.
    + intros Hju _ E. pose proof (Hlt j Hj Hju). lia.
  - lia.
  - rewrite Hcnt. unfold l'. rewrite (used_count_set l i), decide_False, decide_True by done. lia.
  - intros j Hj. rewrite Hat by done. case_decide; [done|]. by apply Hrun.
  - intros j Hj Hj0. rewrite Hat by done. unfold live_parent. case_decide as E.
    + intros _. destruct Hpar as (q & Hq & Hqu & Hqz & Hqp). exists q.
      rewrite !Hat, E, (decide_True (P := i = i)), decide_False by auto. subst j. auto.
    + intros Hju. destruct (Hp j Hj Hj0 Hju) as (q & Hq & Hqj & Hqu & Hqz & Hqp). exists q.
      rewrite !Hat, !decide_False by auto. done.
Qed.

(** A slot nobody's parent lives in is freed. *)
Lemma table_free i p q :
  table_ok t → in_table i → i ≠ 0 → cur ≠ Some i → used (slot_at l i) →
  (∀ j, in_table j → j ≠ 0 → used (slot_at l j) → ¬ live_parent l j i) →
  table_ok (MkTable (aset l i (MkSlot TASK_UNUSED p q)) cur (cnt - 1) nxt).
Proof using.
  intros [[Hl (c & Hc & Hci & Hcu) [H0p H0s] Hr Hu Hn Hcnt Hrun] Hp] Hi Hi0 Hci' Hused Hnop.
  cbn [t tb_slots tb_current tb_count tb_next] in *. set (l' := aset l i _).
  assert (∀ j, in_table j → slot_at l' j = if decide (j = i) then MkSlot TASK_UNUSED p q
    else slot_at l j) as Hat by (intros; by apply slot_at_set).
  assert (in_table 0) as I0 by done.
  assert (∀ j, in_table j → used (slot_at l' j) → j ≠ i ∧ used (slot_at l j)) as Hsub.
  { intros j Hj. rewrite Hat by done. case_decide; [|done]. by intros ?. }
  split; [split|]; cbn [tb_slots tb_current tb_count tb_next].
  - by unfold l'; rewrite length_aset.
  - exists c. split; [done|]. split; [done|]. rewrite Hat, decide_False by congruence. done.
  - rewrite Hat, decide_False by auto. done.
  - intros j Hj Hj0 [Hji Hju]%Hsub; [|done]. rewrite Hat, decide_False by done. auto.
  - intros j k Hj Hk [Hji Hju]%Hsub [Hki Hku]%Hsub; [|done..]. rewrite !Hat, !decide_False by done. auto.
  - done.
  - rewrite Hcnt. unfold l'. rewrite (used_count_set l i), decide_True, decide_False by (done || by intros ?).
    lia.
  - intros j Hj. rewrite Hat by done. case_decide; [done|]. by apply Hrun.
  - intros j Hj Hj0 [Hji Hju]%Hsub; [|done].
    destruct (Hp j Hj Hj0 Hju) as (r & Hlp). exists r.
    assert (r ≠ i) by (intros ->; by apply (Hnop j Hj Hj0 Hju)).
    destruct Hlp as (Hr1 & Hr2 & Hr3 & Hr4 & Hr5).
    unfold live_parent. rewrite !Hat, !decide_False by (done || auto). done.
Qed.
End transitions.

(** Loops over the table that update every slot independently. *)
Lemma fold_upd_tasks n lo (c : task → bool) (f : task → task) k :
  length (tasks k) = 16%nat → 0 ≤ lo → lo + Z.of_nat n ≤ 16 →
  ∃ ts, fold_for n lo (λ i k, if c (get_task k i) then upd_task i f k else k) k = k <| tasks := ts |> ∧
    length ts = 16%nat ∧
    ∀ j, in_table j → aget zero_task ts j =
      if decide (lo ≤ j < lo + Z.of_nat n) then (if c (get_task k j) then f (get_task k j) else get_task k j)
      else get_task k j.
Proof.
  intros Hl Hlo Hn.
  pose (I := λ (m : Z) (k' : kernel), ∃ ts, k' = k <| tasks := ts |> ∧ length ts = 16%nat ∧
    ∀ j, in_table j → aget zero_task ts j =
      if decide (lo ≤ j < m) then (if c (get_task k j) then f (get_task k j) else get_task k j)
      else get_task k j).
  apply (fold_for_ind I n lo); unfold I.
  - exists (tasks k). split; [by destruct k|]. split; [done|]. intros j Hj.
    rewrite decide_False; [done|lia].
  - intros j k' Hj (ts & -> & Hts & Hat).
    assert (in_table j) as Hjt by (unfold in_table; lia).
    assert (get_task (k <| tasks := ts |>) j = get_task k j) as Hg.
    { unfold get_task at 1. cbn [tasks set_field]. rewrite Hat, decide_False by (done || lia). done. }
    rewrite Hg. destruct (c (get_task k j)) eqn:Hc.
    + exists (aset ts j (f (get_task k j))).
      split. { unfold upd_task. rewrite Hg. done. }
      split; [by rewrite length_aset|]. intros i Hi.
      destruct (decide (i = j)) as [->|Hne].
      * rewrite aget_aset_eq by (unfold in_table in *; lia). rewrite decide_True by lia. by rewrite Hc.
      * rewrite aget_aset_ne by (unfold in_table in *; lia). rewrite Hat by done.
        destruct (decide (lo ≤ i < j)), (decide (lo ≤ i < j + 1)); done || lia.
    + exists ts. split; [done|]. split; [done|]. intros i Hi. rewrite Hat by done.
      destruct (decide (i = j)) as [->|Hne].
      * rewrite decide_False, decide_True by lia. by rewrite Hc.
      * destruct (decide (lo ≤ i < j)), (decide (lo ≤ i < j + 1)); done || lia.
Qed.

(** The table is determined by its slots. *)
Lemma table_ok_ext t t' :
  length (tb_slots t') = 16%nat → tb_current t' = tb_current t → tb_count t' = tb_count t →
  tb_next t' = tb_next t → length (tb_slots t) = 16%nat →
  (∀ i, in_table i → slot_at (tb_slots t') i = slot_at (tb_slots t) i) → t' = t.
Proof.
  destruct t as [l c n p], t' as [l' c' n' p']. cbn [tb_slots tb_current tb_count tb_next].
  intros Hl' -> -> -> Hl Hat. f_equal. apply (list_eq_aget free_slot_value); [congruence|].
  intros i Hi. apply Hat. unfold in_table. lia.
Qed.

(** The parent links after a process has died. *)
Lemma parents_exit t l' d :
  table_ok t → in_table d → d ≠ 0 → used (slot_at (tb_slots t) d) →
  (∀ j, in_table j → used (slot_at l' j) → used (slot_at (tb_slots t) j)) →
  (∀ j, in_table j → used (slot_at (tb_slots t) j) → used (slot_at l' j)) →
  (∀ j, in_table j → sl_pid (slot_at l' j) = sl_pid (slot_at (tb_slots t) j)) →
  (∀ j, in_table j → sl_state (slot_at l' j) = TASK_ZOMBIE →
     j = d ∨ sl_state (slot_at (tb_slots t) j) = TASK_ZOMBIE) →
  (∀ j, in_table j → j ≠ 0 → used (slot_at (tb_slots t) j) →
     sl_ppid (slot_at l' j) =
       if decide (sl_ppid (slot_at (tb_slots t) j) = sl_pid (slot_at (tb_slots t) d)) then 0
       else sl_ppid (slot_at (tb_slots t) j)) →
  parents_ok l'.
Proof.
  intros [Hs Hp] Hd Hd0 Hdu Hu1 Hu2 Hpid Hz Hpp j Hj Hj0 Hju.
  assert (in_table 0) as I0 by done. destruct (so_idle _ Hs) as [H0p H0s].
  assert (used (slot_at (tb_slots t) 0)) as H0u by (unfold used; destruct H0s as [-> | ->]; done).
  destruct (decide (sl_ppid (slot_at (tb_slots t) j) = sl_pid (slot_at (tb_slots t) d))) as [E|E].
  - exists 0. unfold live_parent. split; [done|]. split; [done|]. split; [auto|]. split.
    + intros Hz0. apply Hz in Hz0 as [E0|Hz0]; [congruence| |done]. destruct H0s as [H0s|H0s]; congruence.
    + rewrite (Hpid 0 I0), H0p, (Hpp j) by auto. by rewrite decide_True.
  - destruct (Hp j Hj Hj0) as (q & Hq & Hqj & Hqu & Hqz & Hqp); [auto|]. exists q.
    split; [done|]. split; [done|]. split; [auto|]. split.
    + intros Hzq. apply Hz in Hzq as [->|Hzq]; [congruence|done|done].
    + rewrite (Hpid q Hq), (Hpp j) by auto. by rewrite decide_False.
Qed.

(** ** The operations preserve the invariant *)

Definition kernel_ok (k : kernel) : Prop := table_ok (table k).

Section operations.
Implicit Types (k : kernel) (i c : Z).

Lemma ok_len k : kernel_ok k → length (tasks k) = 16%nat.
Proof. intros H. apply table_len, H. Qed.

Lemma ok_current k :
  kernel_ok k → ∃ c, current k = Some c ∧ in_table c ∧ state (get_task k c) ≠ TASK_UNUSED.
Proof.
  intros [H _]. destruct (so_current _ H) as (c & Hc & Hi & Hu). exists c.
  split; [done|]. split; [done|]. by rewrite slot_of_get in Hu.
Qed.

Lemma ok_idle k :
  kernel_ok k → pid (get_task k 0) = 0 ∧
  (state (get_task k 0) = TASK_READY ∨ state (get_task k 0) = TASK_RUNNING).
Proof. intros [H _]. pose proof (so_idle _ H) as Hi. by rewrite slot_of_get in Hi. Qed.

Lemma ok_running k i :
  kernel_ok k → in_table i → state (get_task k i) = TASK_RUNNING → current k = Some i.
Proof. intros [H _] Hi Hr. apply (so_running _ H); [done|]. by rewrite slot_of_get. Qed.

Lemma ok_pid_pos k i :
  kernel_ok k → in_table i → i ≠ 0 → state (get_task k i) ≠ TASK_UNUSED →
  0 < pid (get_task k i) < next_pid k.
Proof.
  intros [H _] Hi H0 Hu. pose proof (so_range _ H i Hi H0) as Hr. rewrite slot_of_get in Hr. auto.
Qed.

Lemma ok_pid_zero k i :
  kernel_ok k → in_table i → state (get_task k i) ≠ TASK_UNUSED → pid (get_task k i) = 0 ↔ i = 0.
Proof.
  intros H Hi Hu. split; [|intros ->; apply (ok_idle k H)].
  intros Hp. destruct (decide (i = 0)); [done|]. pose proof (ok_pid_pos k i H Hi n Hu). lia.
Qed.

Lemma ok_unique k i j :
  kernel_ok k → in_table i → in_table j → state (get_task k i) ≠ TASK_UNUSED →
  state (get_task k j) ≠ TASK_UNUSED → pid (get_task k i) = pid (get_task k j) → i = j.
Proof.
  intros [H _] Hi Hj Hiu Hju Hp. pose proof (so_unique _ H i j Hi Hj) as Hu.
  rewrite !slot_of_get in Hu. by apply Hu.
Qed.

Lemma ok_parent k i :
  kernel_ok k → in_table i → i ≠ 0 → state (get_task k i) ≠ TASK_UNUSED →
  ∃ q, in_table q ∧ q ≠ i ∧ state (get_task k q) ≠ TASK_UNUSED ∧ state (get_task k q) ≠ TASK_ZOMBIE ∧
    pid (get_task k q) = ppid (get_task k i).
Proof.
  intros [_ H] Hi H0 Hu. destruct (H i Hi H0) as (q & Hq); [by rewrite slot_of_get|]. exists q.
  unfold live_parent in Hq. rewrite !slot_of_get in Hq. exact Hq.
Qed.

Lemma ok_ppid_ne k i :
  kernel_ok k → in_table i → i ≠ 0 → state (get_task k i) ≠ TASK_UNUSED →
  ppid (get_task k i) ≠ pid (get_task k i).
Proof.
  intros H Hi H0 Hu E. destruct (ok_parent k i H Hi H0 Hu) as (q & Hq & Hqi & Hqu & _ & Hqp).
  apply Hqi, (ok_unique k); congruence.
Qed.

Lemma ok_same k k' : table k' = table k → kernel_ok k → kernel_ok k'.
Proof. unfold kernel_ok. by intros ->. Qed.

Lemma ok_upd_same k i f :
  kernel_ok k → in_table i → (∀ t, slot_of (f t) = slot_of t) → kernel_ok (upd_task i f k).
Proof.
  intros H Hi Hf. eapply ok_same; [|exact H]. apply table_upd_same; auto using ok_len.
Qed.

Lemma ok_state k i f s :
  kernel_ok k → in_table i → state (get_task k i) ≠ TASK_UNUSED →
  slot_of (f (get_task k i)) = MkSlot s (pid (get_task k i)) (ppid (get_task k i)) →
  s ≠ TASK_UNUSED → s ≠ TASK_ZOMBIE → (i = 0 → s = TASK_READY ∨ s = TASK_RUNNING) →
  (s = TASK_RUNNING → current k = Some i) → kernel_ok (upd_task i f k).
Proof.
  intros [Hs Hp] Hi Hu Hf Hs1 Hs2 H0 Hr. unfold kernel_ok. rewrite table_upd, Hf.
  pose proof (slot_of_get k i) as Hg.
  assert (used (slot_at (tb_slots (table k)) i)) as Hu' by (by rewrite Hg).
  pose proof (slots_state (tb_slots (table k)) (current k) (task_count k) (next_pid k) i s
    (ppid (get_task k i)) Hs Hi Hu' Hs1 H0 Hr) as H1.
  pose proof (parents_state (tb_slots (table k)) i s Hp (so_len _ Hs) Hi Hu' Hs1 Hs2) as H2.
  rewrite Hg in H1, H2. by split.
Qed.

Lemma ok_make_ready k i :
  kernel_ok k → in_table i → state (get_task k i) ≠ TASK_UNUSED → kernel_ok (make_ready i k).
Proof.
  intros H Hi Hu. unfold make_ready. apply (ok_state (bump_order k) i _ TASK_READY); try done.
  by left.
Qed.

Lemma get_task_make_ready k i j :
  length (tasks k) = 16%nat → in_table i → in_table j →
  get_task (make_ready i k) j =
    if decide (j = i)
    then (get_task k i) <| state := TASK_READY |> <| ready_order := u64 (order_counter k + 1) |>
    else get_task k j.
Proof. intros Hl Hi Hj. unfold make_ready. by rewrite get_task_upd. Qed.

(** *** Selection *)

Lemma is_state_true s t : is_state s t = true ↔ state t = s.
Proof. apply bool_decide_eq_true. Qed.
Lemma is_state_false s t : is_state s t = false ↔ state t ≠ s.
Proof. apply bool_decide_eq_false. Qed.

Lemma mod_in_table i : in_table (i mod MAX_TASKS).
Proof. apply Z.mod_pos_bound. unfold MAX_TASKS. lia. Qed.

Lemma select_rr_Some k n :
  select_rr k = Some n → in_table n ∧ state (get_task k n) = TASK_READY.
Proof.
  unfold select_rr. destruct (find_from 16 0 _) as [d|] eqn:E; [|done].
  intros [= <-]. apply find_from_Some in E as (_ & Hr & _).
  split; [apply mod_in_table|by apply is_state_true].
Qed.

Lemma select_rr_None k i :
  select_rr k = None → in_table i → (∀ c, current k = Some c → in_table c) →
  state (get_task k i) ≠ TASK_READY.
Proof.
  unfold select_rr. destruct (find_from 16 0 _) as [d|] eqn:E; [done|]. intros _ Hi Hc.
  set (s := match current k with Some c => (c + 1) mod MAX_TASKS | None => 0 end) in *.
  assert (in_table s) as Hs by (unfold s; destruct (current k); [apply mod_in_table|done]).
  rewrite find_from_None in E. specialize (E ((i - s) mod MAX_TASKS)).
  pose proof (mod_in_table (i - s)) as Hm. unfold in_table, MAX_TASKS in *.
  specialize (E ltac:(lia)). apply is_state_false in E.
  rewrite Z.add_mod_idemp_r in E by lia. replace (s + (i - s)) with i in E by lia.
  by rewrite Z.mod_small in E.
Qed.

(** The scan keeps the ready task with the least order seen so far. *)
Lemma fcfs_scan_spec n i best k :
  match best with
  | Some b => state (get_task k b) = TASK_READY
  | None => True end →
  match fcfs_scan n i best k with
  | Some r => state (get_task k r) = TASK_READY ∧
      (best = Some r ∨ i ≤ r < i + Z.of_nat n) ∧
      (∀ b, best = Some b → ready_order (get_task k r) ≤ ready_order (get_task k b)) ∧
      ∀ j, i ≤ j < i + Z.of_nat n → state (get_task k j) = TASK_READY →
        ready_order (get_task k r) ≤ ready_order (get_task k j)
  | None => best = None ∧ ∀ j, i ≤ j < i + Z.of_nat n → state (get_task k j) ≠ TASK_READY
  end.
Proof.
  revert i best. induction n as [|n IH]; intros i best Hb; cbn [fcfs_scan].
  - destruct best as [b|].
    + split; [done|]. split; [by left|]. split; [by intros b' [= <-]|]. intros j Hj. lia.
    + split; [done|]. intros j Hj. lia.
  - destruct (is_state TASK_READY (get_task k i)) eqn:Hi; cbn [andb].
    + apply is_state_true in Hi.
      set (b' := if match best with None => true
                 | Some b => ready_order (get_task k i) <? ready_order (get_task k b) end
                 then Some i else best).
      assert (∃ x, b' = Some x ∧ state (get_task k x) = TASK_READY ∧
        (best = Some x ∨ x = i) ∧ ready_order (get_task k x) ≤ ready_order (get_task k i) ∧
        (∀ b, best = Some b → ready_order (get_task k x) ≤ ready_order (get_task k b)))
        as (x & Hx & Hxr & Hxo & Hxi & Hxb).
      { unfold b'. destruct best as [b|].
        - destruct (ready_order (get_task k i) <? ready_order (get_task k b)) eqn:Hlt; bsimp.
          + exists i. split; [done|]. split; [done|]. split; [by right|]. split; [lia|]. intros ? [= <-]. lia.
          + exists b. split; [done|]. split; [done|]. split; [by left|]. split; [lia|]. by intros ? [= <-].
        - exists i. split; [done|]. split; [done|]. split; [by right|]. split; [lia|done]. }
      specialize (IH (i + 1) b'). rewrite Hx in IH. specialize (IH Hxr). rewrite Hx.
      destruct (fcfs_scan n (i + 1) (Some x) k) as [r|]; [|by destruct IH].
      destruct IH as (Hr & Hro & Hrb & Hrj). split; [done|]. split; [|split].
      * destruct Hro as [[= ->]|?]; [destruct Hxo as [->| ->]; [by left|right; lia]|right; lia].
      * intros b Hbb. specialize (Hrb x eq_refl). specialize (Hxb b Hbb). lia.
      * intros j Hj Hjr. destruct (decide (j = i)) as [->|].
        { specialize (Hrb x eq_refl). lia. } apply Hrj; [lia|done].
    + apply is_state_false in Hi. specialize (IH (i + 1) best Hb).
      destruct (fcfs_scan n (i + 1) best k) as [r|].
      * destruct IH as (Hr & Hro & Hrb & Hrj). split_and!; try done.
        { destruct Hro as [?|?]; [by left|right; lia]. }
        intros j Hj Hjr. destruct (decide (j = i)) as [->|]; [done|]. apply Hrj; [lia|done].
      * destruct IH as [-> Hj]. split; [done|]. intros j Hj'.
        destruct (decide (j = i)) as [->|]; [done|]. apply Hj. lia.
Qed.

Lemma select_next_Some k n :
  select_next k = Some n → in_table n ∧ state (get_task k n) = TASK_READY.
Proof.
  unfold select_next. destruct (scheduler_policy k); [|apply select_rr_Some].
  unfold select_fcfs. intros E. pose proof (fcfs_scan_spec 16 0 None k I) as H. rewrite E in H.
  destruct H as (Hr & Ho & _). split; [|done]. destruct Ho as [?|?]; [done|]. unfold in_table. lia.
Qed.

Lemma select_next_None k i :
  select_next k = None → in_table i → (∀ c, current k = Some c → in_table c) →
  state (get_task k i) ≠ TASK_READY.
Proof.
  unfold select_next. destruct (scheduler_policy k); [|apply select_rr_None].
  unfold select_fcfs. intros E Hi _. pose proof (fcfs_scan_spec 16 0 None k I) as H. rewrite E in H.
  destruct H as [_ H]. apply H. unfold in_table in Hi. lia.
Qed.
(** *** Switching *)

(** Giving the CPU to the ready task [n] when no task is running. *)
Lemma ok_dispatch k n f :
  kernel_ok k → in_table n → state (get_task k n) = TASK_READY →
  (∀ j, in_table j → state (get_task k j) ≠ TASK_RUNNING) →
  slot_of (f (get_task k n)) = MkSlot TASK_RUNNING (pid (get_task k n)) (ppid (get_task k n)) →
  kernel_ok ((upd_task n f k) <| current := Some n |>).
Proof.
  intros [Hs Hp] Hn Hr Hnone Hf. unfold kernel_ok.
  change (table ((upd_task n f k) <| current := Some n |>)) with
    (MkTable (tb_slots (table (upd_task n f k))) (Some n) (task_count k) (next_pid k)).
  rewrite table_upd, Hf. cbn [tb_slots]. pose proof (slot_of_get k n) as Hg.
  assert (used (slot_at (tb_slots (table k)) n)) as Hu by (rewrite Hg; unfold used; cbn; congruence).
  assert (∀ j, in_table j → sl_state (slot_at (tb_slots (table k)) j) ≠ TASK_RUNNING) as Hnone'
    by (intros j Hj; rewrite slot_of_get; by apply Hnone).
  pose proof (slots_dispatch (tb_slots (table k)) (current k) (task_count k) (next_pid k) n
    Hs Hn Hu Hnone') as H1.
  pose proof (parents_state (tb_slots (table k)) n TASK_RUNNING Hp (so_len _ Hs) Hn Hu) as H2.
  rewrite Hg in H1, H2. split; [exact H1|by apply H2].
Qed.

(** [prev] after it has been put back into the ready set. *)
Definition settle (c : Z) (k : kernel) : kernel :=
  if is_state TASK_RUNNING (get_task k c) then make_ready c k else k.

Lemma settle_spec k c :
  kernel_ok k → current k = Some c → in_table c →
  kernel_ok (settle c k) ∧ current (settle c k) = Some c ∧
  (∀ j, in_table j → state (get_task (settle c k) j) ≠ TASK_RUNNING) ∧
  ∀ j, in_table j → j ≠ c → get_task (settle c k) j = get_task k j.
Proof.
  intros H Hc Hi. pose proof (ok_len _ H) as Hl. unfold settle.
  destruct (is_state TASK_RUNNING (get_task k c)) eqn:E.
  - apply is_state_true in E. split; [apply ok_make_ready; [done|done|by rewrite E]|]. split; [done|].
    split.
    + intros j Hj. rewrite get_task_make_ready by done. case_decide as Hd; [done|].
      intros Hr. apply (ok_running k j H Hj) in Hr. congruence.
    + intros j Hj Hne. rewrite get_task_make_ready by done. by rewrite decide_False.
  - apply is_state_false in E. split; [done|]. split; [done|]. split; [|done].
    intros j Hj Hr. pose proof (ok_running k j H Hj Hr). congruence.
Qed.

(** The idle task can always be selected when nothing runs. *)
Lemma idle_ready k :
  kernel_ok k → (∀ j, in_table j → state (get_task k j) ≠ TASK_RUNNING) →
  state (get_task k 0) = TASK_READY.
Proof. intros H Hn. destruct (ok_idle k H) as [_ [?|Hr]]; [done|]. by apply Hn in Hr. Qed.

Lemma select_next_total k :
  kernel_ok k → (∀ j, in_table j → state (get_task k j) ≠ TASK_RUNNING) →
  ∃ n, select_next k = Some n ∧ in_table n ∧ state (get_task k n) = TASK_READY.
Proof.
  intros H Hn. destruct (select_next k) as [n|] eqn:E.
  - exists n. split; [done|]. by apply select_next_Some.
  - exfalso. apply (select_next_None k 0 E); [done| |by apply idle_ready].
    intros c Hc. destruct (ok_current k H) as (c' & Hc' & Hi & _). congruence.
Qed.

Definition run_fields (t : task) : task :=
  t <| state := TASK_RUNNING |> <| ticks_left := time_slice t |>
    <| context_switches := u64 (context_switches t + 1) |>.

(** [switch_task] always finds a task, which then runs. *)
Lemma switch_task_spec k c tf :
  kernel_ok k → current k = Some c → in_table c →
  ∃ n k', select_next (settle c k) = Some n ∧ in_table n ∧
    state (get_task (settle c k) n) = TASK_READY ∧
    k' = (upd_task n run_fields (settle c k)) <| current := Some n |> ∧
    switch_task c tf k =
      (negb (n =? c), (restore_trap_context (get_task k' n) (csrs k)).1,
       k' <| csrs := (restore_trap_context (get_task k' n) (csrs k)).2 |>) ∧
    kernel_ok k' ∧ state (get_task k' n) = TASK_RUNNING.
Proof.
  intros H Hc Hi. destruct (settle_spec k c H Hc Hi) as (H1 & Hc1 & Hn1 & _).
  destruct (select_next_total _ H1 Hn1) as (n & Hsel & Hn & Hr).
  exists n, ((upd_task n run_fields (settle c k)) <| current := Some n |>).
  split; [done|]. split; [done|]. split; [done|]. split; [done|]. split.
  - unfold switch_task. fold (settle c k). rewrite Hsel.
    change (csrs ((upd_task n _ (settle c k)) <| current := Some n |>)) with (csrs (settle c k)).
    assert (csrs (settle c k) = csrs k) as -> by (unfold settle; by destruct (is_state _ _)).
    fold run_fields. by destruct (restore_trap_context _ _).
  - split; [by apply ok_dispatch|].
    change (get_task (_ <| current := Some n |>) n) with (get_task (upd_task n run_fields (settle c k)) n).
    rewrite get_task_upd by auto using ok_len. by rewrite decide_True.
Qed.
Lemma save_context_ok k c tf :
  kernel_ok k → in_table c → kernel_ok (upd_task c (save_trap_context (csrs k) tf) k).
Proof. intros. by apply ok_upd_same. Qed.

Lemma tick_current_spec k c :
  kernel_ok k → in_table c → current k = Some c →
  let k' := (tick_current c k).2 in
  kernel_ok k' ∧ current k' = Some c ∧ csrs k' = csrs k ∧ table k' = table k.
Proof.
  intros H Hi Hc. unfold tick_current.
  assert (∀ f, (∀ t, slot_of (f t) = slot_of t) → table (upd_task c f k) = table k) as Hsame.
  { intros f Hf. apply table_upd_same; auto using ok_len. }
  set (k1 := upd_task c (λ t, t <| runtime_ticks := u64 (runtime_ticks t + 1) |>) k).
  assert (table k1 = table k) as T1 by (by apply Hsame).
  assert (kernel_ok k1) as H1 by (by apply (ok_same k)).
  repeat match goal with |- context [if ?b then _ else _] => destruct b end; cbn [snd];
    split_and!; try done.
  - apply ok_upd_same; done.
  - etransitivity; [|exact T1]. apply table_upd_same; auto using ok_len.
Qed.

Lemma ok_csrs k cs : kernel_ok k → kernel_ok (k <| csrs := cs |>).
Proof. by apply ok_same. Qed.

Lemma switch_from_trap_ok k tf force :
  kernel_ok k → kernel_ok (switch_from_trap tf force k).2.
Proof.
  intros H. unfold switch_from_trap. destruct (ok_current k H) as (c & Hc & Hi & _). rewrite Hc.
  destruct (task_count k <=? 1); [done|].
  pose proof (save_context_ok k c tf H Hi) as Hs.
  set (k1 := upd_task c (save_trap_context (csrs k) tf) k) in *.
  assert (current k1 = Some c) as Hc1 by done.
  assert (∀ k2, kernel_ok k2 → current k2 = Some c → kernel_ok (switch_task c tf k2).2) as Hsw.
  { intros k2 H2 Hc2. destruct (switch_task_spec k2 c tf H2 Hc2 Hi) as (n & k' & _ & _ & _ & _ & -> & Hk' & _).
    by apply ok_csrs. }
  destruct force; [by apply Hsw|].
  destruct (tick_current_spec k1 c Hs Hi Hc1) as (H2 & Hc2 & _).
  destruct (tick_current c k1) as [[] k2]; [done|]. by apply Hsw.
Qed.

Lemma ok_account k a b s : kernel_ok k → kernel_ok (account_switch a b s k).
Proof. unfold account_switch. destruct s; [by apply ok_same|done]. Qed.

Lemma sched_tick_ok k a b tf : kernel_ok k → kernel_ok (sched_tick a b tf k).2.
Proof.
  intros H. pose proof (switch_from_trap_ok k tf false H) as Hs. unfold sched_tick.
  destruct (switch_from_trap tf false k) as [[s tf'] k']. by apply ok_account.
Qed.

Lemma task_reschedule_ok k a b tf : kernel_ok k → kernel_ok (task_reschedule a b tf k).2.
Proof.
  intros H. pose proof (switch_from_trap_ok k tf true H) as Hs. unfold task_reschedule.
  destruct (switch_from_trap tf true k) as [[s tf'] k']. by apply ok_account.
Qed.

Lemma yield_ok k : kernel_ok k → task_current_state k = TASK_RUNNING → kernel_ok (yield k).
Proof.
  intros H Hrun. unfold yield. destruct (ok_current k H) as (c & Hc & Hi & _).
  unfold task_current_state in Hrun. rewrite Hc in *.
  destruct (task_count k <=? 1); [done|]. fold (settle c k).
  destruct (settle_spec k c H Hc Hi) as (H1 & Hc1 & Hn1 & _).
  destruct (select_next_total _ H1 Hn1) as (n & -> & Hn & Hr).
  destruct (n =? c) eqn:Enc; bsimp.
  - subst n. apply (ok_state _ _ _ TASK_RUNNING); try done; [by rewrite Hr|by right].
  - pose proof (ok_dispatch (settle c k) n run_fields H1 Hn Hr Hn1 eq_refl) as H2.
    fold run_fields. set (k1 := (upd_task n run_fields (settle c k)) <| current := Some n |>) in *.
    unfold switch_to. apply (ok_same (upd_task c (λ t, t <| ctx := cpu k1 |>) k1)); [reflexivity|].
    by apply ok_upd_same.
Qed.

(** *** Memory and descriptors do not matter *)

Lemma ok_fds k f : kernel_ok k → kernel_ok (k <| fds := f |>).
Proof. by apply ok_same. Qed.
Lemma ok_memory k m : kernel_ok k → kernel_ok (k <| memory := m |>).
Proof. by apply ok_same. Qed.

(** *** Creation *)

Lemma free_slot_spec k i :
  free_slot k = Some i → in_table i ∧ i ≠ 0 ∧ state (get_task k i) = TASK_UNUSED.
Proof.
  unfold free_slot. intros (Hi & Hs & _)%find_from_Some. unfold in_table.
  split; [lia|]. split; [lia|]. by apply is_state_true.
Qed.

(** Allocating slot [i] for pid [next_pid], by either constructor. *)
Lemma ok_alloc k i f :
  kernel_ok k → in_table i → i ≠ 0 → state (get_task k i) = TASK_UNUSED →
  next_pid k < 2 ^ 31 - 1 → task_current_state k = TASK_RUNNING →
  (∀ t, slot_of (f t) = MkSlot TASK_READY (next_pid k) (task_current_pid k)) →
  let k1 := bump_order (bump_pid (upd_task i f k)) in
  kernel_ok (k1 <| task_count := task_count k1 + 1 |>).
Proof.
  intros H Hi H0 Hu Hmax Hrun Hf k1. destruct (ok_current k H) as (c & Hc & Hci & Hcu).
  unfold task_current_state in Hrun. unfold task_current_pid in Hf. rewrite Hc in Hrun, Hf.
  assert (table (k1 <| task_count := task_count k1 + 1 |>) =
    MkTable (aset (tb_slots (table k)) i (MkSlot TASK_READY (next_pid k) (pid (get_task k c))))
      (current k) (task_count k + 1) (next_pid k + 1)) as Ht.
  { assert (i32 (next_pid k + 1) = next_pid k + 1) as Hn.
    { apply i32_small. pose proof (so_next _ (to_slots _ H)). cbn in *. lia. }
    pose proof (table_upd k i f) as Htu. rewrite Hf in Htu.
    unfold table in Htu |- *. cbn in Htu |- *. injection Htu as ->. by rewrite Hn. }
  unfold kernel_ok. rewrite Ht.
  apply (table_alloc (tb_slots (table k)) (current k) (task_count k) (next_pid k)); try done.
  - rewrite slot_of_get. unfold used. cbn. rewrite Hu. by intros [].
  - exists c. rewrite slot_of_get. unfold used. cbn. by rewrite Hrun.
Qed.

(** Undoing it when the descriptor table is full. *)
Lemma ok_unalloc k i f g fd :
  kernel_ok k → in_table i → i ≠ 0 → state (get_task k i) = TASK_UNUSED →
  next_pid k < 2 ^ 31 - 1 → task_current_state k = TASK_RUNNING →
  (∀ t, slot_of (f t) = MkSlot TASK_READY (next_pid k) (task_current_pid k)) →
  (∀ t, state (g t) = TASK_UNUSED) →
  let k1 := bump_order (bump_pid (upd_task i f k)) in
  let k2 := (k1 <| task_count := task_count k1 + 1 |>) <| fds := fd |> in
  kernel_ok ((upd_task i g k2) <| task_count := task_count k2 - 1 |>).
Proof.
  intros H Hi H0 Hu Hmax Hrun Hf Hg k1 k2.
  assert (kernel_ok k2) as H2 by (by apply ok_fds, ok_alloc).
  assert (get_task k2 i = f (get_task k i)) as Hgi.
  { change (get_task k2 i) with (get_task (upd_task i f k) i).
    rewrite get_task_upd by auto using ok_len. by rewrite decide_True. }
  assert (∀ j, in_table j → j ≠ i → get_task k2 j = get_task k j) as Hgj.
  { intros j Hj Hne. change (get_task k2 j) with (get_task (upd_task i f k) j).
    rewrite get_task_upd by auto using ok_len. by rewrite decide_False. }
  destruct (ok_current k H) as (c & Hc & Hci & Hcu).
  assert (c ≠ i) as Hci' by congruence.
  unfold kernel_ok. pose proof (table_upd k2 i g) as Ht.
  change (table ((upd_task i g k2) <| task_count := task_count k2 - 1 |>)) with
    (MkTable (tb_slots (table (upd_task i g k2))) (current k2) (task_count k2 - 1) (next_pid k2)).
  rewrite Ht. cbn [tb_slots].
  assert (slot_of (g (get_task k2 i)) = MkSlot TASK_UNUSED (pid (g (get_task k2 i))) (ppid (g (get_task k2 i))))
    as -> by (unfold slot_of; by rewrite Hg).
  apply (table_free (tb_slots (table k2)) (current k2) (task_count k2) (next_pid k2)); try done.
  - change (current k2) with (current k). congruence.
  - rewrite slot_of_get, Hgi, Hf. done.
  - intros j Hj Hj0 Hju (_ & Hne & _ & _ & Hp). rewrite !slot_of_get, Hgi, Hf in Hp.
    rewrite slot_of_get in Hju. rewrite Hgj in Hp, Hju by done. cbn [sl_pid sl_ppid slot_of] in Hp.
    destruct (to_parents _ H j Hj Hj0) as (q & Hq & Hqj & Hqu & _ & Hqp); [by rewrite slot_of_get|].
    rewrite !slot_of_get in Hqp. rewrite slot_of_get in Hqu. cbn [sl_pid sl_ppid slot_of] in Hqp.
    destruct (decide (q = 0)) as [->|Hq0].
    + pose proof (proj1 (ok_idle k H)). pose proof (so_next _ (to_slots _ H) : 1 ≤ next_pid k). lia.
    + pose proof (ok_pid_pos k q H Hq Hq0 Hqu). lia.
Qed.
Lemma task_create_ok ts entry nm k :
  kernel_ok k → task_current_state k = TASK_RUNNING → next_pid k < 2 ^ 31 - 1 →
  kernel_ok (task_create ts entry nm k).2.
Proof.
  intros H Hrun Hmax. unfold task_create. destruct (_ || _); [done|].
  destruct (free_slot k) as [i|] eqn:E; [|done]. apply free_slot_spec in E as (Hi & H0 & Hu). cbv zeta.
  destruct (ok_current k H) as (c & Hc & _).
  match goal with |- context [upd_task i ?f k] => set (f0 := f) end.
  assert (∀ t, slot_of (f0 t) = MkSlot TASK_READY (next_pid k) (task_current_pid k)) as Hf0.
  { intros t. unfold f0, slot_of, task_current_pid. by rewrite Hc. }
  clearbody f0. destruct (minifs_process_init _ _) as [rc fd].
  destruct (rc <? 0); cbn [snd].
  - by apply (ok_unalloc k i f0 _ fd).
  - by apply ok_fds, ok_alloc.
Qed.

Lemma task_fork_ok ts tf epc sp k :
  kernel_ok k → task_current_state k = TASK_RUNNING → next_pid k < 2 ^ 31 - 1 →
  kernel_ok (task_fork_from_trap ts tf epc sp k).2.
Proof.
  intros H Hrun Hmax. unfold task_fork_from_trap. destruct (ok_current k H) as (c & Hc & _). rewrite Hc.
  destruct (_ <=? _); [done|].
  destruct (free_slot k) as [i|] eqn:E; [|done]. apply free_slot_spec in E as (Hi & H0 & Hu). cbv zeta.
  match goal with |- context [upd_task i ?f k] => set (f0 := f) end.
  assert (∀ t, slot_of (f0 t) = MkSlot TASK_READY (next_pid k) (task_current_pid k)) as Hf0.
  { intros t. unfold f0, slot_of, task_current_pid. by rewrite Hc. }
  clearbody f0. destruct (minifs_process_fork _ _ _) as [rc fd].
  destruct (rc <? 0); cbn [snd].
  - by apply (ok_unalloc k i f0 _ fd).
  - by apply ok_fds, ok_alloc.
Qed.

(** *** Death *)

Lemma find_pid_Some k p i :
  find_pid p k = Some i → in_table i ∧ state (get_task k i) ≠ TASK_UNUSED ∧ pid (get_task k i) = p.
Proof.
  unfold find_pid. intros (Hi & Hp & _)%find_from_Some. bsimp. unfold in_table.
  split; [lia|]. split; [by apply is_state_false|done].
Qed.

Lemma find_pid_used k i :
  slots_ok (table k) → in_table i → state (get_task k i) ≠ TASK_UNUSED → find_pid (pid (get_task k i)) k = Some i.
Proof.
  intros H Hi Hu. unfold find_pid.
  destruct (find_from_complete 16 0 (λ j, negb (is_state TASK_UNUSED (get_task k j)) &&
    (pid (get_task k j) =? pid (get_task k i))) i) as (j & -> & Hj & Hp).
  - unfold in_table in Hi. lia.
  - rewrite Z.eqb_refl, andb_true_r, negb_true_iff. by apply is_state_false.
  - bsimp. f_equal. apply (so_unique _ H); unfold in_table in *; try lia;
      rewrite !slot_of_get; [by apply is_state_false|done|done].
Qed.

Lemma find_pid_None k p i :
  find_pid p k = None → in_table i → state (get_task k i) ≠ TASK_UNUSED → pid (get_task k i) ≠ p.
Proof.
  unfold find_pid. rewrite find_from_None. intros H Hi Hu Hp.
  specialize (H i ltac:(unfold in_table in Hi; lia)). cbn beta in H. rewrite Hp, Z.eqb_refl, andb_true_r in H.
  apply negb_false_iff, is_state_true in H. done.
Qed.

(** [wake] turns a blocked task into a ready one and nothing else in the table. *)
Lemma get_task_wake k i j :
  length (tasks k) = 16%nat → in_table i → in_table j →
  get_task (wake i k) j =
    if decide (j = i)
    then (get_task k i) <| wait_channel := ChNull |> <| state := TASK_READY |>
           <| ready_order := u64 (order_counter k + 1) |>
    else get_task k j.
Proof.
  intros Hl Hi Hj. unfold wake. rewrite get_task_make_ready by (by rewrite ?length_tasks_upd).
  rewrite !get_task_upd by done. rewrite (decide_True (P := i = i)) by done. by case_decide.
Qed.

Lemma table_wake k i :
  length (tasks k) = 16%nat → in_table i →
  table (wake i k) =
    MkTable (aset (tb_slots (table k)) i
      (MkSlot TASK_READY (pid (get_task k i)) (ppid (get_task k i))))
      (current k) (task_count k) (next_pid k).
Proof.
  intros Hl Hi. unfold wake. set (k1 := upd_task i (λ t, t <| wait_channel := ChNull |>) k).
  assert (table k1 = table k) as Hsame by (by apply table_upd_same).
  assert (get_task k1 i = (get_task k i) <| wait_channel := ChNull |>) as Hg
    by (unfold k1; by rewrite get_task_upd, decide_True).
  unfold make_ready. cbv zeta. rewrite (table_upd (bump_order k1)).
  change (table (bump_order k1)) with (table k1). change (get_task (bump_order k1) i) with (get_task k1 i).
  by rewrite Hsame, Hg.
Qed.

Lemma slots_wake k i :
  slots_ok (table k) → in_table i → state (get_task k i) = TASK_BLOCKED → slots_ok (table (wake i k)).
Proof.
  intros Hs Hi Hb. rewrite table_wake by auto using table_len.
  pose proof (slots_state (tb_slots (table k)) (current k) (task_count k) (next_pid k) i TASK_READY
    (ppid (get_task k i)) Hs Hi) as H. rewrite slot_of_get in H. cbn [slot_of sl_pid] in H.
  apply H; [unfold used; cbn; congruence|done|by left|done].
Qed.

(** Waking the parent turns at most one blocked slot into a ready one. *)
Lemma wake_parent_spec k d :
  length (tasks k) = 16%nat → slots_ok (table k) →
  let k' := wake_parent d k in
  length (tasks k') = 16%nat ∧ current k' = current k ∧ task_count k' = task_count k ∧
  next_pid k' = next_pid k ∧ slots_ok (table k') ∧
  ∀ j, in_table j → slot_of (get_task k' j) = slot_of (get_task k j) ∨
    (state (get_task k j) = TASK_BLOCKED ∧ state (get_task k' j) = TASK_READY ∧
     pid (get_task k' j) = pid (get_task k j) ∧ ppid (get_task k' j) = ppid (get_task k j)).
Proof.
  intros Hl Hs. unfold wake_parent. destruct (find_pid _ k) as [p|] eqn:E; [|cbv zeta; by auto 10].
  apply find_pid_Some in E as (Hp & _ & _). cbv zeta.
  destruct (is_state TASK_BLOCKED (get_task k p)) eqn:Eb; cbn [andb]; [|by auto 10].
  destruct (_ || _); [|by auto 10]. apply is_state_true in Eb.
  split; [cbn; by rewrite !length_aset|].
  split; [done|]. split; [done|]. split; [done|]. split; [by apply slots_wake|]. intros j Hj.
  rewrite get_task_wake by done. destruct (decide (j = p)) as [->|]; [by right|by left].
Qed.

Lemma death_slots k d f fd :
  slots_ok (table k) → in_table d → d ≠ 0 → state (get_task k d) ≠ TASK_UNUSED →
  (∀ t, slot_of (f t) = MkSlot TASK_ZOMBIE (pid t) (ppid t)) →
  slots_ok (table ((upd_task d f k) <| fds := fd |>)).
Proof.
  intros H Hd Hd0 Hdu Hf.
  pose proof (slots_state (tb_slots (table k)) (current k) (task_count k) (next_pid k) d TASK_ZOMBIE
    (ppid (get_task k d)) H Hd) as S1. rewrite slot_of_get in S1.
  pose proof (table_upd k d f) as Ht. rewrite Hf in Ht.
  change (table ((upd_task d f k) <| fds := fd |>)) with (table (upd_task d f k)). rewrite Ht. by apply S1.
Qed.

(** The death of process [d]: it becomes a zombie, its parent may be woken and its
    children go to the idle task. *)
Lemma death_ok k d f fd :
  kernel_ok k → in_table d → d ≠ 0 → state (get_task k d) ≠ TASK_UNUSED →
  (∀ t, slot_of (f t) = MkSlot TASK_ZOMBIE (pid t) (ppid t)) →
  kernel_ok (reparent d (wake_parent d ((upd_task d f k) <| fds := fd |>))).
Proof.
  intros H Hd Hd0 Hdu Hf. pose proof (ok_len _ H) as Hl.
  set (k1 := (upd_task d f k) <| fds := fd |>).
  assert (length (tasks k1) = 16%nat) as Hl1 by (cbn; by rewrite length_aset).
  assert (∀ j, in_table j → get_task k1 j = if decide (j = d) then f (get_task k d) else get_task k j) as G1.
  { intros j Hj. change (get_task k1 j) with (get_task (upd_task d f k) j). by rewrite get_task_upd. }
  pose proof (death_slots k d f fd (to_slots _ H) Hd Hd0 Hdu Hf) as S1. fold k1 in S1.
  destruct (wake_parent_spec k1 d Hl1 S1) as (Hl2 & Hc2 & Hk2 & Hn2 & S2 & Hsl2).
  set (k2 := wake_parent d k1) in *. unfold reparent.
  destruct (fold_upd_tasks 15 1 (λ t, negb (is_state TASK_UNUSED t) && (ppid t =? pid (get_task k2 d)))
    (λ t, t <| ppid := 0 |>) k2 Hl2) as (ts & Hfold & Hlts & Hts); [lia..|].
  cbv zeta. rewrite Hfold.
  assert (∀ j, in_table j → get_task (k2 <| tasks := ts |>) j = aget zero_task ts j) as G3 by done.
  assert (∀ j, in_table j → state (get_task (k2 <| tasks := ts |>) j) = state (get_task k2 j) ∧
    pid (get_task (k2 <| tasks := ts |>) j) = pid (get_task k2 j)) as Hsame.
  { intros j Hj. rewrite G3, Hts by done. destruct (decide _); [|done]. by destruct (_ && _). }
  assert (∀ j, in_table j → pid (get_task k2 j) = pid (get_task k j) ∧
    (state (get_task k2 j) = TASK_UNUSED ↔ state (get_task k j) = TASK_UNUSED) ∧
    (state (get_task k2 j) = TASK_ZOMBIE → j = d ∨ state (get_task k j) = TASK_ZOMBIE) ∧
    ppid (get_task k2 j) = ppid (get_task k j)) as H2.
  { intros j Hj. assert (slot_of (get_task k1 j) =
      if decide (j = d) then MkSlot TASK_ZOMBIE (pid (get_task k d)) (ppid (get_task k d))
      else slot_of (get_task k j)) as E1 by (rewrite G1 by done; case_decide; [by rewrite Hf|done]).
    destruct (Hsl2 j Hj) as [E2|(Eb & Er & Ep & Epp)].
    - rewrite E1 in E2. case_decide; [subst j; injection E2 as -> -> ->|injection E2 as -> -> ->]; [|tauto].
      split; [done|]. split; [|split; [by left|done]]. split; [done|intros ?; done].
    - unfold slot_of in E1. case_decide; [injection E1; congruence|].
      injection E1 as E1s E1p E1q. rewrite Ep, Epp, Er. rewrite <- E1s, Eb. split; [done|]. split; [done|].
      split; [done|done]. }
  assert (slots_ok (table (k2 <| tasks := ts |>))) as S3.
  { apply (slots_ok_ext (table k2)); try done.
    - cbn [table tb_slots tasks set_field]. by rewrite length_fmap.
    - intros j Hj. rewrite !slot_of_get. by apply Hsame. }
  split; [exact S3|].
  apply (parents_exit (table k) _ d); try done.
  - by rewrite slot_of_get.
  - intros j Hj. rewrite !slot_of_get. unfold used. cbn [sl_state slot_of].
    rewrite (proj1 (Hsame j Hj)). by rewrite (proj1 (proj2 (H2 j Hj))).
  - intros j Hj. rewrite !slot_of_get. unfold used. cbn [sl_state slot_of].
    rewrite (proj1 (Hsame j Hj)). by rewrite (proj1 (proj2 (H2 j Hj))).
  - intros j Hj. rewrite !slot_of_get. cbn [sl_pid slot_of].
    rewrite (proj2 (Hsame j Hj)). apply (H2 j Hj).
  - intros j Hj. rewrite !slot_of_get. cbn [sl_state slot_of].
    rewrite (proj1 (Hsame j Hj)). apply (H2 j Hj).
  - intros j Hj Hj0. rewrite !slot_of_get. unfold used. cbn [sl_state sl_pid sl_ppid slot_of]. intros Hju.
    destruct (H2 j Hj) as (Hpj & Huj & _ & Hppj). destruct (H2 d Hd) as (Hpd & _).
    rewrite G3, Hts by done. rewrite decide_True by (unfold in_table in Hj; lia).
    assert (is_state TASK_UNUSED (get_task k2 j) = false) as -> by (apply is_state_false; tauto).
    cbn [negb andb]. rewrite Hpd, Hppj. destruct (ppid (get_task k j) =? pid (get_task k d)) eqn:E; bsimp.
    + by rewrite decide_True.
    + by rewrite decide_False.
Qed.

(** [death_ok] in the shape the two callers have it. *)
Lemma task_exit_ok k code : kernel_ok k → kernel_ok (task_exit code k).
Proof.
  intros H. unfold task_exit. destruct (ok_current k H) as (c & Hc & Hi & Hu). rewrite Hc.
  destruct (pid (get_task k c) =? 0) eqn:E; [done|]. bsimp. cbv zeta.
  apply (death_ok k c); try done. intros ->. apply E, (ok_idle k H).
Qed.

Lemma task_kill_ok k p code : kernel_ok k → kernel_ok (task_kill p code k).2.
Proof.
  intros H. unfold task_kill. destruct (find_pid p k) as [i|] eqn:E; [|done].
  apply find_pid_Some in E as (Hi & Hu & _). cbv zeta.
  destruct (pid (get_task k i) =? 0) eqn:E0; [done|]. bsimp. cbn [orb].
  destruct (_ || _); [done|]. cbn [snd].
  apply (death_ok k i); try done. intros ->. apply E0, (ok_idle k H).
Qed.

(** *** Waiting *)

(** What the scan of [task_waitpid] looks for. *)
Definition wait_match (p c i : Z) (k : kernel) : Prop :=
  state (get_task k i) ≠ TASK_UNUSED ∧ ppid (get_task k i) = pid (get_task k c) ∧
  (0 < p → pid (get_task k i) = p).

Lemma wait_scan_spec n lo h p c k :
  match wait_scan n lo h p c k with
  | (Some i, h') => h' = true ∧ lo ≤ i < lo + Z.of_nat n ∧ wait_match p c i k ∧
      state (get_task k i) = TASK_ZOMBIE ∧
      ∀ j, lo ≤ j < i → wait_match p c j k → state (get_task k j) ≠ TASK_ZOMBIE
  | (None, h') =>
      (∀ j, lo ≤ j < lo + Z.of_nat n → wait_match p c j k → state (get_task k j) ≠ TASK_ZOMBIE) ∧
      (h' = true ↔ h = true ∨ ∃ j, lo ≤ j < lo + Z.of_nat n ∧ wait_match p c j k)
  end.
Proof.
  revert lo h. induction n as [|n IH]; intros lo h; cbn [wait_scan].
  { split; [intros; lia|]. split; [by left|]. intros [?|(j & ? & _)]; [done|lia]. }
  assert (∀ h', ¬ wait_match p c lo k →
    match wait_scan n (lo + 1) h' p c k with
    | (Some i, h'') => h'' = true ∧ lo ≤ i < lo + Z.of_nat (S n) ∧ wait_match p c i k ∧
      state (get_task k i) = TASK_ZOMBIE ∧
      ∀ j, lo ≤ j < i → wait_match p c j k → state (get_task k j) ≠ TASK_ZOMBIE
    | (None, h'') =>
      (∀ j, lo ≤ j < lo + Z.of_nat (S n) → wait_match p c j k → state (get_task k j) ≠ TASK_ZOMBIE) ∧
      (h'' = true ↔ h' = true ∨ ∃ j, lo ≤ j < lo + Z.of_nat (S n) ∧ wait_match p c j k)
    end) as Hskip.
  { intros h' Hno. specialize (IH (lo + 1) h'). destruct (wait_scan n (lo + 1) h' p c k) as [[i|] h''].
    - destruct IH as (? & ? & ? & ? & Hj). split; [done|]. split; [lia|]. split; [done|]. split; [done|].
      intros j Hjr. destruct (decide (j = lo)) as [->|]; [done|]. apply Hj. lia.
    - destruct IH as [Hj Hiff]. split.
      + intros j Hjr. destruct (decide (j = lo)) as [->|]; [done|]. apply Hj. lia.
      + rewrite Hiff. apply or_iff_compat_l. split; intros (j & Hjr & Hm).
        * exists j. split; [lia|done].
        * destruct (decide (j = lo)) as [->|]; [done|]. exists j. split; [lia|done]. }
  destruct (is_state TASK_UNUSED (get_task k lo) || negb (ppid (get_task k lo) =? pid (get_task k c))) eqn:E1.
  { apply Hskip. intros (Hu & Hpp & _). apply orb_true_iff in E1 as [E1|E1]; bsimp; [|done].
    by apply is_state_true in E1. }
  apply orb_false_iff in E1 as [E1u E1p]. apply is_state_false in E1u. bsimp.
  destruct ((0 <? p) && negb (pid (get_task k lo) =? p)) eqn:E2.
  { apply Hskip. intros (_ & _ & Hpid). apply andb_true_iff in E2 as [? ?]. bsimp. auto. }
  assert (wait_match p c lo k) as Hm.
  { split; [done|]. split; [done|]. intros Hp. apply andb_false_iff in E2 as [?|?]; bsimp; [lia|done]. }
  destruct (is_state TASK_ZOMBIE (get_task k lo)) eqn:Ez; cbn [negb].
  - apply is_state_true in Ez. split; [done|]. split; [lia|]. split; [done|]. split; [done|]. intros j Hj. lia.
  - apply is_state_false in Ez. specialize (IH (lo + 1) true).
    destruct (wait_scan n (lo + 1) true p c k) as [[i|] h''].
    + destruct IH as (? & ? & ? & ? & Hj). split; [done|]. split; [lia|]. split; [done|]. split; [done|].
      intros j Hjr. destruct (decide (j = lo)) as [->|]; [done|]. apply Hj. lia.
    + destruct IH as [Hj Hiff]. split.
      * intros j Hjr. destruct (decide (j = lo)) as [->|]; [done|]. apply Hj. lia.
      * split; [intros _; right; exists lo; split; [lia|done]|]. intros _. apply Hiff. by left.
Qed.

(** Reaping a zombie frees its slot. *)
Lemma reap_ok k i :
  kernel_ok k → in_table i → state (get_task k i) = TASK_ZOMBIE → current k ≠ Some i →
  kernel_ok (reap i k).
Proof.
  intros H Hi Hz Hc. pose proof (ok_len k H) as Hl. unfold reap. cbv zeta.
  assert (i ≠ 0) as Hi0.
  { intros ->. destruct (ok_idle k H) as [_ [E|E]]; congruence. }
  set (k1 := if has_user_space (get_task k i) then _ else k).
  assert (kernel_ok k1 ∧ current k1 = current k ∧ state (get_task k1 i) = TASK_ZOMBIE ∧
    table k1 = table k) as (H1 & Hc1 & Hz1 & Ht1).
  { unfold k1. destruct (has_user_space _); [|done]. destruct (user_space_destroy _ _) as [sp m].
    assert (table ((upd_task i (λ t, t <| address_space := sp |>) k) <| memory := m |>) = table k) as Ht
      by (change (table (upd_task i (λ t, t <| address_space := sp |>) k) = table k); by apply table_upd_same).
    split; [by apply (ok_same k)|]. split; [done|]. split; [|done].
    change (state (get_task (upd_task i (λ t, t <| address_space := sp |>) k) i) = TASK_ZOMBIE).
    by rewrite get_task_upd, decide_True. }
  clearbody k1. set (f := λ t : task, _). unfold kernel_ok.
  set (k2 := k1 <| fds := _ |>).
  change (table _) with (MkTable (tb_slots (table (upd_task i f k2))) (current k2) (task_count k2 - 1) (next_pid k2)).
  rewrite table_upd. cbn [tb_slots].
  change (get_task k2 i) with (get_task k1 i). change (table k2) with (table k1).
  change (slot_of (f (get_task k1 i))) with (MkSlot TASK_UNUSED (-1) (-1)).
  apply (table_free (tb_slots (table k1)) (current k1) (task_count k1) (next_pid k1)); try done.
  - cbn. congruence.
  - rewrite slot_of_get. unfold used. cbn. by rewrite Hz1.
  - intros j Hj Hj0 Hju (_ & _ & _ & Hnz & _). apply Hnz. by rewrite slot_of_get.
Qed.

(** A zombie child found by the scan is not the caller. *)
Lemma wait_child_ne k c i p :
  kernel_ok k → in_table c → in_table i → i ≠ 0 → wait_match p c i k → i ≠ c.
Proof.
  intros H Hc Hi Hi0 (Hu & Hpp & _) ->. by apply (ok_ppid_ne k c H).
Qed.

Lemma task_waitpid_ok k p nohang :
  kernel_ok k → task_current_state k = TASK_RUNNING →
  (task_current_pid k = 0 → nohang = true) →
  kernel_ok (task_waitpid p nohang k).2.
Proof.
  intros H Hrun Hidle. unfold task_waitpid. destruct (ok_current k H) as (c & Hc & Hci & Hcu).
  unfold task_current_state, task_current_pid in *. rewrite Hc in *.
  pose proof (wait_scan_spec 15 1 false p c k) as Hw.
  destruct (wait_scan 15 1 false p c k) as [[i|] h'].
  - destruct Hw as (_ & Hi & Hm & Hz & _). cbn [snd]. apply reap_ok; try done.
    + unfold in_table. lia.
    + rewrite Hc. intros [= <-]. congruence.
  - destruct h', nohang; cbn [snd]; try done.
    apply (ok_state k c _ TASK_BLOCKED); try done.
    intros ->. by specialize (Hidle (proj1 (ok_idle k H))).
Qed.

(** *** Blocking and waking *)

Lemma task_block_ok k ch :
  kernel_ok k → kernel_ok (task_block ch k).
Proof.
  intros H. unfold task_block. destruct (ok_current k H) as (c & Hc & Hi & Hu). rewrite Hc.
  destruct (pid (get_task k c) =? 0) eqn:E; [done|]. bsimp.
  destruct (local_irq_save (csrs k)) as [irq cs]. cbv zeta.
  set (k1 := upd_task c _ _). apply (ok_same k1); [done|].
  apply (ok_state (k <| csrs := cs |>) c _ TASK_BLOCKED); try done.
  intros ->. exfalso. apply E, (ok_idle k H).
Qed.

Lemma wake_ok k i :
  kernel_ok k → in_table i → state (get_task k i) = TASK_BLOCKED → kernel_ok (wake i k).
Proof.
  intros H Hi Hb. pose proof (ok_len k H) as Hl. unfold wake. apply ok_make_ready; [|done|].
  - by apply ok_upd_same.
  - rewrite get_task_upd, decide_True by done. cbn. congruence.
Qed.

Lemma sleeps_on_true ch t : sleeps_on ch t = true → state t = TASK_BLOCKED ∧ wait_channel t = ch.
Proof. unfold sleeps_on. intros [H1%is_state_true H2%bool_decide_eq_true]%andb_true_iff. done. Qed.

Lemma task_wake_one_ok k ch : kernel_ok k → kernel_ok (task_wake_one ch k).2.
Proof.
  intros H. unfold task_wake_one. destruct (local_irq_save (csrs k)) as [irq cs]. cbv zeta.
  destruct (find_from 15 1 _) as [i|] eqn:E; cbn [snd]; [|by apply (ok_same k)].
  apply find_from_Some in E as (Hi & [Hb _]%sleeps_on_true & _).
  set (k1 := wake i _). apply (ok_same k1); [done|].
  apply wake_ok; [by apply ok_csrs|unfold in_table; lia|done].
Qed.

Lemma task_wake_all_ok k ch : kernel_ok k → kernel_ok (task_wake_all ch k).2.
Proof.
  intros H. unfold task_wake_all. destruct (local_irq_save (csrs k)) as [irq cs].
  pose (I := λ (_ : Z) (s : Z * kernel), kernel_ok s.2).
  set (step := λ (i : Z) '(count, k0), _).
  assert (I 16 (fold_for 15 1 step (0, k <| csrs := cs |>))) as HI.
  { apply (fold_for_ind I 15 1); unfold I; [by apply ok_csrs|].
    intros i [n k1] Hi Hk1. unfold step. cbn [snd] in *.
    destruct (sleeps_on ch (get_task k1 i)) eqn:E; [|done]. apply sleeps_on_true in E as [Hb _].
    apply wake_ok; [done|unfold in_table; lia|done]. }
  unfold I in HI. destruct (fold_for 15 1 step (0, k <| csrs := cs |>)) as [n k1]. cbn [snd] in *.
  by apply (ok_same k1).
Qed.

(** *** Parameters *)

Lemma task_set_quantum_ok k q : kernel_ok k → kernel_ok (task_set_quantum q k).
Proof.
  intros H. unfold task_set_quantum. cbv zeta. set (q' := if q =? 0 then 1 else q). clearbody q'.
  destruct (fold_upd_tasks 16 0 (λ t, negb (is_state TASK_UNUSED t))
    (λ t, t <| time_slice := q' |> <| ticks_left := q' |>) (k <| scheduler_quantum := q' |>))
    as (ts & -> & Hl & Hts); [by apply (ok_len k)|lia..|].
  apply (ok_same k); [|done]. apply table_ok_ext; try done.
  - cbn. by rewrite length_fmap.
  - apply (so_len _ (to_slots _ H)).
  - intros i Hi. rewrite !slot_of_get. unfold get_task at 1. cbn [tasks set_field]. rewrite Hts by done.
    rewrite decide_True by (unfold in_table in Hi; lia). by destruct (negb _).
Qed.

(** Assignments to other fields of the running task. *)
Lemma ok_current_field k f :
  kernel_ok k → (∀ t, slot_of (f t) = slot_of t) →
  kernel_ok (match current k with None => k | Some c => upd_task c f k end).
Proof.
  intros H Hf. destruct (ok_current k H) as (c & Hc & Hi & _). rewrite Hc. by apply ok_upd_same.
Qed.
End operations.

(** ** Reachable states *)

(** What the kernel does with the process table.  A system call is made by the
    task that runs; the timer tick and [task_reschedule] may find the current task
    in any state.  The idle task only polls its children ([kernel_main]).  The
    pid counter is an [int]: the last creation the model covers is the one before
    it overflows (undefined behaviour in C). *)
Inductive kstep (task_stacks : Z) : kernel → kernel → Prop :=
| step_tick k a b tf : kstep task_stacks k (sched_tick a b tf k).2
| step_reschedule k a b tf : kstep task_stacks k (task_reschedule a b tf k).2
| step_yield k : task_current_state k = TASK_RUNNING → kstep task_stacks k (yield k)
| step_create k entry nm : task_current_state k = TASK_RUNNING → next_pid k < 2 ^ 31 - 1 →
    kstep task_stacks k (task_create task_stacks entry nm k).2
| step_fork k tf epc sp : task_current_state k = TASK_RUNNING → next_pid k < 2 ^ 31 - 1 →
    kstep task_stacks k (task_fork_from_trap task_stacks tf epc sp k).2
| step_exit k code : task_current_state k = TASK_RUNNING → kstep task_stacks k (task_exit code k)
| step_kill k p code : task_current_state k = TASK_RUNNING → kstep task_stacks k (task_kill p code k).2
| step_waitpid k p nohang : task_current_state k = TASK_RUNNING →
    (task_current_pid k = 0 → nohang = true) → kstep task_stacks k (task_waitpid p nohang k).2
| step_block k ch : task_current_state k = TASK_RUNNING → kstep task_stacks k (task_block ch k)
| step_wake_one k ch : kstep task_stacks k (task_wake_one ch k).2
| step_wake_all k ch : kstep task_stacks k (task_wake_all ch k).2
| step_scheduler k policy : kstep task_stacks k (task_set_scheduler policy k)
| step_quantum k q : kstep task_stacks k (task_set_quantum q k)
| step_attach k sp : kstep task_stacks k (task_attach_address_space sp k).2
| step_replace k sp : kstep task_stacks k (task_replace_address_space sp k).2
| step_entry k entry : kstep task_stacks k (task_set_current_entry entry k)
| step_cwd k inode : kstep task_stacks k (task_set_current_cwd inode k)
| step_name k nm : kstep task_stacks k (task_set_current_name nm k)
| step_trap_return k : kstep task_stacks k (task_prepare_trap_return k)
| step_outside k cs f m c :
    kstep task_stacks k (k <| csrs := cs |> <| fds := f |> <| memory := m |> <| cpu := c |>).

Section reachable.
Context (task_stacks : Z).

Lemma kstep_ok k k' : kernel_ok k → kstep task_stacks k k' → kernel_ok k'.
Proof.
  intros H Hs. destruct Hs.
  - by apply sched_tick_ok.
  - by apply task_reschedule_ok.
  - by apply yield_ok.
  - by apply task_create_ok.
  - by apply task_fork_ok.
  - by apply task_exit_ok.
  - by apply task_kill_ok.
  - by apply task_waitpid_ok.
  - by apply task_block_ok.
  - by apply task_wake_one_ok.
  - by apply task_wake_all_ok.
  - by apply (ok_same k).
  - by apply task_set_quantum_ok.
  - unfold task_attach_address_space. destruct (ok_current k H) as (c & -> & Hi & _). by apply ok_upd_same.
  - unfold task_replace_address_space. destruct (ok_current k H) as (c & -> & Hi & _).
    destruct (negb _); [done|]. by apply ok_upd_same.
  - by apply ok_current_field.
  - by apply ok_current_field.
  - by apply ok_current_field.
  - by apply (ok_same k).
  - by apply (ok_same k).
Qed.

Lemma ksteps_ok k k' : kernel_ok k → rtc (kstep task_stacks) k k' → kernel_ok k'.
Proof. intros H Hs. induction Hs; eauto using kstep_ok. Qed.

(** [task_init] builds a table with the idle task alone, whatever was there. *)
Lemma init_slots k :
  length (tasks k) = 16%nat →
  let k' := fold_for 16 0 init_slot k in
  length (tasks k') = 16%nat ∧ ∀ j, in_table j → slot_of (get_task k' j) = MkSlot TASK_UNUSED (-1) (-1).
Proof.
  intros Hl. cbv zeta.
  pose (I := λ (m : Z) (k' : kernel), length (tasks k') = 16%nat ∧
    ∀ j, 0 ≤ j < m → slot_of (get_task k' j) = MkSlot TASK_UNUSED (-1) (-1)).
  assert (I (0 + Z.of_nat 16) (fold_for 16 0 init_slot k)) as [H1 H2].
  { apply fold_for_ind; unfold I; [split; [done|intros; lia]|].
    intros j k' Hj [Hk' Hall]. unfold init_slot. match goal with |- context [upd_task j _ ?x] => set (k1 := x) end.
    assert (length (tasks k1) = 16%nat ∧ ∀ i, get_task k1 i = get_task k' i) as [Hl1 Hg1]
      by (unfold k1; by destruct (_ && _)).
    clearbody k1. split; [by rewrite length_tasks_upd|]. intros i Hi.
    rewrite get_task_upd by (done || unfold in_table; lia).
    destruct (decide (i = j)); [done|]. rewrite Hg1. apply Hall. lia. }
  split; [done|]. intros j Hj. apply H2. unfold in_table in Hj. lia.
Qed.

Lemma slots_cons_free s n i :
  1 ≤ i ≤ Z.of_nat n →
  sl_state (slot_at (s :: replicate n (MkSlot TASK_UNUSED (-1) (-1))) i) = TASK_UNUSED.
Proof.
  intros Hi. unfold slot_at, aget. replace (Z.to_nat i) with (S (Z.to_nat (i - 1))) by lia.
  change ((s :: ?l) !! S ?j) with (l !! j). rewrite lookup_replicate_2 by lia. done.
Qed.

Lemma task_init_fields k :
  (∃ t0, slot_of t0 = MkSlot TASK_RUNNING 0 (-1) ∧
    tasks (task_init k) = aset (tasks (fold_for 16 0 init_slot k)) 0 t0) ∧
  current (task_init k) = Some 0 ∧ task_count (task_init k) = 1 ∧ next_pid (task_init k) = 1.
Proof.
  unfold task_init. cbv zeta. generalize (fold_for 16 0 init_slot k). intros k1.
  split; [eexists; split; [|reflexivity]; reflexivity|]. split; [reflexivity|]. split; reflexivity.
Qed.

Lemma init_table_ok k1 k2 t0 :
  length (tasks k1) = 16%nat → (∀ j, in_table j → slot_of (get_task k1 j) = MkSlot TASK_UNUSED (-1) (-1)) →
  slot_of t0 = MkSlot TASK_RUNNING 0 (-1) → tasks k2 = aset (tasks k1) 0 t0 →
  current k2 = Some 0 → task_count k2 = 1 → next_pid k2 = 1 → kernel_ok k2.
Proof.
  intros Hl1 Hs1 Ht0 Hts Hcur Hcnt Hnx. unfold kernel_ok.
  assert (length (tasks k2) = 16%nat) as Hl2 by (rewrite Hts; by rewrite length_aset).
  assert (∀ j, in_table j → slot_of (get_task k2 j) =
    if decide (j = 0) then MkSlot TASK_RUNNING 0 (-1) else MkSlot TASK_UNUSED (-1) (-1)) as Hg2.
  { intros j Hj. unfold get_task. rewrite Hts. unfold in_table in Hj. destruct (decide (j = 0)) as [->|].
    - by rewrite aget_aset_eq by lia.
    - rewrite aget_aset_ne by lia. by apply Hs1. }
  assert (∀ j, in_table j → slot_at (tb_slots (table k2)) j =
    if decide (j = 0) then MkSlot TASK_RUNNING 0 (-1) else MkSlot TASK_UNUSED (-1) (-1)) as Hg
    by (intros j Hj; rewrite slot_of_get; by apply Hg2).
  assert (∀ j, in_table j → used (slot_at (tb_slots (table k2)) j) → j = 0) as Hu.
  { intros j Hj. rewrite Hg by done. case_decide; [done|]. by intros []. }
  split; [split|]; cbn [table tb_current tb_count tb_next].
  - cbn [tb_slots table]. by rewrite length_fmap.
  - exists 0. split; [done|]. split; [done|]. change (used (slot_at (tb_slots (table k2)) 0)).
    rewrite Hg by done. done.
  - change (MkTable (slot_of <$> tasks k2) (current k2) (task_count k2) (next_pid k2)) with (table k2).
    rewrite Hg by done. rewrite decide_True by done. auto.
  - intros i Hi Hi0 Hui. by apply Hu in Hui.
  - intros i j Hi Hj Hui Huj _. apply Hu in Hui, Huj; congruence.
  - lia.
  - rewrite Hcnt.
    rewrite (used_count_ext (MkSlot TASK_RUNNING 0 (-1) :: replicate 15 (MkSlot TASK_UNUSED (-1) (-1)))).
    + done.
    + change (length (slot_of <$> tasks k2) = 16%nat). by rewrite length_fmap.
    + intros i Hi. change (slot_of <$> tasks k2) with (tb_slots (table k2)). cbn in Hi.
      rewrite Hg by (unfold in_table; lia). destruct (decide (i = 0)) as [->|]; [done|].
      symmetry. apply (slots_cons_free (MkSlot TASK_RUNNING 0 (-1)) 15 i). lia.
  - intros i Hi. change (MkTable (slot_of <$> tasks k2) (current k2) (task_count k2) (next_pid k2)) with (table k2).
    rewrite Hg by done. destruct (decide (i = 0)) as [->|]; [by rewrite Hcur|done].
  - intros i Hi Hi0 Hui. by apply Hu in Hui.
Qed.

Lemma task_init_ok k : length (tasks k) = 16%nat → kernel_ok (task_init k).
Proof.
  intros Hl. destruct (init_slots k Hl) as [Hl1 Hs1].
  destruct (task_init_fields k) as ((t0 & Ht0 & Hts) & Hcur & Hcnt & Hnx).
  exact (init_table_ok _ _ t0 Hl1 Hs1 Ht0 Hts Hcur Hcnt Hnx).
Qed.
End reachable.

(** ** What the operations do *)

Section behaviour.
Implicit Types (k : kernel) (i j c p : Z).

(** A child the caller's [waitpid(p)] is about. *)
Definition child_of (p c i : Z) (k : kernel) : Prop := in_table i ∧ i ≠ 0 ∧ wait_match p c i k.

Lemma get_task_reap k i j :
  length (tasks k) = 16%nat → in_table i → in_table j →
  if decide (j = i)
  then state (get_task (reap i k) j) = TASK_UNUSED
  else get_task (reap i k) j = get_task k j.
Proof.
  intros Hl Hi Hj. unfold reap. cbv zeta.
  set (k1 := if has_user_space (get_task k i) then _ else k).
  assert (length (tasks k1) = 16%nat ∧ (j ≠ i → get_task k1 j = get_task k j)) as [Hl1 Hg1].
  { unfold k1. destruct (has_user_space _); [|done]. destruct (user_space_destroy _ _) as [sp m].
    split; [by rewrite <- Hl, <- (length_tasks_upd k i (λ t, t <| address_space := sp |>))|].
    intros Hne. change (get_task (upd_task i (λ t, t <| address_space := sp |>) k) j = get_task k j).
    by rewrite get_task_upd, decide_False. }
  clearbody k1. set (f := λ t : task, _). set (k2 := k1 <| fds := _ |>).
  change (get_task (_ <| task_count := _ |>) j) with (get_task (upd_task i f k2) j).
  rewrite get_task_upd by done. case_decide; [done|]. by apply Hg1.
Qed.

Lemma reap_count k i : task_count (reap i k) = task_count k - 1.
Proof. unfold reap. destruct (has_user_space _); [destruct (user_space_destroy _ _)|]; reflexivity. Qed.
Lemma reap_current k i : current (reap i k) = current k.
Proof. unfold reap. destruct (has_user_space _); [destruct (user_space_destroy _ _)|]; reflexivity. Qed.

(** The four outcomes of [task_waitpid]. *)
Lemma task_waitpid_spec k p nohang c :
  kernel_ok k → current k = Some c →
  let '(r, status, k') := task_waitpid p nohang k in
  (∃ i, child_of p c i k ∧ state (get_task k i) = TASK_ZOMBIE ∧
     (∀ j, child_of p c j k → j < i → state (get_task k j) ≠ TASK_ZOMBIE) ∧
     r = pid (get_task k i) ∧ status = Some (exit_code (get_task k i)) ∧ k' = reap i k) ∨
  ((∃ i, child_of p c i k) ∧ (∀ j, child_of p c j k → state (get_task k j) ≠ TASK_ZOMBIE) ∧
   status = None ∧
   if nohang then r = 0 ∧ k' = k
   else r = TASK_WAIT_BLOCKED ∧ k' = upd_task c (λ t, t <| wait_target := p |>
          <| wait_channel := ChTask c |> <| state := TASK_BLOCKED |>) k) ∨
  ((∀ i, ¬ child_of p c i k) ∧ r = -1 ∧ status = None ∧ k' = k).
Proof.
  intros H Hc. unfold task_waitpid. rewrite Hc.
  pose proof (wait_scan_spec 15 1 false p c k) as Hw.
  destruct (wait_scan 15 1 false p c k) as [[i|] h'].
  - destruct Hw as (_ & Hi & Hm & Hz & Hj). left. exists i.
    split; [split; [unfold in_table; lia|split; [lia|done]]|]. split; [done|].
    split; [|done]. intros j (Hjt & Hj0 & Hjm) Hji. apply Hj; [unfold in_table in Hjt; lia|done].
  - destruct Hw as [Hnz Hiff]. destruct h'.
    + destruct (proj1 Hiff eq_refl) as [?|(i & Hi & Hm)]; [done|].
      assert (∃ i, child_of p c i k) as Hex.
      { exists i. split; [unfold in_table; lia|]. split; [lia|done]. }
      assert (∀ j, child_of p c j k → state (get_task k j) ≠ TASK_ZOMBIE) as Hno.
      { intros j (Hjt & Hj0 & Hjm). apply Hnz; [unfold in_table in Hjt; lia|done]. }
      destruct nohang; right; left; done.
    + right; right. split; [|done]. intros i (Hi & Hi0 & Hm).
      destruct Hiff as [_ Hiff]. discriminate Hiff. right. exists i.
      split; [unfold in_table in Hi; lia|done].
Qed.

(** The tasks after the parent has been woken and the children given away. *)
Lemma get_task_reparent k d j :
  length (tasks k) = 16%nat → in_table j →
  get_task (reparent d k) j =
    if decide (j ≠ 0 ∧ state (get_task k j) ≠ TASK_UNUSED ∧ ppid (get_task k j) = pid (get_task k d))
    then (get_task k j) <| ppid := 0 |> else get_task k j.
Proof.
  intros Hl Hj. unfold reparent.
  destruct (fold_upd_tasks 15 1 (λ t, negb (is_state TASK_UNUSED t) && (ppid t =? pid (get_task k d)))
    (λ t, t <| ppid := 0 |>) k Hl) as (ts & Hfold & Hlts & Hts); [lia..|].
  cbv zeta. rewrite Hfold. unfold get_task at 1. cbn [tasks set_field]. rewrite Hts by done.
  unfold in_table in Hj.
  destruct (is_state TASK_UNUSED (get_task k j)) eqn:Eu; cbn [negb andb].
  { apply is_state_true in Eu. rewrite (decide_False (P := j ≠ 0 ∧ _)) by tauto. by destruct (decide _). }
  apply is_state_false in Eu.
  destruct (ppid (get_task k j) =? pid (get_task k d)) eqn:Ep; bsimp;
    destruct (decide (1 ≤ j < 1 + Z.of_nat 15)), (decide (j ≠ 0 ∧ _)) as [(?&?&?)|Hn]; try done; try lia.
  exfalso. apply Hn. split; [lia|done].
Qed.

Definition waits_for (d j : Z) (k : kernel) : Prop :=
  state (get_task k j) = TASK_BLOCKED ∧ pid (get_task k j) = ppid (get_task k d) ∧
  (wait_target (get_task k j) < 0 ∨ wait_target (get_task k j) = pid (get_task k d)).

#[global] Instance waits_for_dec d j k : Decision (waits_for d j k).
Proof. unfold waits_for. apply _. Defined.

Lemma get_task_wake_parent k d j :
  slots_ok (table k) → in_table j →
  get_task (wake_parent d k) j =
    if decide (waits_for d j k)
    then (get_task k j) <| wait_channel := ChNull |> <| state := TASK_READY |>
           <| ready_order := u64 (order_counter k + 1) |>
    else get_task k j.
Proof.
  intros Hs Hj. pose proof (table_len k Hs) as Hl. unfold wake_parent.
  destruct (find_pid (ppid (get_task k d)) k) as [p|] eqn:E.
  - pose proof E as (Hp & Hpu & Hpp)%find_pid_Some. cbv zeta.
    assert (∀ i, in_table i → waits_for d i k → i = p) as Huni.
    { intros i Hi (Hb & Hip & _).
      assert (find_pid (pid (get_task k i)) k = Some i) as Hf
        by (apply find_pid_used; [done|done|congruence]). rewrite Hip in Hf. congruence. }
    destruct (is_state TASK_BLOCKED (get_task k p)) eqn:Eb; cbn [andb].
    + apply is_state_true in Eb. destruct (_ || _) eqn:Ew.
      * assert (waits_for d p k) as Hw.
        { split; [done|]. split; [done|]. apply orb_true_iff in Ew as [?|?]; bsimp; [by left|by right]. }
        rewrite get_task_wake by done. destruct (decide (j = p)) as [->|Hne].
        -- by rewrite decide_True.
        -- rewrite decide_False; [done|]. intros Hwj. by apply Hne, Huni.
      * rewrite decide_False; [done|]. intros Hw. pose proof (Huni j Hj Hw) as ->.
        destruct Hw as (_ & _ & Ht). apply orb_false_iff in Ew as [? ?]. bsimp. lia.
    + apply is_state_false in Eb. rewrite decide_False; [done|]. intros Hw.
      pose proof (Huni j Hj Hw) as ->. by destruct Hw.
  - rewrite decide_False; [done|]. intros (Hb & Hp & _).
    apply (find_pid_None _ _ j E Hj); [congruence|done].
Qed.

Lemma set_ppid_eta t q : q = ppid t → t = t <| ppid := q |>.
Proof. intros ->. by destruct t. Qed.

(** The table after the death of [d]. *)
Lemma death_spec k d f fd j :
  kernel_ok k → in_table d → d ≠ 0 → state (get_task k d) ≠ TASK_UNUSED → in_table j →
  (∀ t, slot_of (f t) = MkSlot TASK_ZOMBIE (pid t) (ppid t)) →
  let t := get_task (reparent d (wake_parent d ((upd_task d f k) <| fds := fd |>))) j in
  pid t = pid (get_task k j) ∧
  ppid t = (if decide (j ≠ 0 ∧ state (get_task k j) ≠ TASK_UNUSED ∧
                       ppid (get_task k j) = pid (get_task k d)) then 0 else ppid (get_task k j)) ∧
  if decide (j = d) then t = (f (get_task k d)) <| ppid := ppid t |>
  else if decide (waits_for d j k) then state t = TASK_READY
  else t = (get_task k j) <| ppid := ppid t |>.
Proof.
  intros H Hd Hd0 Hdu Hj Hf. pose proof (ok_len _ H) as Hl.
  pose proof (death_slots k d f fd (to_slots _ H) Hd Hd0 Hdu Hf) as S1.
  set (k1 := (upd_task d f k) <| fds := fd |>) in *.
  assert (∀ i, in_table i → get_task k1 i = if decide (i = d) then f (get_task k d) else get_task k i) as G1.
  { intros i Hi. change (get_task k1 i) with (get_task (upd_task d f k) i). by rewrite get_task_upd. }
  destruct (wake_parent_spec k1 d (table_len _ S1) S1) as (Hl2 & _).
  cbv zeta. rewrite get_task_reparent by done. rewrite !get_task_wake_parent by done.
  pose proof (f_equal sl_state (Hf (get_task k d))) as Hfs.
  pose proof (f_equal sl_pid (Hf (get_task k d))) as Hfp.
  pose proof (f_equal sl_ppid (Hf (get_task k d))) as Hfq. cbn in Hfs, Hfp, Hfq.
  assert (∀ i, in_table i → i ≠ d → waits_for d i k1 ↔ waits_for d i k) as Hwi.
  { intros i Hi Hne. unfold waits_for. rewrite !G1 by done. rewrite decide_False, decide_True by done.
    by rewrite Hfp, Hfq. }
  assert (¬ waits_for d d k1) as Hwd.
  { intros (Hb & _). rewrite G1, decide_True in Hb by done. congruence. }
  rewrite (decide_False (P := waits_for d d k1)) by done.
  destruct (decide (j = d)) as [->|Hjd].
  - rewrite (decide_False (P := waits_for d d k1)) by done.
    rewrite (G1 d), !(decide_True (P := d = d)) by done.
    rewrite Hfq, Hfs, Hfp. assert (TASK_ZOMBIE ≠ TASK_UNUSED) by done.
    destruct (decide (d ≠ 0 ∧ TASK_ZOMBIE ≠ _ ∧ _)) as [Hn1|Hn1],
      (decide (d ≠ 0 ∧ state _ ≠ _ ∧ _)) as [Hn2|Hn2]; try tauto.
    split; [exact Hfp|]. split; [exact Hfq|]. by apply set_ppid_eta.
  - rewrite (G1 d), (decide_True (P := d = d)) by done.
    rewrite (G1 j), (decide_False (P := j = d)) by done. rewrite Hfp.
    destruct (decide (waits_for d j k1)) as [Hw|Hw].
    + rewrite Hwi in Hw by done. rewrite (decide_True (P := waits_for d j k)) by done.
      assert (state (get_task k j) ≠ TASK_UNUSED) as Hju by (destruct Hw; congruence). cbn.
      assert (TASK_READY ≠ TASK_UNUSED) by done.
      destruct (decide _) as [(?&?&?)|Hn1], (decide _) as [(?&?&?)|Hn2]; try done; tauto.
    + rewrite Hwi in Hw by done. rewrite (decide_False (P := waits_for d j k)) by done.
      destruct (decide _) as [(?&?&?)|Hn1]; [done|]. split; [done|]. split; [done|].
      by apply set_ppid_eta.
Qed.
End behaviour.
