(* ===== verification/Lifecycle.v ===== *)
(** * Process life cycle: what fork, exit, kill and wait promise (os/kernel/task.c)

    The theorems about the life of a process, stated for every state in which the
    invariant of [Process] holds; [boot] is a concrete machine on which the
    witnesses run. *)

From S2P Require Import Prelude Csr Mem FdTable Vm AddrSpace Task Process.

(** ** A concrete machine *)

(** Zeroed static variables, round robin with quantum 1 (the initialisers of
    task.c). *)
Definition boot : kernel :=
  MkKernel (replicate 16 zero_task) None 0 1 0 SCHED_RR TASK_DEFAULT_QUANTUM 0 0 ∅ fd_init
    (MkMem ∅ 0 0 0 0) (MkContext 0 0 (replicate 12 0)).
Definition stacks : Z := 0x80250000.
(** The idle task creates a process and gives it the CPU. *)
Definition with_shell : kernel :=
  (task_reschedule 0 0 (replicate 32 0)
    (task_create stacks 0x80201000 (Some str_shell) (task_init boot)).2).2.
(** The shell forks a child and waits for it; the child runs. *)
Definition with_child : kernel :=
  (task_fork_from_trap stacks (replicate 32 7) 0x10040 zero_space with_shell).2.
Definition child_runs : kernel :=
  (task_reschedule 0 0 (replicate 32 0) (task_waitpid (-1) false with_child).2).2.

Lemma boot_running : task_current_state (task_init boot) = TASK_RUNNING ∧ next_pid (task_init boot) < 2 ^ 31 - 1.
Proof. vm_compute. split; reflexivity. Qed.
Lemma shell_running : task_current_state with_shell = TASK_RUNNING ∧ next_pid with_shell < 2 ^ 31 - 1.
Proof. vm_compute. split; reflexivity. Qed.
Lemma shell_waits : task_current_state with_child = TASK_RUNNING ∧ task_current_pid with_child = 1.
Proof. vm_compute. split; reflexivity. Qed.

Lemma with_shell_reachable : rtc (kstep stacks) (task_init boot) with_shell.
Proof.
  destruct boot_running as [H1 H2].
  refine (rtc_l _ _ _ _ (step_create stacks _ 0x80201000 (Some str_shell) H1 H2) (rtc_once _ _ _)).
  exact (step_reschedule stacks _ 0 0 (replicate 32 0)).
Qed.
Lemma with_child_reachable : rtc (kstep stacks) (task_init boot) with_child.
Proof.
  destruct shell_running as [H1 H2].
  exact (rtc_r _ _ _ with_shell_reachable
    (step_fork stacks with_shell (replicate 32 7) 0x10040 zero_space H1 H2)).
Qed.
Lemma child_runs_reachable : rtc (kstep stacks) (task_init boot) child_runs.
Proof.
  destruct shell_waits as [H1 H2].
  assert (task_current_pid with_child = 0 → false = true) as H3 by (rewrite H2; discriminate).
  exact (rtc_r _ _ _ (rtc_r _ _ _ with_child_reachable (step_waitpid stacks with_child (-1) false H1 H3))
    (step_reschedule stacks _ 0 0 (replicate 32 0))).
Qed.

Lemma reachable_ok k : rtc (kstep stacks) (task_init boot) k → kernel_ok k.
Proof. intros H. exact (ksteps_ok stacks _ _ (task_init_ok boot eq_refl) H). Qed.

(** ** The invariant *)

(** C4: in every state the kernel reaches from [task_init] the process table is
    consistent: the idle task is in slot 0 and can always run, pids are distinct
    and below the next pid, [task_count] counts the used slots, only the current
    task is RUNNING, and every process but the idle one has a live parent. *)
Theorem process_table_invariant task_stacks boot k :
  length (tasks boot) = 16%nat → rtc (kstep task_stacks) (task_init boot) k → table_ok (table k).
Proof. intros Hl Hs. exact (ksteps_ok task_stacks _ _ (task_init_ok boot Hl) Hs). Qed.

Lemma process_table_invariant_witness : table_ok (table child_runs).
Proof.
  exact (process_table_invariant stacks boot child_runs eq_refl child_runs_reachable).
Defined.

(** ** Waiting *)

(** C10: the outcomes of [waitpid(p)]. Either the zombie child with the least slot
    that matches is reaped: its pid and exit code are the result, its slot is free
    and nothing else in the table moves; or children match but none is dead, and
    the caller gets 0 (nohang) or is blocked until one of them dies; or no child
    matches, and the result is -1. *)
Theorem task_waitpid_outcomes k p nohang c r status k' :
  kernel_ok k → current k = Some c → task_waitpid p nohang k = (r, status, k') →
  (∃ i, child_of p c i k ∧ state (get_task k i) = TASK_ZOMBIE ∧
     (∀ j, child_of p c j k → j < i → state (get_task k j) ≠ TASK_ZOMBIE) ∧
     r = pid (get_task k i) ∧ 0 < r ∧ status = Some (exit_code (get_task k i)) ∧
     state (get_task k' i) = TASK_UNUSED ∧ task_count k' = task_count k - 1 ∧ current k' = Some c ∧
     ∀ j, in_table j → j ≠ i → get_task k' j = get_task k j) ∨
  ((∃ i, child_of p c i k) ∧ (∀ j, child_of p c j k → state (get_task k j) ≠ TASK_ZOMBIE) ∧
   status = None ∧
   if nohang then r = 0 ∧ k' = k
   else r = TASK_WAIT_BLOCKED ∧ state (get_task k' c) = TASK_BLOCKED ∧
     wait_target (get_task k' c) = p ∧ ∀ j, in_table j → j ≠ c → get_task k' j = get_task k j) ∨
  ((∀ i, ¬ child_of p c i k) ∧ r = -1 ∧ status = None ∧ k' = k).
Proof.
  intros H Hc E. pose proof (ok_len _ H) as Hl. pose proof (task_waitpid_spec k p nohang c H Hc) as Hs.
  destruct (ok_current k H) as (c' & Hc' & Hct & _). replace c' with c in Hct by congruence.
  rewrite E in Hs. destruct Hs as [(i & Hch & Hz & Hmin & -> & -> & ->)|[(Hex & Hno & -> & Hr)|Hno]].
  - left. exists i. destruct Hch as (Hi & Hi0 & Hm). split; [done|]. split; [done|]. split; [done|].
    split; [done|]. split; [apply (ok_pid_pos k i H Hi Hi0); congruence|]. split; [done|].
    pose proof (λ j, get_task_reap k i j Hl Hi) as Hg.
    split; [pose proof (Hg i Hi) as Hgi; by rewrite decide_True in Hgi|].
    split; [apply reap_count|]. split; [by rewrite reap_current|].
    intros j Hj Hne. pose proof (Hg j Hj) as Hgj. by rewrite decide_False in Hgj.
  - right; left. split; [done|]. split; [done|]. split; [done|]. destruct nohang; [done|].
    destruct Hr as [-> ->]. split; [done|]. rewrite get_task_upd, decide_True by done.
    split; [done|]. split; [done|]. intros j Hj Hne. by rewrite get_task_upd, decide_False.
  - by right; right.
Qed.

Lemma task_waitpid_outcomes_witness :
  ∃ r k', task_waitpid (-1) false with_child = (r, None, k') ∧ r = -2 ∧
    state (get_task k' 1) = TASK_BLOCKED.
Proof.
  destruct (task_waitpid (-1) false with_child) as [[r st] k'] eqn:E.
  assert (r = (task_waitpid (-1) false with_child).1.1) as Hr by (rewrite E; reflexivity).
  vm_compute in Hr. subst r.
  destruct (task_waitpid_outcomes with_child (-1) false 1 (-2) st k'
    (reachable_ok _ with_child_reachable) ltac:(vm_compute; reflexivity) E)
    as [(i & _ & _ & _ & _ & Hpos & _)|[(_ & _ & -> & _ & Hb & _)|(_ & Hr & _)]]; [lia| |lia].
  exists (-2), k'. split; [reflexivity|]. split; [reflexivity|exact Hb].
Defined.

(** ** Exit *)

Section exit.
Implicit Types (k : kernel) (i j c d p : Z).

Lemma wake_parent_fds k d : fds (wake_parent d k) = fds k.
Proof. unfold wake_parent. destruct (find_pid _ k); [|done]. cbv zeta. by destruct (_ && _). Qed.
Lemma wake_parent_current k d : current (wake_parent d k) = current k.
Proof. unfold wake_parent. destruct (find_pid _ k); [|done]. cbv zeta. by destruct (_ && _). Qed.

Lemma reparent_rest k d :
  length (tasks k) = 16%nat → fds (reparent d k) = fds k ∧ current (reparent d k) = current k.
Proof.
  intros Hl. unfold reparent.
  destruct (fold_upd_tasks 15 1 (λ t, negb (is_state TASK_UNUSED t) && (ppid t =? pid (get_task k d)))
    (λ t, t <| ppid := 0 |>) k Hl) as (ts & Hfold & _); [lia..|]. cbv zeta. by rewrite Hfold.
Qed.

(** What is left after the death of [d], for both ways to die. *)
Definition dead (d code : Z) (k k' : kernel) : Prop :=
  state (get_task k' d) = TASK_ZOMBIE ∧ exit_code (get_task k' d) = code ∧
  pid (get_task k' d) = pid (get_task k d) ∧ ppid (get_task k' d) = ppid (get_task k d) ∧
  fds k' = minifs_close_all (pid (get_task k d)) (fds k) ∧ current k' = current k ∧
  (∀ j, in_table j → j ≠ 0 → state (get_task k' j) ≠ TASK_UNUSED →
     ppid (get_task k' j) ≠ pid (get_task k d)) ∧
  (∀ j, in_table j → j ≠ d →
     if decide (j ≠ 0 ∧ state (get_task k j) ≠ TASK_UNUSED ∧ ppid (get_task k j) = pid (get_task k d))
     then ppid (get_task k' j) = 0 else ppid (get_task k' j) = ppid (get_task k j)) ∧
  (∀ j, in_table j → j ≠ d → state (get_task k' j) =
     if decide (waits_for d j k) then TASK_READY else state (get_task k j)).

Lemma dead_spec k d code f :
  kernel_ok k → in_table d → d ≠ 0 → state (get_task k d) ≠ TASK_UNUSED →
  (∀ t, slot_of (f t) = MkSlot TASK_ZOMBIE (pid t) (ppid t)) → (∀ t, exit_code (f t) = code) →
  dead d code k (reparent d (wake_parent d
    ((upd_task d f k) <| fds := minifs_close_all (pid (get_task k d)) (fds k) |>))).
Proof.
  intros H Hd Hd0 Hdu Hf Hcode. pose proof (ok_len _ H) as Hl.
  set (fd := minifs_close_all _ _). set (k1 := (upd_task d f k) <| fds := fd |>).
  pose proof (death_slots k d f fd (to_slots _ H) Hd Hd0 Hdu Hf) as S1. fold k1 in S1.
  destruct (wake_parent_spec k1 d (table_len _ S1) S1) as (Hl2 & _).
  destruct (reparent_rest (wake_parent d k1) d Hl2) as [Hfds Hcur].
  pose proof (death_spec k d f fd d H Hd Hd0 Hdu Hd Hf) as (Hpd & Hppd & Htd). fold k1 in Hpd, Hppd, Htd.
  rewrite (decide_True (P := d = d)) in Htd by done.
  pose proof (ok_ppid_ne k d H Hd Hd0 Hdu) as Hself.
  set (k' := reparent d (wake_parent d k1)) in *.
  assert (state (get_task k' d) = TASK_ZOMBIE) as Hz
    by (rewrite Htd; cbn; exact (f_equal sl_state (Hf (get_task k d)))).
  refine (conj Hz (conj _ (conj Hpd (conj _ (conj _ (conj _ (conj _ (conj _ _)))))))).
  - rewrite Htd. apply Hcode.
  - rewrite Hppd. rewrite decide_False; [done|]. tauto.
  - rewrite Hfds. by rewrite wake_parent_fds.
  - rewrite Hcur. by rewrite wake_parent_current.
  - intros j Hj Hj0 Hju. destruct (death_spec k d f fd j H Hd Hd0 Hdu Hj Hf) as (_ & Hpp & Hst).
    fold k1 k' in Hpp, Hst. rewrite Hpp. destruct (decide (j ≠ 0 ∧ _)) as [E|E].
    + pose proof (ok_pid_pos k d H Hd Hd0 Hdu). lia.
    + intros E1. apply E. split; [done|]. split; [|done]. intros Eu. apply Hju.
      destruct (decide (j = d)) as [->|]; [congruence|].
      rewrite (decide_False (P := waits_for d j k)) in Hst by (intros [? _]; congruence). by rewrite Hst.
  - intros j Hj Hne. destruct (death_spec k d f fd j H Hd Hd0 Hdu Hj Hf) as (_ & Hpp & _).
    fold k1 k' in Hpp. rewrite Hpp. by destruct (decide (j ≠ 0 ∧ _)).
  - intros j Hj Hne. destruct (death_spec k d f fd j H Hd Hd0 Hdu Hj Hf) as (_ & _ & Hst).
    fold k1 k' in Hst. rewrite (decide_False (P := j = d)) in Hst by done. destruct (decide (waits_for d j k)); [done|].
    by rewrite Hst.
Qed.

Lemma task_exit_dead k code d :
  kernel_ok k → current k = Some d → d ≠ 0 → dead d code k (task_exit code k).
Proof.
  intros H Hc Hd0. destruct (ok_current k H) as (c & Hc' & Hd & Hdu). replace c with d in * by congruence.
  unfold task_exit. rewrite Hc. pose proof (ok_pid_pos k d H Hd Hd0 Hdu).
  destruct (pid (get_task k d) =? 0) eqn:E; bsimp; [lia|]. cbv zeta.
  match goal with |- context [upd_task d ?f k] => set (g := f) end.
  assert (pid (get_task (upd_task d g k) d) = pid (get_task k d)) as ->
    by (by rewrite get_task_upd, decide_True by auto using ok_len).
  exact (dead_spec k d code g H Hd Hd0 Hdu (λ _, eq_refl) (λ _, eq_refl)).
Qed.

(** C11: when a process exits it becomes a zombie that keeps its pid, its parent
    and the exit code; its descriptors are closed, its children pass to the idle
    task, so no process is left whose parent is the dead one, and a parent that
    waits for it is made READY; nothing else changes state. *)
Theorem task_exit_effect k code d :
  kernel_ok k → current k = Some d → d ≠ 0 → dead d code k (task_exit code k).
Proof. exact (task_exit_dead k code d). Qed.

Lemma task_exit_effect_witness : dead 2 42 child_runs (task_exit 42 child_runs).
Proof.
  apply task_exit_effect; [exact (reachable_ok _ child_runs_reachable)|vm_compute; reflexivity|discriminate].
Defined.

(** The parent of a zombie gets its code. *)
Lemma wait_zombie k p d nohang :
  kernel_ok k → current k = Some p → in_table d → d ≠ 0 → state (get_task k d) = TASK_ZOMBIE →
  ppid (get_task k d) = pid (get_task k p) →
  ∃ k', task_waitpid (pid (get_task k d)) nohang k =
    (pid (get_task k d), Some (exit_code (get_task k d)), k').
Proof.
  intros H Hc Hd Hd0 Hz Hpp. pose proof (task_waitpid_spec k (pid (get_task k d)) nohang p H Hc) as Hs.
  assert (child_of (pid (get_task k d)) p d k) as Hch.
  { split; [done|]. split; [done|]. split; [congruence|done]. }
  destruct (task_waitpid _ nohang k) as [[r st] k'].
  destruct Hs as [(i & (Hi & Hi0 & Hiu & _ & Hip) & _ & _ & -> & -> & _)|[(_ & Hno & _)|[Hno _]]].
  - assert (i = d) as ->; [|by exists k'].
    apply (ok_unique k); try done; try congruence.
    apply Hip. apply (ok_pid_pos k d H Hd Hd0). congruence.
  - by destruct (Hno d Hch).
  - by destruct (Hno d).
Qed.

(** C9: the exit code reaches the parent. If the parent sleeps in [waitpid] for
    the child (or for any child) when the child exits, it is made READY, and
    whenever it runs again while the zombie is in the table, [waitpid] for that pid
    returns the pid and the code the child exited with. *)
Theorem exit_code_reaches_parent k code d p :
  kernel_ok k → current k = Some d → d ≠ 0 → in_table p → waits_for d p k →
  let k1 := task_exit code k in
  state (get_task k1 p) = TASK_READY ∧
  ∀ k2 nohang, kernel_ok k2 → current k2 = Some p → slot_of (get_task k2 d) = slot_of (get_task k1 d) →
    exit_code (get_task k2 d) = exit_code (get_task k1 d) → pid (get_task k2 p) = pid (get_task k p) →
    ∃ k3, task_waitpid (pid (get_task k d)) nohang k2 = (pid (get_task k d), Some code, k3).
Proof.
  intros H Hc Hd0 Hp Hw k1. destruct (ok_current k H) as (c & Hc' & Hd & Hdu).
  replace c with d in * by congruence.
  assert (dead d code k k1) as (Hz & Hcode & Hpid & Hpp & _ & _ & _ & _ & Hst).
  { by apply task_exit_dead. }
  clearbody k1. split.
  - rewrite Hst, decide_True; [done|done|done|]. intros ->. destruct Hw as (Hb & Hself & _).
    by apply (ok_ppid_ne k d H).
  - intros k2 nohang H2 Hc2 Hd2 He2 Hp2. injection Hd2 as Hd2 Hd2p Hd2q. destruct (wait_zombie k2 p d nohang H2 Hc2 Hd Hd0) as (k3 & Hk3).
    + congruence.
    + rewrite Hd2q, Hp2, Hpp. symmetry. apply Hw.
    + exists k3. rewrite Hd2p, He2, Hpid, Hcode in Hk3. exact Hk3.
Qed.

Lemma exit_code_reaches_parent_witness :
  let k1 := task_exit 42 child_runs in
  let k2 := (task_reschedule 0 0 (replicate 32 0) (task_reschedule 0 0 (replicate 32 0) k1).2).2 in
  ∃ k3, task_waitpid 2 false k2 = (2, Some 42, k3).
Proof.
  intros k1 k2. destruct (exit_code_reaches_parent child_runs 42 2 1 (reachable_ok _ child_runs_reachable))
    as [_ Hk2]; [vm_compute; reflexivity|discriminate|unfold in_table; lia| |].
  - split; [vm_compute; reflexivity|]. split; [vm_compute; reflexivity|]. left. vm_compute. reflexivity.
  - destruct (Hk2 k2 false) as [k3 Hk3].
    + apply task_reschedule_ok, task_reschedule_ok, task_exit_ok. exact (reachable_ok _ child_runs_reachable).
    + vm_compute. reflexivity.
    + vm_compute. reflexivity.
    + vm_compute. reflexivity.
    + vm_compute. reflexivity.
    + exists k3. vm_compute in Hk3 |- *. exact Hk3.
Defined.

(** ** Kill *)


End exit.

(** ** Creation *)

Section creation.
Context (ts : Z).
Implicit Types (k : kernel) (i j c p : Z).

(** A free slot exists unless the table is full. *)
Lemma free_slot_exists k : kernel_ok k → task_count k < MAX_TASKS → ∃ i, free_slot k = Some i.
Proof using.
  intros H Hc. destruct (free_slot k) as [i|] eqn:E; [by exists i|exfalso].
  unfold free_slot in E. rewrite find_from_None in E. unfold MAX_TASKS in Hc.
  assert (∀ i, in_table i → used (slot_at (tb_slots (table k)) i)) as Hall.
  { intros i Hi. rewrite slot_of_get. unfold used. cbn. destruct (decide (i = 0)) as [->|].
    - destruct (ok_idle k H) as [_ [-> | ->]]; discriminate.
    - unfold in_table in Hi. specialize (E i ltac:(lia)). by apply is_state_false in E. }
  pose proof (so_count _ (to_slots _ H)) as Hcnt. cbn [table tb_count] in Hcnt.
  assert (used_count (tb_slots (table k)) = 16%nat) as Hfull; [|cbn [table tb_slots] in *; lia].
  apply used_count_full; [apply (so_len _ (to_slots _ H))|]. exact Hall.
Qed.

(** What [fork] gives its child. *)
Definition forked (tf : list Z) (epc : Z) (sp : task_address_space) (k : kernel) (c i : Z) (t : task) : Prop :=
  state t = TASK_READY ∧ pid t = next_pid k ∧ ppid t = pid (get_task k c) ∧
  cwd_inode t = cwd_inode (get_task k c) ∧ has_user_space t = true ∧ address_space t = sp ∧
  stack t = stack_of ts i ∧ exit_code t = 0 ∧ wait_target t = -1 ∧ ticks_left t = scheduler_quantum k ∧
  tc_regs (trap_ctx t) = aset tf 10 0 ∧ tc_epc (trap_ctx t) = epc ∧ tc_satp (trap_ctx t) = as_satp sp ∧
  tc_status (trap_ctx t) = Z.land (trap_status_read (csrs k)) (u64 (Z.lnot SSTATUS_SPP)).

(** C15: [fork] takes a free slot for a READY child of the running process: a new
    pid that no process in the table has, the registers of the parent with result
    register a0 = 0, resuming at [epc] in user mode in the given address space,
    with the parent's working directory and shared descriptors. No other task
    changes. It fails only when the table is full or the descriptors of the child
    cannot be set up, and then the table has the same processes as before. *)
Theorem fork_creates_child k tf epc sp c r k' :
  kernel_ok k → current k = Some c → state (get_task k c) = TASK_RUNNING → next_pid k < 2 ^ 31 - 1 →
  task_fork_from_trap ts tf epc sp k = (r, k') →
  (r = next_pid k ∧ task_count k' = task_count k + 1 ∧ current k' = Some c ∧
   (∀ j, in_table j → state (get_task k j) ≠ TASK_UNUSED → pid (get_task k j) ≠ r) ∧
   fds k' = (minifs_process_fork (pid (get_task k c)) r (fds k)).2 ∧
   ∃ i, in_table i ∧ i ≠ 0 ∧ state (get_task k i) = TASK_UNUSED ∧ forked tf epc sp k c i (get_task k' i) ∧
     ∀ j, in_table j → j ≠ i → get_task k' j = get_task k j) ∨
  (r = -1 ∧ task_count k' = task_count k ∧ current k' = Some c ∧
   (task_count k = MAX_TASKS ∨ (minifs_process_fork (pid (get_task k c)) (next_pid k) (fds k)).1 < 0) ∧
   ∀ j, in_table j → state (get_task k j) ≠ TASK_UNUSED ∨ state (get_task k' j) ≠ TASK_UNUSED →
     get_task k' j = get_task k j).
Proof using.
  intros H Hc Hrun Hmax E. pose proof (ok_len _ H) as Hl. unfold task_fork_from_trap in E. rewrite Hc in E.
  destruct (MAX_TASKS <=? task_count k) eqn:Ef; bsimp.
  { injection E as <- <-. right. split; [done|]. split; [done|]. split; [done|]. split; [|done].
    left. pose proof (so_count _ (to_slots _ H)) as Hcnt. cbn [table tb_count] in Hcnt.
    pose proof (used_count_le (tb_slots (table k)) (so_len _ (to_slots _ H))). unfold MAX_TASKS in *.
    cbn [table tb_slots] in *. lia. }
  destruct (free_slot_exists k H Ef) as (i & Hi). rewrite Hi in E. apply free_slot_spec in Hi as (Hi & Hi0 & Hiu).
  cbv zeta in E. match type of E with context [upd_task i ?f k] => set (f0 := f) in E end.
  assert (forked tf epc sp k c i (f0 (get_task k i))) as Hforked by (repeat split).
  assert (∀ j, in_table j → state (get_task k j) ≠ TASK_UNUSED → pid (get_task k j) ≠ next_pid k) as Hfresh.
  { intros j Hj Hju. destruct (decide (j = 0)) as [->|Hj0].
    - pose proof (so_next _ (to_slots _ H)) as Hn. cbn in Hn. rewrite (proj1 (ok_idle k H)). lia.
    - pose proof (ok_pid_pos k j H Hj Hj0 Hju). lia. }
  clearbody f0.
  match type of E with context [minifs_process_fork _ _ ?f] => change f with (fds k) in E end.
  assert (in_table c ∧ c ≠ i) as [Hct Hci].
  { destruct (ok_current k H) as (c' & Hc' & Hct & _). split; congruence. }
  match type of E with context [minifs_process_fork (pid (get_task ?x c)) _ _] =>
    assert (get_task x c = get_task k c) as Hgc
      by (change (get_task x c) with (get_task (upd_task i f0 k) c); by rewrite get_task_upd, decide_False);
    rewrite Hgc in E end.
  destruct (minifs_process_fork (pid (get_task k c)) (next_pid k) (fds k)) as [rc fd] eqn:Efork.
  cbv beta iota in E. destruct (rc <? 0) eqn:Erc; injection E as <- <-; bsimp.
  - right. split; [done|]. split; [cbn; lia|]. split; [done|]. split; [by right|]. intros j Hj Hu.
    match goal with |- get_task ?x j = _ =>
      change (get_task x j) with (get_task (upd_task i
        (λ t, t <| has_user_space := false |> <| stack := 0 |> <| state := TASK_UNUSED |>) (upd_task i f0 k)) j) end.
    match type of Hu with _ ∨ state (get_task ?x j) ≠ _ =>
      change (get_task x j) with (get_task (upd_task i
        (λ t, t <| has_user_space := false |> <| stack := 0 |> <| state := TASK_UNUSED |>) (upd_task i f0 k)) j) in Hu end.
    rewrite !get_task_upd in Hu |- * by (done || by rewrite length_tasks_upd).
    destruct (decide (j = i)) as [->|]; [|done]. by destruct Hu.
  - left. split; [done|]. split; [done|]. split; [done|]. split; [done|]. split; [by rewrite Efork|].
    exists i. split; [done|]. split; [done|]. split; [done|].
    match goal with |- forked _ _ _ _ _ _ (get_task ?x i) ∧ _ =>
      assert (∀ j, get_task x j = get_task (upd_task i f0 k) j) as Hg by done end.
    rewrite Hg. split; [by rewrite get_task_upd, decide_True|]. intros j Hj Hne. rewrite Hg.
    by rewrite get_task_upd, decide_False.
Qed.
End creation.

Lemma fork_creates_child_witness :
  ∃ i, forked stacks (replicate 32 7) 0x10040 zero_space with_shell 1 i (get_task with_child i).
Proof.
  destruct (task_fork_from_trap stacks (replicate 32 7) 0x10040 zero_space with_shell) as [r k'] eqn:E.
  assert (k' = with_child) as -> by (unfold with_child; rewrite E; reflexivity).
  assert (r = (task_fork_from_trap stacks (replicate 32 7) 0x10040 zero_space with_shell).1) as Hr
    by (rewrite E; reflexivity).
  vm_compute in Hr. subst r.
  destruct (fork_creates_child stacks with_shell (replicate 32 7) 0x10040 zero_space 1 2 with_child
    (reachable_ok _ with_shell_reachable) ltac:(vm_compute; reflexivity) ltac:(vm_compute; reflexivity)
    ltac:(vm_compute; reflexivity) E) as [(_ & _ & _ & _ & _ & i & _ & _ & _ & Hf & _)|[Hr _]];
    [by exists i|discriminate Hr].
Defined.
