(* ===== verification/Sched.v ===== *)
(** * Scheduling: fairness, order, quantum and context switches (os/kernel/task.c)

    What the two policies guarantee on top of the invariant of [Process]: round
    robin passes over a ready process at most fifteen times, a task runs for its
    whole quantum and no longer, first come first served picks the longest waiting
    task and does not preempt, and a task that is switched out finds its registers
    as it left them. *)

From S2P Require Import Prelude Csr Mem FdTable Vm AddrSpace Task Process Lifecycle.

Section sched.
Implicit Types (k : kernel) (i j c n : Z).

(** ** Round robin *)

(** How many slots the scan of [select_rr] looks at before slot [i] when [c] runs. *)
Definition distance (c i : Z) : Z := (i - c - 1) mod 16.

Lemma distance_range c i : 0 ≤ distance c i < 16.
Proof. apply Z.mod_pos_bound. lia. Qed.

Lemma select_rr_first k c n i :
  current k = Some c → in_table c → select_rr k = Some n → in_table i →
  state (get_task k i) = TASK_READY → distance c n ≤ distance c i.
Proof.
  intros Hc Hct. unfold select_rr. rewrite Hc.
  destruct (find_from 16 0 _) as [d|] eqn:E; [|done]. intros [= <-] Hi Hr.
  apply find_from_Some in E as (Hd & _ & Hmin). unfold MAX_TASKS in *.
  assert (distance c (((c + 1) mod 16 + d) mod 16) = d) as ->.
  { unfold distance. Z.div_mod_to_equations. lia. }
  destruct (decide (distance c i < d)) as [Hlt|]; [exfalso|lia].
  pose proof (distance_range c i) as Hrange. specialize (Hmin (distance c i) ltac:(lia)). cbn beta in Hmin.
  assert (((c + 1) mod 16 + distance c i) mod 16 = i) as Hx.
  { unfold distance, in_table in *. Z.div_mod_to_equations. lia. }
  rewrite Hx in Hmin. apply is_state_false in Hmin. done.
Qed.

Lemma distance_next c n i :
  in_table c → in_table n → in_table i → n ≠ i → distance c n ≤ distance c i →
  distance n i < distance c i.
Proof. unfold distance, in_table. intros. Z.div_mod_to_equations. lia. Qed.

(** A turn: the CPU is given away, by [task_reschedule] or by a tick that ends the
    quantum. *)
Definition before_turn (c : Z) (tf : list Z) (k : kernel) : kernel :=
  upd_task c (save_trap_context (csrs k) tf) k.

Inductive turn : kernel → kernel → Prop :=
| turn_reschedule k a b tf : 1 < task_count k → turn k (task_reschedule a b tf k).2
| turn_tick k a b tf c : 1 < task_count k → current k = Some c →
    (tick_current c (before_turn c tf k)).1 = false → turn k (sched_tick a b tf k).2.

(** Both are [switch_task] after some book-keeping. *)
Lemma turn_switch k k' c :
  kernel_ok k → turn k k' → current k = Some c →
  ∃ k0 tf a b, kernel_ok k0 ∧ table k0 = table k ∧ scheduler_policy k0 = scheduler_policy k ∧
    (∀ j, in_table j → ready_order (get_task k0 j) = ready_order (get_task k j)) ∧
    order_counter k0 = order_counter k ∧
    k' = account_switch a b (switch_task c tf k0).1.1 (switch_task c tf k0).2.
Proof.
  intros H Ht Hc. destruct (ok_current k H) as (c' & Hc' & Hi & _). replace c' with c in Hi by congruence.
  pose proof (ok_len _ H) as Hl.
  assert (∀ tf, kernel_ok (before_turn c tf k) ∧ table (before_turn c tf k) = table k) as Hb.
  { intros tf. split; [by apply ok_upd_same|by apply table_upd_same]. }
  destruct Ht as [k a b tf Hcnt|k a b tf d Hcnt Hd Htick].
  - exists (before_turn c tf k), tf, a, b. destruct (Hb tf) as [? ?].
    split; [done|]. split; [done|]. split; [done|]. split; [|split; [done|]].
    + intros j Hj. unfold before_turn. rewrite get_task_upd by done. by destruct (decide (j = c)) as [->|].
    + unfold task_reschedule, switch_from_trap. rewrite Hc. destruct (task_count k <=? 1) eqn:E; bsimp; [lia|].
      fold (before_turn c tf k). by destruct (switch_task c tf _) as [[s tf'] k'].
  - replace d with c in * by congruence. destruct (Hb tf) as [Hbo Hbt].
    destruct (tick_current_spec (before_turn c tf k) c Hbo Hi Hc) as (Ho & _ & _ & Htb).
    exists (tick_current c (before_turn c tf k)).2, tf, a, b.
    split; [done|]. split; [congruence|].
    assert (∀ j, in_table j → ready_order (get_task (before_turn c tf k) j) = ready_order (get_task k j)) as Hro.
    { intros j Hj. unfold before_turn. rewrite get_task_upd by done. by destruct (decide (j = c)) as [->|]. }
    assert (length (tasks (before_turn c tf k)) = 16%nat) as Hlb by (by apply ok_len).
    unfold sched_tick, switch_from_trap. rewrite Hc. destruct (task_count k <=? 1) eqn:E; bsimp; [lia|].
    fold (before_turn c tf k). cbv zeta. unfold tick_current in *.
    set (k1 := upd_task c (λ t, t <| runtime_ticks := u64 (runtime_ticks t + 1) |>) (before_turn c tf k)) in *.
    assert (∀ j, in_table j → ready_order (get_task k1 j) = ready_order (get_task k j)) as Hro1.
    { intros j Hj. unfold k1. rewrite get_task_upd by done. rewrite <- Hro by done.
      by destruct (decide (j = c)) as [->|]. }
    repeat match goal with |- context [if ?x then _ else _] => destruct x; cbn [fst snd] in *; try done end.
    split; [done|]. split; [done|]. split; [done|].
    by destruct (switch_task c tf k1) as [[s tf'] k'].
Qed.

(** One turn under round robin: a ready task gets the CPU or comes nearer. *)
Lemma turn_rr k k' c i :
  kernel_ok k → scheduler_policy k = SCHED_RR → turn k k' → current k = Some c →
  in_table i → state (get_task k i) = TASK_READY →
  ∃ n, current k' = Some n ∧ in_table n ∧ (n = i ∨ distance n i < distance c i).
Proof.
  intros H Hrr Ht Hc Hi Hr. destruct (ok_current k H) as (c' & Hc' & Hct & _).
  replace c' with c in Hct by congruence.
  destruct (turn_switch k k' c H Ht Hc) as (k0 & tf & a & b & H0 & Htb & Hpol & _ & _ & ->).
  assert (current k0 = Some c) as Hc0 by (apply (f_equal tb_current) in Htb; cbn in Htb; congruence).
  destruct (switch_task_spec k0 c tf H0 Hc0 Hct) as (n & k1 & Hsel & Hn & Hnr & -> & -> & _ & _).
  cbn [fst snd]. exists n. split; [by unfold account_switch; destruct (negb _)|]. split; [done|].
  destruct (decide (n = i)) as [|Hne]; [by left|right].
  assert (state (get_task (settle c k0) i) = TASK_READY) as Hri.
  { assert (state (get_task k0 i) = TASK_READY) as Hr0.
    { pose proof (slot_of_get k0 i) as Hs. rewrite Htb, slot_of_get in Hs.
      apply (f_equal sl_state) in Hs. cbn in Hs. congruence. }
    unfold settle. destruct (is_state TASK_RUNNING (get_task k0 c)) eqn:Es; [|done].
    rewrite get_task_make_ready by (by apply ok_len || done). by destruct (decide (i = c)). }
  apply distance_next; try done. apply (select_rr_first (settle c k0) c n i); try done.
  - destruct (settle_spec k0 c H0 Hc0 Hct) as (_ & Hcs & _). done.
  - unfold select_next in Hsel. assert (scheduler_policy (settle c k0) = SCHED_RR) as Hp.
    { unfold settle. by destruct (is_state _ _); cbn; congruence. }
    by rewrite Hp in Hsel.
Qed.

(** [passed_over i m k]: from [k] on there are [m] turns, the policy is round robin
    at each of them, slot [i] is ready and the CPU goes to another task; whatever
    happens between two turns leaves the CPU where it is. *)
Inductive passed_over (i : Z) : nat → kernel → Prop :=
| passed_none k : passed_over i 0 k
| passed_turn m k k1 k2 :
    kernel_ok k → scheduler_policy k = SCHED_RR → state (get_task k i) = TASK_READY →
    turn k k1 → current k1 ≠ Some i → current k2 = current k1 → passed_over i m k2 →
    passed_over i (S m) k.

Lemma passed_over_distance i m k c :
  in_table i → passed_over i m k → current k = Some c → Z.of_nat m ≤ distance c i.
Proof.
  intros Hi Hp. revert c. induction Hp as [k|m k k1 k2 H Hrr Hr Ht Hne Hc2 Hp IH]; intros c Hc.
  - apply distance_range.
  - destruct (turn_rr k k1 c i H Hrr Ht Hc Hi Hr) as (n & Hn & Hnt & [->|Hd]); [done|].
    rewrite Hn in Hc2. specialize (IH n Hc2). lia.
Qed.

(** C6: round robin does not starve: a task that stays ready is passed over by at
    most fifteen successive turns, whatever the other tasks do in between (block,
    exit, fork, wake each other), so one of any sixteen turns gives it the CPU. *)
Theorem rr_bounded_waiting i m k :
  in_table i → kernel_ok k → passed_over i m k → (m ≤ 15)%nat.
Proof.
  intros Hi H Hp. destruct (ok_current k H) as (c & Hc & _).
  pose proof (passed_over_distance i m k c Hi Hp Hc). pose proof (distance_range c i). lia.
Qed.

Lemma rr_bounded_waiting_witness : passed_over 0 1 with_child ∧ (1 ≤ 15)%nat.
Proof.
  assert (passed_over 0 1 with_child) as Hp.
  { apply (passed_turn 0 0 with_child (task_reschedule 0 0 (replicate 32 0) with_child).2
      (task_reschedule 0 0 (replicate 32 0) with_child).2).
    - exact (reachable_ok _ with_child_reachable).
    - vm_compute. reflexivity.
    - vm_compute. reflexivity.
    - apply turn_reschedule. vm_compute. reflexivity.
    - intros E. vm_compute in E. discriminate E.
    - reflexivity.
    - apply passed_none. }
  split; [exact Hp|].
  apply (rr_bounded_waiting 0 1 with_child); [unfold in_table; lia|exact (reachable_ok _ with_child_reachable)|exact Hp].
Defined.

(** ** First come, first served *)

(** The order numbers come from the counter, which has not wrapped around. *)
Definition orders_ok (k : kernel) : Prop :=
  0 ≤ order_counter k < 2 ^ 64 - 1 ∧ ∀ j, in_table j → ready_order (get_task k j) ≤ order_counter k.

Lemma select_fcfs_min k n :
  scheduler_policy k = SCHED_FCFS → select_next k = Some n →
  ∀ j, in_table j → state (get_task k j) = TASK_READY →
    ready_order (get_task k n) ≤ ready_order (get_task k j).
Proof.
  unfold select_next. intros -> E j Hj Hr. unfold select_fcfs in E.
  pose proof (fcfs_scan_spec 16 0 None k I) as H. rewrite E in H. destruct H as (_ & _ & _ & H).
  apply H; [unfold in_table in Hj; lia|done].
Qed.

Lemma settle_order k c :
  length (tasks k) = 16%nat → in_table c → state (get_task k c) = TASK_RUNNING →
  ready_order (get_task (settle c k) c) = u64 (order_counter k + 1).
Proof.
  intros Hl Hc Hr. unfold settle. apply is_state_true in Hr. rewrite Hr.
  rewrite get_task_make_ready by done. rewrite decide_True by done. reflexivity.
Qed.

Lemma turn_fcfs k k' c :
  kernel_ok k → orders_ok k → scheduler_policy k = SCHED_FCFS → turn k k' → current k = Some c →
  ∃ n, current k' = Some n ∧ in_table n ∧
    (state (get_task k n) = TASK_READY ∨ n = c) ∧
    ∀ j, in_table j → j ≠ c → state (get_task k j) = TASK_READY →
      (state (get_task k c) = TASK_RUNNING → n ≠ c) ∧
      (n ≠ c → ready_order (get_task k n) ≤ ready_order (get_task k j)).
Proof.
  intros H [Hcnt Hord] Hfc Ht Hc. destruct (ok_current k H) as (c' & Hc' & Hct & _).
  replace c' with c in Hct by congruence.
  destruct (turn_switch k k' c H Ht Hc) as (k0 & tf & a & b & H0 & Htb & Hpol & Hro & Hoc & ->).
  assert (current k0 = Some c) as Hc0 by (apply (f_equal tb_current) in Htb; cbn in Htb; congruence).
  assert (∀ j, state (get_task k0 j) = state (get_task k j)) as Hst.
  { intros j. pose proof (slot_of_get k0 j) as Hs. rewrite Htb, slot_of_get in Hs.
    by apply (f_equal sl_state) in Hs. }
  destruct (switch_task_spec k0 c tf H0 Hc0 Hct) as (n & k1 & Hsel & Hn & Hnr & -> & -> & _ & _).
  cbn [fst snd]. exists n. split; [by unfold account_switch; destruct (negb _)|]. split; [done|].
  destruct (settle_spec k0 c H0 Hc0 Hct) as (_ & _ & _ & Hoth).
  assert (scheduler_policy (settle c k0) = SCHED_FCFS) as Hp
    by (unfold settle; destruct (is_state _ _); cbn; congruence).
  pose proof (select_fcfs_min _ _ Hp Hsel) as Hmin. split.
  { destruct (decide (n = c)) as [|Hne]; [by right|left]. rewrite Hoth in Hnr by done. congruence. }
  intros j Hj Hjc Hjr.
  assert (ready_order (get_task (settle c k0) n) ≤ ready_order (get_task k j)) as Hle.
  { rewrite <- (Hro j Hj), <- (Hoth j Hj Hjc). apply Hmin; [done|].
    rewrite Hoth by done. congruence. }
  split.
  - intros Hrun ->. rewrite settle_order in Hle by (try apply ok_len; congruence).
    rewrite Hoc, u64_small in Hle by lia. specialize (Hord j Hj). lia.
  - intros Hne. rewrite Hoth, Hro in Hle by done. done.
Qed.

(** C8: under FCFS the CPU goes to the task that has been ready for longest: the
    selected task has the least order number of all ready tasks, and the task
    that gives the CPU away runs again only if no other task is ready. A timer tick
    does not take the CPU from a running process at all: it returns to the same
    registers. *)
Theorem fcfs_order k c a b tf :
  kernel_ok k → orders_ok k → scheduler_policy k = SCHED_FCFS → current k = Some c →
  1 < task_count k →
  (∃ n, current (task_reschedule a b tf k).2 = Some n ∧
     (state (get_task k n) = TASK_READY ∨ n = c) ∧
     ∀ j, in_table j → j ≠ c → state (get_task k j) = TASK_READY →
       (state (get_task k c) = TASK_RUNNING → n ≠ c) ∧
       (n ≠ c → ready_order (get_task k n) ≤ ready_order (get_task k j))) ∧
  (c ≠ 0 → state (get_task k c) = TASK_RUNNING →
   let '(switched, tf', k') := sched_tick a b tf k in
   switched = false ∧ tf' = tf ∧ current k' = Some c ∧ csrs k' = csrs k ∧ table k' = table k).
Proof.
  intros H Ho Hfc Hc Hcnt. destruct (ok_current k H) as (c' & Hc' & Hct & Hcu).
  replace c' with c in * by congruence. pose proof (ok_len _ H) as Hl. split.
  - destruct (turn_fcfs k _ c H Ho Hfc (turn_reschedule k a b tf Hcnt) Hc) as (n & Hn & _ & Hr). by exists n.
  - intros Hc0 Hrun. unfold sched_tick, switch_from_trap. rewrite Hc.
    destruct (task_count k <=? 1) eqn:E; bsimp; [lia|]. fold (before_turn c tf k). cbv zeta.
    unfold tick_current. set (k1 := upd_task c _ (before_turn c tf k)).
    assert (table k1 = table k) as Ht1.
    { unfold k1. rewrite table_upd_same; [by apply table_upd_same|by apply ok_len, ok_upd_same|done|done]. }
    assert (slot_of (get_task k1 c) = slot_of (get_task k c)) as Hs
      by (by rewrite <- !slot_of_get, Ht1).
    assert (is_state TASK_RUNNING (get_task k1 c) = true) as ->
      by (apply is_state_true; injection Hs; congruence).
    assert ((pid (get_task k1 c) =? 0) = false) as ->.
    { apply Z.eqb_neq. injection Hs as _ -> _. pose proof (ok_pid_pos k c H Hct Hc0 Hcu). lia. }
    assert (bool_decide (scheduler_policy k1 = SCHED_FCFS) = true) as -> by (by apply bool_decide_eq_true).
    cbn [negb andb fst snd]. done.
Qed.

Definition fcfs_demo : kernel := task_set_scheduler SCHED_FCFS with_child.

Lemma fcfs_demo_ok : kernel_ok fcfs_demo.
Proof.
  exact (reachable_ok _ (rtc_r _ _ _ with_child_reachable (step_scheduler stacks with_child SCHED_FCFS))).
Qed.

Lemma fcfs_demo_orders : orders_ok fcfs_demo.
Proof.
  assert (order_counter fcfs_demo = 4) as Hc by (vm_compute; reflexivity).
  assert (forallb (λ t, ready_order t <=? 4) (tasks fcfs_demo) = true) as Hf by (vm_compute; reflexivity).
  assert (length (tasks fcfs_demo) = 16%nat) as Hl by (vm_compute; reflexivity).
  generalize dependent fcfs_demo. intros k Hc Hf Hl. unfold orders_ok. rewrite Hc. split; [lia|]. intros j Hj.
  unfold in_table in Hj. rewrite forallb_forall in Hf. apply Z.leb_le, Hf. unfold get_task.
  apply list_elem_of_In, list_elem_of_lookup. exists (Z.to_nat j). apply lookup_aget. lia.
Qed.

Lemma fcfs_order_witness :
  ∃ n, current (task_reschedule 0 0 (replicate 32 0) fcfs_demo).2 = Some n ∧ n ≠ 1.
Proof.
  destruct (fcfs_order fcfs_demo 1 0 0 (replicate 32 0)) as [(n & Hn & _ & Hj) _];
    [exact fcfs_demo_ok|exact fcfs_demo_orders|reflexivity|vm_compute; reflexivity
    |vm_compute; reflexivity|].
  exists n. split; [exact Hn|]. apply (Hj 0); [unfold in_table; lia|discriminate|vm_compute; reflexivity|vm_compute; reflexivity].
Defined.

(** ** The quantum *)

Lemma before_turn_ok k c tf :
  kernel_ok k → in_table c → kernel_ok (before_turn c tf k) ∧ table (before_turn c tf k) = table k.
Proof. intros H Hc. split; [by apply ok_upd_same|apply table_upd_same; auto using ok_len]. Qed.

(** The tick of a running process that has ticks left: one is used up. *)
Lemma tick_in_quantum k c a b tf :
  kernel_ok k → scheduler_policy k = SCHED_RR → 1 < task_count k → current k = Some c → c ≠ 0 →
  state (get_task k c) = TASK_RUNNING → 1 < ticks_left (get_task k c) →
  ∃ k', sched_tick a b tf k = (false, tf, k') ∧ table k' = table k ∧ csrs k' = csrs k ∧
    scheduler_policy k' = SCHED_RR ∧ ticks_left (get_task k' c) = ticks_left (get_task k c) - 1.
Proof.
  intros H Hrr Hcnt Hc Hc0 Hrun Hleft. destruct (ok_current k H) as (c' & Hc' & Hct & Hcu).
  replace c' with c in * by congruence. destruct (before_turn_ok k c tf H Hct) as [Hb Htb].
  unfold sched_tick, switch_from_trap. rewrite Hc. destruct (task_count k <=? 1) eqn:E; bsimp; [lia|].
  fold (before_turn c tf k). cbv zeta. unfold tick_current.
  set (k1 := upd_task c (λ t, t <| runtime_ticks := u64 (runtime_ticks t + 1) |>) (before_turn c tf k)).
  assert (kernel_ok k1 ∧ table k1 = table k) as [H1 Ht1].
  { split; [by apply ok_upd_same|]. unfold k1. rewrite table_upd_same; [done|by apply ok_len|done|done]. }
  assert (slot_of (get_task k1 c) = slot_of (get_task k c) ∧ ticks_left (get_task k1 c) = ticks_left (get_task k c))
    as [Hs Htl].
  { split; [by rewrite <- !slot_of_get, Ht1|]. unfold k1, before_turn.
    rewrite !get_task_upd by (rewrite ?length_tasks_upd; auto using ok_len). by rewrite !decide_True by done. }
  assert (csrs k1 = csrs k ∧ scheduler_policy k1 = SCHED_RR) as [Hcs Hp1] by done.
  clearbody k1. injection Hs as Hs1 Hs2 Hs3. rewrite Hp1.
  assert ((pid (get_task k1 c) =? 0) = false) as ->.
  { apply Z.eqb_neq. rewrite Hs2. pose proof (ok_pid_pos k c H Hct Hc0 Hcu). lia. }
  assert (is_state TASK_RUNNING (get_task k1 c) = true) as -> by (apply is_state_true; congruence).
  assert ((1 <? ticks_left (get_task k1 c)) = true) as -> by (apply Z.ltb_lt; lia).
  rewrite (bool_decide_false (SCHED_RR = SCHED_FCFS)), (bool_decide_true (SCHED_RR = SCHED_RR)) by done.
  cbn [negb andb].
  exists (upd_task c (λ t, t <| ticks_left := ticks_left t - 1 |>) k1).
  split; [done|]. split; [rewrite table_upd_same; auto using ok_len|]. split; [done|]. split; [done|].
  rewrite get_task_upd, decide_True by auto using ok_len. cbn. lia.
Qed.

(** The last tick of the quantum gives the CPU away, to another task if there is
    one. *)
Lemma tick_ends_quantum k c a b tf :
  kernel_ok k → scheduler_policy k = SCHED_RR → 1 < task_count k → current k = Some c → c ≠ 0 →
  state (get_task k c) = TASK_RUNNING → ticks_left (get_task k c) ≤ 1 →
  turn k (sched_tick a b tf k).2.
Proof.
  intros H Hrr Hcnt Hc Hc0 Hrun Hleft. destruct (ok_current k H) as (c' & Hc' & Hct & Hcu).
  replace c' with c in * by congruence. destruct (before_turn_ok k c tf H Hct) as [Hb Htb].
  apply (turn_tick k a b tf c Hcnt Hc). unfold tick_current.
  set (k1 := upd_task c (λ t, t <| runtime_ticks := u64 (runtime_ticks t + 1) |>) (before_turn c tf k)).
  assert (slot_of (get_task k1 c) = slot_of (get_task k c) ∧ ticks_left (get_task k1 c) = ticks_left (get_task k c))
    as [Hs Htl].
  { assert (table k1 = table k) as Ht1 by (unfold k1; rewrite table_upd_same; [done|by apply ok_len|done|done]).
    split; [by rewrite <- !slot_of_get, Ht1|]. unfold k1, before_turn.
    rewrite !get_task_upd by (rewrite ?length_tasks_upd; auto using ok_len). by rewrite !decide_True by done. }
  assert (scheduler_policy k1 = SCHED_RR) as Hp1 by done.
  clearbody k1. injection Hs as Hs1 Hs2 Hs3. cbv zeta. rewrite Hp1.
  rewrite (bool_decide_false (SCHED_RR = SCHED_FCFS)) by done. cbn [andb].
  assert ((1 <? ticks_left (get_task k1 c)) = false) as -> by (apply Z.ltb_ge; lia).
  rewrite andb_false_r.
  assert ((pid (get_task k1 c) =? 0) = false) as ->; [|done].
  apply Z.eqb_neq. rewrite Hs2. pose proof (ok_pid_pos k c H Hct Hc0 Hcu). lia.
Qed.

(** The timer ticks [l], each with its two clock readings and the trap frame saved
    at its entry; the frames returned to, and the state after them. *)
Fixpoint ticks (l : list (Z * Z * list Z)) (k : kernel) : list (bool * list Z) * kernel :=
  match l with
  | [] => ([], k)
  | (a, b, tf) :: l =>
      let '(s, tf', k) := sched_tick a b tf k in
      let '(r, k) := ticks l k in ((s, tf') :: r, k)
  end.

Lemma ticks_in_quantum l k c :
  kernel_ok k → scheduler_policy k = SCHED_RR → 1 < task_count k → current k = Some c → c ≠ 0 →
  state (get_task k c) = TASK_RUNNING → Z.of_nat (length l) < ticks_left (get_task k c) →
  ∃ k', ticks l k = ((λ x, (false, x.2)) <$> l, k') ∧ kernel_ok k' ∧ table k' = table k ∧ csrs k' = csrs k ∧
    scheduler_policy k' = SCHED_RR ∧
    ticks_left (get_task k' c) = ticks_left (get_task k c) - Z.of_nat (length l).
Proof.
  intros H Hrr Hcnt Hc Hc0. revert k H Hrr Hcnt Hc.
  induction l as [|[[a b] tf] l IH]; intros k H Hrr Hcnt Hc Hrun Hleft; cbn [ticks length fmap list_fmap] in *.
  { exists k. split; [done|]. split; [done|]. split; [done|]. split; [done|]. split; [done|]. lia. }
  destruct (tick_in_quantum k c a b tf H Hrr Hcnt Hc Hc0 Hrun ltac:(lia)) as (k1 & -> & Ht & Hcs & Hp & Hl).
  assert (current k1 = Some c ∧ task_count k1 = task_count k) as [Hc1 Hn1].
  { pose proof (f_equal tb_current Ht). pose proof (f_equal tb_count Ht). cbn in *. split; congruence. }
  assert (state (get_task k1 c) = TASK_RUNNING) as Hrun1.
  { pose proof (slot_of_get k1 c) as Hs. rewrite Ht, slot_of_get in Hs.
    apply (f_equal sl_state) in Hs. cbn in Hs. congruence. }
  destruct (IH k1) as (k' & -> & H' & Ht' & Hcs' & Hp' & Hl'); [by apply (ok_same k)|done|lia|done|done|lia|].
  exists k'. split; [done|]. split; [done|]. split; [congruence|]. split; [congruence|]. split; [done|]. lia.
Qed.

(** C7: under round robin a running process with [q] ticks left keeps the CPU for
    the next [q - 1] timer ticks, each of which returns to the interrupted
    registers, and gives it away at the [q]-th: then another task runs if one is
    ready, and the process is READY, not lost. *)
Theorem rr_quantum l k c a b tf :
  kernel_ok k → scheduler_policy k = SCHED_RR → 1 < task_count k → current k = Some c → c ≠ 0 →
  state (get_task k c) = TASK_RUNNING → Z.of_nat (length l) + 1 = ticks_left (get_task k c) →
  ∃ k', ticks l k = ((λ x, (false, x.2)) <$> l, k') ∧ table k' = table k ∧ csrs k' = csrs k ∧
    turn k' (sched_tick a b tf k').2 ∧
    ∃ n, current (sched_tick a b tf k').2 = Some n ∧ in_table n ∧
      state (get_task (sched_tick a b tf k').2 n) = TASK_RUNNING ∧
      (n ≠ c → state (get_task (sched_tick a b tf k').2 c) = TASK_READY) ∧
      ∀ j, in_table j → j ≠ c → state (get_task k j) = TASK_READY → n ≠ c.
Proof.
  intros H Hrr Hcnt Hc Hc0 Hrun Hleft.
  destruct (ticks_in_quantum l k c H Hrr Hcnt Hc Hc0 Hrun ltac:(lia)) as (k' & -> & H' & Ht & Hcs & Hp & Hl).
  exists k'. split; [done|]. split; [done|]. split; [done|].
  assert (current k' = Some c ∧ task_count k' = task_count k) as [Hc1 Hn1].
  { pose proof (f_equal tb_current Ht). pose proof (f_equal tb_count Ht). cbn in *. split; congruence. }
  assert (∀ j, state (get_task k' j) = state (get_task k j)) as Hst.
  { intros j. pose proof (slot_of_get k' j) as Hs. rewrite Ht, slot_of_get in Hs.
    apply (f_equal sl_state) in Hs. cbn in Hs. congruence. }
  assert (turn k' (sched_tick a b tf k').2) as Htn.
  { apply (tick_ends_quantum k' c); try done; [lia|by rewrite Hst|lia]. }
  split; [done|]. destruct (ok_current k' H') as (c' & Hc' & Hct & _). replace c' with c in Hct by congruence.
  destruct (turn_switch k' _ c H' Htn Hc1) as (k0 & tf0 & a0 & b0 & H0 & Ht0 & Hp0 & _ & _ & Hres).
  assert (current k0 = Some c) as Hc2 by (apply (f_equal tb_current) in Ht0; cbn in Ht0; congruence).
  assert (∀ j, state (get_task k0 j) = state (get_task k j)) as Hst0.
  { intros j. rewrite <- Hst. pose proof (slot_of_get k0 j) as Hs. rewrite Ht0, slot_of_get in Hs.
    apply (f_equal sl_state) in Hs. cbn in Hs. congruence. }
  destruct (switch_task_spec k0 c tf0 H0 Hc2 Hct) as (n & k1 & Hsel & Hn & Hnr & Hk1 & Hsw & H1 & Hnrun).
  rewrite Hsw in Hres. cbn [fst snd] in Hres.
  assert (∀ j, get_task (sched_tick a b tf k').2 j = get_task k1 j) as Hg
    by (intros j; rewrite Hres; unfold account_switch; by destruct (negb _)).
  exists n. split; [rewrite Hres, Hk1; unfold account_switch; by destruct (negb _)|]. split; [done|].
  split; [by rewrite Hg|]. split.
  - intros Hne. rewrite Hg, Hk1.
    change (get_task ((upd_task n run_fields (settle c k0)) <| current := Some n |>) c)
      with (get_task (upd_task n run_fields (settle c k0)) c).
    rewrite get_task_upd by (try done; apply ok_len; by apply settle_spec).
    rewrite decide_False by done. unfold settle.
    assert (is_state TASK_RUNNING (get_task k0 c) = true) as -> by (apply is_state_true; by rewrite Hst0).
    rewrite get_task_make_ready, decide_True by (done || by apply ok_len). done.
  - intros j Hj Hjc Hjr ->.
    destruct (turn_rr k' _ c j H' Hp Htn Hc1 Hj) as (n & Hn' & _ & Hd); [by rewrite Hst|].
    assert (n = c) as -> by (rewrite Hres, Hk1 in Hn'; unfold account_switch in Hn'; destruct (negb _); cbn in Hn'; congruence).
    destruct Hd as [|Hd]; [done|]. lia.
Qed.

Definition quantum_demo : kernel := task_set_quantum 3 with_child.
Lemma quantum_demo_ok : kernel_ok quantum_demo.
Proof. exact (reachable_ok _ (rtc_r _ _ _ with_child_reachable (step_quantum stacks with_child 3))). Qed.

Lemma rr_quantum_witness :
  ∃ k', ticks [(0, 0, replicate 32 5); (0, 0, replicate 32 6)] quantum_demo
    = ([(false, replicate 32 5); (false, replicate 32 6)], k') ∧
  current k' = Some 1.
Proof.
  destruct (rr_quantum [(0, 0, replicate 32 5); (0, 0, replicate 32 6)] quantum_demo 1 0 0 (replicate 32 7))
    as (k' & Hk' & Ht & _); [exact quantum_demo_ok|reflexivity|vm_compute; reflexivity|vm_compute; reflexivity
    |discriminate|vm_compute; reflexivity|vm_compute; reflexivity|].
  exists k'. split; [exact Hk'|]. apply (f_equal tb_current) in Ht. vm_compute in Ht. exact Ht.
Defined.

(** ** Saved contexts *)

(** The saved trap contexts of [k'] are those of [k]. *)
Definition same_contexts (k k' : kernel) : Prop :=
  ∀ j, in_table j → trap_ctx (get_task k' j) = trap_ctx (get_task k j).

Lemma contexts_upd k x f :
  length (tasks k) = 16%nat → in_table x → (∀ t, trap_ctx (f t) = trap_ctx t) →
  same_contexts k (upd_task x f k).
Proof. intros Hl Hx Hf j Hj. rewrite get_task_upd by done. by destruct (decide (j = x)) as [->|]. Qed.

Lemma contexts_trans k1 k2 k3 : same_contexts k1 k2 → same_contexts k2 k3 → same_contexts k1 k3.
Proof. intros H1 H2 j Hj. rewrite H2, H1; done. Qed.

Lemma contexts_settle k c : length (tasks k) = 16%nat → in_table c → same_contexts k (settle c k).
Proof.
  intros Hl Hc. unfold settle. destruct (is_state _ _); [|done]. intros j Hj.
  rewrite get_task_make_ready by done. by destruct (decide (j = c)) as [->|].
Qed.

Lemma contexts_wake k i : length (tasks k) = 16%nat → in_table i → same_contexts k (wake i k).
Proof. intros Hl Hi j Hj. rewrite get_task_wake by done. by destruct (decide (j = i)) as [->|]. Qed.

Lemma contexts_tick k c : kernel_ok k → in_table c → same_contexts k (tick_current c k).2.
Proof.
  intros H Hc. pose proof (ok_len _ H) as Hl. unfold tick_current. cbv zeta.
  set (k1 := upd_task c (λ t, t <| runtime_ticks := u64 (runtime_ticks t + 1) |>) k).
  assert (same_contexts k k1) as H1 by (by apply contexts_upd).
  repeat match goal with |- context [if ?x then _ else _] => destruct x; cbn [snd] in *; try done end.
  eapply contexts_trans; [exact H1|]. apply contexts_upd; [by apply length_tasks_upd_16|done|done].
Qed.

Lemma contexts_switch k c tf :
  kernel_ok k → current k = Some c → in_table c → same_contexts k (switch_task c tf k).2.
Proof.
  intros H Hc Hi. destruct (switch_task_spec k c tf H Hc Hi) as (n & k1 & _ & Hn & _ & -> & -> & _ & _).
  cbn [snd]. eapply contexts_trans; [apply (contexts_settle k c); [by apply ok_len|done]|].
  intros j Hj. change (get_task (_ <| csrs := _ |>) j) with (get_task (upd_task n run_fields (settle c k)) j).
  apply contexts_upd; [|done|done|done]. apply ok_len. by apply settle_spec.
Qed.

(** Switching out saves the context of the current task and no other. *)
Lemma contexts_switch_from_trap k c tf force :
  kernel_ok k → current k = Some c → 1 < task_count k →
  trap_ctx (get_task (switch_from_trap tf force k).2 c) =
    MkTrapContext tf (trap_epc_read (csrs k)) (trap_status_read (csrs k)) (csr_load SATP (csrs k)) ∧
  ∀ j, in_table j → j ≠ c → trap_ctx (get_task (switch_from_trap tf force k).2 j) = trap_ctx (get_task k j).
Proof.
  intros H Hc Hcnt. destruct (ok_current k H) as (c' & Hc' & Hi & _). replace c' with c in Hi by congruence.
  destruct (before_turn_ok k c tf H Hi) as [Hb Htb]. pose proof (ok_len _ H) as Hl.
  assert (same_contexts (before_turn c tf k) (switch_from_trap tf force k).2) as Hsame.
  { unfold switch_from_trap. rewrite Hc. destruct (task_count k <=? 1) eqn:E; bsimp; [lia|].
    fold (before_turn c tf k). cbv zeta. destruct force; [by apply contexts_switch|].
    pose proof (contexts_tick (before_turn c tf k) c Hb Hi) as Ht.
    destruct (tick_current_spec (before_turn c tf k) c Hb Hi Hc) as (H2 & Hc2 & _).
    destruct (tick_current c (before_turn c tf k)) as [[] k2]; [exact Ht|]. cbn [snd] in *.
    eapply contexts_trans; [exact Ht|]. by apply contexts_switch. }
  split.
  - rewrite Hsame by done. unfold before_turn. by rewrite get_task_upd, decide_True.
  - intros j Hj Hne. rewrite Hsame by done. unfold before_turn. by rewrite get_task_upd, decide_False.
Qed.

(** No step touches the context of a process that is not current, as long as the
    process is there. *)
Definition keeps_context (i : Z) (k k' : kernel) : Prop :=
  state (get_task k' i) ≠ TASK_UNUSED → pid (get_task k' i) = pid (get_task k i) →
  trap_ctx (get_task k' i) = trap_ctx (get_task k i).

Lemma keeps_switch k i tf force a b s :
  kernel_ok k → in_table i → current k ≠ Some i →
  keeps_context i k (account_switch a b s (switch_from_trap tf force k).2).
Proof.
  intros H Hi Hne _ _. destruct (ok_current k H) as (c & Hc & _).
  change (get_task (account_switch a b s ?x) i) with (get_task (account_switch a b s x) i).
  assert (∀ x, get_task (account_switch a b s x) i = get_task x i) as -> by (by destruct s).
  destruct (decide (1 < task_count k)) as [Hcnt|Hcnt].
  - apply (contexts_switch_from_trap k c tf force H Hc Hcnt); [done|congruence].
  - unfold switch_from_trap. rewrite Hc. destruct (task_count k <=? 1) eqn:E; [done|]. bsimp. lia.
Qed.

Lemma keeps_slot k i x f k' :
  length (tasks k) = 16%nat → in_table i → in_table x → i ≠ x →
  (∀ j, get_task k' j = get_task (upd_task x f k) j) → keeps_context i k k'.
Proof. intros Hl Hi Hx Hne Hg _ _. rewrite Hg. by rewrite get_task_upd, decide_False. Qed.

Lemma keeps_slot2 k i x f g k' :
  length (tasks k) = 16%nat → in_table i → in_table x → i ≠ x →
  (∀ j, get_task k' j = get_task (upd_task x g (upd_task x f k)) j) → keeps_context i k k'.
Proof.
  intros Hl Hi Hx Hne Hg _ _. rewrite Hg.
  rewrite get_task_upd, decide_False by (done || by apply length_tasks_upd_16).
  by rewrite get_task_upd, decide_False.
Qed.

Lemma keeps_create ts k i entry nm :
  kernel_ok k → in_table i → state (get_task k i) ≠ TASK_UNUSED →
  keeps_context i k (task_create ts entry nm k).2.
Proof.
  intros H Hi Hu. pose proof (ok_len _ H) as Hl. unfold task_create. destruct (_ || _); [done|].
  destruct (free_slot k) as [x|] eqn:E; [|done]. apply free_slot_spec in E as (Hx & _ & Hxu). cbv zeta.
  match goal with |- context [upd_task x ?f k] => set (f0 := f) end.
  assert (i ≠ x) by congruence. destruct (minifs_process_init _ _) as [rc fd].
  destruct (rc <? 0); cbn [snd].
  - by apply (keeps_slot2 k i x f0 (λ t, t <| stack := 0 |> <| state := TASK_UNUSED |>)).
  - by apply (keeps_slot k i x f0).
Qed.

Lemma keeps_fork ts k i tf epc sp :
  kernel_ok k → in_table i → state (get_task k i) ≠ TASK_UNUSED →
  keeps_context i k (task_fork_from_trap ts tf epc sp k).2.
Proof.
  intros H Hi Hu. pose proof (ok_len _ H) as Hl. unfold task_fork_from_trap.
  destruct (current k) as [c|]; [|done]. destruct (_ <=? _); [done|].
  destruct (free_slot k) as [x|] eqn:E; [|done]. apply free_slot_spec in E as (Hx & _ & Hxu). cbv zeta.
  match goal with |- context [upd_task x ?f k] => set (f0 := f) end.
  assert (i ≠ x) by congruence. destruct (minifs_process_fork _ _ _) as [rc fd].
  destruct (rc <? 0); cbn [snd].
  - by apply (keeps_slot2 k i x f0 (λ t, t <| has_user_space := false |> <| stack := 0 |> <| state := TASK_UNUSED |>)).
  - by apply (keeps_slot k i x f0).
Qed.

Lemma keeps_death k i d f fd :
  kernel_ok k → in_table i → in_table d → d ≠ 0 → state (get_task k d) ≠ TASK_UNUSED →
  (∀ t, slot_of (f t) = MkSlot TASK_ZOMBIE (pid t) (ppid t)) → (∀ t, trap_ctx (f t) = trap_ctx t) →
  keeps_context i k (reparent d (wake_parent d ((upd_task d f k) <| fds := fd |>))).
Proof.
  intros H Hi Hd Hd0 Hdu Hf Hft _ _. pose proof (ok_len _ H) as Hl.
  pose proof (death_slots k d f fd (to_slots _ H) Hd Hd0 Hdu Hf) as S1.
  set (k1 := (upd_task d f k) <| fds := fd |>) in *.
  destruct (wake_parent_spec k1 d (table_len _ S1) S1) as (Hl2 & _).
  rewrite get_task_reparent by done.
  assert (trap_ctx (get_task (wake_parent d k1) i) = trap_ctx (get_task k i)) as Hw.
  { rewrite get_task_wake_parent by done.
    assert (trap_ctx (get_task k1 i) = trap_ctx (get_task k i)) as Hk1
      by (change (get_task k1 i) with (get_task (upd_task d f k) i); by apply (contexts_upd k d f)).
    by destruct (decide (waits_for d i k1)). }
  by destruct (decide (i ≠ 0 ∧ _)).
Qed.

Lemma keeps_wait k i p nohang :
  kernel_ok k → in_table i → keeps_context i k (task_waitpid p nohang k).2.
Proof.
  intros H Hi. pose proof (ok_len _ H) as Hl. destruct (ok_current k H) as (c & Hc & Hct & _).
  pose proof (task_waitpid_spec k p nohang c H Hc) as Hs. destruct (task_waitpid p nohang k) as [[r st] k'].
  cbn [snd]. destruct Hs as [(x & (Hx & _) & _ & _ & _ & _ & ->)|[(_ & _ & _ & Hr)|(_ & _ & _ & ->)]]; [| |done].
  - intros Hu _. pose proof (get_task_reap k x i Hl Hx Hi) as Hg. destruct (decide (i = x)); congruence.
  - destruct nohang; [by destruct Hr as [_ ->]|]. destruct Hr as [_ ->]. intros _ _. by apply contexts_upd.
Qed.

Lemma keeps_wake_all k i ch : kernel_ok k → in_table i → keeps_context i k (task_wake_all ch k).2.
Proof.
  intros H Hi. unfold task_wake_all. destruct (local_irq_save (csrs k)) as [irq cs].
  pose (I := λ (_ : Z) (s : Z * kernel), kernel_ok s.2 ∧ same_contexts k s.2).
  set (step := λ (i : Z) '(count, k0), _).
  assert (I 16 (fold_for 15 1 step (0, k <| csrs := cs |>))) as [_ HI].
  { apply (fold_for_ind I 15 1); unfold I; [split; [by apply ok_csrs|done]|].
    intros x [n k1] Hx [Hk1 Hs1]. unfold step. cbn [snd] in *.
    destruct (sleeps_on ch (get_task k1 x)) eqn:E; [|done]. apply sleeps_on_true in E as [Hb _].
    cbn [snd]. assert (in_table x) by (unfold in_table; lia). split; [by apply wake_ok|].
    eapply contexts_trans; [exact Hs1|]. apply contexts_wake; [by apply ok_len|done]. }
  destruct (fold_for 15 1 step (0, k <| csrs := cs |>)) as [n k1]. cbn [snd] in *.
  intros _ _. by apply HI.
Qed.

Lemma keeps_quantum k i q : kernel_ok k → in_table i → keeps_context i k (task_set_quantum q k).
Proof.
  intros H Hi _ _. unfold task_set_quantum. cbv zeta. set (q' := if q =? 0 then 1 else q). clearbody q'.
  destruct (fold_upd_tasks 16 0 (λ t, negb (is_state TASK_UNUSED t))
    (λ t, t <| time_slice := q' |> <| ticks_left := q' |>) (k <| scheduler_quantum := q' |>))
    as (ts & -> & Hl & Hts); [by apply (ok_len k)|lia..|].
  unfold get_task at 1. cbn [tasks set_field]. rewrite Hts by done.
  destruct (decide _); [|done]. by destruct (negb _).
Qed.

Lemma keeps_current_field k i f :
  kernel_ok k → in_table i → current k ≠ Some i →
  keeps_context i k (match current k with None => k | Some c => upd_task c f k end).
Proof.
  intros H Hi Hne. destruct (ok_current k H) as (c & Hc & Hct & _). rewrite Hc.
  apply (keeps_slot k i c f); auto using ok_len. congruence.
Qed.

Lemma keeps_yield k i :
  kernel_ok k → in_table i → keeps_context i k (yield k).
Proof.
  intros H Hi _ _. unfold yield. destruct (ok_current k H) as (c & Hc & Hct & _). rewrite Hc.
  destruct (task_count k <=? 1); [done|]. fold (settle c k).
  destruct (settle_spec k c H Hc Hct) as (H1 & Hc1 & Hn1 & _).
  pose proof (contexts_settle k c (ok_len _ H) Hct) as Hs.
  destruct (select_next_total _ H1 Hn1) as (n & -> & Hn & Hr).
  assert (∀ x f, in_table x → (∀ t, trap_ctx (f t) = trap_ctx t) →
    same_contexts k (upd_task x f (settle c k))) as Hupd.
  { intros x f Hx Hf. eapply contexts_trans; [exact Hs|]. apply contexts_upd; [by apply ok_len|done|done]. }
  destruct (n =? c); [by apply Hupd|]. fold run_fields.
  unfold switch_to. set (k1 := (upd_task n run_fields (settle c k)) <| current := Some n |>).
  assert (same_contexts k k1) as Hk1 by (by apply (Hupd n run_fields)).
  assert (length (tasks k1) = 16%nat) as Hl1
    by (change (length (tasks (upd_task n run_fields (settle c k))) = 16%nat);
        apply length_tasks_upd_16; by apply ok_len).
  change (trap_ctx (get_task (upd_task c (λ t, t <| ctx := cpu k1 |>) k1) i) = trap_ctx (get_task k i)).
  rewrite <- Hk1 by done. by apply contexts_upd.
Qed.

Lemma kstep_keeps_context ts k k' i :
  kernel_ok k → kstep ts k k' → in_table i → current k ≠ Some i → state (get_task k i) ≠ TASK_UNUSED →
  keeps_context i k k'.
Proof.
  intros H Hs Hi Hne Hu. pose proof (ok_len _ H) as Hl. destruct Hs.
  - unfold sched_tick. pose proof (λ s, keeps_switch k i tf false a b s H Hi Hne) as Hk.
    destruct (switch_from_trap tf false k) as [[s tf'] k']. apply Hk.
  - unfold task_reschedule. pose proof (λ s, keeps_switch k i tf true a b s H Hi Hne) as Hk.
    destruct (switch_from_trap tf true k) as [[s tf'] k']. apply Hk.
  - by apply keeps_yield.
  - by apply keeps_create.
  - by apply keeps_fork.
  - unfold task_exit. destruct (ok_current k H) as (c & Hc & Hct & Hcu). rewrite Hc.
    destruct (pid (get_task k c) =? 0) eqn:E; [done|]. bsimp. cbv zeta.
    apply (keeps_death k i c (λ t, t <| exit_code := code |> <| state := TASK_ZOMBIE |>)); try done.
    intros ->. apply E, (ok_idle k H).
  - unfold task_kill. destruct (find_pid p k) as [d|] eqn:E; [|done].
    apply find_pid_Some in E as (Hd & Hdu & _). cbv zeta.
    destruct (pid (get_task k d) =? 0) eqn:E0; [done|]. bsimp. cbn [orb]. destruct (_ || _); [done|]. cbn [snd].
    apply (keeps_death k i d (λ t, t <| exit_code := code |> <| state := TASK_ZOMBIE |> <| wait_channel := ChNull |>));
      try done.
    intros ->. apply E0, (ok_idle k H).
  - by apply keeps_wait.
  - unfold task_block. destruct (ok_current k H) as (c & Hc & Hct & _). rewrite Hc.
    destruct (_ =? 0); [done|]. destruct (local_irq_save (csrs k)) as [irq cs]. cbv zeta.
    intros _ _. by apply (contexts_upd k c (λ t, t <| wait_channel := ch |> <| state := TASK_BLOCKED |>)).
  - unfold task_wake_one. destruct (local_irq_save (csrs k)) as [irq cs]. cbv zeta.
    destruct (find_from 15 1 _) as [x|] eqn:E; cbn [snd]; [|done].
    apply find_from_Some in E as (Hx & _ & _). intros _ _.
    change (trap_ctx (get_task (wake x (k <| csrs := cs |>)) i) = trap_ctx (get_task (k <| csrs := cs |>) i)).
    apply (contexts_wake (k <| csrs := cs |>) x); [done|unfold in_table; lia|done].
  - by apply keeps_wake_all.
  - done.
  - by apply keeps_quantum.
  - unfold task_attach_address_space. destruct (ok_current k H) as (c & Hc & Hct & _). rewrite Hc. cbn [snd].
    eapply (keeps_slot k i c); [done|done|done|congruence|]. done.
  - unfold task_replace_address_space. destruct (ok_current k H) as (c & Hc & Hct & _). rewrite Hc.
    destruct (negb _); [done|]. cbn [snd]. eapply (keeps_slot k i c); [done|done|done|congruence|]. done.
  - by apply (keeps_current_field k i).
  - by apply (keeps_current_field k i).
  - by apply (keeps_current_field k i).
  - done.
  - done.
Qed.

(** [away ts i k k']: the kernel goes from [k] to [k'] while process [i] is not
    current and is not reaped. *)
Inductive away (ts i : Z) : kernel → kernel → Prop :=
| away_refl k : away ts i k k
| away_step k k1 k2 : current k ≠ Some i → kstep ts k k1 → state (get_task k1 i) ≠ TASK_UNUSED →
    pid (get_task k1 i) = pid (get_task k i) → away ts i k1 k2 → away ts i k k2.

Lemma away_context ts i k k' :
  kernel_ok k → in_table i → state (get_task k i) ≠ TASK_UNUSED → away ts i k k' →
  kernel_ok k' ∧ trap_ctx (get_task k' i) = trap_ctx (get_task k i).
Proof.
  intros H Hi Hu Ha. induction Ha as [k|k k1 k2 Hne Hs Hu1 Hp _ IH]; [done|].
  destruct (IH (kstep_ok ts k k1 H Hs) Hu1) as [H2 Hc2]. split; [done|]. rewrite Hc2.
  by apply (kstep_keeps_context ts k k1 i H Hs Hi Hne Hu).
Qed.

(** Loading a context puts its frame and control registers in place. *)
Lemma restore_registers t (cs : csr_file) :
  let '(tf, cs') := restore_trap_context t cs in
  tf = tc_regs (trap_ctx t) ∧ trap_epc_read cs' = tc_epc (trap_ctx t) ∧
  trap_status_read cs' = Z.land (tc_status (trap_ctx t)) MASK_SSTATUS ∧
  csr_load SATP cs' = tc_satp (trap_ctx t).
Proof.
  unfold restore_trap_context. cbv zeta.
  set (c1 := trap_epc_write (tc_epc (trap_ctx t)) cs). set (c2 := trap_status_write _ c1).
  set (c3 := trap_scratch_write _ c2).
  assert (plain SEPC ∧ plain SSCRATCH ∧ plain SATP) as (P1 & P2 & P3) by done.
  assert (trap_epc_read c3 = tc_epc (trap_ctx t)) as He.
  { unfold trap_epc_read, c3, trap_scratch_write. rewrite csr_load_store_plain_ne by done.
    unfold c2, trap_status_write. rewrite csr_load_store_status_ne by done. by apply csr_load_store_plain_eq. }
  assert (trap_status_read c3 = Z.land (tc_status (trap_ctx t)) MASK_SSTATUS) as Hst.
  { unfold trap_status_read at 1, c3, trap_scratch_write. rewrite csr_load_store_plain_ne by done.
    apply status_store_load. }
  destruct (csr_load SATP c3 =? tc_satp (trap_ctx t)) eqn:E; cbn [negb]; bsimp.
  - done.
  - split; [done|]. split; [|split].
    + unfold trap_epc_read in *. by rewrite csr_load_store_plain_ne.
    + unfold trap_status_read in *. by rewrite csr_load_store_plain_ne.
    + by apply csr_load_store_plain_eq.
Qed.

Lemma switch_used k c tf j :
  kernel_ok k → current k = Some c → in_table c → in_table j → state (get_task k j) ≠ TASK_UNUSED →
  state (get_task (switch_task c tf k).2 j) ≠ TASK_UNUSED.
Proof.
  intros H Hc Hct Hj Hu. pose proof (ok_len _ H) as Hl.
  destruct (switch_task_spec k c tf H Hc Hct) as (n & k1 & _ & Hn & _ & -> & -> & H1 & _). cbn [snd].
  change (state (get_task (upd_task n run_fields (settle c k)) j) ≠ TASK_UNUSED).
  assert (length (tasks (settle c k)) = 16%nat) as Hl1 by (apply ok_len; by apply settle_spec).
  rewrite get_task_upd by done. destruct (decide (j = n)); [done|].
  unfold settle. destruct (is_state _ _); [|done]. rewrite get_task_make_ready by done.
  by destruct (decide (j = c)).
Qed.

Lemma switch_from_trap_used k tf force j :
  kernel_ok k → in_table j → state (get_task k j) ≠ TASK_UNUSED →
  state (get_task (switch_from_trap tf force k).2 j) ≠ TASK_UNUSED.
Proof.
  intros H Hj Hu. destruct (ok_current k H) as (c & Hc & Hct & _).
  unfold switch_from_trap. rewrite Hc. destruct (task_count k <=? 1); [done|]. fold (before_turn c tf k). cbv zeta.
  destruct (before_turn_ok k c tf H Hct) as [Hb Htb].
  assert (∀ k', table k' = table k → state (get_task k' j) ≠ TASK_UNUSED) as Hsame.
  { intros k' Ht. pose proof (slot_of_get k' j) as Hs. rewrite Ht, slot_of_get in Hs.
    apply (f_equal sl_state) in Hs. cbn in Hs. congruence. }
  destruct force; [by apply switch_used; auto|].
  destruct (tick_current_spec (before_turn c tf k) c Hb Hct Hc) as (H2 & Hc2 & _ & Ht2).
  destruct (tick_current c (before_turn c tf k)) as [[] k2]; cbn [snd] in *; [by apply Hsame; congruence|].
  apply switch_used; auto. apply Hsame. congruence.
Qed.

(** A switch that gives the CPU to another task loads that task's context. *)
Lemma switch_loads k tf force i :
  kernel_ok k → in_table i → current k ≠ Some i →
  let '(switched, tf', k') := switch_from_trap tf force k in
  current k' = Some i →
  switched = true ∧ tf' = tc_regs (trap_ctx (get_task k i)) ∧
  trap_epc_read (csrs k') = tc_epc (trap_ctx (get_task k i)) ∧
  trap_status_read (csrs k') = Z.land (tc_status (trap_ctx (get_task k i))) MASK_SSTATUS ∧
  csr_load SATP (csrs k') = tc_satp (trap_ctx (get_task k i)).
Proof.
  intros H Hi Hne. destruct (ok_current k H) as (c & Hc & Hct & _).
  assert (i ≠ c) as Hic by congruence. destruct (before_turn_ok k c tf H Hct) as [Hb Htb].
  assert (trap_ctx (get_task (before_turn c tf k) i) = trap_ctx (get_task k i)) as Hbi
    by (unfold before_turn; by rewrite get_task_upd, decide_False by auto using ok_len).
  assert (∀ kx, kernel_ok kx → current kx = Some c → trap_ctx (get_task kx i) = trap_ctx (get_task k i) →
    let '(switched, tf', k') := switch_task c tf kx in
    current k' = Some i →
    switched = true ∧ tf' = tc_regs (trap_ctx (get_task k i)) ∧
    trap_epc_read (csrs k') = tc_epc (trap_ctx (get_task k i)) ∧
    trap_status_read (csrs k') = Z.land (tc_status (trap_ctx (get_task k i))) MASK_SSTATUS ∧
    csr_load SATP (csrs k') = tc_satp (trap_ctx (get_task k i))) as Hsw.
  { intros kx Hx Hcx Hix. pose proof (contexts_switch kx c tf Hx Hcx Hct i Hi) as Hsc.
    destruct (switch_task_spec kx c tf Hx Hcx Hct) as (n & k' & _ & Hn & _ & Hk' & E & _ & _).
    rewrite E in Hsc |- *. cbn [snd] in Hsc. intros Hcur.
    assert (n = i) as -> by (rewrite Hk' in Hcur; cbn in Hcur; congruence).
    change (trap_ctx (get_task k' i) = trap_ctx (get_task kx i)) in Hsc. rewrite Hix in Hsc.
    pose proof (restore_registers (get_task k' i) (csrs kx)) as Hr.
    destruct (restore_trap_context (get_task k' i) (csrs kx)) as [tf' cs']. cbn [fst snd csrs set_field].
    rewrite Hsc in Hr. split; [by apply negb_true_iff, Z.eqb_neq|]. exact Hr. }
  unfold switch_from_trap. rewrite Hc. destruct (task_count k <=? 1); [congruence|].
  fold (before_turn c tf k). cbv zeta. destruct force; [by apply Hsw|].
  destruct (tick_current_spec (before_turn c tf k) c Hb Hct Hc) as (H2 & Hc2 & _).
  pose proof (contexts_tick (before_turn c tf k) c Hb Hct i Hi) as Ht.
  destruct (tick_current c (before_turn c tf k)) as [[] k2]; cbn [snd] in *; [congruence|].
  apply Hsw; [done|done|congruence].
Qed.

(** C5: a process that loses the CPU finds everything as it left it. When task [i]
    is switched out with trap frame [tf], then whatever the kernel does while [i]
    is away (run, create, kill and reap other processes, change the scheduler,
    page tables or control registers), the switch that gives the CPU back returns
    to the same 32 registers, the same pc, the same status and the same page
    table. *)
Theorem context_survives ts i k tf force k1 k2 tf2 force2 :
  kernel_ok k → current k = Some i → 1 < task_count k →
  k1 = (switch_from_trap tf force k).2 → current k1 ≠ Some i → away ts i k1 k2 → current k2 ≠ Some i →
  let '(switched, tf3, k3) := switch_from_trap tf2 force2 k2 in
  current k3 = Some i →
  switched = true ∧ tf3 = tf ∧ trap_epc_read (csrs k3) = trap_epc_read (csrs k) ∧
  trap_status_read (csrs k3) = trap_status_read (csrs k) ∧ csr_load SATP (csrs k3) = csr_load SATP (csrs k).
Proof.
  intros H Hc Hcnt -> Hne1 Haway Hne2. destruct (ok_current k H) as (c & Hc' & Hi & Hiu).
  replace c with i in * by congruence.
  pose proof (switch_from_trap_ok k tf force H) as H1.
  destruct (contexts_switch_from_trap k i tf force H Hc Hcnt) as [Hctx _].
  pose proof (switch_from_trap_used k tf force i H Hi Hiu) as Hu1.
  set (k1 := (switch_from_trap tf force k).2) in *. clearbody k1.
  destruct (away_context ts i k1 k2 H1 Hi Hu1 Haway) as [H2 Hctx2]. rewrite Hctx in Hctx2.
  pose proof (switch_loads k2 tf2 force2 i H2 Hi Hne2) as Hload.
  destruct (switch_from_trap tf2 force2 k2) as [[sw tf3] k3]. rewrite Hctx2 in Hload.
  cbn [tc_regs tc_epc tc_status tc_satp] in Hload. by rewrite status_masked in Hload.
Qed.

Definition shell_out : kernel := (switch_from_trap (replicate 32 9) true with_child).2.
Definition child_out : kernel := (task_reschedule 0 0 (replicate 32 8) shell_out).2.

Lemma shell_out_eq : shell_out = (switch_from_trap (replicate 32 9) true with_child).2.
Proof. unfold shell_out. reflexivity. Qed.

Lemma shell_away :
  current shell_out = Some 2 ∧ current child_out = Some 0 ∧
  state (get_task child_out 1) = TASK_READY ∧ pid (get_task child_out 1) = 1 ∧ pid (get_task shell_out 1) = 1.
Proof. vm_compute. repeat split. Qed.

Lemma context_survives_witness :
  (switch_from_trap (replicate 32 4) true child_out).1 = (true, replicate 32 9).
Proof.
  destruct shell_away as (C1 & C2 & S2 & P2 & P1).
  assert (current shell_out ≠ Some 1) as N1 by (rewrite C1; discriminate).
  assert (current child_out ≠ Some 1) as N2 by (rewrite C2; discriminate).
  assert (state (get_task child_out 1) ≠ TASK_UNUSED) as U2 by (rewrite S2; discriminate).
  assert (pid (get_task child_out 1) = pid (get_task shell_out 1)) as P by (rewrite P1, P2; reflexivity).
  pose proof (away_step stacks 1 shell_out child_out child_out N1
    (step_reschedule stacks shell_out 0 0 (replicate 32 8)) U2 P (away_refl stacks 1 child_out)) as Ha.
  assert (current with_child = Some 1 ∧ 1 < task_count with_child) as [Cw Cn] by (vm_compute; split; reflexivity).
  pose proof (context_survives stacks 1 with_child (replicate 32 9) true shell_out child_out (replicate 32 4) true
    (reachable_ok _ with_child_reachable) Cw Cn shell_out_eq N1 Ha N2) as H.
  assert (current (switch_from_trap (replicate 32 4) true child_out).2 = Some 1) as Hc by (vm_compute; reflexivity).
  destruct (switch_from_trap (replicate 32 4) true child_out) as [[sw tf3] k3]. cbn [snd] in Hc.
  destruct (H Hc) as (-> & -> & _). reflexivity.
Defined.
End sched.
