(* ===== verification/Sync.v ===== *)
(** * Semaphores and mutexes (os/kernel/sync.c)

    The interrupts are off inside each critical section of these functions, so a
    section is one step; between two sections the timer may give the processor to any
    other task.  [section] runs the next section of the current task, [pc] is where the
    task is in the code, and the scheduler takes the steps of Process.v. *)

From S2P Require Import Prelude Csr Mem Vm FdTable AddrSpace Task Process Lifecycle.

(** [value] of the semaphore and [owner] of the mutex around it. *)
Record mutex := MkMutex { value : Z; owner : Z }.
#[global] Instance mutex_eta : Settable mutex := λ m, MkMutex (value m) (owner m).

(** ** The critical sections *)

Definition sem_init (v : Z) (m : mutex) : mutex := m <| value := if v <? 0 then 0 else v |>.
Definition mutex_init (m : mutex) : mutex := (sem_init 1 m) <| owner := -1 |>.

(** Whether [sem_wait] got the semaphore. *)
Definition sem_take (m : mutex) : bool * mutex :=
  if 0 <? value m then (true, m <| value := value m - 1 |>) else (false, m).
Definition sem_give (m : mutex) : mutex := m <| value := value m + 1 |>.

Definition mutex_trylock (p : Z) (m : mutex) : bool * mutex :=
  if value m =? 0 then (false, m) else (true, m <| value := 0 |> <| owner := p |>).
(** Whether the caller goes on to post. *)
Definition mutex_release (p : Z) (m : mutex) : bool * mutex :=
  if negb (owner m =? p) then (false, m) else (true, m <| owner := -1 |>).

(** Where a task is: outside; before the check of [sem_wait]; between the check and
    [task_block]; between [sem_wait] and the assignment to [owner]; with the mutex;
    in [mutex_unlock] before [sem_post], and in [sem_post] before [task_wake_one]. *)
Inductive pc := Outside | Checking | Sleeping | Taking | Inside | Posting | Waking.
#[global] Instance pc_eq_dec : EqDecision pc.
Proof. solve_decision. Defined.

(** What a task does next when it is outside or has the mutex. *)
Inductive call := Lock | Trylock | Unlock.
#[global] Instance call_eq_dec : EqDecision call.
Proof. solve_decision. Defined.

Record sync := MkSync { sn_kernel : kernel; sn_mutex : mutex; sn_pcs : gmap Z pc }.
#[global] Instance sync_eta : Settable sync := λ s, MkSync (sn_kernel s) (sn_mutex s) (sn_pcs s).

Definition pc_of (s : sync) (p : Z) : pc := default Outside (sn_pcs s !! p).

Section mutex.
(** The address of the semaphore, which tasks sleep on. *)
Context (sem : Z).

(** One section of the task with pid [p], which is the current one. *)
Definition section (p : Z) (c : call) (s : sync) : sync :=
  let m := sn_mutex s in
  let goto (l : pc) (m : mutex) (k : kernel) := MkSync k m (<[p := l]> (sn_pcs s)) in
  let k := sn_kernel s in
  match pc_of s p with
  | Outside | Inside =>
      match c with
      | Lock => goto Checking m k
      | Trylock => let '(got, m) := mutex_trylock p m in if got then goto Inside m k else s
      | Unlock => let '(post, m) := mutex_release p m in if post then goto Posting m k else s
      end
  | Checking => let '(got, m) := sem_take m in goto (if got then Taking else Sleeping) m k
  | Sleeping => goto Checking m (task_block (ChAddr sem) k)
  | Taking => goto Inside (m <| owner := p |>) k
  | Posting => goto Waking (sem_give m) k
  | Waking => goto Outside m (task_wake_one (ChAddr sem) k).2
  end.

(** A task that has the mutex does not lock it again. *)
Definition may_call (s : sync) (p : Z) (c : call) : Prop := pc_of s p = Inside → c = Unlock.

Inductive sync_step (task_stacks : Z) : sync → sync → Prop :=
| step_section s p c : task_current_state (sn_kernel s) = TASK_RUNNING → task_current_pid (sn_kernel s) = p → 0 ≤ p →
    may_call s p c → sync_step task_stacks s (section p c s)
| step_kernel s k : kstep task_stacks (sn_kernel s) k → sync_step task_stacks s (s <| sn_kernel := k |>).

(** ** Mutual exclusion *)

(** The task has taken the semaphore and not given it back. *)
Definition holds (l : pc) : bool := match l with Taking | Inside | Posting => true | _ => false end.

Record exclusive (s : sync) : Prop := {
  ex_value : value (sn_mutex s) = 1 ∧ (∀ p, holds (pc_of s p) = false) ∨
    value (sn_mutex s) = 0 ∧ ∃ p, holds (pc_of s p) = true ∧ ∀ q, holds (pc_of s q) = true → q = p;
  ex_owner : ∀ p, 0 ≤ p → owner (sn_mutex s) = p ↔ pc_of s p = Inside;
  ex_kernel : kernel_ok (sn_kernel s);
}.
End mutex.

Section exclusion.
Context (sem task_stacks : Z).
Implicit Types (s : sync) (p q : Z).

Lemma pc_of_insert s p l q m k :
  pc_of (MkSync k m (<[p := l]> (sn_pcs s))) q = if decide (q = p) then l else pc_of s q.
Proof. unfold pc_of. cbn. case_decide as E; [subst; by rewrite lookup_insert_eq|by rewrite lookup_insert_ne]. Qed.

(** A section that neither takes nor gives the mutex. *)
Lemma exclusive_move s p l m k :
  exclusive s → kernel_ok k → holds l = holds (pc_of s p) → value m = value (sn_mutex s) → owner m = owner (sn_mutex s) →
  (l = Inside ↔ pc_of s p = Inside) → exclusive (MkSync k m (<[p := l]> (sn_pcs s))).
Proof.
  intros [Hv Ho Hk] Hk' Hl Ev Eo Hi.
  assert (∀ q, holds (pc_of (MkSync k m (<[p := l]> (sn_pcs s))) q) = holds (pc_of s q)) as Hh.
  { intros q. rewrite pc_of_insert. by case_decide as E; [subst|]. }
  split; [|intros q Hq; cbn [sn_mutex]; rewrite Eo, (Ho q Hq), pc_of_insert; case_decide; [by subst; rewrite Hi|done]|exact Hk'].
  cbn [sn_mutex]. rewrite Ev. destruct Hv as [[H1 H2]|(H1 & q & H2 & H3)]; [left|right].
  - split; [done|]. intros q. by rewrite Hh.
  - split; [done|]. exists q. rewrite Hh. split; [done|]. intros x. rewrite Hh. apply H3.
Qed.

(** The task [p] takes the free mutex. *)
Lemma exclusive_take s p l m : 0 ≤ p →
  exclusive s → value (sn_mutex s) = 1 → holds l = true → value m = 0 →
  (if decide (l = Inside) then owner m = p else owner m = owner (sn_mutex s)) →
  exclusive (MkSync (sn_kernel s) m (<[p := l]> (sn_pcs s))).
Proof.
  intros Hp [Hv Ho Hk] E1 Hl Em Eo. destruct Hv as [[_ Hn]|[E0 _]]; [|lia].
  assert (∀ q, 0 ≤ q → owner (sn_mutex s) ≠ q) as Hno.
  { intros q Hq Hx%Ho; [|done]. specialize (Hn q). by rewrite Hx in Hn. }
  split; [|intros q Hq; cbn [sn_mutex]; rewrite pc_of_insert|exact Hk].
  - right. split; [exact Em|]. exists p. rewrite pc_of_insert, decide_True by done. split; [done|].
    intros q. rewrite pc_of_insert. destruct (decide (q = p)); [done|]. by rewrite Hn.
  - assert (pc_of s q ≠ Inside) as Hqi by (intros Hx; specialize (Hn q); by rewrite Hx in Hn).
    destruct (decide (l = Inside)) as [El|El]; rewrite Eo; destruct (decide (q = p)) as [Eq|Eq]; subst; split; intros Hx;
      try congruence; by apply Hno in Hx.
Qed.

(** The only holder goes on, with [owner] set for [Inside] and cleared otherwise. *)
Lemma exclusive_hold s p l m : 0 ≤ p →
  exclusive s → holds (pc_of s p) = true → holds l = true → value m = value (sn_mutex s) →
  owner m = (if decide (l = Inside) then p else -1) → exclusive (MkSync (sn_kernel s) m (<[p := l]> (sn_pcs s))).
Proof.
  intros Hp [Hv Ho Hk] Hh Hl Em Eo. destruct Hv as [[_ Hn]|(E0 & p' & _ & Hu)]; [by rewrite Hn in Hh|].
  pose proof (Hu p Hh) as <-.
  split; [|intros q Hq; cbn [sn_mutex]; rewrite pc_of_insert|exact Hk].
  - right. cbn [sn_mutex]. split; [by rewrite Em|]. exists p. rewrite pc_of_insert, decide_True by done. split; [done|].
    intros q. rewrite pc_of_insert. destruct (decide (q = p)); [done|]. apply Hu.
  - assert (q ≠ p → pc_of s q ≠ Inside) as Hqi by (intros Hne Hx; apply Hne, Hu; by rewrite Hx).
    rewrite Eo. destruct (decide (l = Inside)) as [El|El], (decide (q = p)) as [Eq|Eq]; subst; split; intros Hx;
      try congruence; try lia; by destruct (Hqi Eq).
Qed.

(** The holder gives the mutex back. *)
Lemma exclusive_give s p : 0 ≤ p →
  exclusive s → pc_of s p = Posting → exclusive (MkSync (sn_kernel s) (sem_give (sn_mutex s)) (<[p := Waking]> (sn_pcs s))).
Proof.
  intros Hp [Hv Ho Hk] Hh. destruct Hv as [[_ Hn]|(E0 & p' & _ & Hu)]; [specialize (Hn p); by rewrite Hh in Hn|].
  assert (∀ q, holds (pc_of s q) = true → q = p) as Hu'.
  { intros q Hq. rewrite (Hu q Hq). symmetry. apply Hu. by rewrite Hh. }
  split; [|intros q Hq; cbn [sn_mutex]; rewrite pc_of_insert|exact Hk].
  - left. cbn. split; [lia|]. intros q. rewrite pc_of_insert. case_decide as E; [done|].
    destruct (holds (pc_of s q)) eqn:Eq; [|done]. by apply Hu' in Eq.
  - change (owner (sem_give _)) with (owner (sn_mutex s)). rewrite (Ho q Hq). case_decide as E; [|done]. subst. by rewrite Hh.
Qed.

Lemma section_ok s p c : task_current_state (sn_kernel s) = TASK_RUNNING → task_current_pid (sn_kernel s) = p → 0 ≤ p →
  may_call s p c → exclusive s → exclusive (section sem p c s).
Proof.
  intros Hrun Hp Hp0 Hc Hs. pose proof Hs as [Hv Ho Hk]. unfold section. cbv zeta.
  destruct (pc_of s p) eqn:Epc; unfold may_call in Hc; rewrite Epc in Hc.
  - destruct c.
    + apply exclusive_move; rewrite ?Epc; done.
    + unfold mutex_trylock. destruct (value (sn_mutex s) =? 0) eqn:E; [exact Hs|]. bsimp.
      apply exclusive_take; [done..| |done|done|by rewrite decide_True]. destruct Hv as [[? _]|[? _]]; lia.
    + unfold mutex_release. destruct (owner (sn_mutex s) =? p) eqn:E; cbn [negb]; [|exact Hs]. bsimp.
      exfalso. apply (Ho p Hp0) in E. congruence.
  - unfold sem_take. destruct (0 <? value (sn_mutex s)) eqn:E; bsimp.
    + apply exclusive_take; [done..| |done|cbn|done]; destruct Hv as [[? _]|[? _]]; lia.
    + apply exclusive_move; rewrite ?Epc; done.
  - apply exclusive_move; rewrite ?Epc; try done. eapply kstep_ok; [exact Hk|]. by apply (step_block task_stacks).
  - apply exclusive_hold; rewrite ?Epc; done.
  - rewrite (Hc eq_refl). unfold mutex_release. rewrite (proj2 (Z.eqb_eq _ _)) by (by apply Ho). cbn [negb].
    apply exclusive_hold; rewrite ?Epc; done.
  - by apply exclusive_give.
  - apply exclusive_move; rewrite ?Epc; try done. eapply kstep_ok; [exact Hk|]. by apply (step_wake_one task_stacks).
Qed.

Lemma sync_steps_ok s s' : rtc (sync_step sem task_stacks) s s' → exclusive s → exclusive s'.
Proof.
  induction 1 as [|s s1 s' Hst _ IH]; [done|]. intros Hs. apply IH. destruct Hst as [s p c Hr Hp Hp0 Hc|s k Hk].
  - by apply section_ok.
  - destruct Hs as [Hv Ho Hok]. split; [exact Hv|exact Ho|]. eapply kstep_ok; [exact Hok|exact Hk].
Qed.

(** C13: between [mutex_init] and any later moment, whatever the scheduler does between
    the critical sections, at most one task is between taking the mutex and giving it
    back; the semaphore is 1 when there is none and 0 when there is one; and [owner] is
    the pid of the task inside, so that a task that does not have the mutex cannot
    release it. *)
Theorem mutex_exclusion k m s :
  kernel_ok k → rtc (sync_step sem task_stacks) (MkSync k (mutex_init m) ∅) s →
  (∀ p q, holds (pc_of s p) = true → holds (pc_of s q) = true → p = q) ∧
  (value (sn_mutex s) = 1 ∧ (∀ p, holds (pc_of s p) = false) ∨
   value (sn_mutex s) = 0 ∧ ∃ p, holds (pc_of s p) = true) ∧
  (∀ p, 0 ≤ p → owner (sn_mutex s) = p ↔ pc_of s p = Inside).
Proof.
  intros Hk Hst. apply sync_steps_ok in Hst as [Hv Ho _].
  - split; [|split; [|exact Ho]].
    + intros p q Hp Hq. destruct Hv as [[_ Hn]|(_ & x & _ & Hu)]; [by rewrite Hn in Hp|]. by rewrite (Hu p Hp), (Hu q Hq).
    + destruct Hv as [Hv|(? & p & ? & _)]; [by left|right; split; [done|by exists p]].
  - split; [left; split; [done|intros p]| |exact Hk].
    + unfold pc_of. cbn. by rewrite lookup_empty.
    + intros p Hp. unfold pc_of. cbn. rewrite lookup_empty. cbn. split; [lia|done].
Qed.
End exclusion.

(** ** Runs of a concrete machine *)

Inductive event := Create | Tick | Run (c : call).

Section runs.
Context (sem task_stacks : Z).

Definition happens (e : event) (s : sync) : sync :=
  match e with
  | Create => s <| sn_kernel := (task_create task_stacks 0x80201000 None (sn_kernel s)).2 |>
  | Tick => s <| sn_kernel := (sched_tick 0 0 (replicate 32 0) (sn_kernel s)).2 |>
  | Run c => section sem (task_current_pid (sn_kernel s)) c s
  end.
Definition can_happen (e : event) (s : sync) : bool :=
  let running := bool_decide (task_current_state (sn_kernel s) = TASK_RUNNING) in
  match e with
  | Create => running && (next_pid (sn_kernel s) <? 2 ^ 31 - 1)
  | Tick => true
  | Run c => running && (0 <=? task_current_pid (sn_kernel s)) &&
      (bool_decide (c = Unlock) || negb (bool_decide (pc_of s (task_current_pid (sn_kernel s)) = Inside)))
  end.
Fixpoint run (l : list event) (s : sync) : option sync :=
  match l with
  | [] => Some s
  | e :: l => if can_happen e s then run l (happens e s) else None
  end.

Lemma run_steps l s s' : run l s = Some s' → rtc (sync_step sem task_stacks) s s'.
Proof.
  revert s. induction l as [|e l IH]; intros s; cbn [run]; [intros [= ->]; done|].
  destruct (can_happen e s) eqn:E; [|done]. intros H. eapply rtc_l; [|by apply IH].
  destruct e as [| |c]; cbn [can_happen happens] in *; bsimp.
  - apply step_kernel, step_create; [by eapply bool_decide_eq_true_1|lia].
  - apply step_kernel. exact (step_tick _ _ 0 0 _).
  - apply step_section; [by eapply bool_decide_eq_true_1|done|lia|]. intros Hi.
    destruct (decide (c = Unlock)) as [|Hne]; [done|].
    by rewrite (bool_decide_false _ Hne), (bool_decide_true _ Hi) in H1.
Qed.
End runs.

Definition sync_start : sync := MkSync (task_set_quantum 1 (task_init boot)) (mutex_init (MkMutex 0 0)) ∅.
(** The first task locks the mutex; the second finds it taken, and loses the processor
    before it sleeps. *)
Definition contended : list event :=
  [Create; Create; Tick; Run Lock; Run Lock; Run Lock; Tick; Run Lock; Run Lock].
(** The first one unlocks; then the second goes to sleep. *)
Definition lost : list event := contended ++ [Tick; Tick; Run Unlock; Run Unlock; Run Unlock; Tick; Run Lock].
Definition demo_sem : Z := 0x80210000.
Definition after (l : list event) : option sync := run demo_sem stacks l sync_start.

Lemma sync_start_ok : kernel_ok (sn_kernel sync_start).
Proof. apply task_set_quantum_ok, task_init_ok. reflexivity. Qed.

Lemma after_run l : match after l with Some _ => true | None => false end = true →
  rtc (sync_step demo_sem stacks) sync_start (default sync_start (after l)).
Proof. unfold after. destruct (run _ _ l _) eqn:E; [|done]. intros _. by apply (run_steps _ _ l). Qed.

(** While the second task waits, the first has the mutex and only the first. *)
Lemma mutex_exclusion_witness :
  let s := default sync_start (after contended) in
  pc_of s 1 = Inside ∧ pc_of s 2 = Sleeping ∧ ∀ p, holds (pc_of s p) = true → p = 1.
Proof.
  cbv zeta. split; [vm_compute; reflexivity|]. split; [vm_compute; reflexivity|]. intros p Hp.
  destruct (mutex_exclusion demo_sem stacks (sn_kernel sync_start) (MkMutex 0 0) (default sync_start (after contended)))
    as (Hu & _).
  - exact sync_start_ok.
  - apply after_run. vm_compute. reflexivity.
  - apply Hu; [exact Hp|vm_compute; reflexivity].
Defined.

(** The wake-up is lost: the first task has given the mutex back and is gone, the
    mutex is free, and the second task sleeps for it. *)
Lemma lost_wakeup : ∃ s, rtc (sync_step demo_sem stacks) sync_start s ∧ value (sn_mutex s) = 1 ∧
  (∀ p, p ≠ 2 → pc_of s p = Outside) ∧ pc_of s 2 = Checking ∧
  state (get_task (sn_kernel s) 2) = TASK_BLOCKED ∧ wait_channel (get_task (sn_kernel s) 2) = ChAddr demo_sem.
Proof.
  exists (default sync_start (after lost)). split; [apply after_run; vm_compute; reflexivity|].
  assert (sn_pcs (default sync_start (after lost)) = <[2 := Checking]> (<[1 := Outside]> ∅)) as E by (vm_compute; reflexivity).
  split; [vm_compute; reflexivity|]. split; [|split; [vm_compute; reflexivity|split; vm_compute; reflexivity]].
  intros p Hp. unfold pc_of. rewrite E, lookup_insert_ne by done.
  destruct (decide (p = 1)) as [->|]; [by rewrite lookup_insert_eq|by rewrite lookup_insert_ne].
Qed.
