(* ===== verification/Exec.v ===== *)
(** * Program loading (os/kernel/user.c: load_elf, build_initial_stack, user_execve,
    user_init, enter_user)

    [ld] is the state a loader works on: the file system, the page allocator with
    physical memory, and the address space it builds ([program->space]).  A step
    returns [None] where the C code jumps to its failure label, with the state
    reached.  Strings are lists of characters without the terminator; a
    NULL-terminated vector of strings is a list. *)

From S2P Require Import Prelude Csr Mem FdTable Vm AddrSpace Task Device CpuType Block MiniFs.

Definition ELF_PT_LOAD : Z := 1.
Definition ELF_PF_X : Z := 1.
Definition ELF_PF_W : Z := 2.
Definition ELF_PF_R : Z := 4.
Definition ELF_ET_EXEC : Z := 2.
Definition ELF_EM_RISCV : Z := 243.
Definition MINIFS_MODE_EXEC : Z := 0x100.
Definition USER_ARG_MAX : Z := 16.
Definition USER_ENV_MAX : Z := 8.
Definition USER_STRINGS_MAX : Z := 2048.

(** ** Structures in the file *)

Record elf64_header := MkElf {
  ident : list Z;
  e_type : Z;
  e_machine : Z;
  e_version : Z;
  e_entry : Z;
  e_phoff : Z;
  e_ehsize : Z;
  e_phentsize : Z;
  e_phnum : Z;
}.
Record elf64_program_header := MkPhdr {
  p_type : Z;
  p_flags : Z;
  p_offset : Z;
  p_vaddr : Z;
  p_filesz : Z;
  p_memsz : Z;
}.

(** The little-endian field of [n] bytes at [off]. *)
Definition field (off n : Z) (bs : list Z) : Z := le_decode (slice off n bs).

(** The fields nothing reads (shoff, flags, shentsize, shnum, shstrndx; paddr, align)
    are left out. *)
Definition decode_header (bs : list Z) : elf64_header :=
  MkElf (slice 0 16 bs) (field 16 2 bs) (field 18 2 bs) (field 20 4 bs) (field 24 8 bs) (field 32 8 bs)
    (field 52 2 bs) (field 54 2 bs) (field 56 2 bs).
Definition decode_phdr (bs : list Z) : elf64_program_header :=
  MkPhdr (field 0 4 bs) (field 4 4 bs) (field 8 8 bs) (field 16 8 bs) (field 32 8 bs) (field 40 8 bs).

Definition valid_elf_header (h : elf64_header) (file_size : Z) : bool :=
  (aget 0 (ident h) 0 =? 0x7f) && (aget 0 (ident h) 1 =? 69) && (aget 0 (ident h) 2 =? 76) &&
  (aget 0 (ident h) 3 =? 70) && (aget 0 (ident h) 4 =? 2) && (aget 0 (ident h) 5 =? 1) &&
  (aget 0 (ident h) 6 =? 1) && (e_type h =? ELF_ET_EXEC) && (e_machine h =? ELF_EM_RISCV) &&
  (e_version h =? 1) && (e_ehsize h =? 64) && (e_phentsize h =? 56) &&
  (0 <? e_phnum h) && (e_phnum h <=? 16) && (e_phoff h <=? file_size) &&
  (u64 (e_phoff h + e_phnum h * e_phentsize h) <=? file_size) &&
  (USER_MIN_VA <=? e_entry h) && (e_entry h <? USER_STACK_BOTTOM).

(** The bounds [load_elf] checks for a segment that is not empty. *)
Definition segment_in_bounds (seg : elf64_program_header) (file_size : Z) : bool :=
  negb ((p_memsz seg <? p_filesz seg) || (file_size <? p_offset seg) ||
        (file_size - p_offset seg <? p_filesz seg) || (p_vaddr seg <? USER_MIN_VA) ||
        (u64 (p_vaddr seg + p_memsz seg) <? p_vaddr seg) ||
        (USER_STACK_BOTTOM <? u64 (p_vaddr seg + p_memsz seg))).

Definition segment_flags (seg : elf64_program_header) : Z :=
  let flags := 0 in
  let flags := if negb (Z.land (p_flags seg) ELF_PF_R =? 0) then Z.lor flags PTE_R else flags in
  let flags := if negb (Z.land (p_flags seg) ELF_PF_W =? 0) then Z.lor flags PTE_W else flags in
  if negb (Z.land (p_flags seg) ELF_PF_X =? 0) then Z.lor flags PTE_X else flags.

Definition flags_allowed (flags : Z) : bool :=
  negb ((Z.land flags (Z.lor PTE_R (Z.lor PTE_W PTE_X)) =? 0) ||
        (negb (Z.land flags PTE_W =? 0) && (Z.land flags PTE_R =? 0))).

(** ** The loader's state *)

Record ld (D : Type) := MkLd { ld_fs : fs D; ld_mem : mem_state; ld_space : task_address_space }.
Arguments MkLd {D}.
Arguments ld_fs {D}.
Arguments ld_mem {D}.
Arguments ld_space {D}.
#[global] Instance ld_eta {D} : Settable (ld D) := λ s, MkLd (ld_fs s) (ld_mem s) (ld_space s).

Definition load_m (D A : Type) : Type := ld D → option A * ld D.

Record loaded_program := MkLoaded {
  lp_entry : Z;
  lp_stack_pointer : Z;
  lp_argv_pointer : Z;
  lp_envp_pointer : Z;
  lp_argc : Z;
}.

Section exec.
Context {D : Type} `{BlockOps D}.
Implicit Types (s : ld D).

Definition done {A} (a : A) : load_m D A := λ s, (Some a, s).
Definition step {A B} (m : load_m D A) (f : A → load_m D B) : load_m D B := λ s,
  match m s with (Some a, s) => f a s | (None, s) => (None, s) end.
Notation "'let!' x ':=' m 'in' k" := (step m (λ x, k)) (at level 10, x pattern, m at level 100, k at level 200).
Definition failed {A} : load_m D A := λ s, (None, s).
Definition require (b : bool) : load_m D unit := λ s, (if b then Some tt else None, s).
Definition in_fs {A} (m : fs_m D A) : load_m D A := λ s,
  let '(r, f) := m (ld_fs s) in (r, s <| ld_fs := f |>).

Definition map_page (va flags : Z) : load_m D unit := λ s,
  let '(rc, sp, m) := map_user_page va flags (ld_space s) (ld_mem s) in
  (if rc <? 0 then None else Some tt, s <| ld_space := sp |> <| ld_mem := m |>).

Definition copy_out (address : Z) (source : list Z) : load_m D unit := λ s,
  let '(rc, m) := copy_to_space (ld_space s) address source (ram (ld_mem s)) in
  (if rc <? 0 then None else Some tt, s <| ld_mem := (ld_mem s) <| ram := m |> |>).

(** The failure label: the space is given back. *)
Definition or_destroy {A} (m : load_m D A) : load_m D A := λ s,
  match m s with
  | (Some a, s) => (Some a, s)
  | (None, s) =>
      let '(sp, m) := user_space_destroy (ld_space s) (ld_mem s) in
      (None, s <| ld_space := sp |> <| ld_mem := m |>)
  end.

(** ** load_elf *)

(** [for (va = start; va < end; va += PAGE_SIZE)] *)
Fixpoint map_range (fuel : nat) (va end_ flags : Z) : load_m D unit :=
  match fuel with
  | O => require false
  | S fuel =>
      if va <? end_ then let! _ := map_page va flags in map_range fuel (u64 (va + PAGE_SIZE)) end_ flags
      else done tt
  end.

Fixpoint copy_segment (fuel : nat) (inode : Z) (seg : elf64_program_header) (copied : Z) : load_m D unit :=
  match fuel with
  | O => require false
  | S fuel =>
      if copied <? p_filesz seg then
        let chunk := Z.min (u32 (p_filesz seg - copied)) 512 in
        let! scratch := in_fs (minifs_pread inode (u32 (p_offset seg + copied)) chunk) in
        let! _ := require (Z.of_nat (length scratch) =? chunk) in
        let! _ := copy_out (u64 (p_vaddr seg + copied)) scratch in
        copy_segment fuel inode seg (copied + chunk)
      else done tt
  end.

(** The pages of a segment lie below [USER_STACK_BOTTOM], that is among 512; the
    bytes of a file are at most 2^32. *)
Definition load_segment (inode : Z) (header : elf64_header) (file_size i : Z) : load_m D unit :=
  let offset := u32 (e_phoff header + i * e_phentsize header) in
  let! bs := in_fs (minifs_pread inode offset 56) in
  let! _ := require (Z.of_nat (length bs) =? 56) in
  let seg := decode_phdr bs in
  if negb (p_type seg =? ELF_PT_LOAD) then done tt
  else if p_memsz seg =? 0 then require (p_filesz seg =? 0)
  else
    let! _ := require (segment_in_bounds seg file_size) in
    let flags := segment_flags seg in
    let! _ := require (flags_allowed flags) in
    let start := page_base (p_vaddr seg) in
    let end_ := page_base (u64 (p_vaddr seg + p_memsz seg + PAGE_SIZE - 1)) in
    let! _ := map_range 513 start end_ flags in
    copy_segment (S (Z.to_nat (p_filesz seg))) inode seg 0.

Fixpoint load_segments (n : nat) (i : Z) (inode : Z) (header : elf64_header) (file_size : Z) : load_m D unit :=
  match n with
  | O => done tt
  | S n => let! _ := load_segment inode header file_size i in load_segments n (i + 1) inode header file_size
  end.

Definition entry_executable (entry : Z) : load_m D unit := λ s,
  require (match find_mapping (ld_space s) entry with
           | None => false
           | Some i => negb (Z.land (um_flags (mapping (ld_space s) i)) PTE_X =? 0)
           end) s.

Definition load_elf (v : vm_state) (inode : Z) : load_m D Z :=
  let! file_size := in_fs (minifs_inode_size inode) in
  let! mode := in_fs (minifs_inode_mode inode) in
  let! _ := require (negb (Z.land mode MINIFS_MODE_EXEC =? 0)) in
  let! bs := in_fs (minifs_pread inode 0 64) in
  let header := decode_header bs in
  let! _ := require ((Z.of_nat (length bs) =? 64) && valid_elf_header header file_size) in
  let! _ := (λ s, let '(rc, sp, m) := create_empty_space v (ld_space s) (ld_mem s) in
                  (if rc <? 0 then None else Some tt, s <| ld_space := sp |> <| ld_mem := m |>)) in
  or_destroy
    (let! _ := load_segments (Z.to_nat (e_phnum header)) 0 inode header file_size in
     let! _ := entry_executable (e_entry header) in
     let! _ := map_range 5 USER_STACK_BOTTOM USER_STACK_TOP (Z.lor PTE_R PTE_W) in
     done (e_entry header)).

(** ** build_initial_stack *)

Definition string_length_limited (string : list Z) (limit : Z) : Z :=
  if limit <=? Z.of_nat (length string) then -1 else Z.of_nat (length string).

(** The counting loops: the number of strings (at most [max]) and of bytes. *)
Fixpoint count_strings (max : nat) (l : list (list Z)) (count bytes : Z) : option (Z * Z) :=
  match l with
  | [] => Some (count, bytes)
  | string :: l =>
      match max with
      | O => None
      | S max =>
          let length := string_length_limited string USER_STRINGS_MAX in
          if (length <? 0) || (USER_STRINGS_MAX <? bytes + length + 1) then None
          else count_strings max l (count + 1) (bytes + length + 1)
      end
  end.

(** The strings are stored from the last to the first; the result is the stack and
    their addresses. *)
Fixpoint push_strings (l : list (list Z)) (stack : Z) : load_m D (Z * list Z) :=
  match l with
  | [] => done (stack, [])
  | string :: l =>
      let! (stack, addresses) := push_strings l stack in
      let stack := u64 (stack - (Z.of_nat (length string) + 1)) in
      let! _ := copy_out stack (string ++ [0]) in
      done (stack, stack :: addresses)
  end.

Definition words (l : list Z) : list Z := concat (map le64 l).

Definition build_initial_stack (argv envp : list (list Z)) (entry : Z) : load_m D loaded_program :=
  match count_strings (Z.to_nat USER_ARG_MAX) argv 0 0 with
  | None => failed
  | Some (argc, string_bytes) =>
      match count_strings (Z.to_nat USER_ENV_MAX) envp 0 string_bytes with
      | None => failed
      | Some (envc, _) =>
          let! (stack, env_addresses) := push_strings envp USER_STACK_TOP in
          let! (stack, argv_addresses) := push_strings argv stack in
          let metadata_size := (1 + argc + 1 + envc + 1) * 8 in
          let stack := Z.land (u64 (stack - metadata_size)) (u64 (Z.lnot 15)) in
          let argv_pointer := u64 (stack + 8) in
          let envp_pointer := u64 (argv_pointer + (argc + 1) * 8) in
          let! _ := copy_out stack (le64 argc) in
          let! _ := copy_out argv_pointer (words argv_addresses) in
          let! _ := copy_out (u64 (argv_pointer + argc * 8)) (le64 0) in
          let! _ := copy_out envp_pointer (words env_addresses) in
          let! _ := copy_out (u64 (envp_pointer + envc * 8)) (le64 0) in
          let! _ := require (USER_STACK_BOTTOM <=? stack) in
          done (MkLoaded entry stack argv_pointer envp_pointer argc)
      end
  end.

(** The stack of a program that cannot be built gives the space back. *)
Definition prepare_program (v : vm_state) (cwd : Z) (path : list Z) (argv envp : list (list Z))
    : load_m D loaded_program := λ s,
  (let! inode := in_fs (minifs_resolve_file cwd path) in
   let! entry := load_elf v inode in
   or_destroy (build_initial_stack argv envp entry)) (s <| ld_space := zero_space |>).

(** ** execve and the first process *)

(** The registers of a program that starts. *)
Definition start_registers (p : loaded_program) (regs : list Z) : list Z :=
  aset (aset (aset (aset regs 2 (lp_stack_pointer p)) 10 (lp_argc p)) 11 (lp_argv_pointer p))
    12 (lp_envp_pointer p).

(** The result, the trap frame, the kernel and the file system.  [sfence.vma] has no
    effect on a machine without a TLB. *)
Definition user_execve (v : vm_state) (tf : list Z) (path : list Z) (argv envp : list (list Z))
    (k : kernel) (f : fs D) : Z * list Z * kernel * fs D :=
  let '(r, s) := prepare_program v (task_current_cwd k) path argv envp (MkLd f (memory k) zero_space) in
  let k := k <| memory := ld_mem s |> in
  match r with
  | None => (-1, tf, k, ld_fs s)
  | Some p =>
      match task_replace_address_space (ld_space s) k with
      | (_, None, k) =>
          let '(_, m) := user_space_destroy (ld_space s) (memory k) in
          (-1, tf, k <| memory := m |>, ld_fs s)
      | (_, Some old, k) =>
          let k := k <| csrs := csr_store SATP (as_satp (ld_space s)) (csrs k) |> in
          let '(_, m) := user_space_destroy old (memory k) in
          let k := k <| memory := m |> <| csrs := trap_epc_write (lp_entry p) (csrs k) |> in
          (0, start_registers p (replicate 32 0), k, ld_fs s)
      end
  end.

Definition shell_path : list Z := chars "/bin/shell".
Definition shell_envp : list (list Z) := [chars "PATH=/bin:/tests"; chars "HOME=/"; chars "PWD=/"].

(** The result, what is printed, the kernel and the file system. *)
Definition user_init (v : vm_state) (k : kernel) (f : fs D) : Z * list Z * kernel * fs D :=
  let '(r, s) := prepare_program v (task_current_cwd k) shell_path [shell_path] shell_envp
                   (MkLd f (memory k) zero_space) in
  let k := k <| memory := ld_mem s |> in
  match r with
  | None => (-1, chars "user_init: cannot load /bin/shell" ++ [10], k, ld_fs s)
  | Some p =>
      let '(rc, k) := task_attach_address_space (ld_space s) k in
      if rc <? 0 then
        let '(_, m) := user_space_destroy (ld_space s) (memory k) in
        (-1, chars "user_init: no current process" ++ [10], k <| memory := m |>, ld_fs s)
      else
        let k := k <| csrs := csr_store SATP (as_satp (ld_space s)) (csrs k) |> in
        let k := match current k with
                 | None => k
                 | Some c =>
                     task_set_current_entry (lp_entry p)
                       (upd_task c (λ t, t <| trap_ctx := (trap_ctx t)
                          <| tc_regs := start_registers p (tc_regs (trap_ctx t)) |> |>) k)
                 end in
        (0, [], k, ld_fs s)
  end.

(** The control registers before [sret], and the registers sp, a0, a1, a2; the
    others keep what the kernel left in them. *)
Definition enter_user (k : kernel) : option (Z * Z * Z * Z * csr_file) :=
  let status := csr_load SSTATUS (csrs k) in
  let status := Z.land status (u64 (Z.lnot SSTATUS_SPP)) in
  let status := Z.lor status SSTATUS_SPIE in
  let c := csr_store SSTATUS status (csrs k) in
  let c := csr_store SEPC (task_current_entry k) c in
  let c := trap_scratch_write (task_current_kernel_stack_top k) c in
  match task_current_initial_trap_context k with
  | None => None
  | Some context => Some (aget 0 context 2, aget 0 context 10, aget 0 context 11, aget 0 context 12, c)
  end.
End exec.
