(* ===== verification/ExecSpec.v ===== *)
(** * Program loading: all or nothing, and the initial stack

    [builds] is the specification of a step of the loader: it keeps the disk as it
    was, the address space under construction well formed, and every page of the
    machine accounted for; memory outside the pages that were free is not written. *)

From S2P Require Import Prelude Csr Mem Vm Device CpuType Block FdTable MiniFs FsLayout FsFile FsWrite FsOps FsInv.
From S2P Require Import FsFiles AddrSpace UserMem Task Process Exec.

(** ** Copies into a space *)

Lemma chunk_at_page a len : 0 ≤ a → 0 < len → a mod PAGE_SIZE + chunk_at a len ≤ PAGE_SIZE ∧ 0 ≤ chunk_at a len ≤ len.
Proof. intros Ha Hl. destruct (chunk_at_spec a len) as (H1 & H2 & H3); [done|done|]. lia. Qed.

Lemma copy_to_loop_outside fuel sp dest src k m rc m' :
  space_list sp → bytes src → ram_ok m → 0 ≤ k → copy_to_loop fuel sp dest src k m = Some (rc, m') →
  same_outside (mapped_pages sp) m m' ∧ ram_ok m'.
Proof.
  intros Hsp Hb. revert k m. induction fuel as [|fuel IH]; intros k m Hm Hk; [done|]. cbn [copy_to_loop].
  destruct (k <? Z.of_nat (length src)) eqn:E; bsimp; [|by intros [= <- <-]].
  destruct (find_mapping sp (u64 (dest + k))) as [i|] eqn:Hi; [|by intros [= <- <-]]. cbv zeta.
  pose proof (u64_range (dest + k)) as Hr. rewrite land_page_offset by lia.
  set (a := u64 (dest + k)) in *. destruct (chunk_at_page a (Z.of_nat (length src) - k)) as [Hc1 Hc2]; [lia..|].
  set (chunk := chunk_at a _) in *.
  assert (Z.of_nat (length (slice k chunk src)) = chunk) as Hl by (rewrite length_slice; lia).
  pose proof (Z.mod_pos_bound a PAGE_SIZE ltac:(done)).
  intros Hc. apply IH in Hc as [Hs Hm']; [|by apply ram_ok_store_bytes, Forall_slice|lia].
  split; [|done]. etrans; [|exact Hs]. destruct (mapping_data_page sp Hsp _ _ Hi) as [_ Hin].
  apply (same_outside_store _ _ _ _ _ Hin); lia.
Qed.

Lemma copy_to_space_outside sp dest src m rc m' :
  space_list sp → bytes src → ram_ok m → copy_to_space sp dest src m = (rc, m') →
  same_outside (mapped_pages sp) m m' ∧ ram_ok m'.
Proof.
  intros Hsp Hb Hm. unfold copy_to_space. destruct (copy_to_loop _ _ _ _ _ _) as [[rc1 m1]|] eqn:E; cbn.
  - intros [= <- <-]. by eapply copy_to_loop_outside.
  - intros [= <- <-]. done.
Qed.

Section builds.
Context {D : Type} `{HD : BlockDriver D}.
Context (start : Z) (v : vm_state) (F : gset Z) (m0 : ram_t) (f0 : fs D).
Hypothesis Hf0 : fs_good f0.
Implicit Types (s : ld D).

(** The state of a loader with a space under construction, and without one. *)
Record building s : Prop := {
  bd_fs : like f0 (ld_fs s);
  bd_mem : ∃ F', kmem start v F' (ld_mem s) ∧ space_in start v F' (ram (ld_mem s)) (ld_space s) ∧
    list_to_set (space_pages (ld_space s)) ∪ F' = F;
  bd_outside : same_outside (elements F) m0 (ram (ld_mem s));
}.
Record idle s : Prop := {
  id_fs : like f0 (ld_fs s);
  id_mem : kmem start v F (ld_mem s);
  id_outside : same_outside (elements F) m0 (ram (ld_mem s));
}.

(** A page that is mapped stays mapped and keeps its permissions. *)
Definition flags_grow (sp sp' : task_address_space) : Prop := ∀ a fl, user_flags sp a = Some fl →
  ∃ fl', user_flags sp' a = Some fl' ∧ Z.land fl' fl = fl.

Lemma flags_grow_refl sp : flags_grow sp sp.
Proof. intros a fl Ha. exists fl. split; [done|]. apply Z.land_diag. Qed.

Lemma flags_grow_trans sp1 sp2 sp3 : flags_grow sp1 sp2 → flags_grow sp2 sp3 → flags_grow sp1 sp3.
Proof.
  intros H12 H23 a fl Ha. destruct (H12 a fl Ha) as (fl2 & Ha2 & E2). destruct (H23 a fl2 Ha2) as (fl3 & Ha3 & E3).
  exists fl3. split; [done|]. by rewrite <- E2, Z.land_assoc, E3.
Qed.

Lemma flags_grow_map va flags sp sp' m m' : map_view va flags sp sp' m m' → flags_grow sp sp'.
Proof.
  intros [_ Hv] a fl Ha. rewrite Hv, Ha. case_decide; [|exists fl; split; [done|apply Z.land_diag]].
  eexists. split; [done|]. cbn. apply Z.bits_inj'. intros i _. rewrite Z.land_spec, Z.lor_spec.
  destruct (Z.testbit fl i), (Z.testbit flags i); done.
Qed.

Definition builds {A} (m : load_m D A) (Q : A → Prop) : Prop := ∀ s, building s →
  ∃ r s', m s = (r, s') ∧ building s' ∧ flags_grow (ld_space s) (ld_space s') ∧ ∀ a, r = Some a → Q a.

Lemma builds_step {A B} (m : load_m D A) (k : A → load_m D B) (Q : A → Prop) (R : B → Prop) :
  builds m Q → (∀ a, Q a → builds (k a) R) → builds (step m k) R.
Proof.
  intros Hm Hk s Hs. destruct (Hm s Hs) as (r & s1 & E & Hs1 & Hg & Hr). unfold step. rewrite E.
  destruct r as [a|]; [|by exists None, s1].
  destruct (Hk a (Hr a eq_refl) s1 Hs1) as (r2 & s2 & E2 & Hs2 & Hg2 & Hr2). exists r2, s2.
  split; [done|]. split; [done|]. split; [by eapply flags_grow_trans|done].
Qed.

Lemma builds_done {A} (a : A) (Q : A → Prop) : Q a → builds (Exec.done a) Q.
Proof.
  intros Ha s Hs. exists (Some a), s. split; [done|]. split; [done|]. split; [apply flags_grow_refl|]. by intros ? [= <-].
Qed.
Lemma builds_require b : builds (require b) (λ _, b = true).
Proof.
  intros s Hs. exists (if b then Some tt else None), s. split; [done|]. split; [done|].
  split; [apply flags_grow_refl|by destruct b].
Qed.
Lemma builds_failed {A} (Q : A → Prop) : builds failed Q.
Proof. intros s Hs. exists None, s. split; [done|]. split; [done|]. by split; [apply flags_grow_refl|]. Qed.

Lemma builds_fs {A} (m : fs_m D A) (Q : A → Prop) : reads f0 m Q → builds (in_fs m) Q.
Proof.
  intros Hm s [Hl Hmem Ho]. destruct (Hm _ Hl) as (r & f' & E & Hl' & Hr). unfold in_fs. rewrite E.
  exists r, (s <| ld_fs := f' |>). split; [done|]. split; [by split|]. by split; [apply flags_grow_refl|].
Qed.

Lemma building_pages s F' :
  list_to_set (space_pages (ld_space s)) ∪ F' = F → ∀ p, p ∈ space_pages (ld_space s) → p ∈ elements F.
Proof. intros <- p Hp. rewrite elem_of_elements. set_solver. Qed.

Lemma builds_map va flags : 0 ≤ va → 0 ≤ flags → Z.ldiff flags RWX = 0 → builds (map_page va flags) (λ _, True).
Proof.
  intros Hva Hf0' Hfl s [Hl (F' & Hk & Hin & HF) Ho].
  destruct (map_user_page_spec start v F' (ld_mem s) (ld_space s) va flags Hk Hin Hva Hf0' Hfl)
    as (rc & sp' & m' & E & [(-> & -> & Hk' & Hr & _)|(-> & _ & F2 & Hk' & Hin' & HF2 & Hsub & Hs & _ & Hv)]);
    unfold map_page; rewrite E; eexists _, _; (split; [reflexivity|]); (split; [|split; [|done]]).
  - split; [done| |cbn; by rewrite Hr]. exists F'. cbn. rewrite Hr. done.
  - apply flags_grow_refl.
  - split; [done|exists F2; split; [done|]; split; [done|]; etrans; [exact HF2|exact HF]|].
    etrans; [exact Ho|]. eapply same_outside_mono; [|exact Hs].
    intros p Hp. rewrite elem_of_elements, <- HF, <- HF2. set_solver.
  - by eapply flags_grow_map.
Qed.

Lemma space_write (s : mem_state) F' sp m' :
  kmem start v F' s → space_in start v F' (ram s) sp → same_outside (mapped_pages sp) (ram s) m' → ram_ok m' →
  kmem start v F' (s <| ram := m' |>) ∧ space_in start v F' m' sp.
Proof using.
  intros Hk [Hok Hh] Hs Hm. pose proof (so_list _ _ _ Hok) as Hsl.
  assert (mapped_pages sp ⊆ space_pages sp) as Hsub by (intros p Hp; do 3 right; exact Hp).
  assert (Forall (λ p, aligned p ∧ p ∉ F' ∧ p ∉ kernel_pages v) (mapped_pages sp)) as Hps.
  { apply Forall_forall. intros p Hp%Hsub. pose proof (proj1 (Forall_forall _ _) (proj2 Hh) p Hp) as (? & ? & ?).
    split; [|done]. by apply (space_page sp). }
  split; [by eapply km_write|]. split; [|done].
  eapply space_ok_frame; [exact Hok|apply (km_tables _ _ _ _ Hk)|exact Hs|..].
  - eapply Forall_impl; [exact Hps|]. by intros p (? & _).
  - apply Forall_forall. intros p Hp Hin. by pose proof (proj1 (Forall_forall _ _) Hps p Hin) as (_ & _ & ?).
  - apply Forall_forall. intros p Hp Hin. unfold mapped_pages in Hin.
    apply list_elem_of_fmap in Hin as (i & -> & Hi%elem_of_seqZ). apply (mapped_not_table sp i Hsl); [lia|done].
Qed.

Lemma builds_copy address source : bytes source → builds (copy_out address source) (λ _, True).
Proof.
  intros Hb s [Hl (F' & Hk & [Hok Hh] & HF) Ho]. unfold copy_out.
  destruct (copy_to_space (ld_space s) address source (ram (ld_mem s))) as [rc m'] eqn:E.
  eexists _, _. split; [reflexivity|]. split; [|split; [apply flags_grow_refl|done]]. pose proof (so_list _ _ _ Hok) as Hsl.
  destruct (copy_to_space_outside _ _ _ _ _ _ Hsl Hb (km_ram _ _ _ _ Hk) E) as [Hs Hm].
  destruct (space_write (ld_mem s) F' (ld_space s) m' Hk (conj Hok Hh) Hs Hm) as [Hk' Hin'].
  split; [done|by exists F'|]. etrans; [exact Ho|]. eapply same_outside_mono; [|exact Hs].
  intros p Hp. apply (building_pages s F' HF). do 3 right. exact Hp.
Qed.

(** ** The segments *)

Lemma builds_map_range fuel va end_ flags :
  0 ≤ va → 0 ≤ flags → Z.ldiff flags RWX = 0 → builds (map_range fuel va end_ flags) (λ _, True).
Proof.
  intros Hva Hf Hl. revert va Hva. induction fuel as [|fuel IH]; intros va Hva.
  - intros s Hs. destruct (builds_require false s Hs) as (r & s' & E & Hb & Hg & _). by exists r, s'.
  - cbn [map_range]. destruct (va <? end_); [|by apply builds_done].
    eapply builds_step; [by apply builds_map|]. intros _ _. apply IH. pose proof (u64_range (va + PAGE_SIZE)). lia.
Qed.

Lemma builds_copy_segment fuel inode seg copied : is_inode inode → builds (copy_segment fuel inode seg copied) (λ _, True).
Proof using HD Hf0.
  intros Hn. revert copied. induction fuel as [|fuel IH]; intros copied.
  - intros s Hs. destruct (builds_require false s Hs) as (r & s' & E & Hb & Hg & _). by exists r, s'.
  - cbn [copy_segment]. destruct (_ <? _); [|by apply builds_done].
    pose proof (u32_range (p_offset seg + copied)) as Ho. unfold is_inode in Hn.
    eapply builds_step; [apply builds_fs, reads_pread; [by apply good_ok|lia|lia]|]. intros bs Hb.
    eapply builds_step; [apply builds_require|]. intros _ _.
    eapply builds_step; [by apply builds_copy|]. intros _ _. apply IH.
Qed.

Lemma segment_flags_ok seg : 0 ≤ segment_flags seg ∧ Z.ldiff (segment_flags seg) RWX = 0.
Proof. unfold segment_flags. repeat destruct (negb _); by vm_compute. Qed.

Lemma page_base_nonneg a : 0 ≤ a → 0 ≤ page_base a.
Proof. intros Ha. unfold page_base. apply Z.land_nonneg. by left. Qed.

Lemma field_nonneg off n bs : bytes bs → 0 ≤ field off n bs.
Proof.
  intros Hb. unfold field. pose proof (le_decode_range (slice off n bs)) as Hr. apply Hr. by apply Forall_slice.
Qed.

Lemma builds_load_segment inode header file_size i :
  is_inode inode → builds (load_segment inode header file_size i) (λ _, True).
Proof using HD Hf0.
  intros Hn. unfold load_segment. pose proof (u32_range (e_phoff header + i * e_phentsize header)) as Ho.
  pose proof Hn as Hn'. unfold is_inode in Hn'.
  eapply builds_step; [apply builds_fs, reads_pread; [by apply good_ok|lia|lia]|]. intros bs Hb.
  eapply builds_step; [apply builds_require|]. intros _ _.
  destruct (negb _); [by apply builds_done|]. destruct (_ =? 0).
  { intros s Hs. destruct (builds_require (p_filesz (decode_phdr bs) =? 0) s Hs) as (r & s' & E & Hbd & Hg & _). by exists r, s'. }
  eapply builds_step; [apply builds_require|]. intros _ _.
  eapply builds_step; [apply builds_require|]. intros _ _.
  destruct (segment_flags_ok (decode_phdr bs)) as [H1 H2].
  eapply builds_step; [apply builds_map_range; [|done|done]|].
  { apply page_base_nonneg, field_nonneg, Hb. }
  intros _ _. by apply builds_copy_segment.
Qed.

Lemma builds_load_segments n i inode header file_size :
  is_inode inode → builds (load_segments n i inode header file_size) (λ _, True).
Proof using HD Hf0.
  intros Hn. revert i. induction n as [|n IH]; intros i; [by apply builds_done|].
  cbn [load_segments]. eapply builds_step; [by apply builds_load_segment|]. auto.
Qed.

(** ** load_elf *)

Definition executable (sp : task_address_space) (va : Z) : Prop :=
  ∃ fl, user_flags sp va = Some fl ∧ Z.land fl PTE_X ≠ 0.

Lemma executable_grow sp sp' va : executable sp va → flags_grow sp sp' → executable sp' va.
Proof.
  intros (fl & Hf & Hx) Hg. destruct (Hg va fl Hf) as (fl' & Hf' & E). exists fl'. split; [done|].
  intros Hz. apply Hx. rewrite <- E, (Z.land_comm fl' fl), <- Z.land_assoc, Hz. apply Z.land_0_r.
Qed.

Lemma destroy_idle s : building s → ∃ sp m, user_space_destroy (ld_space s) (ld_mem s) = (sp, m) ∧
  idle (s <| ld_space := sp |> <| ld_mem := m |>).
Proof.
  intros [Hl (F' & Hk & [Hok Hh] & HF) Ho]. pose proof (so_list _ _ _ Hok) as Hsl.
  destruct (user_space_destroy_spec start v F' (ld_mem s) (ld_space s) Hk Hh (proj1 (sl_count _ Hsl))) as (m & E & Hk' & Hs).
  exists zero_space, m. split; [done|]. split; [done|cbn; by rewrite <- HF|].
  etrans; [exact Ho|]. eapply same_outside_mono; [|exact Hs]. intros p Hp. by apply (building_pages s F' HF).
Qed.

Lemma or_destroy_ok {A} (m : load_m D A) (Q : A → ld D → Prop) s :
  (∃ r s', m s = (r, s') ∧ building s' ∧ ∀ a, r = Some a → Q a s') →
  ∃ r s', or_destroy m s = (r, s') ∧ match r with None => idle s' | Some a => building s' ∧ Q a s' end.
Proof.
  intros (r & s' & E & Hb & Hr). unfold or_destroy. rewrite E. destruct r as [a|].
  - exists (Some a), s'. split; [done|]. split; [done|]. by apply Hr.
  - destruct (destroy_idle s' Hb) as (sp & m' & Ed & Hi). rewrite Ed. by eexists None, _.
Qed.

Lemma idle_fs {A B} (m : fs_m D A) (k : A → load_m D B) (Q : A → Prop) (R : option B → ld D → Prop) s :
  reads f0 m Q → idle s → (∀ s', idle s' → R None s') →
  (∀ a s', Q a → idle s' → ∃ r s2, k a s' = (r, s2) ∧ R r s2) →
  ∃ r s2, step (in_fs m) k s = (r, s2) ∧ R r s2.
Proof.
  intros Hm [Hl Hk Ho] Hn Hs. destruct (Hm _ Hl) as (r & f' & E & Hl' & Hr). unfold step, in_fs. rewrite E.
  assert (idle (s <| ld_fs := f' |>)) as Hi by (by split).
  destruct r as [a|]; [apply Hs; auto|]. eexists None, _. split; [done|]. by apply Hn.
Qed.

Lemma idle_require {B} b (k : unit → load_m D B) (R : option B → ld D → Prop) s :
  R None s → (b = true → ∃ r s2, k tt s = (r, s2) ∧ R r s2) → ∃ r s2, step (require b) k s = (r, s2) ∧ R r s2.
Proof. intros Hn Hk. unfold step, require. destruct b; [by apply Hk|]. by exists None, s. Qed.

Lemma load_elf_ok inode s :
  is_inode inode → idle s →
  ∃ r s', load_elf v inode s = (r, s') ∧
    match r with None => idle s' | Some entry => building s' ∧ executable (ld_space s') entry end.
Proof using HD Hf0.
  intros Hn Hi. pose proof (good_ok _ Hf0) as Hok. pose proof Hn as Hn'. unfold is_inode in Hn'.
  set (R := λ (r : option Z) (s' : ld D), match r with None => idle s' | Some entry => building s' ∧ executable (ld_space s') entry end).
  change (∃ r s', load_elf v inode s = (r, s') ∧ R r s'). unfold load_elf.
  eapply (idle_fs _ _ (λ _, True)); [|done|done|]. { eapply reads_conseq; [apply reads_size; [done|lia]|done]. }
  intros file_size s1 _ Hi1. eapply (idle_fs _ _ (λ _, True)); [|done|done|].
  { eapply reads_conseq; [apply reads_mode; [done|lia]|done]. }
  intros mode s2 _ Hi2. apply idle_require; [done|]. intros _.
  eapply idle_fs; [apply reads_pread; [done|lia|lia]|done|done|]. intros bs s3 Hb Hi3.
  apply idle_require; [done|]. intros _. unfold step at 1.
  destruct (create_empty_space_spec start v F (ld_mem s3) (ld_space s3) (id_mem _ Hi3))
    as (rc & sp & m & E & [(-> & _ & F' & Hk & Hin & HF & Hs)|(-> & -> & _ & Hk & Hs)]); rewrite E.
  2: { eexists None, _. split; [reflexivity|]. split; [apply Hi3|done|]. etrans; [apply Hi3|done]. }
  cbn [Z.ltb Z.compare]. set (s4 := s3 <| ld_space := sp |> <| ld_mem := m |>).
  assert (building s4) as Hb4.
  { split; [apply Hi3|by exists F'|]. etrans; [apply Hi3|]. eapply same_outside_mono; [|exact Hs].
    intros p Hp. rewrite elem_of_elements, HF. set_solver. }
  apply (or_destroy_ok _ (λ entry s', executable (ld_space s') entry)).
  destruct (builds_load_segments (Z.to_nat (e_phnum (decode_header bs))) 0 inode (decode_header bs) file_size Hn s4 Hb4)
    as (r & s5 & E5 & Hb5 & _). unfold step at 1. rewrite E5. destruct r as [u|]; [|by exists None, s5].
  unfold step at 1. unfold entry_executable at 1. unfold require at 1.
  set (x := match find_mapping _ _ with Some _ => _ | None => _ end). destruct x eqn:Ex; [|by exists None, s5].
  assert (executable (ld_space s5) (e_entry (decode_header bs))) as Hx.
  { unfold x in Ex. destruct (find_mapping (ld_space s5) (e_entry (decode_header bs))) as [j|] eqn:Ej; [|done]. bsimp.
    eexists. unfold user_flags. rewrite Ej. split; [done|]. cbn. done. }
  destruct (builds_map_range 5 USER_STACK_BOTTOM USER_STACK_TOP (Z.lor PTE_R PTE_W)) with (s := s5)
    as (r & s6 & E6 & Hb6 & Hg6 & _); [done|done|by vm_compute|done|].
  unfold step. rewrite E6. destruct r as [u'|]; [|by exists None, s6].
  eexists (Some _), s6. split; [reflexivity|]. split; [done|]. intros ? [= <-]. by eapply executable_grow.
Qed.

(** ** The initial stack *)

Definition ubyte s (a : Z) : option Z := user_byte (ld_space s) (ram (ld_mem s)) a.

(** Only the user's bytes from [lo] to [hi] changed. *)
Record changed s s' (lo hi : Z) : Prop := {
  ch_building : building s';
  ch_space : ld_space s' = ld_space s;
  ch_byte : ∀ b, is_u64 b → ¬ (lo ≤ b < hi) → ubyte s' b = ubyte s b;
}.

Lemma changed_refl s lo hi : building s → changed s s lo hi.
Proof. by split. Qed.

Lemma changed_trans s1 s2 s3 l1 h1 l2 h2 lo hi :
  changed s1 s2 l1 h1 → changed s2 s3 l2 h2 → lo ≤ l1 → h1 ≤ hi → lo ≤ l2 → h2 ≤ hi → changed s1 s3 lo hi.
Proof.
  intros [_ E1 B1] [Hb E2 B2] H1 H2 H3 H4. split; [done|congruence|].
  intros b Hu Hn. rewrite B2, B1; [done|done|lia|done|lia].
Qed.

Lemma changed_widen s s' lo hi lo' hi' : changed s s' lo hi → lo' ≤ lo → hi ≤ hi' → changed s s' lo' hi'.
Proof. intros [Hb E B] H1 H2. split; [done|done|]. intros b Hu Hn. apply B; [done|lia]. Qed.

Definition stored sp m (a : Z) (bs : list Z) : Prop :=
  ∀ k, 0 ≤ k < Z.of_nat (length bs) → user_byte sp m (a + k) = Some (aget 0 bs k).
Definition stored_in s := stored (ld_space s) (ram (ld_mem s)).

Lemma stored_changed s s' lo hi a bs :
  changed s s' lo hi → stored_in s a bs → 0 ≤ a → a + Z.of_nat (length bs) ≤ 2 ^ 64 →
  a + Z.of_nat (length bs) ≤ lo ∨ hi ≤ a → stored_in s' a bs.
Proof.
  intros [_ E B] Hs Ha Hl Hd k Hk. rewrite <- (Hs k Hk). change (ubyte s' (a + k) = ubyte s (a + k)). apply B; lia.
Qed.

Lemma copy_out_ok a src s :
  building s → bytes src → 0 ≤ a → a + Z.of_nat (length src) < 2 ^ 64 →
  ∃ r s', copy_out a src s = (r, s') ∧
    (r = None → building s' ∧ ld_space s' = ld_space s) ∧
    (r = Some tt → changed s s' a (a + Z.of_nat (length src)) ∧ stored_in s' a src).
Proof.
  intros Hs Hb Ha Hl. destruct (builds_copy a src Hb s Hs) as (r & s' & E & Hs' & _). exists r, s'. split; [done|].
  pose proof Hs as [_ (F' & _ & [Hok _] & _) _]. pose proof (so_list _ _ _ Hok) as Hsl.
  unfold copy_out in E. destruct (copy_to_space (ld_space s) a src (ram (ld_mem s))) as [rc m'] eqn:Ec.
  injection E as <- <-. destruct (copy_to_space_spec _ Hsl a src _ rc m' Ha Hl Ec) as [_ [(-> & _ & Hby)|(-> & _)]].
  2: { split; [done|]. intros [=]. }
  split; [intros [=]|]. intros _. split.
  - split; [done|done|]. intros b Hu Hn. unfold ubyte. etrans; [exact (Hby b Hu)|]. by rewrite decide_False.
  - intros k Hk. etrans; [apply Hby; lia|]. rewrite decide_True by lia. f_equal. f_equal. lia.
Qed.

(** The bytes the strings take with their terminators. *)
Definition total (l : list (list Z)) : Z := foldr (λ str n, Z.of_nat (length str) + 1 + n) 0 l.

Lemma total_nonneg l : 0 ≤ total l.
Proof. induction l as [|str l IH]; [done|]. cbn. fold (total l). lia. Qed.

Lemma count_strings_ok max l count b c b' :
  count_strings max l count b = Some (c, b') → b ≤ USER_STRINGS_MAX →
  c = count + Z.of_nat (length l) ∧ b' = b + total l ∧ b' ≤ USER_STRINGS_MAX ∧ (length l ≤ max)%nat.
Proof.
  revert max count b. induction l as [|str l IH]; intros [|max] count b; cbn [count_strings]; try done.
  - intros [= <- <-] Hb. cbn. lia.
  - intros [= <- <-] Hb. cbn. split; [lia|]. split; [lia|]. split; [done|lia].
  - unfold string_length_limited.
    destruct (USER_STRINGS_MAX <=? Z.of_nat (length str)) eqn:El; [done|].
    destruct (_ || _) eqn:E; [done|]. bsimp. intros Hc Hb. apply IH in Hc as (-> & -> & Hm & Hl); [|lia].
    cbn [total foldr length]. fold (total l). split; [lia|]. split; [lia|]. split; [lia|lia].
Qed.

Definition placed s (lo hi : Z) (l : list (list Z)) (addresses : list Z) : Prop :=
  Forall2 (λ str a, lo ≤ a ∧ a + Z.of_nat (length str) + 1 ≤ hi ∧ stored_in s a (str ++ [0])) l addresses.

Lemma placed_changed s s' lo hi lo' hi' l addresses :
  changed s s' lo' hi' → hi' ≤ lo → 0 ≤ lo → hi ≤ 2 ^ 64 → placed s lo hi l addresses → placed s' lo hi l addresses.
Proof.
  intros Hc Hd Hlo Hhi Hp. eapply Forall2_impl; [exact Hp|]. intros str a (H1 & H2 & H3). split; [done|]. split; [done|].
  eapply stored_changed; [exact Hc|exact H3|lia|rewrite length_app; cbn; lia|]. right. lia.
Qed.

Lemma placed_widen s lo hi lo' l addresses : lo' ≤ lo → placed s lo hi l addresses → placed s lo' hi l addresses.
Proof. intros Hl Hp. eapply Forall2_impl; [exact Hp|]. intros str a (H1 & H2 & H3). split; [lia|done]. Qed.

Lemma push_ok l stack s :
  building s → Forall (λ str, bytes str) l → total l ≤ stack → stack < 2 ^ 64 →
  ∃ r s', push_strings l stack s = (r, s') ∧ building s' ∧ ld_space s' = ld_space s ∧
    ∀ st addresses, r = Some (st, addresses) →
      st = stack - total l ∧ changed s s' st stack ∧ placed s' st stack l addresses.
Proof.
  intros Hs Hl. revert s Hs. induction Hl as [|str l Hb Hl IH]; intros s Hs Ht Hst.
  - exists (Some (stack, [])), s. split; [done|]. split; [done|]. split; [done|]. intros st addresses [= <- <-].
    split; [cbn; lia|]. split; [by apply changed_refl|constructor].
  - cbn [total foldr] in Ht. fold (total l) in Ht. pose proof (total_nonneg l).
    cbn [push_strings]. destruct (IH s Hs) as (r & s1 & E & Hs1 & Hsp1 & Hr); [lia|done|].
    unfold step at 1. rewrite E. destruct r as [[st ads]|]; [|exists None, s1; done].
    destruct (Hr st ads eq_refl) as (-> & Hc1 & Hp1). set (st := stack - total l) in *.
    rewrite (u64_small (st - _)) by (unfold st; lia). set (st2 := st - (Z.of_nat (length str) + 1)).
    assert (Z.of_nat (length (str ++ [0])) = Z.of_nat (length str) + 1) as Hlen by (rewrite length_app; cbn; lia).
    destruct (copy_out_ok st2 (str ++ [0]) s1 Hs1) as (r & s2 & E2 & Hn & Hok).
    { apply Forall_app_2; [done|]. constructor; [lia|constructor]. }
    { unfold st2, st. lia. } { unfold st2, st in *. lia. }
    unfold step. rewrite E2. destruct r as [[]|].
    + destruct (Hok eq_refl) as [Hc2 Hst2]. exists (Some (st2, st2 :: ads)), s2. split; [done|].
      split; [apply Hc2|]. split; [rewrite <- Hsp1; apply Hc2|]. intros st' ads' [= <- <-].
      split; [cbn; fold (total l); unfold st2, st; lia|]. split.
      * eapply changed_trans; [exact Hc1|exact Hc2|..]; unfold st2, st in *; lia.
      * constructor.
        -- split; [lia|]. split; [unfold st2, st; lia|done].
        -- apply (placed_widen s2 st); [unfold st2; lia|]. eapply placed_changed; [exact Hc2|..]; try done; unfold st2, st in *; lia.
    + destruct (Hn eq_refl) as [Hb2 E3]. exists None, s2. split; [done|]. split; [done|]. split; [congruence|done].
Qed.

Lemma length_le_words l : Z.of_nat (length (words l)) = 8 * Z.of_nat (length l).
Proof. unfold words. induction l as [|w l IH]; [done|]. cbn [map concat length]. rewrite length_app. assert (length (le64 w) = 8%nat) by apply length_le_encode. lia. Qed.
Lemma words_bytes l : bytes (words l).
Proof.
  unfold words. induction l as [|w l IH]; [constructor|]. cbn [map concat]. apply Forall_app_2; [apply le_encode_bytes|done].
Qed.
Lemma words_app l r : words (l ++ r) = words l ++ words r.
Proof. unfold words. by rewrite map_app, concat_app. Qed.
Lemma words_one w : words [w] = le64 w.
Proof. apply app_nil_r. Qed.

(** One of the consecutive writes to the stack. *)
Lemma emit_ok {B} s0 s lo old a src (k : unit → load_m D B) (P : option B → ld D → Prop) :
  building s → changed s0 s lo a → stored_in s lo old → a = lo + Z.of_nat (length old) → bytes src → 0 ≤ lo →
  a + Z.of_nat (length src) < 2 ^ 64 →
  (∀ s', building s' → ld_space s' = ld_space s0 → P None s') →
  (∀ s', building s' → changed s0 s' lo (a + Z.of_nat (length src)) → stored_in s' lo (old ++ src) →
     ∃ r s2, k tt s' = (r, s2) ∧ P r s2) →
  ∃ r s2, step (copy_out a src) k s = (r, s2) ∧ P r s2.
Proof.
  intros Hs Hc Hold -> Hb Hlo Hmax Hn Hk. unfold step.
  destruct (copy_out_ok (lo + Z.of_nat (length old)) src s Hs Hb) as (r & s' & E & Hno & Hok); [lia|done|].
  rewrite E. destruct r as [[]|].
  - destruct (Hok eq_refl) as [Hc' Hst]. apply Hk; [apply Hc'|eapply changed_trans; [exact Hc|exact Hc'|lia..]|].
    intros j Hj. rewrite length_app in Hj. rewrite aget_app by lia. case_decide.
    + eapply stored_changed; [exact Hc'|exact Hold|lia..].
    + rewrite <- (Hst (j - Z.of_nat (length old))) by lia. f_equal. lia.
  - destruct (Hno eq_refl) as [Hb' Hsp]. eexists None, s'. split; [done|]. apply Hn; [done|]. rewrite Hsp. apply Hc.
Qed.

(** What the program finds on its stack: [argc], the vectors [argv] and [envp] with
    their terminators, and the strings their entries point to. *)
Definition initial_stack (argv envp : list (list Z)) (p : loaded_program) sp m : Prop :=
  let n := Z.of_nat (length argv) in let st := lp_stack_pointer p in
  lp_argc p = n ∧ st mod 16 = 0 ∧ USER_STACK_BOTTOM ≤ st < USER_STACK_TOP ∧
  lp_argv_pointer p = st + 8 ∧ lp_envp_pointer p = st + 8 + 8 * (n + 1) ∧
  ∃ argv_addresses env_addresses,
    stored sp m st (words ([n] ++ argv_addresses ++ [0] ++ env_addresses ++ [0])) ∧
    Forall2 (λ str a, st < a ∧ a + Z.of_nat (length str) < USER_STACK_TOP ∧ stored sp m a (str ++ [0])) argv argv_addresses ∧
    Forall2 (λ str a, st < a ∧ a + Z.of_nat (length str) < USER_STACK_TOP ∧ stored sp m a (str ++ [0])) envp env_addresses.

Lemma placed_stack s st lo hi l addresses :
  st < lo → hi ≤ USER_STACK_TOP → placed s lo hi l addresses →
  Forall2 (λ str a, st < a ∧ a + Z.of_nat (length str) < USER_STACK_TOP ∧
    stored (ld_space s) (ram (ld_mem s)) a (str ++ [0])) l addresses.
Proof. intros Hs Hh Hp. eapply Forall2_impl; [exact Hp|]. intros str a (H1 & H2 & H3). split; [lia|]. split; [lia|done]. Qed.

Lemma align16 x : 0 ≤ x < 2 ^ 64 → Z.land x (u64 (Z.lnot 15)) = x - x mod 16.
Proof.
  intros Hx. replace (u64 (Z.lnot 15)) with (Z.shiftl (Z.ones 60) 4) by by vm_compute.
  assert (x - x mod 16 = Z.shiftl (Z.shiftr x 4) 4) as ->.
  { rewrite Z.shiftl_mul_pow2, Z.shiftr_div_pow2 by lia. change (2 ^ 4) with 16. Z.div_mod_to_equations. lia. }
  apply Z.bits_inj'. intros i Hi. rewrite Z.land_spec, !Z.shiftl_spec by lia.
  destruct (decide (i < 4)); [rewrite !(Z.testbit_neg_r _ (i - 4)) by lia; by rewrite andb_false_r|].
  rewrite Z.shiftr_spec by lia. replace (i - 4 + 4) with i by lia.
  destruct (decide (i < 64)); [rewrite Z.ones_spec_low by lia; apply andb_true_r|].
  rewrite Z.ones_spec_high by lia. rewrite andb_false_r. symmetry.
  destruct (decide (x = 0)) as [->|]; [apply Z.bits_0|]. apply Z.bits_above_log2; [lia|].
  assert (Z.log2 x < 64) by (apply Z.log2_lt_pow2; lia). lia.
Qed.

Lemma build_stack_ok argv envp entry s :
  building s → Forall (λ str, bytes str) argv → Forall (λ str, bytes str) envp →
  ∃ r s', build_initial_stack argv envp entry s = (r, s') ∧ building s' ∧ ld_space s' = ld_space s ∧
    ∀ p, r = Some p → lp_entry p = entry ∧ initial_stack argv envp p (ld_space s') (ram (ld_mem s')).
Proof.
  intros Hs Ha He. unfold build_initial_stack.
  destruct (count_strings _ argv 0 0) as [[argc nb]|] eqn:Ea; [|by exists None, s].
  destruct (count_strings _ envp 0 nb) as [[envc nb']|] eqn:Ee; [|by exists None, s].
  apply count_strings_ok in Ea as (-> & -> & Hm1 & Hl1); [|by vm_compute].
  apply count_strings_ok in Ee as (-> & -> & Hm2 & Hl2); [|done].
  change (Z.to_nat USER_ARG_MAX) with 16%nat in Hl1. change (Z.to_nat USER_ENV_MAX) with 8%nat in Hl2.
  unfold USER_STRINGS_MAX in Hm1, Hm2. pose proof (total_nonneg argv) as Hta. pose proof (total_nonneg envp) as Hte.
  unfold step at 1. destruct (push_ok envp USER_STACK_TOP s Hs He) as (r & s1 & E1 & Hs1 & Hsp1 & Hr1);
    [unfold USER_STACK_TOP; lia|unfold USER_STACK_TOP; lia|]. rewrite E1.
  destruct r as [[st1 eads]|]; [|by exists None, s1]. destruct (Hr1 _ _ eq_refl) as (Est1 & Hc1 & Hp1).
  unfold step at 1. destruct (push_ok argv st1 s1 Hs1 Ha) as (r & s2 & E2 & Hs2 & Hsp2 & Hr2);
    [unfold USER_STACK_TOP in *; lia|unfold USER_STACK_TOP in *; lia|]. rewrite E2.
  destruct r as [[st2 aads]|]; [|exists None, s2; split; [done|]; split; [done|]; split; [congruence|done]].
  destruct (Hr2 _ _ eq_refl) as (Est2 & Hc2 & Hp2).
  rewrite !Z.add_0_l in *. set (argc := Z.of_nat (length argv)) in *. set (envc := Z.of_nat (length envp)) in *.
  set (md := (1 + argc + 1 + envc + 1) * 8).
  assert (0 ≤ argc ≤ 16 ∧ 0 ≤ envc ≤ 8) as [Hargc Henvc] by (unfold argc, envc; lia).
  unfold USER_STACK_TOP in Est1, Hc1, Hp1. rewrite (u64_small (st2 - md)) by (unfold md; lia).
  rewrite align16 by (unfold md; lia). set (st := st2 - md - (st2 - md) mod 16).
  pose proof (Z.mod_pos_bound (st2 - md) 16 ltac:(lia)) as Hmod.
  assert (st mod 16 = 0) as Hst16 by (unfold st; Z.div_mod_to_equations; lia).
  assert (st2 - md - 15 ≤ st ≤ st2 - md ∧ 0 < st ∧ st2 ≤ 2097152) as (Hst1 & Hst2 & Hst3) by (unfold st, md in *; lia).
  rewrite (u64_small (st + 8)), (u64_small (st + 8 + (argc + 1) * 8)), (u64_small (st + 8 + argc * 8)),
    (u64_small (st + 8 + (argc + 1) * 8 + envc * 8)) by lia.
  pose proof (Forall2_length _ _ _ Hp1) as Hle. pose proof (Forall2_length _ _ _ Hp2) as Hla.
  assert (ld_space s2 = ld_space s) as Hsp by congruence.
  set (P := λ (r : option loaded_program) (s' : ld D), building s' ∧ ld_space s' = ld_space s ∧
    ∀ p, r = Some p → lp_entry p = entry ∧ initial_stack argv envp p (ld_space s') (ram (ld_mem s'))).
  assert (∀ s', building s' → ld_space s' = ld_space s2 → P None s') as HP.
  { intros s' Hb Hs'. split; [done|]. split; [congruence|done]. }
  pose proof (length_le_words aads) as Hwa. pose proof (length_le_words eads) as Hwe.
  rewrite <- (words_one argc), <- (words_one 0).
  pose proof (length_le_words [argc]) as Hw1. pose proof (length_le_words [0]) as Hw0. cbn [length] in Hw1, Hw0.
  assert (Z.of_nat (length aads) = argc) as Hna by (unfold argc; lia).
  assert (Z.of_nat (length eads) = envc) as Hne by (unfold envc; lia).
  apply (emit_ok s2 s2 st [] _ _ _ P);
    [exact Hs2|by apply changed_refl|intros k Hk; cbn in Hk; lia|cbn; lia|apply words_bytes|lia|lia|exact HP|].
  intros s3 Hb3 Hc3 Hs3. rewrite Hw1 in Hc3.
  apply (emit_ok s2 s3 st (words [argc]) _ _ _ P);
    [exact Hb3|eapply changed_widen; [exact Hc3|lia..]|exact Hs3|rewrite ?length_app; lia|apply words_bytes|lia|unfold md in *; lia|exact HP|].
  intros s4 Hb4 Hc4 Hs4. rewrite Hwa in Hc4.
  apply (emit_ok s2 s4 st (words [argc] ++ words aads) _ _ _ P);
    [exact Hb4|eapply changed_widen; [exact Hc4|lia..]|exact Hs4|rewrite ?length_app; lia|apply words_bytes|lia|unfold md in *; lia|exact HP|].
  intros s5 Hb5 Hc5 Hs5. rewrite Hw0 in Hc5.
  apply (emit_ok s2 s5 st ((words [argc] ++ words aads) ++ words [0]) _ _ _ P);
    [exact Hb5|eapply changed_widen; [exact Hc5|lia..]|exact Hs5|rewrite ?length_app; lia|apply words_bytes|lia|unfold md in *; lia|exact HP|].
  intros s6 Hb6 Hc6 Hs6. rewrite Hwe in Hc6.
  apply (emit_ok s2 s6 st (((words [argc] ++ words aads) ++ words [0]) ++ words eads) _ _ _ P);
    [exact Hb6|eapply changed_widen; [exact Hc6|lia..]|exact Hs6|rewrite ?length_app; lia|apply words_bytes|lia|unfold md in *; lia|exact HP|].
  intros s7 Hb7 Hc7 Hs7. rewrite Hw0 in Hc7.
  unfold step, require. destruct (USER_STACK_BOTTOM <=? st) eqn:Eb; [|eexists None, s7; split; [done|]; apply HP; [done|apply Hc7]]. bsimp.
  eexists (Some _), s7. split; [reflexivity|]. split; [done|]. split; [rewrite <- Hsp; apply Hc7|]. intros p [= <-].
  split; [done|]. unfold initial_stack. cbn [lp_argc lp_stack_pointer lp_argv_pointer lp_envp_pointer].
  split; [done|]. split; [done|]. split; [unfold USER_STACK_TOP; lia|]. split; [done|]. split; [unfold argc; lia|].
  exists aads, eads. split; [|split].
  - rewrite !words_app, !app_assoc. exact Hs7.
  - apply (placed_stack s7 st st2 st1); [lia|unfold USER_STACK_TOP; lia|].
    eapply placed_changed; [exact Hc7|unfold md in *; lia|lia|lia|exact Hp2].
  - apply (placed_stack s7 st st1 2097152); [lia|done|].
    eapply placed_changed; [exact Hc7|unfold md in *; lia|lia|lia|].
    eapply placed_changed; [exact Hc2|lia|lia|lia|exact Hp1].
Qed.
End builds.

(** ** prepare_program and execve *)

Section execve.
Context {D : Type} `{HD : BlockDriver D}.
Context (start : Z) (v : vm_state).

Lemma prepare_ok (F : gset Z) m0 (f0 : fs D) cwd path argv envp s :
  fs_good f0 → idle start v F m0 f0 s → 0 ≤ cwd → Forall (λ str, bytes str) argv → Forall (λ str, bytes str) envp →
  ∃ r s', prepare_program v cwd path argv envp s = (r, s') ∧
    match r with
    | None => idle start v F m0 f0 s'
    | Some p => building start v F m0 f0 s' ∧ executable (ld_space s') (lp_entry p) ∧
        initial_stack argv envp p (ld_space s') (ram (ld_mem s'))
    end.
Proof using HD.
  intros Hf Hi Hc Ha He. unfold prepare_program.
  set (R := λ (r : option loaded_program) (s' : ld D), match r with
    | None => idle start v F m0 f0 s'
    | Some p => building start v F m0 f0 s' ∧ executable (ld_space s') (lp_entry p) ∧
        initial_stack argv envp p (ld_space s') (ram (ld_mem s'))
    end).
  assert (idle start v F m0 f0 (s <| ld_space := zero_space |>)) as Hi0 by (split; apply Hi).
  apply (idle_fs start v F m0 f0 _ _ is_inode R); [by apply reads_resolve_file; [apply good_ok|]|done|done|].
  intros inode s1 Hn Hi1. destruct (load_elf_ok start v F m0 f0 Hf inode s1 Hn Hi1) as (r & s2 & E & Hr).
  unfold step. rewrite E. destruct r as [entry|]; [|by exists None, s2]. destruct Hr as [Hb Hx].
  destruct (or_destroy_ok start v F m0 f0 Hf (build_initial_stack argv envp entry)
    (λ p s', executable (ld_space s') (lp_entry p) ∧ initial_stack argv envp p (ld_space s') (ram (ld_mem s'))) s2)
    as (r & s3 & E3 & Hr3).
  - destruct (build_stack_ok start v F m0 f0 Hf argv envp entry s2 Hb Ha He) as (r & s3 & E3 & Hb3 & Hsp & Hr3).
    exists r, s3. split; [done|]. split; [done|]. intros p Hp. destruct (Hr3 p Hp) as [Ep Hst]. split; [|done].
    by rewrite Hsp, Ep.
  - exists r, s3. split; [done|]. by destruct r.
Qed.

(** What [execve] leaves of the calling task [c]: the new program [p] in the place of
    its old space. *)
Record replaced (F : gset Z) (k k' : kernel) (c : Z) (argv envp : list (list Z)) (p : loaded_program) : Prop := {
  rp_others : ∀ i, 0 ≤ i < 16 → i ≠ c → get_task k' i = get_task k i;
  rp_caller : cwd_inode (get_task k' c) = cwd_inode (get_task k c) ∧ name (get_task k' c) = name (get_task k c) ∧
    has_user_space (get_task k' c) = true;
  rp_rest : table k' = table k ∧ fds k' = fds k;
  rp_outside : same_outside (space_pages (address_space (get_task k c)) ++ elements F) (ram (memory k)) (ram (memory k'));
  rp_csrs : csrs k' = trap_epc_write (lp_entry p) (csr_store SATP (as_satp (address_space (get_task k' c))) (csrs k));
  rp_pages : ∃ F', kmem start v F' (memory k') ∧
    space_in start v F' (ram (memory k')) (address_space (get_task k' c)) ∧
    list_to_set (space_pages (address_space (get_task k' c))) ∪ F' =
    list_to_set (space_pages (address_space (get_task k c))) ∪ F;
  rp_entry : executable (address_space (get_task k' c)) (lp_entry p);
  rp_stack : initial_stack argv envp p (address_space (get_task k' c)) (ram (memory k'));
}.

Lemma exec_swap (F : gset Z) (m0 m1 : mem_state) F1 sp old argv envp p :
  space_in start v F (ram m0) old → kmem start v F1 m1 → space_in start v F1 (ram m1) sp →
  list_to_set (space_pages sp) ∪ F1 = F → initial_stack argv envp p sp (ram m1) →
  ∃ m', user_space_destroy old m1 = (zero_space, m') ∧ kmem start v (list_to_set (space_pages old) ∪ F1) m' ∧
    space_in start v (list_to_set (space_pages old) ∪ F1) (ram m') sp ∧ initial_stack argv envp p sp (ram m') ∧
    same_outside (space_pages old) (ram m1) (ram m').
Proof.
  intros [Hoko Hho] Hk1 [Hok1 Hh1] HF Hst. pose proof (so_list _ _ _ Hoko) as Hslo. pose proof (so_list _ _ _ Hok1) as Hsl1.
  assert (∀ q, q ∈ space_pages sp → q ∉ space_pages old) as Hdisj.
  { intros q Hq Hqo. pose proof (proj1 (Forall_forall _ _) (proj2 Hho) q Hqo) as (_ & Hn & _). apply Hn. rewrite <- HF. set_solver. }
  destruct (user_space_destroy_spec start v F1 m1 old Hk1) as (m' & E & Hk' & Hs); [|apply (sl_count _ Hslo)|].
  { eapply held_subset; [|exact Hho]. rewrite <- HF. set_solver. }
  assert (Forall aligned (space_pages old)) as Hal.
  { apply Forall_forall. intros q Hq. by apply (space_page old). }
  exists m'. split; [done|]. split; [done|]. split; [split|split; [|exact Hs]].
  - eapply space_ok_frame; [exact Hok1|apply (km_tables _ _ _ _ Hk1)|exact Hs|exact Hal|apply (so_kernel _ _ _ Hoko)|].
    apply Forall_forall. intros q Hq. apply Hdisj. unfold space_pages, table_pages in *. set_solver.
  - split; [apply Hh1|]. apply Forall_forall. intros q Hq.
    pose proof (proj1 (Forall_forall _ _) (proj2 Hh1) q Hq) as (Hp & Hn & Hkq). split; [done|]. split; [|done].
    pose proof (Hdisj q Hq). set_solver.
  - assert (∀ a, user_byte sp (ram m') a = user_byte sp (ram m1) a) as Hu.
    { intros a. apply (user_byte_outside sp (space_pages old)); try done. apply Forall_forall.
      intros q Hq. apply Hdisj. do 3 right. exact Hq. }
    assert (∀ a bs, stored sp (ram m1) a bs → stored sp (ram m') a bs) as Hsto.
    { intros a bs Ha j Hj. rewrite Hu. by apply Ha. }
    destruct Hst as (H1 & H2 & H3 & H4 & H5 & aads & eads & Hw & Hpa & Hpe).
    split; [done|]. split; [done|]. split; [done|]. split; [done|]. split; [done|]. exists aads, eads.
    split; [by apply Hsto|].
    split; (eapply Forall2_impl; [eassumption|]; intros str a (? & ? & ?); split; [done|split; [done|by apply Hsto]]).
Qed.

Lemma user_execve_outcome (F : gset Z) (f : fs D) tf path argv envp k c rc tf' k' f' :
  kmem start v F (memory k) → fs_good f → current k = Some c → 0 ≤ c < 16 → length (tasks k) = 16%nat →
  has_user_space (get_task k c) = true → space_in start v F (ram (memory k)) (address_space (get_task k c)) →
  0 ≤ task_current_cwd k → Forall (λ str, bytes str) argv → Forall (λ str, bytes str) envp →
  user_execve v tf path argv envp k f = (rc, tf', k', f') →
  like f f' ∧
  ((rc = -1 ∧ tf' = tf ∧ k' = k <| memory := memory k' |> ∧ kmem start v F (memory k') ∧
      same_outside (elements F) (ram (memory k)) (ram (memory k')))
   ∨ (rc = 0 ∧ ∃ p, tf' = start_registers p (replicate 32 0) ∧ replaced F k k' c argv envp p)).
Proof using HD.
  intros Hk Hf Hcur Hc Hlen Hus Hin Hcwd Ha He. unfold user_execve.
  set (old := address_space (get_task k c)) in *.
  assert (idle start v F (ram (memory k)) f (MkLd f (memory k) zero_space)) as Hi.
  { split; [apply like_refl, good_ok, Hf|done|reflexivity]. }
  destruct (prepare_ok F _ f (task_current_cwd k) path argv envp _ Hf Hi Hcwd Ha He) as (r & s & E & Hr). rewrite E.
  destruct r as [p|]; [|intros [= <- <- <- <-]; destruct Hr as [Hl Hk' Hs]; split; [done|]; by left].
  destruct Hr as ([Hl (F1 & Hk1 & Hin1 & HF) Hs] & Hx & Hst).
  set (k1 := k <| memory := ld_mem s |>).
  unfold task_replace_address_space. change (current k1) with (current k). rewrite Hcur.
  change (get_task k1 c) with (get_task k c). rewrite Hus. cbn [negb]. fold old.
  set (k2 := upd_task c _ k1). cbv zeta.
  destruct (exec_swap F (memory k) (ld_mem s) F1 (ld_space s) old argv envp p Hin Hk1 Hin1 HF Hst) as (m' & Ed & Hk' & Hin' & Hst' & Ho').
  change (memory (k2 <| csrs := csr_store SATP (as_satp (ld_space s)) (csrs k2) |>)) with (ld_mem s). rewrite Ed. intros [= <- <- <- <-].
  split; [done|]. right. split; [done|]. exists p. split; [done|].
  assert (∀ i, 0 ≤ i < 16 → get_task k2 i = if decide (i = c) then
    (get_task k c) <| address_space := ld_space s |> <| trap_ctx := (trap_ctx (get_task k c)) <| tc_satp := as_satp (ld_space s) |> |>
    else get_task k i) as Hg by (intros i Hi'; by apply (get_task_upd k1)).
  pose proof (Hg c Hc) as Hgc. rewrite decide_True in Hgc by done.
  match goal with |- replaced _ _ ?k' _ _ _ _ => set (k3 := k') end.
  assert (address_space (get_task k3 c) = ld_space s) as Hsp.
  { change (get_task k3 c) with (get_task k2 c). by rewrite Hgc. }
  split; rewrite ?Hsp.
  - intros i Hi' Hne. change (get_task k3 i) with (get_task k2 i). rewrite Hg by done. by rewrite decide_False.
  - change (get_task k3 c) with (get_task k2 c). by rewrite Hgc.
  - split; [|done]. unfold k2. change (table k3) with (table k2). apply (table_upd_same k1); [done|done|done].
  - etrans; [eapply same_outside_mono; [|exact Hs]|eapply same_outside_mono; [|exact Ho']]; intros q Hq; apply elem_of_app; auto.
  - done.
  - exists (list_to_set (space_pages old) ∪ F1). split; [done|]. split; [done|]. rewrite <- HF. set_solver.
  - done.
  - done.
Qed.

(** C24: [execve] is all or nothing.  When it fails, whatever the reason (no such
    file, not an ELF program, segments out of bounds, no memory, arguments that do not
    fit), the caller goes on in its old address space: only free pages were written
    and all of them are free again, the disk is unchanged.  When it succeeds the
    caller's task has a well-formed new space whose pages were free, its old pages are
    free, no other task changed, execution goes on at the entry point, which is in an
    executable page, with the stack pointer at an initial stack that holds the
    arguments and the environment. *)
Theorem execve_all_or_nothing (F : gset Z) (f : fs D) tf path argv envp k c rc tf' k' f' :
  kmem start v F (memory k) → fs_good f → current k = Some c → 0 ≤ c < 16 → length (tasks k) = 16%nat →
  has_user_space (get_task k c) = true → space_in start v F (ram (memory k)) (address_space (get_task k c)) →
  0 ≤ task_current_cwd k → Forall (λ str, bytes str) argv → Forall (λ str, bytes str) envp →
  user_execve v tf path argv envp k f = (rc, tf', k', f') →
  like f f' ∧
  ((rc = -1 ∧ tf' = tf ∧ k' = k <| memory := memory k' |> ∧ kmem start v F (memory k') ∧
      same_outside (elements F) (ram (memory k)) (ram (memory k')))
   ∨ (rc = 0 ∧ ∃ p, tf' = start_registers p (replicate 32 0) ∧ replaced F k k' c argv envp p)).
Proof using HD. apply user_execve_outcome. Qed.
End execve.

(** A program of one page and four bytes of code on the disk of [demo_files]. *)
Definition demo_elf : list Z :=
  [127; 69; 76; 70; 2; 1; 1] ++ replicate 9 0 ++ le_encode 2 2 ++ le_encode 2 243 ++ le32 1 ++ le64 0x10000 ++
  le64 64 ++ le64 0 ++ le32 0 ++ le_encode 2 64 ++ le_encode 2 56 ++ le_encode 2 1 ++ replicate 6 0 ++
  le32 1 ++ le32 5 ++ le64 120 ++ le64 0x10000 ++ le64 0x10000 ++ le64 4 ++ le64 4 ++ le64 4096 ++
  [115; 0; 0; 0].
Definition demo_written : fs block_device := f_fs (minifs_write 7 3 demo_elf demo_open).2.
Definition exec_fs : fs block_device :=
  (write_inode 1 ((inode_at demo_written 1) <| i_mode := Z.lor 1 MINIFS_MODE_EXEC |>) demo_written).2.
Definition kernel_with (sp : task_address_space) (m : mem_state) : kernel :=
  MkKernel (aset (replicate 16 zero_task) 1
      (zero_task <| has_user_space := true |> <| address_space := sp |> <| cwd_inode := 0 |>))
    (Some 1) 2 2 0 SCHED_RR 10 0 0 ∅ fd_init m (MkContext 0 0 (replicate 12 0)).
Definition exec_kernel : kernel := kernel_with demo_sp demo_s.
Definition demo_exec := user_execve demo_vm (replicate 32 0) (chars "/a") [chars "a"; chars "hi"] [] exec_kernel exec_fs.

Lemma inode_wf_mode i b : inode_wf i → is_u32 b → inode_wf (i <| i_mode := b |>).
Proof. rewrite !inode_wf_fields. cbn. tauto. Qed.

Lemma byte_list l : forallb (λ b, (0 <=? b) && (b <? 256)) l = true → bytes l.
Proof. intros H. rewrite forallb_forall in H. apply Forall_forall. intros b Hb%list_elem_of_In%H. cbn beta in Hb. bsimp. lia. Qed.

Lemma demo_elf_bytes : bytes demo_elf.
Proof. apply byte_list. vm_compute. reflexivity. Qed.

Lemma written_good {D} `{BlockDriver D} pid fd buffer (f : files D) :
  files_good f → bytes buffer → files_good (minifs_write pid fd buffer f).2.
Proof.
  intros Hg Hb. pose proof (write_good pid fd buffer f Hg Hb) as Hw. destruct (minifs_write pid fd buffer f). exact (proj1 Hw).
Qed.

Lemma remode_good {D} `{BlockDriver D} (s : fs D) n b :
  fs_good s → is_inode n → is_u32 b → i_size (inode_at s n) ≤ MINIFS_MAX_FILE_SIZE →
  fs_good (write_inode n ((inode_at s n) <| i_mode := b |>) s).2.
Proof.
  intros Hg Hn Hb Hz.
  destruct (good_commit (inode_at s) n s (inode_at s n) ((inode_at s n) <| i_mode := b |>)
    (fupd_self _ n _ (good_inv _ Hg)) (good_size _ Hg) Hn) as (s' & E & Hg'); try done.
  - apply inode_wf_mode; [|done]. by apply inode_at_wf; [apply good_ok|].
  - by rewrite E.
Qed.

Lemma exec_fs_good : fs_good exec_fs.
Proof.
  unfold exec_fs. apply remode_good.
  - exact (fg_fs _ (written_good 7 3 demo_elf demo_open demo_open_good demo_elf_bytes)).
  - unfold is_inode. lia.
  - vm_compute. split; [discriminate|reflexivity].
  - vm_compute. discriminate.
Qed.

Lemma kernel_with_ok sp m :
  current (kernel_with sp m) = Some 1 ∧ length (tasks (kernel_with sp m)) = 16%nat ∧
  has_user_space (get_task (kernel_with sp m) 1) = true ∧ address_space (get_task (kernel_with sp m) 1) = sp ∧
  memory (kernel_with sp m) = m ∧ task_current_cwd (kernel_with sp m) = 0.
Proof. repeat split. Qed.

Lemma execve_all_or_nothing_witness :
  demo_exec.1.1.1 = 0 ∧ ∃ F p, lp_argc p = 2 ∧
    replaced 0x80300000 demo_vm F exec_kernel demo_exec.1.2 1 [chars "a"; chars "hi"] [] p.
Proof.
  assert (demo_exec.1.1.1 = 0) as Hrc by (vm_compute; reflexivity). split; [exact Hrc|].
  destruct demo_kmem as (F & Hk & Hin). exists F. revert Hrc.
  destruct (kernel_with_ok demo_sp demo_s) as (K1 & K2 & K3 & K4 & K5 & K6). fold exec_kernel in *.
  destruct demo_exec as [[[rc tf'] k'] f'] eqn:E. cbn [fst snd]. intros Hrc.
  destruct (execve_all_or_nothing 0x80300000 demo_vm F exec_fs (replicate 32 0) (chars "/a")
    [chars "a"; chars "hi"] [] exec_kernel 1 rc tf' k' f') as [_ [(Hm & _)|(_ & p & Htf & Hr)]].
  - rewrite K5. exact Hk.
  - exact exec_fs_good.
  - exact K1.
  - lia.
  - exact K2.
  - exact K3.
  - rewrite K4, K5. exact Hin.
  - rewrite K6. reflexivity.
  - exact (Forall_cons_2 _ _ _ (byte_list (chars "a") eq_refl) (Forall_cons_2 _ _ _ (byte_list (chars "hi") eq_refl) (Forall_nil_2 _))).
  - constructor.
  - refine (eq_trans _ E). unfold demo_exec. reflexivity.
  - exfalso. rewrite Hm in Hrc. discriminate Hrc.
  - exists p. split; [exact (proj1 (rp_stack _ _ _ _ _ _ _ _ _ Hr))|exact Hr].
Defined.
