(* ===== verification/Isolation.v ===== *)
(** * The address spaces of all processes

    [spaces_ok] is the invariant of the memory of the whole machine: the allocator, the
    kernel's page tables, and the space of every process, whose pages no other space
    and no free page shares.  [spaces_change] is the one lemma every operation goes
    through: it changes one space and may write its pages and free ones. *)

From S2P Require Import Prelude Csr Mem Vm FdTable AddrSpace UserMem Task Process.

Definition own_space (k : kernel) (i : Z) : option task_address_space :=
  if has_user_space (get_task k i) then Some (address_space (get_task k i)) else None.
Definition pages_of (o : option task_address_space) : list Z :=
  match o with Some sp => space_pages sp | None => [] end.

(** Pages that are exchanged for others. *)
Lemma exchanged (l l' : list Z) (X F : gset Z) q :
  list_to_set l ∪ X = list_to_set l' ∪ F → q ∈ l ∨ q ∈ X → q ∈ F ∨ q ∈ l'.
Proof.
  intros E Hq. assert (q ∈ list_to_set l' ∪ F) as H.
  { rewrite <- E, elem_of_union, elem_of_list_to_set. exact Hq. }
  rewrite elem_of_union, elem_of_list_to_set in H. tauto.
Qed.

Section isolation.
Context (start : Z) (v : vm_state).
Implicit Types (F : gset Z) (m : mem_state) (sps : Z → option task_address_space).

Record spaces_ok F m sps : Prop := {
  spc_kmem : kmem start v F m;
  spc_each : ∀ i sp, in_table i → sps i = Some sp → space_in start v F (ram m) sp;
  spc_apart : ∀ i j p, in_table i → in_table j → i ≠ j → p ∈ pages_of (sps i) → p ∉ pages_of (sps j);
}.

Lemma spaces_held F m sps i p : spaces_ok F m sps → in_table i → p ∈ pages_of (sps i) →
  aligned p ∧ p ∉ F ∧ p ∉ kernel_pages v.
Proof.
  intros [Hk He _] Hi Hp. destruct (sps i) as [sp|] eqn:E; [|by apply not_elem_of_nil in Hp].
  destruct (He i sp Hi E) as [Hok [_ Hh]].
  pose proof (proj1 (Forall_forall _ _) Hh p Hp) as (_ & Hn & Hnk).
  split; [|done]. by apply (space_page sp p (so_list _ _ _ Hok)).
Qed.

Lemma spaces_ext F m sps sps' :
  (∀ i, in_table i → sps' i = sps i) → spaces_ok F m sps → spaces_ok F m sps'.
Proof.
  intros E [Hk He Ha]. split; [done| |].
  - intros i sp Hi. rewrite E by done. by apply He.
  - intros i j p Hi Hj. rewrite !E by done. by apply Ha.
Qed.

(** Slot [c], which may lie outside the table, goes from the space [sps c] to
    [sps' c]; [ps] are the pages written. *)
Lemma spaces_change F F' m m' sps sps' c ps :
  spaces_ok F m sps → kmem start v F' m' →
  (c ∈ seqZ 0 16 ∨ sps c = None) →
  (∀ i, in_table i → i ≠ c → sps' i = sps i) →
  (∀ sp, in_table c → sps' c = Some sp → space_in start v F' (ram m') sp ∧
     ∀ p, p ∈ space_pages sp → p ∈ F ∨ p ∈ pages_of (sps c)) →
  (∀ p, p ∈ F' → p ∈ F ∨ p ∈ pages_of (sps c)) →
  same_outside ps (ram m) (ram m') → (∀ p, p ∈ ps → p ∈ F ∨ p ∈ pages_of (sps c)) →
  spaces_ok F' m' sps'.
Proof.
  intros Hs Hk' Hc Eo Hn HF Hps Hin.
  assert (∀ p, p ∈ pages_of (sps c) → aligned p ∧ p ∉ kernel_pages v ∧
    ∀ i, in_table i → i ≠ c → p ∉ pages_of (sps i)) as Hold.
  { intros p Hp. destruct Hc as [Hc%elem_of_seqZ|E]; [|rewrite E in Hp; by apply not_elem_of_nil in Hp].
    assert (in_table c) as Hct by (unfold in_table; lia).
    destruct (spaces_held F m sps c p Hs Hct Hp) as (? & _ & ?). split; [done|]. split; [done|].
    intros i Hi Hne. by apply (spc_apart _ _ _ Hs c i p); [..|done|]. }
  assert (∀ p, p ∈ F → aligned p ∧ p ∉ kernel_pages v) as HFp.
  { intros p Hp. destruct (km_free_page start v F m p (spc_kmem _ _ _ Hs) Hp) as (_ & [? _] & ?). done. }
  assert (Forall aligned ps) as Hal.
  { apply Forall_forall. intros p Hp. destruct (Hin p Hp) as [Hp'|Hp']; [by apply HFp|by apply Hold]. }
  assert (∀ i p, in_table i → i ≠ c → p ∈ pages_of (sps i) → p ∉ ps ∧ p ∉ F') as Hfar.
  { intros i p Hi Hne Hp. destruct (spaces_held F m sps i p Hs Hi Hp) as (_ & HpF & _).
    split; [intros Hx; destruct (Hin p Hx) as [?|Hx']|intros Hx; destruct (HF p Hx) as [?|Hx']]; try done;
      destruct (Hold p Hx') as (_ & _ & Hf); by apply (Hf i Hi Hne). }
  split; [done| |].
  - intros i sp Hi E. destruct (decide (i = c)) as [->|Hne]; [by apply (Hn sp Hi E)|].
    rewrite Eo in E by done. destruct (spc_each _ _ _ Hs i sp Hi E) as [Hok [Hnd Hh]].
    assert (∀ p, p ∈ space_pages sp → p ∉ ps ∧ p ∉ F') as Hfs.
    { intros p Hp. apply (Hfar i p Hi Hne). by rewrite E. }
    split.
    + eapply space_ok_frame; [exact Hok|apply (km_tables _ _ _ _ (spc_kmem _ _ _ Hs))|exact Hps|exact Hal|..].
      * apply Forall_forall. intros p Hp Hx.
        destruct (Hin p Hx) as [Hx'|Hx']; [by apply HFp in Hx' as [_ ?]|by apply Hold in Hx' as (_ & ? & _)].
      * apply Forall_forall. intros p Hp. apply Hfs. unfold space_pages. unfold table_pages in Hp.
        rewrite !elem_of_cons in Hp |- *. rewrite elem_of_nil in Hp. tauto.
    + split; [done|]. apply Forall_forall. intros p Hp.
      pose proof (proj1 (Forall_forall _ _) Hh p Hp) as (? & _ & ?). split; [done|]. split; [by apply Hfs|done].
  - assert (∀ j p, in_table c → in_table j → j ≠ c → p ∈ pages_of (sps' c) → p ∉ pages_of (sps' j)) as Hca.
    { intros j p Hci Hj Hne Hp. rewrite (Eo j) by done. destruct (sps' c) as [sp|] eqn:E; [|by apply not_elem_of_nil in Hp].
      destruct (Hn sp Hci eq_refl) as [_ Hsub]. destruct (Hsub p Hp) as [HpF|Ho].
      - intros Hx. by destruct (spaces_held F m sps j p Hs Hj Hx) as (_ & ? & _).
      - by apply (Hold p Ho). }
    intros i j p Hi Hj Hij Hp.
    destruct (decide (i = c)) as [->|Hic]; [by apply Hca|]. destruct (decide (j = c)) as [->|Hjc].
    + intros Hx. by apply (Hca i p Hj Hi Hic Hx).
    + rewrite Eo in Hp |- * by done. by apply (spc_apart _ _ _ Hs i j p).
Qed.

(** A process writes its own pages. *)
Lemma spaces_write F m sps c sp (m' : ram_t) :
  spaces_ok F m sps → in_table c → sps c = Some sp → same_outside (mapped_pages sp) (ram m) m' → ram_ok m' →
  spaces_ok F (m <| ram := m' |>) sps.
Proof.
  intros Hs Hc E Ho Hm.
  assert (∀ p, p ∈ mapped_pages sp → p ∈ pages_of (sps c)) as Hsub by (intros p Hp; rewrite E; do 3 right; exact Hp).
  assert (kmem start v F (m <| ram := m' |>)) as Hk.
  { eapply km_write; [apply Hs|exact Ho|done|]. apply Forall_forall. intros p Hp%Hsub.
    by apply (spaces_held F m sps c p Hs Hc). }
  eapply (spaces_change F F m _ sps sps c (mapped_pages sp)); try done; auto.
  - left. apply elem_of_seqZ. unfold in_table in Hc. lia.
  - intros sp' _ E'. rewrite E in E'. injection E' as <-. split; [|rewrite E; by right].
    destruct (spc_each _ _ _ Hs c sp Hc E) as [Hok Hh]. split; [|done].
    eapply space_ok_frame; [exact Hok|apply (km_tables _ _ _ _ (spc_kmem _ _ _ Hs))|exact Ho|..].
    + apply Forall_forall. intros p Hp%Hsub. by apply (spaces_held F m sps c p Hs Hc).
    + apply Forall_forall. intros p Hp Hx%Hsub. by destruct (spaces_held F m sps c p Hs Hc Hx) as (_ & _ & ?).
    + apply Forall_forall. intros p Hp Hin. unfold mapped_pages in Hin.
      apply list_elem_of_fmap in Hin as (i & -> & Hi%elem_of_seqZ).
      apply (mapped_not_table sp i (so_list _ _ _ Hok)); [lia|done].
Qed.
End isolation.

(** ** What scheduling leaves alone

    [look] is the part of the kernel that only fork, execve, chdir, exit and wait
    change: some fields of the tasks, the memory and the descriptors. *)

Definition view (t : task) := (cwd_inode t, name t, has_user_space t, address_space t).
Definition look (k : kernel) := (view <$> tasks k, memory k, fds k).

Lemma look_get k k' i : look k' = look k → view (get_task k' i) = view (get_task k i).
Proof.
  intros E. assert (∀ k0, view (get_task k0 i) = aget (view zero_task) (look k0).1.1 i) as Hv.
  { intros k0. unfold get_task, look, aget. cbn [fst]. rewrite list_lookup_fmap. by destruct (tasks k0 !! _). }
  by rewrite !Hv, E.
Qed.

Lemma look_space k k' i : look k' = look k → own_space k' i = own_space k i.
Proof.
  intros E. pose proof (look_get k k' i E) as Hv. unfold view in Hv. injection Hv as _ _ E1 E2.
  unfold own_space. by rewrite E1, E2.
Qed.

Lemma look_upd k i f : (∀ t, view (f t) = view t) → look (upd_task i f k) = look k.
Proof.
  intros Hf. unfold look, upd_task. cbn [tasks set_field]. f_equal. f_equal. rewrite fmap_aset, Hf. unfold aset, get_task, aget.
  apply list_insert_id'. rewrite list_lookup_fmap. rewrite length_fmap. intros Hi.
  by destruct (lookup_lt_is_Some_2 (tasks k) (Z.to_nat i) Hi) as [t ->].
Qed.

Lemma look_fold n lo (f : Z → kernel → kernel) k :
  (∀ i k, look (f i k) = look k) → look (fold_for n lo f k) = look k.
Proof.
  intros Hf. revert lo k. induction n as [|n IH]; intros lo k; [done|]. cbn [fold_for]. by rewrite IH, Hf.
Qed.

Lemma look_make_ready i k : look (make_ready i k) = look k.
Proof. unfold make_ready. by rewrite look_upd. Qed.
Lemma look_wake i k : look (wake i k) = look k.
Proof. unfold wake. by rewrite look_make_ready, look_upd. Qed.
Lemma look_wake_parent i k : look (wake_parent i k) = look k.
Proof. unfold wake_parent. destruct (find_pid _ k); [|done]. destruct (_ && _); [apply look_wake|done]. Qed.
Lemma look_reparent i k : look (reparent i k) = look k.
Proof. apply look_fold. intros j k'. destruct (_ && _); [by apply look_upd|done]. Qed.

(** A process that dies closes its descriptors. *)
Definition closed (t t' : fd_state) : Prop := t' = t ∨ ∃ p, t' = minifs_close_all p t.

Lemma look_fds k k' f : look k' = look k → look (k' <| fds := f |>) = look (k <| fds := f |>).
Proof. unfold look. cbn. congruence. Qed.

Lemma look_exit code k : ∃ f, closed (fds k) f ∧ look (task_exit code k) = look (k <| fds := f |>).
Proof.
  unfold task_exit. destruct (current k) as [c|]; [|exists (fds k); split; [by left|done]].
  destruct (_ =? 0); [exists (fds k); split; [by left|done]|]. eexists. split; [right; by eexists|].
  rewrite look_reparent, look_wake_parent. apply look_fds. by apply look_upd.
Qed.
Lemma look_kill p code k : ∃ f, closed (fds k) f ∧ look (task_kill p code k).2 = look (k <| fds := f |>).
Proof.
  assert (∃ f, closed (fds k) f ∧ look k = look (k <| fds := f |>)) as Hk by (exists (fds k); split; [by left|done]).
  unfold task_kill. destruct (find_pid p k) as [i|]; [|done]. destruct (_ || _); [done|]. cbn [snd].
  eexists. split; [right; by eexists|].
  rewrite look_reparent, look_wake_parent. apply look_fds. by apply look_upd.
Qed.

Lemma look_switch tf force k : look (switch_from_trap tf force k).2 = look k.
Proof.
  unfold switch_from_trap. destruct (current k) as [c|]; [|done]. destruct (_ <=? 1); [done|].
  set (k1 := upd_task c _ k). assert (look k1 = look k) as E1 by by apply look_upd.
  assert (∃ stay k2, (if force then (false, k1) else tick_current c k1) = (stay, k2) ∧ look k2 = look k) as (stay & k2 & -> & E2).
  { destruct force; [by exists false, k1|]. eexists _, _. split; [by apply surjective_pairing|]. unfold tick_current.
    repeat (case_match; cbn [snd]); by rewrite ?look_upd, ?E1 by done. }
  destruct stay; [done|]. unfold switch_task.
  set (k3 := if is_state TASK_RUNNING (get_task k2 c) then _ else _).
  assert (look k3 = look k) as E3 by (unfold k3; destruct (is_state _ _); [by rewrite look_make_ready|done]).
  destruct (select_next k3) as [n|]; cbn [snd].
  - set (k4 := upd_task n _ k3). change (look k4 = look k). unfold k4. by rewrite look_upd.
  - destruct (is_state TASK_READY (get_task k3 c)); [|done]. etrans; [apply look_upd; by intros|done].
Qed.

Lemma look_account a b s k : look (account_switch a b s k) = look k.
Proof. by destruct s. Qed.

Lemma look_tick a b tf k : look (sched_tick a b tf k).2 = look k.
Proof.
  unfold sched_tick. pose proof (look_switch tf false k) as E. destruct (switch_from_trap tf false k) as [[s tf'] k'].
  cbn [snd] in *. by rewrite look_account.
Qed.
Lemma look_reschedule a b tf k : look (task_reschedule a b tf k).2 = look k.
Proof.
  unfold task_reschedule. pose proof (look_switch tf true k) as E. destruct (switch_from_trap tf true k) as [[s tf'] k'].
  cbn [snd] in *. by rewrite look_account.
Qed.
