(* ===== verification/Syscall.v ===== *)
(** * System calls (os/kernel/syscall.c)

    [system] is the state the kernel's trap path works on.  A handler is a state
    transformer that may also [stop]: the machine is switched off, kernel code reaches
    outside DRAM through a pointer of a task without an address space, or the rounds a
    loop was given are used up, which never happens (SyscallSpec.v).  The static
    buffers are values of the handlers, but for what one call leaves in them for the
    next: the name field of the first entry of [dirent_buffer] and the name fields of
    [process_buffer]. *)

From S2P Require Import Prelude Csr Mem Vm Device Console FdTable Block MiniFs.
From S2P Require Import AddrSpace Task Exec.

Definition IO_CHUNK : Z := 512.
Definition DIRENT_LIMIT : Z := 128.

(** ** The state and the handlers *)

Record system (D : Type) := MkSystem {
  sy_kernel : kernel;
  sy_fs : fs D;
  sy_out : list Z;
  sy_keys : Z;
  sy_timer : timer_state;
  sy_silent : bool;
  sy_dirent : list Z;
  sy_names : list (list Z);
}.
Arguments MkSystem {D}.
Arguments sy_kernel {D}.
Arguments sy_fs {D}.
Arguments sy_out {D}.
Arguments sy_keys {D}.
Arguments sy_timer {D}.
Arguments sy_silent {D}.
Arguments sy_dirent {D}.
Arguments sy_names {D}.
#[global] Instance system_eta {D} : Settable (system D) := λ s,
  MkSystem (sy_kernel s) (sy_fs s) (sy_out s) (sy_keys s) (sy_timer s) (sy_silent s) (sy_dirent s) (sy_names s).

Inductive stop := PowerOff | Stray | OutOfRounds.

Definition sys_m (D A : Type) : Type := system D → stop + A * system D.

Definition SYS_DUP2 : Z := 24.
Definition SYS_MKDIR : Z := 34.
Definition SYS_UNLINK : Z := 35.
Definition SYS_OPEN : Z := 56.
Definition SYS_CLOSE : Z := 57.
Definition SYS_GETDENTS : Z := 61.
Definition SYS_LSEEK : Z := 62.
Definition SYS_READ : Z := 63.
Definition SYS_WRITE : Z := 64.
Definition SYS_EXIT : Z := 93.
Definition SYS_WAIT : Z := 95.
Definition SYS_YIELD : Z := 124.
Definition SYS_FORK : Z := 220.
Definition SYS_EXECVE : Z := 221.
Definition SYS_WAITPID : Z := 260.
Definition SYS_PS : Z := 400.
Definition SYS_CHDIR : Z := 402.
Definition SYS_GETCWD : Z := 403.
Definition SYS_KILL : Z := 405.
Definition SYS_SET_CLOEXEC : Z := 406.

Definition FAIL : Z := 2 ^ 64 - 1.

Section handlers.
Context {D : Type} `{BlockOps D}.
Implicit Types (s : system D).

Definition ret {A} (a : A) : sys_m D A := λ s, inr (a, s).
Definition bind {A B} (m : sys_m D A) (f : A → sys_m D B) : sys_m D B := λ s,
  match m s with inl e => inl e | inr (a, s) => f a s end.
Notation "'let&' x ':=' m 'in' k" := (bind m (λ x, k)) (at level 10, x pattern, m at level 100, k at level 200).
Definition halt {A} (e : stop) : sys_m D A := λ _, inl e.
Definition ask {A} (f : system D → A) : sys_m D A := λ s, inr (f s, s).

(** The kernel, its memory, and the file layer, as parts of the system. *)
Definition on_kernel {A} (m : kernel → A * kernel) : sys_m D A := λ s,
  let '(a, k) := m (sy_kernel s) in inr (a, s <| sy_kernel := k |>).
Definition files_of s : files D := MkFiles (sy_fs s) (fds (sy_kernel s)) (sy_out s) (sy_keys s).
Definition put_files (f : files D) s : system D :=
  s <| sy_kernel := (sy_kernel s) <| fds := f_fds f |> |>
    <| sy_fs := f_fs f |> <| sy_out := f_out f |> <| sy_keys := f_keys f |>.
Definition on_files {A} (m : files D → A * files D) : sys_m D A := λ s,
  let '(a, f) := m (files_of s) in inr (a, put_files f s).
Definition put_memory (m : ram_t) s : system D :=
  s <| sy_kernel := (sy_kernel s) <| memory := (memory (sy_kernel s)) <| ram := m |> |> |>.
Definition ram_of s : ram_t := ram (memory (sy_kernel s)).
Definition current_pid : sys_m D Z := ask (λ s, task_current_pid (sy_kernel s)).
Definition current_cwd : sys_m D Z := ask (λ s, task_current_cwd (sy_kernel s)).

(** ** Copies

    A task without an address space runs in the kernel and its pointers are used as
    they are. *)

Definition in_dram (a n : Z) : bool := (DRAM_BASE <=? a) && (a + n <=? DRAM_BASE + DRAM_SIZE).

Definition copy_in (source length : Z) : sys_m D (option (list Z)) := λ s,
  match task_current_address_space (sy_kernel s) with
  | Some sp =>
      let '(rc, bs) := copy_from_user (Some sp) source length (ram_of s) in
      inr (if rc <? 0 then None else Some bs, s)
  | None =>
      if (length =? 0) || in_dram source length
      then inr (Some (load_bytes (ram_of s) source (Z.to_nat length)), s) else inl Stray
  end.

Definition copy_out (destination : Z) (source : list Z) : sys_m D bool := λ s,
  match task_current_address_space (sy_kernel s) with
  | Some sp =>
      let '(rc, m) := copy_to_user (Some sp) destination source (ram_of s) in
      inr (negb (rc <? 0), put_memory m s)
  | None =>
      let length := Z.of_nat (List.length source) in
      if (length =? 0) || in_dram destination length
      then inr (true, put_memory (store_bytes (ram_of s) destination source) s) else inl Stray
  end.

(** The characters before the terminator; [None] when it is not found. *)
Fixpoint direct_string (n : nat) (source : Z) (m : ram_t) : stop + option (list Z) :=
  match n with
  | O => inr None
  | S n =>
      if negb (in_dram source 1) then inl Stray
      else if load8 m source =? 0 then inr (Some [])
      else match direct_string n (source + 1) m with
           | inl e => inl e
           | inr r => inr (cons (load8 m source) <$> r)
           end
  end.

Definition copy_string_in (source capacity : Z) : sys_m D (option (list Z)) := λ s,
  match task_current_address_space (sy_kernel s) with
  | Some sp =>
      let '(rc, bs) := copy_string_from_user (Some sp) source capacity (ram_of s) in
      inr (if rc <? 0 then None else Some (take (Z.to_nat rc) bs), s)
  | None =>
      match direct_string (Z.to_nat capacity) source (ram_of s) with
      | inl e => inl e
      | inr r => inr (r, s)
      end
  end.

Definition copy_path (user_path : Z) : sys_m D (option (list Z)) :=
  if user_path =? 0 then ret None else copy_string_in user_path MINIFS_PATH_MAX.

(** ** Reading and writing *)

(** What the loops return when they stop early. *)
Definition partial (done : Z) : Z := if done =? 0 then FAIL else done.

Fixpoint write_loop (rounds : nat) (fd user_buffer length done : Z) : sys_m D Z :=
  match rounds with
  | O => halt OutOfRounds
  | S rounds =>
      if negb (done <? length) then ret done
      else
        let chunk := Z.min (length - done) IO_CHUNK in
        let& data := copy_in (u64 (user_buffer + done)) chunk in
        match data with
        | None => ret (partial done)
        | Some data =>
            let& p := current_pid in
            let& written := on_files (minifs_write p (i32 fd) data) in
            if written <? 0 then ret (partial done)
            else if written <? chunk then ret (u64 (done + written))
            else write_loop rounds fd user_buffer length (u64 (done + written))
        end
  end.

(** The rounds that a transfer of [length] bytes in chunks can take. *)
Definition rounds_for (length : Z) : nat := Z.to_nat (length / IO_CHUNK + 2).

Definition sys_write (fd user_buffer length : Z) : sys_m D Z :=
  if length =? 0 then ret 0
  else if user_buffer =? 0 then ret FAIL
  else write_loop (rounds_for length) fd user_buffer length 0.

(** The characters [uart_getc] returns, in their order. *)
Context (key : Z → Z).

Fixpoint read_loop (rounds : nat) (fd user_buffer length done : Z) : sys_m D Z :=
  match rounds with
  | O => halt OutOfRounds
  | S rounds =>
      if negb (done <? length) then ret done
      else
        let chunk := Z.min (length - done) IO_CHUNK in
        let& p := current_pid in
        let& received := on_files (minifs_read key p (i32 fd) chunk) in
        match received with
        | None => ret (partial done)
        | Some [] => ret done
        | Some data =>
            let count := Z.of_nat (List.length data) in
            let& stored := copy_out (u64 (user_buffer + done)) data in
            if negb stored then ret (partial done)
            else if count <? chunk then ret (u64 (done + count))
            else read_loop rounds fd user_buffer length (u64 (done + count))
        end
  end.

Definition sys_read (fd user_buffer length : Z) : sys_m D Z :=
  if length =? 0 then ret 0
  else if user_buffer =? 0 then ret FAIL
  else read_loop (rounds_for length) fd user_buffer length 0.

(** ** Processes *)

(** The idle task does not exit: the machine is switched off. *)
Definition sys_exit (code : Z) : sys_m D unit :=
  let& _ := on_kernel (λ k, (tt, task_exit (i32 code) k)) in
  let& state := ask (λ s, task_current_state (sy_kernel s)) in
  if bool_decide (state = TASK_ZOMBIE) then ret tt else halt PowerOff.

Definition sys_waitpid (pid user_status options : Z) : sys_m D Z :=
  let& (result, status) :=
    on_kernel (λ k, let '(r, st, k) := task_waitpid (i32 pid) (negb (Z.land options 1 =? 0)) k in ((r, st), k)) in
  if (0 <? result) && negb (user_status =? 0) then
    let& stored := copy_out user_status (le32 (default 0 status)) in
    ret (if stored then u64 result else FAIL)
  else ret (u64 result).

(** The addresses of the stacks of the tasks and the page tables of the kernel. *)
Context (task_stacks : Z) (v : vm_state).

(** The structure of the child is not initialised before it is cloned into. *)
Definition sys_fork (tf : list Z) : sys_m D Z := λ s,
  let k := sy_kernel s in
  match task_current_address_space k with
  | None => inr (FAIL, s)
  | Some parent =>
      let '(rc, child, m) := user_space_clone v zero_space parent (memory k) in
      let k := k <| memory := m |> in
      if rc <? 0 then inr (FAIL, s <| sy_kernel := k |>)
      else
        let '(pid, k) := task_fork_from_trap task_stacks tf (u64 (trap_epc_read (csrs k) + 4)) child k in
        if pid <? 0 then
          let '(_, m) := user_space_destroy child (memory k) in
          inr (FAIL, s <| sy_kernel := k <| memory := m |> |>)
        else inr (u64 pid, s <| sy_kernel := k |>)
  end.

(** The strings of a vector and the total of their lengths; [None] for -1. *)
Fixpoint vector_loop (n : nat) (i : Z) (user_vector total : Z) : sys_m D (option (list (list Z) * Z)) :=
  match n with
  | O =>
      let& terminator := copy_in (u64 (user_vector + i * 8)) 8 in
      ret (match terminator with
           | None => None
           | Some t => if le_decode t =? 0 then Some ([], total) else None
           end)
  | S n =>
      let& pointer := copy_in (u64 (user_vector + i * 8)) 8 in
      match pointer with
      | None => ret None
      | Some p =>
          if le_decode p =? 0 then ret (Some ([], total))
          else
            let& string := copy_string_in (le_decode p) 128 in
            match string with
            | None => ret None
            | Some str =>
                if USER_STRINGS_MAX <? total + str_len str + 1 then ret None
                else
                  let& rest := vector_loop n (i + 1) user_vector (total + str_len str + 1) in
                  ret (match rest with None => None | Some (l, t) => Some (str :: l, t) end)
            end
      end
  end.

Definition copy_string_vector (user_vector maximum total : Z) : sys_m D (option (list (list Z) * Z)) :=
  if user_vector =? 0 then ret (Some ([], total))
  else vector_loop (Z.to_nat maximum) 0 user_vector total.

(** The trap frame of the new program, or [None] for -1. *)
Definition sys_execve (tf : list Z) (user_path user_argv user_envp : Z) : sys_m D (option (list Z)) :=
  let& path := copy_path user_path in
  match path with
  | None => ret None
  | Some path =>
      let& argv := copy_string_vector user_argv USER_ARG_MAX 0 in
      match argv with
      | None => ret None
      | Some (argv, total) =>
          let& envp := copy_string_vector user_envp USER_ENV_MAX total in
          match envp with
          | None => ret None
          | Some (envp, _) =>
              let argv := match argv with [] => [path] | _ => argv end in
              λ s,
                let '(rc, tf, k, f) := user_execve v tf path argv envp (sy_kernel s) (sy_fs s) in
                if rc <? 0 then inr (None, s <| sy_kernel := k |> <| sy_fs := f |>)
                else
                  let k := k <| fds := minifs_close_exec_fds (task_current_pid k) (fds k) |> in
                  let k := task_set_current_name (Some (path ++ [0])) k in
                  inr (Some tf, s <| sy_kernel := k |> <| sy_fs := f |>)
          end
      end
  end.

(** ** Files and directories *)

(** A call that takes a path and answers with a number. *)
Definition with_path (user_path : Z) (f : list Z → sys_m D Z) : sys_m D Z :=
  let& path := copy_path user_path in
  match path with None => ret FAIL | Some path => f path end.

(** The C result of an operation that returns 0 or -1. *)
Definition status_of {A} (r : option A) : Z := match r with None => FAIL | Some _ => 0 end.

Definition sys_open (user_path flags : Z) : sys_m D Z :=
  with_path user_path (λ path,
    let& p := current_pid in
    let& cwd := current_cwd in
    let& fd := on_files (minifs_open p cwd path (i32 flags)) in
    ret (u64 fd)).

(** The entries with the name field of the first one: of a file only the name and its
    terminator are written. *)
Definition place_entries (stale : list Z) (entries : list minifs_dirent) : list minifs_dirent :=
  match entries with
  | [] => []
  | e :: rest => MkDirent (d_inode e) (d_mode e) (d_name e ++ drop (List.length (d_name e)) stale) :: rest
  end.

(** What [dirent_buffer] holds in its first name afterwards.  A listing that fails
    leaves the entries before the failure in the buffer. *)
Definition first_name (stale : list Z) (first : option (list minifs_dirent)) : list Z :=
  match first with
  | Some entries => match place_entries stale entries with e :: _ => d_name e | [] => stale end
  | None => stale
  end.

Definition list_directory (path : option (list Z)) (capacity : Z) : sys_m D (option (list minifs_dirent)) := λ s,
  let cwd := task_current_cwd (sy_kernel s) in
  let first := (on_fs (minifs_getdents cwd path (Z.min capacity 1)) (files_of s)).1 in
  let '(entries, f) := on_fs (minifs_getdents cwd path capacity) (files_of s) in
  inr (place_entries (sy_dirent s) <$> entries,
       put_files f s <| sy_dirent := first_name (sy_dirent s) first |>).

Definition sys_getdents (user_path user_entries capacity : Z) : sys_m D Z :=
  let& path := (if user_path =? 0 then ret (Some None)
                else let& p := copy_path user_path in ret (Some <$> p)) in
  match path with
  | None => ret FAIL
  | Some path =>
      let& entries := list_directory path (Z.min capacity DIRENT_LIMIT) in
      match entries with
      | None => ret FAIL
      | Some [] => ret 0
      | Some entries =>
          let& stored := copy_out user_entries (concat (map encode_dirent entries)) in
          ret (if stored then Z.of_nat (List.length entries) else FAIL)
      end
  end.

Definition sys_chdir (user_path : Z) : sys_m D Z :=
  with_path user_path (λ path,
    let& cwd := current_cwd in
    let& number := on_files (on_fs (minifs_chdir cwd path)) in
    match number with
    | None => ret FAIL
    | Some number =>
        let& _ := on_kernel (λ k, (tt, task_set_current_cwd number k)) in ret 0
    end).

Definition sys_getcwd (user_buffer length : Z) : sys_m D Z :=
  if (length =? 0) || (MINIFS_PATH_MAX <? length) then ret FAIL
  else
    let& cwd := current_cwd in
    let& path := on_files (on_fs (minifs_getcwd cwd MINIFS_PATH_MAX)) in
    match path with
    | None => ret FAIL
    | Some path =>
        if length <? str_len path + 1 then ret FAIL
        else
          let& stored := copy_out user_buffer (path ++ [0]) in
          ret (if stored then str_len path else FAIL)
    end.

Definition sys_mkdir (user_path : Z) : sys_m D Z :=
  with_path user_path (λ path,
    let& cwd := current_cwd in
    let& r := on_files (on_fs (minifs_mkdir cwd path)) in ret (status_of r)).

Definition sys_unlink (user_path : Z) : sys_m D Z :=
  with_path user_path (λ path,
    let& cwd := current_cwd in
    let& r := on_files (unlink cwd path) in ret (status_of r)).

(** ** The process list *)

Definition state_code (st : task_state) : Z :=
  match st with
  | TASK_UNUSED => 0 | TASK_READY => 1 | TASK_RUNNING => 2 | TASK_BLOCKED => 3 | TASK_ZOMBIE => 4
  end.

(** [struct task_info]: three integers, four bytes of padding that are never written,
    two counters and the name. *)
Definition encode_info (e : task_info) : list Z :=
  le32 (ti_pid e) ++ le32 (ti_ppid e) ++ le32 (state_code (ti_state e)) ++ replicate 4 0 ++
  le64 (ti_runtime_ticks e) ++ le64 (ti_context_switches e) ++ ti_name e.

Definition list_processes (capacity : Z) : sys_m D (Z * list task_info) := λ s,
  let '(count, entries) := task_get_processes (i32 capacity) (sy_names s) (sy_kernel s) in
  inr ((count, entries),
       s <| sy_names := map ti_name entries ++ drop (List.length entries) (sy_names s) |>).

Definition sys_ps (user_entries capacity : Z) : sys_m D Z :=
  let& (count, entries) := list_processes (Z.min capacity MAX_TASKS) in
  if count <? 0 then ret FAIL
  else
    let& stored := copy_out user_entries (concat (map encode_info entries)) in
    ret (if stored then u64 count else FAIL).

(** ** The dispatcher

    The number is in a7, the arguments in a0, a1 and a2, the result goes to a0.  The
    result of the C function comes with the trap frame: 1 when the context was replaced,
    2 for a yield. *)

Definition reg_a0 : Z := 10.

(** [trap_frame\[10\] = call;] *)
Definition answer (tf : list Z) (call : sys_m D Z) : sys_m D (Z * list Z) :=
  let& r := call in ret (0, aset tf reg_a0 r).

Definition fd_call (f : Z → fd_state → Z * fd_state) : sys_m D Z :=
  let& p := current_pid in
  let& r := on_files (on_fds (f p)) in ret (u64 r).

Definition sys_kill (pid signal : Z) : sys_m D Z :=
  let signal := if signal =? 0 then 15 else i32 signal in
  if negb (signal =? 9) && negb (signal =? 15) then ret FAIL
  else let& r := on_kernel (task_kill (i32 pid) (128 + signal)) in ret (u64 r).

Definition sys_lseek (fd offset whence : Z) : sys_m D Z :=
  let& p := current_pid in
  let& r := on_files (minifs_lseek p (i32 fd) (i64 offset) (i32 whence)) in ret (u64 r).

Definition syscall_dispatch (tf : list Z) : sys_m D (Z * list Z) :=
  let number := aget 0 tf 17 in
  let arg0 := aget 0 tf 10 in
  let arg1 := aget 0 tf 11 in
  let arg2 := aget 0 tf 12 in
  if number =? SYS_READ then answer tf (sys_read arg0 arg1 arg2)
  else if number =? SYS_WRITE then answer tf (sys_write arg0 arg1 arg2)
  else if number =? SYS_EXIT then let& _ := sys_exit arg0 in ret (0, tf)
  else if number =? SYS_WAIT then answer tf (sys_waitpid (2 ^ 64 - 1) 0 0)
  else if number =? SYS_WAITPID then answer tf (sys_waitpid arg0 arg1 arg2)
  else if number =? SYS_FORK then answer tf (sys_fork tf)
  else if number =? SYS_EXECVE then
    let& r := sys_execve tf arg0 arg1 arg2 in
    match r with
    | Some tf => ret (1, tf)
    | None => ret (0, aset tf reg_a0 FAIL)
    end
  else if number =? SYS_YIELD then ret (2, tf)
  else if number =? SYS_OPEN then answer tf (sys_open arg0 arg1)
  else if number =? SYS_CLOSE then answer tf (fd_call (λ p, minifs_close p (i32 arg0)))
  else if number =? SYS_LSEEK then answer tf (sys_lseek arg0 arg1 arg2)
  else if number =? SYS_DUP2 then answer tf (fd_call (λ p, minifs_dup2 p (i32 arg0) (i32 arg1)))
  else if number =? SYS_GETDENTS then answer tf (sys_getdents arg0 arg1 arg2)
  else if number =? SYS_MKDIR then answer tf (sys_mkdir arg0)
  else if number =? SYS_UNLINK then answer tf (sys_unlink arg0)
  else if number =? SYS_CHDIR then answer tf (sys_chdir arg0)
  else if number =? SYS_GETCWD then answer tf (sys_getcwd arg0 arg1)
  else if number =? SYS_PS then answer tf (sys_ps arg0 arg1)
  else if number =? SYS_KILL then answer tf (sys_kill arg0 arg1)
  else if number =? SYS_SET_CLOEXEC then answer tf (fd_call (λ p, minifs_set_cloexec p (i32 arg0) (i32 arg1)))
  else answer tf (ret FAIL).
End handlers.

#[global] Notation "'let&' x ':=' m 'in' k" := (bind m (λ x, k))
  (at level 10, x pattern, m at level 100, k at level 200) : minios_scope.
