(* ===== verification/SyscallSpec.v ===== *)
(** * System calls: what they keep

    [system_ok] is the state the kernel is in between traps: the process table, the
    file layer and the memory of all processes are consistent.  [calls] is the
    specification of a handler of an ordinary call: it ends, keeps [system_ok], and
    changes of the caller's task its current directory at most, of other tasks nothing,
    and of the memory the caller's own pages. *)

From S2P Require Import Prelude Csr Mem Vm Device CpuType Console Block FdTable MiniFs FsLayout FsFile FsWrite FsOps FsInv.
From S2P Require Import FsFiles AddrSpace UserMem Task Process Exec ExecSpec Isolation Syscall.

Section spec.
Context {D : Type} `{HD : BlockDriver D}.
Context (start : Z) (v : vm_state) (key : Z → Z).
Implicit Types (s : system D).

(** The current directory is an inode number, and what [ps] and [getdents] may copy
    to a process are bytes. *)
Definition sane (t : task) : Prop := 0 ≤ cwd_inode t ∧ bytes (name t).
Definition buffers_ok s : Prop := bytes (sy_dirent s) ∧ Forall (λ l, bytes l) (sy_names s).

Record system_ok s : Prop := {
  sok_table : kernel_ok (sy_kernel s);
  sok_files : files_good (files_of s);
  sok_spaces : ∃ F, spaces_ok start v F (memory (sy_kernel s)) (own_space (sy_kernel s));
  sok_tasks : ∀ i, in_table i → sane (get_task (sy_kernel s) i);
  sok_buffers : buffers_ok s;
}.

Section caller.
Context (c : Z) (sp : task_address_space).

(** A process with the space [sp] that runs in user mode in slot [c] enters the
    kernel. *)
Record ready s : Prop := {
  rd_ok : system_ok s;
  rd_current : current (sy_kernel s) = Some c;
  rd_slot : in_table c;
  rd_running : state (get_task (sy_kernel s) c) = TASK_RUNNING;
  rd_pid : pid (get_task (sy_kernel s) c) ≠ 0;
  rd_space : own_space (sy_kernel s) c = Some sp;
}.

Definition rest (k : kernel) := (current k, task_count k, next_pid k, order_counter k, scheduler_policy k,
  scheduler_quantum k, csrs k, cpu k).
Record own s s' : Prop := {
  own_tasks : ∃ n, 0 ≤ n ∧ tasks (sy_kernel s') =
    aset (tasks (sy_kernel s)) c ((get_task (sy_kernel s) c) <| cwd_inode := n |>);
  own_rest : rest (sy_kernel s') = rest (sy_kernel s);
  own_memory : ∃ m, memory (sy_kernel s') = (memory (sy_kernel s)) <| ram := m |> ∧
    same_outside (mapped_pages sp) (ram_of s) m ∧ ram_ok m;
}.

Lemma same_cwd (t : task) : t <| cwd_inode := cwd_inode t |> = t.
Proof. by destruct t. Qed.

Lemma ready_len s : ready s → length (tasks (sy_kernel s)) = 16%nat.
Proof. intros Hr. exact (ok_len _ (sok_table _ (rd_ok _ Hr))). Qed.

Lemma aset_same_task k n : in_table c → length (tasks k) = 16%nat →
  aset (tasks k) c ((get_task k c) <| cwd_inode := n |>) = tasks (upd_task c (λ t, t <| cwd_inode := n |>) k).
Proof. done. Qed.

Lemma own_get s s' i : ready s → own s s' → in_table i →
  ∃ n, 0 ≤ n ∧ get_task (sy_kernel s') i = (get_task (sy_kernel s) i) <| cwd_inode := n |> ∧
    (i ≠ c → get_task (sy_kernel s') i = get_task (sy_kernel s) i).
Proof.
  intros Hr [(n & Hn & E) _ _] Hi. pose proof (rd_slot _ Hr) as Hc. pose proof (ready_len _ Hr) as Hl.
  unfold get_task at 1 3. rewrite E. unfold in_table in *. destruct (decide (i = c)) as [->|Hne].
  - exists n. split; [done|]. rewrite aget_aset_eq by lia. done.
  - exists (cwd_inode (get_task (sy_kernel s) i)). split; [by apply (sok_tasks _ (rd_ok _ Hr))|].
    rewrite aget_aset_ne by lia. fold (get_task (sy_kernel s) i). by rewrite same_cwd.
Qed.

Lemma own_refl s : ready s → own s s.
Proof.
  intros Hr. pose proof (rd_slot _ Hr) as Hc. split.
  - exists (cwd_inode (get_task (sy_kernel s) c)). split; [by apply (sok_tasks _ (rd_ok _ Hr))|].
    rewrite same_cwd. symmetry. apply aset_aget. rewrite (ready_len _ Hr). unfold in_table in Hc. lia.
  - done.
  - exists (ram_of s). destruct (sok_spaces _ (rd_ok _ Hr)) as [F Hs]. split; [unfold ram_of; by destruct (memory (sy_kernel s))|].
    split; [done|]. apply (km_ram _ _ _ _ (spc_kmem _ _ _ _ _ Hs)).
Qed.

Lemma own_trans s1 s2 s3 : ready s1 → own s1 s2 → own s2 s3 → own s1 s3.
Proof.
  intros Hr [(n1 & Hn1 & E1) R1 (m1 & M1 & O1 & _)] [(n2 & Hn2 & E2) R2 (m2 & M2 & O2 & K2)].
  pose proof (rd_slot _ Hr) as Hc. pose proof (ready_len _ Hr) as Hl. unfold in_table in Hc. split.
  - exists n2. split; [done|].
    assert (get_task (sy_kernel s2) c = (get_task (sy_kernel s1) c) <| cwd_inode := n1 |>) as Eg.
    { unfold get_task at 1. by rewrite E1, aget_aset_eq by lia. }
    rewrite E2, Eg, E1. unfold aset. by rewrite list_insert_insert_eq.
  - congruence.
  - exists m2. split; [by rewrite M2, M1|]. split; [|done]. etrans; [exact O1|].
    unfold ram_of in O2. by rewrite M1 in O2.
Qed.

Lemma own_ready s s' : ready s → own s s' → files_good (files_of s') → buffers_ok s' → ready s'.
Proof.
  intros Hr Ho Hf Hb. pose proof (rd_slot _ Hr) as Hc. pose proof (ready_len _ Hr) as Hl.
  assert (current (sy_kernel s') = current (sy_kernel s)) as Ec by (pose proof (own_rest _ _ Ho); unfold rest in *; congruence).
  assert (∀ i, in_table i → own_space (sy_kernel s') i = own_space (sy_kernel s) i) as Es.
  { intros i Hi. unfold own_space. destruct (own_get s s' i Hr Ho Hi) as (n & _ & -> & _). done. }
  destruct (own_get s s' c Hr Ho Hc) as (n & Hn & Et & _).
  split.
  - split; [|exact Hf| | |exact Hb].
    + apply (ok_same (sy_kernel s)); [|apply (sok_table _ (rd_ok _ Hr))].
      transitivity (table (upd_task c (λ t, t <| cwd_inode := n |>) (sy_kernel s))); [|by apply table_upd_same].
      destruct (own_tasks _ _ Ho) as (n' & _ & E). pose proof (own_rest _ _ Ho) as R. unfold rest in R.
      unfold table. cbn [tasks upd_task set_field]. injection R as -> -> -> _ _ _ _ _. f_equal. rewrite E, !fmap_aset. f_equal.
    + destruct (sok_spaces _ (rd_ok _ Hr)) as [F Hs]. destruct (own_memory _ _ Ho) as (m & -> & Hso & Hm).
      exists F. apply (spaces_ext start v F _ (own_space (sy_kernel s))); [done|].
      eapply spaces_write; [exact Hs|exact Hc|apply (rd_space _ Hr)|exact Hso|exact Hm].
    + intros i Hi. destruct (own_get s s' i Hr Ho Hi) as (n' & Hn' & -> & _).
      split; [done|]. apply (sok_tasks _ (rd_ok _ Hr) i Hi).
  - rewrite Ec. apply (rd_current _ Hr).
  - done.
  - rewrite Et. apply (rd_running _ Hr).
  - rewrite Et. apply (rd_pid _ Hr).
  - rewrite Es by done. apply (rd_space _ Hr).
Qed.

(** ** Ordinary calls *)

Definition calls {A} (m : sys_m D A) (Q : A → Prop) : Prop := ∀ s, ready s →
  ∃ a s', m s = inr (a, s') ∧ own s s' ∧ ready s' ∧ Q a.

Lemma calls_ret {A} (a : A) (Q : A → Prop) : Q a → calls (ret a) Q.
Proof. intros Ha s Hs. exists a, s. split; [done|]. split; [by apply own_refl|done]. Qed.

Lemma calls_bind {A B} (m : sys_m D A) (k : A → sys_m D B) Q R :
  calls m Q → (∀ a, Q a → calls (k a) R) → calls (bind m k) R.
Proof.
  intros Hm Hk s Hs. destruct (Hm s Hs) as (a & s1 & E & Ho & Hs1 & Ha). unfold bind. rewrite E.
  destruct (Hk a Ha s1 Hs1) as (b & s2 & E2 & Ho2 & Hs2 & Hb). exists b, s2.
  split; [done|]. split; [by eapply own_trans|done].
Qed.

Lemma calls_ask {A} (f : system D → A) (Q : A → Prop) : (∀ s, ready s → Q (f s)) → calls (ask f) Q.
Proof. intros Hq s Hs. exists (f s), s. split; [done|]. split; [by apply own_refl|]. auto. Qed.

Lemma calls_pid : calls current_pid (λ _, True).
Proof. by apply calls_ask. Qed.

Lemma ready_cwd s : ready s → 0 ≤ task_current_cwd (sy_kernel s).
Proof.
  intros Hr. unfold task_current_cwd. rewrite (rd_current _ Hr). apply (sok_tasks _ (rd_ok _ Hr)), (rd_slot _ Hr).
Qed.
Lemma calls_cwd : calls current_cwd (λ n, 0 ≤ n).
Proof. apply calls_ask, ready_cwd. Qed.

(** A change that leaves the tasks and the memory alone. *)
Lemma own_same s s' : ready s → tasks (sy_kernel s') = tasks (sy_kernel s) → rest (sy_kernel s') = rest (sy_kernel s) →
  memory (sy_kernel s') = memory (sy_kernel s) → own s s'.
Proof.
  intros Hr Et Er Em. destruct (own_refl s Hr) as [O1 O2 O3]. split; [by rewrite Et|by rewrite Er|by rewrite Em].
Qed.

Lemma calls_files {A} (m : files D → A * files D) (Q : A → Prop) :
  (∀ f, files_good f → files_good (m f).2 ∧ Q (m f).1) → calls (on_files m) Q.
Proof.
  intros Hm s Hs. unfold on_files. destruct (Hm (files_of s) (sok_files _ (rd_ok _ Hs))) as [Hg Ha].
  destruct (m (files_of s)) as [a f]. exists a, (put_files f s). split; [done|].
  assert (own s (put_files f s)) as Ho by by apply own_same.
  split; [done|]. split; [|done]. eapply own_ready; [done|done|by destruct f|]. apply (sok_buffers _ (rd_ok _ Hs)).
Qed.

Lemma ready_list s : ready s → space_list sp ∧ ram_ok (ram_of s) ∧ task_current_address_space (sy_kernel s) = Some sp.
Proof.
  intros Hr. destruct (sok_spaces _ (rd_ok _ Hr)) as [F Hs].
  destruct (spc_each _ _ _ _ _ Hs c sp (rd_slot _ Hr) (rd_space _ Hr)) as [Hok _].
  split; [apply (so_list _ _ _ Hok)|]. split; [apply (km_ram _ _ _ _ (spc_kmem _ _ _ _ _ Hs))|].
  unfold task_current_address_space. rewrite (rd_current _ Hr). apply (rd_space _ Hr).
Qed.

Lemma copy_bytes source length m rc bs :
  space_list sp → ram_ok m → is_u64 source → 0 ≤ length < 2 ^ 64 → copy_from_user (Some sp) source length m = (rc, bs) →
  bytes bs ∧ (0 ≤ rc → Z.of_nat (List.length bs) = length).
Proof.
  intros Hsl Hm Hs Hl E. destruct (decide (source + length < 2 ^ 64)) as [Hlt|Hge].
  - destruct (copy_from_user_aux sp source length m rc bs Hsl) as [(-> & _ & Hn & Hb)|(-> & -> & _)]; try lia; try done.
    split; [|done]. apply Forall_lookup. intros i b Hi. pose proof (lookup_lt_Some _ _ _ Hi).
    assert (user_byte sp m (source + Z.of_nat i) = Some b) as Hu.
    { rewrite Hb by lia. unfold aget. by rewrite Nat2Z.id, Hi. }
    unfold user_byte in Hu. destruct (find_mapping sp _); [|done]. injection Hu as <-. by apply ram_ok_load8.
  - revert E. unfold copy_from_user. destruct (length =? 0) eqn:E0; bsimp; [lia|].
    assert (u64 (source + length) < source) as Hw.
    { unfold u64. replace (source + length) with ((source + length - 2 ^ 64) + 1 * 2 ^ 64) by lia.
      rewrite Z.mod_add, Z.mod_small by lia. lia. }
    rewrite (proj2 (Z.ltb_lt _ _) Hw). intros [= <- <-]. split; [done|lia].
Qed.

Lemma calls_copy_in source length : is_u64 source → 0 ≤ length < 2 ^ 64 →
  calls (copy_in source length) (λ r, ∀ bs, r = Some bs → bytes bs ∧ Z.of_nat (List.length bs) = length).
Proof.
  intros Hsrc Hl s Hs. destruct (ready_list s Hs) as (Hsl & Hm & Es). unfold copy_in. rewrite Es.
  destruct (copy_from_user (Some sp) source length (ram_of s)) as [rc bs] eqn:E.
  destruct (copy_bytes _ _ _ _ _ Hsl Hm Hsrc Hl E) as [Hb Hn].
  eexists _, s. split; [done|]. split; [by apply own_refl|]. split; [done|].
  destruct (rc <? 0) eqn:Erc; [done|]. bsimp. intros ? [= <-]. auto.
Qed.

Lemma calls_copy_out destination source : bytes source → calls (copy_out destination source) (λ _, True).
Proof.
  intros Hb s Hs. destruct (ready_list s Hs) as (Hsl & Hm & Es). unfold copy_out. rewrite Es.
  destruct (copy_to_user (Some sp) destination source (ram_of s)) as [rc m] eqn:E.
  assert (same_outside (mapped_pages sp) (ram_of s) m ∧ ram_ok m) as [Ho Hm'].
  { revert E. unfold copy_to_user. destruct (_ =? 0); [by intros [= <- <-]|]. destruct (_ <? _); [by intros [= <- <-]|].
    destruct (default _ _); [|by intros [= <- <-]]. by apply copy_to_space_outside. }
  eexists _, _. split; [reflexivity|]. destruct (own_refl s Hs) as [O1 O2 _].
  assert (own s (put_memory m s)) as Hw by (split; [done|done|by exists m]).
  split; [done|]. split; [|done].
  eapply own_ready; [done|done|exact (sok_files _ (rd_ok _ Hs))|exact (sok_buffers _ (rd_ok _ Hs))].
Qed.

(** *** Strings *)

Lemma string_loop_bytes n source i acc m o bs :
  space_list sp → ram_ok m → is_u64 source → bytes acc → copy_string_loop n (Some sp) source i acc m = (o, bs) → bytes bs.
Proof.
  intros Hsl Hm Hs. revert i acc. induction n as [|n IH]; intros i acc Ha; [by intros [= _ <-]|]. cbn [copy_string_loop].
  destruct (copy_from_user (Some sp) (u64 (source + i)) 1 m) as [rc b] eqn:E.
  destruct (copy_bytes (u64 (source + i)) 1 m rc b Hsl Hm (u64_range (source + i)) ltac:(lia) E) as [Hb _].
  assert (bytes (acc ++ b)) by by apply Forall_app_2.
  destruct (rc <? 0); [by intros [= _ <-]|]. destruct (_ =? 0); [by intros [= _ <-]|]. by apply IH.
Qed.

Lemma calls_string source capacity : is_u64 source →
  calls (copy_string_in source capacity) (λ r, ∀ p, r = Some p → bytes p).
Proof.
  intros Hsrc s Hs. destruct (ready_list s Hs) as (Hsl & Hm & Es). unfold copy_string_in. rewrite Es.
  destruct (copy_string_from_user (Some sp) source capacity (ram_of s)) as [rc bs] eqn:E.
  eexists _, s. split; [done|]. split; [by apply own_refl|]. split; [done|].
  destruct (rc <? 0) eqn:Erc; [done|]. bsimp. intros ? [= <-]. apply Forall_take. revert E Erc. unfold copy_string_from_user.
  destruct (capacity =? 0); [by intros [= <- <-]|].
  destruct (copy_string_loop _ _ _ _ _ _) as [o b] eqn:El. apply string_loop_bytes in El; try done.
  destruct o; intros [= <- <-]; [done|lia].
Qed.

Lemma calls_path p : is_u64 p → calls (copy_path p) (λ r, ∀ q, r = Some q → bytes q).
Proof. intros Hp. unfold copy_path. destruct (_ =? 0); [by apply calls_ret|by apply calls_string]. Qed.

Lemma calls_with_path p f : is_u64 p → (∀ path, bytes path → calls (f path) (λ _, True)) → calls (with_path p f) (λ _, True).
Proof.
  intros Hp Hf. eapply calls_bind; [by apply calls_path|]. intros [path|] Hb; [by apply Hf, Hb|by apply calls_ret].
Qed.

(** *** The loops *)

Lemma write_amount pid fd buffer f : files_good f → bytes buffer → Z.of_nat (length buffer) < 2 ^ 31 →
  let '(n, f') := minifs_write pid fd buffer f in files_good f' ∧ n ≤ Z.of_nat (length buffer).
Proof.
  intros Hg Hb Hl. pose proof (write_good pid fd buffer f Hg Hb) as Hw.
  destruct (minifs_write pid fd buffer f) as [n f'] eqn:E. destruct Hw as [Hg' Hr]. split; [done|].
  revert E. unfold minifs_write. destruct (get_open_file pid fd (f_fds f)) as [k|] eqn:Ek; [|intros [= <- _]; lia].
  destruct (of_type (get_of (f_fds f) k) =? OFD_CONSOLE_OUT) eqn:Et.
  { intros [= <- _]. rewrite i32_small; lia. }
  destruct (of_type (get_of (f_fds f) k) =? OFD_FILE) eqn:Ef; [|cbn [negb orb]; intros [= <- _]; lia].
  intros _. bsimp. destruct (Hr k eq_refl Ef) as [Hn _]. lia.
Qed.

Lemma read_console_data n k : bytes (read_console key n k) ∧ (length (read_console key n k) ≤ n)%nat.
Proof.
  revert k. induction n as [|n IH]; intros k; [by split; [constructor|cbn]|]. cbn [read_console].
  pose proof (u8_range (key k)) as Hu. destruct (_ =? 10); [split; [by constructor|cbn; lia]|].
  destruct (IH (k + 1)) as [Hb Hl]. split; [by constructor|cbn; lia].
Qed.

Lemma read_data pid fd length f : files_good f → 0 ≤ length →
  let '(r, f') := minifs_read key pid fd length f in
  files_good f' ∧ ∀ bs, r = Some bs → bytes bs ∧ Z.of_nat (List.length bs) ≤ length.
Proof.
  intros Hg Hl. pose proof (read_good key pid fd length f Hg Hl) as Hr.
  destruct (minifs_read key pid fd length f) as [r f'] eqn:E. destruct Hr as [Hg' Hr]. split; [done|]. intros bs ->.
  revert E. unfold minifs_read. destruct (get_open_file pid fd (f_fds f)) as [k|] eqn:Ek; [|done].
  destruct (open_file_range _ _ _ _ Ek) as [Hk Hu].
  destruct (of_type (get_of (f_fds f) k) =? OFD_CONSOLE_IN) eqn:Et.
  { intros [= <- _]. destruct (read_console_data (Z.to_nat length) (f_keys f)). split; [done|lia]. }
  destruct (_ || _) eqn:Eo; [done|]. bsimp. destruct (fg_offsets _ Hg k Hu) as (Hi & Ho & _); [done|].
  destruct (on_fs_good (minifs_pread (of_inode (get_of (f_fds f) k)) (of_offset (get_of (f_fds f) k)) (Z.min length 0xffffffff))
    (λ bs, bytes bs) f) as (r & s & -> & _ & Hb); [|done|].
  { apply keeps_reads. intros s Hs. unfold is_inode in Hi. apply reads_pread; [by apply good_ok|lia|lia]. }
  destruct r as [bs'|]; [|done]. intros [= <- _]. split; [by apply Hb|]. by destruct (Hr k bs' eq_refl) as [? _].
Qed.

Lemma calls_write pid fd buffer : bytes buffer → Z.of_nat (length buffer) ≤ IO_CHUNK →
  calls (on_files (minifs_write pid fd buffer)) (λ n, n ≤ Z.of_nat (length buffer)).
Proof.
  intros Hb Hl. apply calls_files. intros f Hf. unfold IO_CHUNK in Hl.
  pose proof (write_amount pid fd buffer f Hf Hb ltac:(lia)) as Hw. destruct (minifs_write pid fd buffer f). done.
Qed.

Lemma calls_read pid fd length : 0 ≤ length →
  calls (on_files (minifs_read key pid fd length)) (λ r, ∀ bs, r = Some bs → bytes bs ∧ Z.of_nat (List.length bs) ≤ length).
Proof.
  intros Hl. apply calls_files. intros f Hf.
  pose proof (read_data pid fd length f Hf Hl) as Hw. destruct (minifs_read key pid fd length f). done.
Qed.

(** The rounds a transfer still needs, [done] bytes having been moved. *)
Definition enough (rounds : nat) (length done : Z) : Prop := length - done ≤ IO_CHUNK * (Z.of_nat rounds - 1).

Lemma calls_write_loop rounds fd buf length done :
  is_u64 length → 0 ≤ done ≤ length → enough rounds length done →
  calls (write_loop rounds fd buf length done) (λ _, True).
Proof.
  intros Hl. revert done. induction rounds as [|n IH]; intros done Hd He; unfold enough, IO_CHUNK in He; [lia|].
  cbn [write_loop]. destruct (done <? length) eqn:E; [|by apply calls_ret]. bsimp. cbn [negb].
  set (chunk := Z.min (length - done) IO_CHUNK). assert (0 < chunk ≤ 512 ∧ done + chunk ≤ length) as Hc by (unfold chunk, IO_CHUNK; lia).
  eapply calls_bind; [apply calls_copy_in; [apply u64_range|lia]|]. intros [bs|] Hb; [|by apply calls_ret].
  destruct (Hb bs eq_refl) as [Hbb Hbl].
  eapply calls_bind; [apply calls_pid|]. intros p _.
  eapply calls_bind; [apply calls_write; [done|unfold IO_CHUNK; lia]|]. intros w Hw.
  destruct (w <? 0); [by apply calls_ret|]. destruct (w <? chunk) eqn:Ew; [by apply calls_ret|]. bsimp.
  cbn beta in Hw. assert (w = chunk) as -> by lia. rewrite u64_small by lia. apply IH; [lia|].
  unfold enough, IO_CHUNK. unfold chunk, IO_CHUNK in *. lia.
Qed.

Lemma calls_read_loop rounds fd buf length done :
  is_u64 length → 0 ≤ done ≤ length → enough rounds length done →
  calls (read_loop key rounds fd buf length done) (λ _, True).
Proof.
  intros Hl. revert done. induction rounds as [|n IH]; intros done Hd He; unfold enough, IO_CHUNK in He; [lia|].
  cbn [read_loop]. destruct (done <? length) eqn:E; [|by apply calls_ret]. bsimp. cbn [negb].
  set (chunk := Z.min (length - done) IO_CHUNK). assert (0 < chunk ≤ 512 ∧ done + chunk ≤ length) as Hc by (unfold chunk, IO_CHUNK; lia).
  eapply calls_bind; [apply calls_pid|]. intros p _.
  eapply calls_bind; [apply calls_read; lia|]. intros [[|b bs]|] Hb; [by apply calls_ret| |by apply calls_ret].
  destruct (Hb _ eq_refl) as [Hbb Hbl].
  eapply calls_bind; [by apply calls_copy_out|]. intros stored _. destruct stored; cbn [negb]; [|by apply calls_ret].
  destruct (_ <? chunk) eqn:Ew; [by apply calls_ret|]. bsimp.
  assert (Z.of_nat (List.length (b :: bs)) = chunk) as -> by lia. rewrite u64_small by lia. apply IH; [lia|].
  unfold enough, IO_CHUNK. unfold chunk, IO_CHUNK in *. lia.
Qed.

Lemma rounds_enough length : 0 ≤ length → enough (rounds_for length) length 0.
Proof. intros Hl. unfold enough, rounds_for, IO_CHUNK. Z.div_mod_to_equations. lia. Qed.

(** *** The calls *)

Lemma calls_sys_write fd buf length : is_u64 length → calls (sys_write fd buf length) (λ _, True).
Proof.
  intros Hl. unfold sys_write. destruct (_ =? 0); [by apply calls_ret|]. destruct (_ =? 0); [by apply calls_ret|].
  apply calls_write_loop; [done|lia|apply rounds_enough; lia].
Qed.

Lemma calls_sys_read fd buf length : is_u64 length → calls (sys_read key fd buf length) (λ _, True).
Proof.
  intros Hl. unfold sys_read. destruct (_ =? 0); [by apply calls_ret|]. destruct (_ =? 0); [by apply calls_ret|].
  apply calls_read_loop; [done|lia|apply rounds_enough; lia].
Qed.

Lemma files_fs {A} (m : fs_m D A) (Q : A → Prop) f : keeps m Q → files_good f →
  files_good (on_fs m f).2 ∧ ∀ a, (on_fs m f).1 = Some a → Q a.
Proof. intros Hm Hf. destruct (on_fs_good m Q f Hm Hf) as (r & s & -> & Hg & Hr). done. Qed.

Lemma calls_keeps {A} (m : fs_m D A) (Q : A → Prop) : keeps m Q → calls (on_files (on_fs m)) (λ r, ∀ a, r = Some a → Q a).
Proof. intros Hm. apply calls_files. intros f Hf. by apply files_fs. Qed.
Lemma calls_reads {A} (m : fs_m D A) (Q : A → Prop) : (∀ f, fs_ok f → reads f m Q) →
  calls (on_files (on_fs m)) (λ r, ∀ a, r = Some a → Q a).
Proof. intros Hm. apply calls_keeps, keeps_reads. intros f Hf. by apply Hm, good_ok. Qed.

Lemma calls_sys_open p flags : is_u64 p → calls (sys_open p flags) (λ _, True).
Proof.
  intros Hp. apply calls_with_path; [done|]. intros path Hb. eapply calls_bind; [apply calls_pid|]. intros pid _.
  eapply calls_bind; [apply calls_cwd|]. intros cwd Hc.
  eapply (calls_bind _ _ (λ _, True)); [|intros; by apply calls_ret].
  apply calls_files. intros f Hf. split; [by apply open_good|done].
Qed.

Lemma calls_sys_mkdir p : is_u64 p → calls (sys_mkdir p) (λ _, True).
Proof.
  intros Hp. apply calls_with_path; [done|]. intros path Hb. eapply calls_bind; [apply calls_cwd|]. intros cwd Hc.
  eapply calls_bind; [apply calls_keeps; by apply keeps_mkdir|]. intros; by apply calls_ret.
Qed.

Lemma calls_sys_unlink p : is_u64 p → calls (sys_unlink p) (λ _, True).
Proof.
  intros Hp. apply calls_with_path; [done|]. intros path Hb. eapply calls_bind; [apply calls_cwd|]. intros cwd Hc.
  eapply (calls_bind _ _ (λ _, True)); [|intros; by apply calls_ret]. apply calls_files. intros f Hf. split; [|done].
  unfold unlink. by eapply step_fs; [apply keeps_unlink|].
Qed.

Lemma calls_set_cwd n : 0 ≤ n → calls (on_kernel (λ k, (tt, task_set_current_cwd n k))) (λ _, True).
Proof.
  intros Hn s Hs. eexists tt, _. split; [reflexivity|]. pose proof (own_refl s Hs) as [_ O2 O3].
  unfold task_set_current_cwd. rewrite (rd_current _ Hs). set (s' := _ <| sy_kernel := _ |>).
  assert (own s s') as Ho by (split; [by exists n|done|done]).
  split; [done|]. split; [|done].
  eapply own_ready; [done|done|exact (sok_files _ (rd_ok _ Hs))|exact (sok_buffers _ (rd_ok _ Hs))].
Qed.

Lemma calls_sys_chdir p : is_u64 p → calls (sys_chdir p) (λ _, True).
Proof.
  intros Hp. apply calls_with_path; [done|]. intros path Hb. eapply calls_bind; [apply calls_cwd|]. intros cwd Hc.
  eapply calls_bind; [apply (calls_reads _ (λ n, is_inode n)); intros; by apply reads_chdir|].
  intros [n|] Hn; [|by apply calls_ret]. pose proof (Hn n eq_refl) as Hi. unfold is_inode in Hi.
  eapply calls_bind; [apply calls_set_cwd; lia|]. intros; by apply calls_ret.
Qed.

Lemma calls_sys_getcwd buf length : calls (sys_getcwd buf length) (λ _, True).
Proof.
  unfold sys_getcwd. destruct (_ || _); [by apply calls_ret|]. eapply calls_bind; [apply calls_cwd|]. intros cwd Hc.
  eapply calls_bind; [apply (calls_reads _ (λ p, bytes p)); intros; by apply reads_getcwd|].
  intros [path|] Hp; [|by apply calls_ret]. destruct (_ <? _); [by apply calls_ret|].
  eapply calls_bind; [apply calls_copy_out|intros; by apply calls_ret].
  apply Forall_app_2; [by apply Hp|]. by constructor; [|constructor].
Qed.

Lemma place_bytes stale entries : bytes stale → named_in_bytes entries → named_in_bytes (place_entries stale entries).
Proof.
  intros Hs [|e rest He Hr]; [constructor|]. constructor; [|done]. apply Forall_app_2; [done|by apply Forall_drop].
Qed.
Lemma encode_bytes entries : named_in_bytes entries → bytes (concat (map encode_dirent entries)).
Proof.
  intros Hn. apply Forall_concat, Forall_map. eapply Forall_impl; [exact Hn|]. intros e He.
  unfold encode_dirent. rewrite !Forall_app. split; [apply le_encode_bytes|]. by split; [apply le_encode_bytes|].
Qed.

Lemma calls_list_directory path capacity : bytes (default [] path) →
  calls (list_directory path capacity) (λ r, ∀ l, r = Some l → named_in_bytes l).
Proof.
  intros Hp s Hs. unfold list_directory. pose proof (ready_cwd s Hs) as Hc. set (cwd := task_current_cwd _) in *.
  assert (∀ cap, keeps (minifs_getdents cwd path cap) named_in_bytes) as Hk.
  { intros cap. apply keeps_reads. intros f Hf. eapply reads_conseq; [apply reads_getdents; [by apply good_ok|done]|auto]. }
  pose proof (sok_files _ (rd_ok _ Hs)) as Hf. destruct (sok_buffers _ (rd_ok _ Hs)) as [Hd Hn].
  destruct (files_fs _ _ _ (Hk (Z.min capacity 1)) Hf) as [_ H1].
  destruct (files_fs _ _ _ (Hk capacity) Hf) as [Hg H2].
  set (first := (on_fs (minifs_getdents cwd path (Z.min capacity 1)) (files_of s)).1) in *.
  destruct (on_fs (minifs_getdents cwd path capacity) (files_of s)) as [r f]. cbn [fst snd] in *.
  eexists _, _. split; [reflexivity|]. match goal with |- own s ?x ∧ _ => set (s' := x) end.
  assert (own s s') as Ho by by apply own_same.
  split; [done|]. split.
  - eapply own_ready; [done|done|by destruct f|]. split; [|done]. change (bytes (first_name (sy_dirent s) first)).
    unfold first_name. destruct first as [l|]; [|done]. pose proof (place_bytes _ _ Hd (H1 l eq_refl)) as Hpl.
    destruct (place_entries (sy_dirent s) l) as [|e]; [done|]. by apply Forall_cons_1 in Hpl as [? _].
  - intros l. destruct r as [l'|]; [|done]. intros [= <-]. apply place_bytes; [done|by apply H2].
Qed.

Lemma calls_sys_getdents p entries capacity : is_u64 p → calls (sys_getdents p entries capacity) (λ _, True).
Proof.
  intros Hp. unfold sys_getdents.
  eapply (calls_bind _ _ (λ r, ∀ q, r = Some q → bytes (default [] q))).
  { destruct (p =? 0); [apply calls_ret; intros ? [= <-]; constructor|].
    eapply calls_bind; [by apply calls_path|]. intros [q|] Hq; apply calls_ret; [|done]. intros ? [= <-]. by apply Hq. }
  intros [path|] Hq; [|by apply calls_ret]. eapply calls_bind; [apply calls_list_directory; by apply Hq|].
  intros [[|e l]|] Hl; [by apply calls_ret| |by apply calls_ret].
  eapply calls_bind; [apply calls_copy_out, encode_bytes; by apply Hl|]. intros; by apply calls_ret.
Qed.

Lemma aset_bytes l i x : bytes l → is_u8 x → bytes (aset l i x).
Proof. intros Hl Hx. by apply Forall_insert. Qed.
Lemma copy_chars_bytes n i src dst : bytes src → bytes dst → bytes (copy_chars n i src dst).
Proof.
  intros Hs. revert i dst. induction n as [|n IH]; intros i dst Hd; cbn [copy_chars]; [by apply aset_bytes|].
  assert (is_u8 (aget 0 src i)) as Hc.
  { unfold aget. destruct (src !! Z.to_nat i) eqn:E; cbn; [by eapply (Forall_lookup_1 _ _ _ _ Hs)|lia]. }
  destruct (_ =? 0); [by apply aset_bytes|]. by apply IH, aset_bytes.
Qed.
Lemma copy_name_bytes dst src : bytes dst → bytes (default [] src) → bytes (copy_name dst src).
Proof. intros Hd Hs. destruct src as [src|]; [by apply copy_chars_bytes|by apply aset_bytes]. Qed.

Lemma collect_bytes n i capacity names k : 0 ≤ i → i + Z.of_nat n ≤ 16 →
  Forall (λ l, bytes l) names → (∀ j, in_table j → sane (get_task k j)) →
  Forall (λ e, bytes (ti_name e)) (collect_processes n i capacity names k).
Proof.
  intros Hi Hn Hb Hk. revert i capacity names Hi Hn Hb. induction n as [|n IH]; intros i capacity names Hi Hn Hb; [constructor|].
  cbn [collect_processes]. destruct (_ <=? 0); [constructor|]. destruct (is_state _ _); [apply IH; [lia..|done]|].
  constructor; [|apply IH; [lia..|by destruct Hb]].
  apply copy_name_bytes; [|apply Hk; unfold in_table; lia]. destruct Hb; [by apply Forall_replicate|done].
Qed.

Lemma info_bytes es : Forall (λ e, bytes (ti_name e)) es → bytes (concat (map encode_info es)).
Proof.
  intros Hn. apply Forall_concat, Forall_map. eapply Forall_impl; [exact Hn|]. intros e He.
  unfold encode_info. rewrite !Forall_app.
  repeat (split; [first [apply le_encode_bytes|by apply Forall_replicate]|]). done.
Qed.

Lemma processes_bytes capacity names k : Forall (λ l, bytes l) names → (∀ j, in_table j → sane (get_task k j)) →
  Forall (λ e, bytes (ti_name e)) (task_get_processes capacity names k).2.
Proof.
  intros Hn Hk. unfold task_get_processes. destruct (_ <? 0); [constructor|]. apply collect_bytes; [lia..|done|done].
Qed.

Lemma calls_list_processes capacity :
  calls (list_processes capacity) (λ '(_, es), Forall (λ e, bytes (ti_name e)) es).
Proof.
  intros s Hs. unfold list_processes. destruct (sok_buffers _ (rd_ok _ Hs)) as [Hd Hn].
  pose proof (processes_bytes (i32 capacity) _ _ Hn (sok_tasks _ (rd_ok _ Hs))) as He.
  destruct (task_get_processes (i32 capacity) (sy_names s) (sy_kernel s)) as [n es]. cbn [snd] in He.
  set (s' := s <| sy_names := map ti_name es ++ drop (List.length es) (sy_names s) |>). exists (n, es), s'.
  split; [done|]. assert (own s s') as Ho by by apply own_same. split; [done|]. split; [|done].
  eapply own_ready; [done|done|exact (sok_files _ (rd_ok _ Hs))|]. split; [done|].
  apply Forall_app_2; [by apply Forall_map|by apply Forall_drop].
Qed.

Lemma calls_sys_ps entries capacity : calls (sys_ps entries capacity) (λ _, True).
Proof.
  eapply calls_bind; [apply calls_list_processes|]. intros [n es] He. destruct (_ <? 0); [by apply calls_ret|].
  eapply calls_bind; [by apply calls_copy_out, info_bytes|]. intros; by apply calls_ret.
Qed.

Lemma calls_fd (f : Z → fd_state → Z * fd_state) :
  (∀ p t, fd_inv t → fd_inv (f p t).2) → (∀ p t, quiet t (f p t).2) → calls (fd_call f) (λ _, True).
Proof.
  intros Hi Hq. eapply calls_bind; [apply calls_pid|]. intros p _.
  eapply (calls_bind _ _ (λ _, True)); [|intros; by apply calls_ret].
  apply calls_files. intros g Hg. split; [apply step_on_fds; [done|intros t; apply Hi|intros t; apply Hq]|done].
Qed.

Lemma calls_sys_lseek fd offset whence : calls (sys_lseek fd offset whence) (λ _, True).
Proof.
  eapply calls_bind; [apply calls_pid|]. intros p _.
  eapply (calls_bind _ _ (λ _, True)); [|intros; by apply calls_ret]. apply calls_files. intros f Hf. split; [|done].
  pose proof (lseek_good p (i32 fd) (i64 offset) (i32 whence) f Hf) as Hl. destruct (minifs_lseek _ _ _ _ f). apply Hl.
Qed.

Lemma calls_answer tf call : calls call (λ _, True) →
  calls (answer tf call) (λ r, ∃ a0, r = (0, aset tf reg_a0 a0)).
Proof. intros Hc. eapply calls_bind; [exact Hc|]. intros a _. apply calls_ret. by exists a. Qed.

(** Every call but those that end, create or replace a process, or wait for one. *)
Definition ordinary (number : Z) : Prop :=
  number ∉ [SYS_EXIT; SYS_WAIT; SYS_WAITPID; SYS_FORK; SYS_EXECVE; SYS_YIELD; SYS_KILL].
Definition frame_ok (tf : list Z) : Prop := length tf = 32%nat ∧ Forall (λ r, is_u64 r) tf.

Lemma frame_reg tf i : frame_ok tf → is_u64 (aget 0 tf i).
Proof.
  intros [_ Hf]. unfold aget. destruct (tf !! Z.to_nat i) eqn:E; cbn; [by eapply (Forall_lookup_1 _ _ _ _ Hf)|lia].
Qed.

Lemma dispatch_ordinary task_stacks tf : frame_ok tf → ordinary (aget 0 tf 17) →
  calls (syscall_dispatch key task_stacks v tf) (λ r, ∃ a0, r = (0, aset tf reg_a0 a0)).
Proof.
  intros Hf Hord. pose proof (frame_reg tf 10 Hf). pose proof (frame_reg tf 12 Hf).
  unfold ordinary in Hord. rewrite !not_elem_of_cons in Hord. destruct Hord as (N1 & N2 & N3 & N4 & N5 & N6 & N7 & _).
  unfold syscall_dispatch. rewrite (proj2 (Z.eqb_neq _ _) N1), (proj2 (Z.eqb_neq _ _) N2), (proj2 (Z.eqb_neq _ _) N3),
    (proj2 (Z.eqb_neq _ _) N4), (proj2 (Z.eqb_neq _ _) N5), (proj2 (Z.eqb_neq _ _) N6), (proj2 (Z.eqb_neq _ _) N7).
  repeat match goal with |- calls (if ?b then _ else _) _ => destruct b; [apply calls_answer|] end.
  - by apply calls_sys_read.
  - by apply calls_sys_write.
  - by apply calls_sys_open.
  - apply calls_fd; intros; [by apply minifs_close_inv|apply quiet_close].
  - apply calls_sys_lseek.
  - apply calls_fd; intros; [by apply minifs_dup2_inv|apply quiet_dup2].
  - by apply calls_sys_getdents.
  - by apply calls_sys_mkdir.
  - by apply calls_sys_unlink.
  - by apply calls_sys_chdir.
  - apply calls_sys_getcwd.
  - apply calls_sys_ps.
  - apply calls_fd; intros; [by apply minifs_set_cloexec_inv|apply quiet_set_cloexec].
  - by apply calls_answer, calls_ret.
Qed.
End caller.
End spec.
