(* ===== verification/Trap.v ===== *)
(** * Traps (os/kernel/trap.c)

    [trap_handler] is the C function the assembly entry calls with the saved registers;
    the entry and the return (trap_entry.S) are not C.  The timer and the cycle counter
    advance on their own: their values are arguments ([clock]). *)

From S2P Require Import Prelude Csr Mem Vm Device Console FdTable Block MiniFs.
From S2P Require Import AddrSpace Task Exec Syscall.

(** The values read from [mtime], and from the cycle counter around a switch. *)
Record clock := MkClock { ck_mtime : Z; ck_start : Z; ck_stop : Z }.

Section trap.
Context {D : Type} `{BlockOps D}.
Implicit Types (s : system D).
Context (key : Z → Z) (task_stacks : Z) (v : vm_state) (now : clock).

(** [printk] of a line; the formats of this file are complete. *)
Definition say (fmt : String.string) (args : list va) : sys_m D unit := λ s,
  inr (tt, s <| sy_out := sy_out s ++ default [] (printk (chars fmt ++ [10]) args) |>).
Definition say_if (b : bool) (fmt : String.string) (args : list va) : sys_m D unit :=
  if b then say fmt args else ret tt.

Definition trap_banner (loud : bool) (cause epc tval : Z) : sys_m D unit :=
  let& _ := say_if loud "=== TRAP ===" [] in
  let& _ := say_if loud "scause: %lx" [VaUint cause] in
  let& _ := say_if loud "sepc:   %lx" [VaUint epc] in
  say_if loud "stval:  %lx" [VaUint tval].

Definition on_csrs (f : csr_file → csr_file) : sys_m D unit :=
  on_kernel (λ k, (tt, k <| csrs := f (csrs k) |>)).
Definition prepare_return : sys_m D unit := on_kernel (λ k, (tt, task_prepare_trap_return k)).
Definition current_state : sys_m D task_state := ask (λ s, task_current_state (sy_kernel s)).

Definition handle_interrupt (cause epc tval : Z) (tf : list Z) : sys_m D (list Z) :=
  let irq_code := Z.land cause 0x7fffffffffffffff in
  let& silent := ask sy_silent in
  let& _ := trap_banner (negb silent) cause epc tval in
  if irq_code =? 5 then
    let& _ := say_if (negb silent) "Type: Interrupt (%lx)" [VaUint cause] in
    let& _ := say_if (negb silent) "  -> Supervisor timer interrupt" [] in
    let& _ := (λ s, inr (tt, s <| sy_timer := timer_handle (ck_mtime now) (sy_timer s) |>)) in
    let& tf := on_kernel (λ k, let '(_, tf, k) := sched_tick (ck_start now) (ck_stop now) tf k in (tf, k)) in
    let& _ := say_if (negb silent) "=== TRAP END ===" [] in
    let& _ := prepare_return in ret tf
  else
    let& _ := say "Type: Interrupt (%lx)" [VaUint cause] in
    let& _ := say (if irq_code =? 1 then "  -> Supervisor software interrupt"
                   else if irq_code =? 9 then "  -> Supervisor external interrupt"
                   else "  -> Unknown interrupt") [] in
    let& _ := say_if (negb silent) "=== TRAP END ===" [] in
    let& _ := prepare_return in ret tf.

(** The two cases of an environment call: the trap frame, and whether [sepc] is left
    alone. *)
Definition environment_call (epc : Z) (tf : list Z) : sys_m D (bool * list Z) :=
  let& (context_replaced, tf) := syscall_dispatch key task_stacks v tf in
  let& st := current_state in
  if bool_decide (st = TASK_ZOMBIE) || bool_decide (st = TASK_BLOCKED) then
    let& _ := (if bool_decide (st = TASK_BLOCKED) && (context_replaced =? 2)
               then on_csrs (trap_epc_write (u64 (epc + 4))) else ret tt) in
    let& (rescheduled, tf) :=
      on_kernel (λ k, let '(r, tf, k) := task_reschedule (ck_start now) (ck_stop now) tf k in ((r, tf), k)) in
    ret (rescheduled || negb (context_replaced =? 0), tf)
  else ret (negb (context_replaced =? 0), tf).

Definition handle_exception (cause epc tval : Z) (tf : list Z) : sys_m D (list Z) :=
  let& silent := ask sy_silent in
  let loud := negb (silent && ((cause =? 8) || (cause =? 9))) in
  let& _ := trap_banner loud cause epc tval in
  let& _ := say_if loud "Type: Exception (%lx)" [VaUint cause] in
  let& (resumed, tf) :=
    (if cause =? 8 then
       let& _ := say_if loud "  -> Environment call from U-mode" [] in environment_call epc tf
     else if cause =? 9 then
       let& _ := say_if loud "  -> Environment call from S-mode" [] in environment_call epc tf
     else
       let& _ := say (if cause =? 3 then "  -> Breakpoint"
                      else if cause =? 2 then "  -> Illegal instruction"
                      else "  -> Unknown exception") [] in
       ret (false, tf)) in
  let& _ := say_if loud "=== TRAP END ===" [] in
  let& _ := (if resumed then ret tt else on_csrs (trap_epc_write (u64 (epc + 4)))) in
  let& _ := prepare_return in ret tf.

(** The trap frame that is restored on return. *)
Definition trap_handler (tf : list Z) : sys_m D (list Z) :=
  let& c := ask (λ s, csrs (sy_kernel s)) in
  let cause := trap_cause_read c in
  let epc := trap_epc_read c in
  let tval := trap_tval_read c in
  if Z.testbit cause 63 then handle_interrupt cause epc tval tf
  else handle_exception cause epc tval tf.

Definition trap_set_silent (silent : Z) : sys_m D unit := λ s, inr (tt, s <| sy_silent := negb (silent =? 0) |>).
End trap.
