(* ===== verification/SystemSpec.v ===== *)
(** * The kernel between two traps

    [system_ok] holds along every sequence of system calls, timer interrupts and user
    code: the process table, the file layer, the memory of all processes.  The calls
    that end, create, replace or wait for a process are treated here, then the
    handler, then the sequences. *)

From S2P Require Import Prelude Csr Mem Vm Device CpuType Console Block FdTable MiniFs FsLayout FsFile FsWrite FsOps FsInv.
From S2P Require Import FsFiles AddrSpace UserMem Task Process Lifecycle Exec ExecSpec Isolation Syscall SyscallSpec Trap.

(** ** The kernel operations *)

Section reap.
Implicit Types (k : kernel) (i j : Z).

(** The zombie whose slot is freed, and what is left of its space. *)
Record reaped i k k' : Prop := {
  re_others : ∀ j, in_table j → j ≠ i → get_task k' j = get_task k j;
  re_space : own_space k' i = None;
  re_task : cwd_inode (get_task k' i) = cwd_inode (get_task k i) ∧ name (get_task k' i) = aset (name (get_task k i)) 0 0;
  re_memory : memory k' = match own_space k i with Some sp => (user_space_destroy sp (memory k)).2 | None => memory k end;
  re_fds : fds k' = minifs_close_all (pid (get_task k i)) (fds k);
}.

Lemma reap_spec k i : length (tasks k) = 16%nat → in_table i → reaped i k (reap i k).
Proof.
  intros Hl Hi. unfold reap. cbv zeta. set (k1 := if has_user_space (get_task k i) then _ else k).
  assert (length (tasks k1) = 16%nat ∧ (∀ j, in_table j → j ≠ i → get_task k1 j = get_task k j) ∧
    cwd_inode (get_task k1 i) = cwd_inode (get_task k i) ∧ name (get_task k1 i) = name (get_task k i) ∧ fds k1 = fds k ∧
    memory k1 = match own_space k i with Some sp => (user_space_destroy sp (memory k)).2 | None => memory k end)
    as (Hl1 & Hg1 & Hc1 & Hn1 & Hf1 & Hm1).
  { unfold k1, own_space. destruct (has_user_space _); [|done]. destruct (user_space_destroy _ _) as [sp m].
    set (k0 := upd_task i _ k).
    assert (∀ j, in_table j → get_task k0 j = if decide (j = i) then (get_task k i) <| address_space := sp |> else get_task k j) as Hg
      by (intros j Hj; by apply get_task_upd).
    split; [exact (length_tasks_upd_16 k i _ Hl)|]. change (get_task (k0 <| memory := m |>)) with (get_task k0).
    split; [intros j Hj Hne; by rewrite Hg, decide_False|]. by rewrite Hg, decide_True. }
  clearbody k1. set (f := λ t : task, _). set (k2 := k1 <| fds := _ |>).
  assert (∀ j, in_table j → get_task (upd_task i f k2) j = if decide (j = i) then f (get_task k1 i) else get_task k1 j) as Hg
    by (intros j Hj; exact (get_task_upd k2 i f j Hl1 Hi Hj)).
  pose proof (Hg i Hi) as Hgi. rewrite decide_True in Hgi by done. set (k3 := upd_task i f k2) in *.
  split.
  - intros j Hj Hne. change (get_task k3 j = get_task k j). rewrite Hg, decide_False by done. by apply Hg1.
  - unfold own_space. change (get_task (_ <| task_count := _ |>) i) with (get_task k3 i). by rewrite Hgi.
  - change (get_task (_ <| task_count := _ |>) i) with (get_task k3 i). rewrite Hgi. split; [exact Hc1|].
    change (name (f (get_task k1 i))) with (aset (name (get_task k1 i)) 0 0). by rewrite Hn1.
  - exact Hm1.
  - change (fds (_ <| task_count := _ |>)) with (minifs_close_all (pid (get_task k i)) (fds k1)). by rewrite Hf1.
Qed.
End reap.

(** *** fork *)

Record slotted (k k' : kernel) (i : Z) (o : option task_address_space) : Prop := {
  st_slot : in_table i;
  st_others : ∀ j, in_table j → j ≠ i → get_task k' j = get_task k j;
  st_space : own_space k' i = o;
  st_sane : sane (get_task k i) → 0 ≤ task_current_cwd k → sane (get_task k' i);
  st_fds : fds k' = (minifs_process_fork (task_current_pid k) (next_pid k) (fds k)).2;
}.

Lemma slotted_memory k m k' i o : slotted (k <| memory := m |>) k' i o → slotted k k' i o.
Proof. by intros [H1 H2 H3 H4 H5]. Qed.

Lemma fork_slotted ts tf epc child k r k' :
  kernel_ok k → task_current_state k = TASK_RUNNING → task_fork_from_trap ts tf epc child k = (r, k') →
  (r = -1 ∧ k' = k) ∨ memory k' = memory k ∧ ∃ i, slotted k k' i (if r <? 0 then None else Some child).
Proof.
  intros Hok Hrun. pose proof (ok_len _ Hok) as Hl. destruct (ok_current _ Hok) as (cur & Ec & Hcur & _).
  pose proof (so_next _ (to_slots _ Hok) : 1 ≤ next_pid k) as Hnext.
  unfold task_current_state in Hrun. unfold task_fork_from_trap. rewrite Ec in *.
  destruct (_ <=? _); [intros [= <- <-]; by left|]. destruct (free_slot k) as [i|] eqn:Ef; [|intros [= <- <-]; by left].
  apply free_slot_spec in Ef as (Hi & _ & Hu). cbv zeta.
  match goal with |- context [upd_task i ?g k] => set (f := g) end.
  set (k1 := upd_task i f k).
  assert (∀ j, in_table j → get_task k1 j = if decide (j = i) then f (get_task k i) else get_task k j) as Hg
    by (intros j Hj; by apply get_task_upd).
  assert (task_current_pid k = pid (get_task k cur) ∧ task_current_cwd k = cwd_inode (get_task k cur)) as [Ep Ecw]
    by (unfold task_current_pid, task_current_cwd; by rewrite Ec).
  assert (∀ nm, bytes nm → bytes (copy_name nm (Some str_fork_child))) as Hnm.
  { intros nm Hn. by apply copy_name_bytes; [|apply byte_list]. }
  pose proof (Hg i Hi) as Hgi. rewrite decide_True in Hgi by done.
  match goal with |- context [minifs_process_fork (pid ?t) ?n ?d] =>
    change (minifs_process_fork (pid t) n d) with (minifs_process_fork (pid (get_task k1 cur)) (next_pid k) (fds k)) end.
  rewrite Hg, decide_False, <- Ep by (done || congruence).
  destruct (minifs_process_fork (task_current_pid k) (next_pid k) (fds k)) as [rc fd] eqn:Em.
  set (k2 := _ <| fds := fd |>).
  assert (length (tasks k2) = 16%nat) as Hl2 by exact (length_tasks_upd_16 k i f Hl).
  destruct (rc <? 0) eqn:Erc; intros [<- <-]%pair_equal_spec.
  - right. split; [done|]. exists i. match goal with |- context [upd_task i ?g0 k2] => set (g := g0) end. set (k3 := upd_task i g k2).
    assert (∀ j, in_table j → get_task k3 j = if decide (j = i) then g (get_task k2 i) else get_task k1 j) as Hg3
      by (intros j Hj; exact (get_task_upd k2 i g j Hl2 Hi Hj)).
    pose proof (Hg3 i Hi) as Hg3i. rewrite decide_True in Hg3i by done. change (get_task k2 i) with (get_task k1 i) in Hg3i.
    split; [exact Hi| | | |by rewrite Em].
    + intros j Hj Hne. change (get_task k3 j = get_task k j). rewrite Hg3, decide_False by done. by rewrite Hg, decide_False.
    + unfold own_space. change (get_task (_ <| task_count := _ |>) i) with (get_task k3 i). by rewrite Hg3i.
    + intros [_ Hn] Hc. change (sane (get_task k3 i)). rewrite Hg3i, Hgi. split; [|by apply Hnm].
      change (0 ≤ cwd_inode (get_task k cur)). by rewrite <- Ecw.
  - right. split; [done|]. exists i. bsimp. change (own_space k2 i) with (own_space k1 i).
    split; [exact Hi| | | |by rewrite Em].
    + intros j Hj Hne. change (get_task k1 j = get_task k j). by rewrite Hg, decide_False.
    + change (own_space k1 i = if next_pid k <? 0 then None else Some child). rewrite (proj2 (Z.ltb_ge _ _)) by lia.
      unfold own_space. by rewrite Hgi.
    + intros [_ Hn] Hc. change (sane (get_task k1 i)). rewrite Hgi. split; [|by apply Hnm].
      change (0 ≤ cwd_inode (get_task k cur)). by rewrite <- Ecw.
Qed.


Section ends.
Context {D : Type} `{HD : BlockDriver D}.
Context (start : Z) (v : vm_state) (key : Z → Z) (task_stacks : Z).
Implicit Types (s : system D).
Local Abbreviation system_ok := (system_ok start v).
Local Abbreviation ready := (ready start v).
Local Abbreviation calls := (calls start v).

Lemma closed_good s f : files_good (files_of s) → closed (fds (sy_kernel s)) f → files_good ((files_of s) <| f_fds := f |>).
Proof.
  intros Hg [->|[p ->]]; [exact Hg|]. apply step_fds; [exact Hg|apply minifs_close_all_inv, Hg|apply quiet_close_all].
Qed.

Lemma with_fds s k' f : fds k' = f → files_of (s <| sy_kernel := k' |>) = (files_of s) <| f_fds := f |>.
Proof. by intros <-. Qed.

(** A kernel operation that only schedules, and closes the descriptors of the dead. *)
Lemma ok_step s k' f : system_ok s → kernel_ok k' → closed (fds (sy_kernel s)) f →
  look k' = look ((sy_kernel s) <| fds := f |>) → system_ok (s <| sy_kernel := k' |>).
Proof.
  intros [Ht Hg [F Hs] Hta Hb] Hk Hf El.
  assert (memory k' = memory (sy_kernel s) ∧ fds k' = f) as [Em Ef] by (unfold look in El; by injection El as _ -> ->).
  split; [exact Hk|rewrite (with_fds s k' f Ef); by apply closed_good| |intros i Hi|exact Hb].
  - exists F. cbn [sy_kernel set_field]. change (spaces_ok start v F (memory k') (own_space k')). rewrite Em.
    eapply spaces_ext; [|exact Hs]. intros i _. exact (look_space _ k' i El).
  - change (sane (get_task k' i)). pose proof (look_get _ k' i El) as Hv. unfold view in Hv. injection Hv as E1 E2 _ _.
    unfold sane. rewrite E1, E2. by apply Hta.
Qed.

Lemma ok_look s k' : system_ok s → kernel_ok k' → look k' = look (sy_kernel s) → system_ok (s <| sy_kernel := k' |>).
Proof. intros Hs Hk El. apply (ok_step s k' (fds (sy_kernel s))); [done|done|by left|exact El]. Qed.

Section caller.
Context (c : Z) (sp : task_address_space).

Definition ends {A} (m : sys_m D A) : Prop := ∀ s, ready c sp s → ∃ a s', m s = inr (a, s') ∧ system_ok s'.

Lemma calls_ends {A} (m : sys_m D A) Q : calls c sp m Q → ends m.
Proof. intros Hm s Hs. destruct (Hm s Hs) as (a & s' & E & _ & Hr & _). exists a, s'. split; [done|]. by eapply rd_ok. Qed.

Lemma ends_bind {A B} (m : sys_m D A) (k : A → sys_m D B) Q : calls c sp m Q → (∀ a, Q a → ends (k a)) → ends (bind m k).
Proof.
  intros Hm Hk s Hs. destruct (Hm s Hs) as (a & s1 & E & _ & Hs1 & Ha). unfold bind. rewrite E. by apply Hk.
Qed.

Lemma ends_then {A B} (m : sys_m D A) (f : A → B) : ends m → ends (bind m (λ a, ret (f a))).
Proof. intros Hm s Hs. destruct (Hm s Hs) as (a & s1 & E & H1). exists (f a), s1. unfold bind. by rewrite E. Qed.

Lemma ready_state s : ready c sp s → task_current_state (sy_kernel s) = TASK_RUNNING ∧ task_current_pid (sy_kernel s) ≠ 0.
Proof.
  intros Hr. unfold task_current_state, task_current_pid. rewrite (rd_current _ _ _ _ _ Hr).
  split; [apply (rd_running _ _ _ _ _ Hr)|apply (rd_pid _ _ _ _ _ Hr)].
Qed.

Lemma ends_exit code : ends (sys_exit code).
Proof.
  intros s Hs. pose proof (rd_ok _ _ _ _ _ Hs) as Hok. unfold sys_exit, bind, on_kernel, ask. cbn [fst snd].
  set (k' := task_exit (i32 code) (sy_kernel s)).
  assert (task_current_state k' = TASK_ZOMBIE) as Ez.
  { destruct (task_exit_dead (sy_kernel s) (i32 code) c) as (Hz & _ & _ & _ & _ & Hcur & _); [apply Hok|..].
    - apply (rd_current _ _ _ _ _ Hs).
    - intros ->. apply (rd_pid _ _ _ _ _ Hs). apply (ok_idle _ (sok_table _ _ _ Hok)).
    - unfold task_current_state, k'. rewrite Hcur, (rd_current _ _ _ _ _ Hs). exact Hz. }
  change (sy_kernel (s <| sy_kernel := k' |>)) with k'. rewrite Ez, bool_decide_true by done.
  exists tt, (s <| sy_kernel := k' |>). split; [done|]. destruct (look_exit (i32 code) (sy_kernel s)) as (f & Hf & El).
  eapply ok_step; [exact Hok|apply task_exit_ok, Hok|exact Hf|exact El].
Qed.

Lemma ends_kill p signal : ends (sys_kill p signal).
Proof.
  unfold sys_kill. set (sg := if signal =? 0 then _ else _). destruct (_ && _); [eapply calls_ends; by apply (calls_ret _ _ _ _ _ (λ _, True))|].
  apply ends_then. intros s Hs. pose proof (rd_ok _ _ _ _ _ Hs) as Hok. unfold on_kernel.
  destruct (look_kill (i32 p) (128 + sg) (sy_kernel s)) as (f & Hf & El).
  pose proof (task_kill_ok (sy_kernel s) (i32 p) (128 + sg) (sok_table _ _ _ Hok)) as Hk.
  destruct (task_kill (i32 p) (128 + sg) (sy_kernel s)) as [r k']. eexists _, _. split; [done|]. by eapply ok_step.
Qed.
(** *** wait *)

Lemma reap_ok_system s i : system_ok s → in_table i → state (get_task (sy_kernel s) i) = TASK_ZOMBIE →
  current (sy_kernel s) ≠ Some i → system_ok (s <| sy_kernel := reap i (sy_kernel s) |>).
Proof.
  intros Hok Hi Hz Hcur. destruct Hok as [Ht Hg [F Hs] Hta Hb]. pose proof (ok_len _ Ht) as Hl. set (k := sy_kernel s) in *.
  destruct (reap_spec k i Hl Hi) as [Ro Rs [Rc Rn] Rm Rf].
  split; [by apply reap_ok| | |intros j Hj|exact Hb].
  - rewrite (with_fds s _ _ Rf). apply closed_good; [exact Hg|]. right. by eexists.
  - change (∃ F, spaces_ok start v F (memory (reap i k)) (own_space (reap i k))).
    assert (∀ j, in_table j → j ≠ i → own_space (reap i k) j = own_space k j) as Eo
      by (intros j Hj Hne; unfold own_space; by rewrite Ro).
    assert (i ∈ seqZ 0 16) as Hiq by (apply elem_of_seqZ; unfold in_table in Hi; lia).
    destruct (own_space k i) as [child|] eqn:Es.
    + destruct (spc_each _ _ _ _ _ Hs i child Hi Es) as [Hsp Hh].
      destruct (user_space_destroy_spec start v F (memory k) child (spc_kmem _ _ _ _ _ Hs) Hh) as (m & E & Hk & Ho);
        [apply (sl_count _ (so_list _ _ _ Hsp))|]. rewrite E in Rm. cbn [snd] in Rm. rewrite Rm.
      exists (list_to_set (space_pages child) ∪ F).
      eapply (spaces_change start v F _ _ m _ _ i (space_pages child)); [exact Hs|exact Hk|by left|exact Eo| |..]; rewrite ?Es.
      * rewrite Rs. done.
      * intros p. rewrite elem_of_union, elem_of_list_to_set. cbn. tauto.
      * exact Ho.
      * intros p Hp. by right.
    + exists F. rewrite Rm. eapply spaces_ext; [|exact Hs]. intros j Hj.
      destruct (decide (j = i)) as [->|Hne]; [by rewrite Rs, Es|by apply Eo].
  - change (sane (get_task (reap i k) j)). destruct (decide (j = i)) as [->|Hne]; [|rewrite Ro by done; by apply Hta].
    destruct (Hta i Hi) as [Hc Hn]. unfold sane. rewrite Rc, Rn. split; [exact Hc|]. by apply aset_bytes.
Qed.

Lemma reap_ready s i : ready c sp s → in_table i → i ≠ c → state (get_task (sy_kernel s) i) = TASK_ZOMBIE →
  ready c sp (s <| sy_kernel := reap i (sy_kernel s) |>).
Proof.
  intros [Hok Hcur Hc Hrun Hp Hsp] Hi Hne Hz. destruct (reap_spec (sy_kernel s) i) as [Ro _ _ _ _]; [|done|].
  { apply ok_len, Hok. }
  assert (get_task (reap i (sy_kernel s)) c = get_task (sy_kernel s) c) as Ec by by apply Ro.
  pose proof (reap_current (sy_kernel s) i) as Ecur.
  pose proof (reap_ok_system s i Hok Hi Hz) as Hok'. set (k' := reap i (sy_kernel s)) in *. clearbody k'. split.
  - apply Hok'. rewrite Hcur. congruence.
  - exact (eq_trans Ecur Hcur).
  - exact Hc.
  - change (state (get_task k' c) = TASK_RUNNING). by rewrite Ec.
  - change (pid (get_task k' c) ≠ 0). by rewrite Ec.
  - change (own_space k' c = Some sp). unfold own_space. rewrite Ec. exact Hsp.
Qed.

(** The status is stored if it is asked for. *)
Lemma ends_store (b : bool) status bs (r : Z) : bytes bs →
  ends (if b && negb (status =? 0) then let& stored := copy_out status bs in ret (if stored then r else FAIL) else ret r).
Proof.
  intros Hb. destruct (_ && _); [|eapply calls_ends; by apply (calls_ret _ _ _ _ _ (λ _, True))].
  apply ends_then. by eapply calls_ends, calls_copy_out.
Qed.

Lemma ends_waitpid p status options : ends (sys_waitpid p status options).
Proof.
  intros s Hs. pose proof (rd_ok _ _ _ _ _ Hs) as Hok. destruct (ready_state s Hs) as [Hrun Hpid].
  pose proof (sok_table _ _ _ Hok) as Ht. unfold sys_waitpid.
  set (nohang := negb (Z.land options 1 =? 0)). set (k := sy_kernel s) in *.
  pose proof (task_waitpid_spec k (i32 p) nohang c Ht (rd_current _ _ _ _ _ Hs)) as Hw.
  unfold bind at 1, on_kernel at 1. change (sy_kernel s) with k.
  destruct (task_waitpid (i32 p) nohang k) as [[r st] k'] eqn:E.
  destruct Hw as [(i & (Hi & Hi0 & Hm) & Hz & _ & -> & -> & ->)|[(_ & _ & -> & Hr)|(_ & -> & -> & ->)]].
  - pose proof (wait_child_ne k c i (i32 p) Ht (rd_slot _ _ _ _ _ Hs) Hi Hi0 Hm) as Hne.
    pose proof (reap_ready s i Hs Hi Hne Hz) as Hs'. fold k in Hs'.
    exact (ends_store _ status (le32 (exit_code (get_task k i))) (u64 (pid (get_task k i))) (le_encode_bytes _ _) _ Hs').
  - assert (r ≤ 0 ∧ look k' = look k) as [Hr0 El].
    { destruct nohang; destruct Hr as [-> ->]; (split; [done|]); [done|by apply look_upd]. }
    rewrite (proj2 (Z.ltb_ge 0 r)) by done. cbn [andb]. eexists _, _. split; [reflexivity|].
    apply ok_look; [exact Hok| |exact El]. change k' with (r, None : option Z, k').2. rewrite <- E.
    by apply task_waitpid_ok.
  - cbn [Z.ltb Z.compare andb]. eexists _, _. split; [reflexivity|]. by apply ok_look.
Qed.
(** *** fork *)

(** The space of slot [i] is replaced by [o], whose pages were free; the other spaces
    stay. *)
Lemma slotted_spaces F F' m' k k' i o :
  spaces_ok start v F (memory k) (own_space k) → slotted k k' i o → kmem start v F' m' →
  same_outside (elements F) (ram (memory k)) (ram m') → F' ⊆ F →
  (∀ child, o = Some child → space_in start v F' (ram m') child ∧ ∀ p, p ∈ space_pages child → p ∈ F) →
  spaces_ok start v F' m' (own_space k').
Proof.
  intros Hs [Hi Ho Hsp _ _] Hk Hso HF Hc.
  eapply (spaces_change start v F F' _ m' _ _ i (elements F)); [exact Hs|exact Hk| | | | |exact Hso|].
  - left. apply elem_of_seqZ. unfold in_table in Hi. lia.
  - intros j Hj Hne. unfold own_space. by rewrite Ho.
  - intros child _ E. rewrite Hsp in E. destruct (Hc child E) as [Hin Hp]. split; [exact Hin|]. intros p Hpp. left. by apply Hp.
  - intros p Hp. left. by apply HF.
  - intros p Hp%elem_of_elements. by left.
Qed.

Lemma forked_ok s k' m' i o F' :
  system_ok s → task_current_pid (sy_kernel s) ≠ next_pid (sy_kernel s) → 0 ≤ task_current_cwd (sy_kernel s) →
  slotted (sy_kernel s) k' i o → kernel_ok k' →
  spaces_ok start v F' m' (own_space k') → system_ok (s <| sy_kernel := k' <| memory := m' |> |>).
Proof.
  intros [Ht Hg _ Hta Hb] Hne Hcw [Hi Ho Hsp Hsa Hf] Hk Hs'. split; [by apply ok_memory| |by exists F'| |exact Hb].
  - change (files_good ((files_of s) <| f_fds := fds k' |>)). rewrite Hf. apply step_fds; [exact Hg| |apply quiet_process_fork].
    destruct (minifs_process_fork (task_current_pid (sy_kernel s)) (next_pid (sy_kernel s)) (fds (sy_kernel s))) as [rc f] eqn:E.
    by destruct (minifs_process_fork_spec _ _ _ _ _ (fg_fds _ Hg) Hne E).
  - intros j Hj. change (sane (get_task k' j)). destruct (decide (j = i)) as [->|Hji]; [apply Hsa; [by apply Hta|done]|].
    rewrite Ho by done. by apply Hta.
Qed.

Lemma own_space_out k : length (tasks k) = 16%nat → own_space k 16 = None.
Proof. intros Hl. unfold own_space, get_task, aget. by rewrite lookup_ge_None_2 by (rewrite Hl; done). Qed.

(** A change of the memory outside the pages of all processes. *)
Lemma ok_free_memory s m' F :
  system_ok s → spaces_ok start v F (memory (sy_kernel s)) (own_space (sy_kernel s)) → kmem start v F m' →
  same_outside (elements F) (ram (memory (sy_kernel s))) (ram m') →
  system_ok (s <| sy_kernel := (sy_kernel s) <| memory := m' |> |>).
Proof.
  intros [Ht Hg _ Hta Hb] Hs Hk Ho. split; [by apply ok_memory|exact Hg| |exact Hta|exact Hb]. exists F.
  eapply (spaces_change start v F F _ m' _ _ 16 (elements F)); [exact Hs|exact Hk| | | | |exact Ho|].
  - right. apply own_space_out, (ok_len _ Ht).
  - done.
  - intros ? Hi. unfold in_table in Hi. lia.
  - auto.
  - intros p Hp%elem_of_elements. by left.
Qed.

Lemma current_not_next s : ready c sp s → task_current_pid (sy_kernel s) ≠ next_pid (sy_kernel s).
Proof.
  intros Hr. pose proof (sok_table _ _ _ (rd_ok _ _ _ _ _ Hr)) as Ht. unfold task_current_pid. rewrite (rd_current _ _ _ _ _ Hr).
  pose proof (rd_pid _ _ _ _ _ Hr). pose proof (rd_running _ _ _ _ _ Hr) as Hrun. intros E.
  destruct (decide (c = 0)) as [->|Hc0]; [pose proof (ok_idle _ Ht); tauto|].
  assert (used (slot_at (tb_slots (table (sy_kernel s))) c)) as Hu by (rewrite slot_of_get; unfold used; cbn; by rewrite Hrun).
  pose proof (so_range _ (to_slots _ Ht) c (rd_slot _ _ _ _ _ Hr) Hc0 Hu) as Hx. rewrite slot_of_get in Hx.
  cbn [slot_of sl_pid tb_next table] in Hx. lia.
Qed.

Lemma ends_fork tf s : ready c sp s → next_pid (sy_kernel s) < 2 ^ 31 - 1 →
  ∃ a s', sys_fork task_stacks v tf s = inr (a, s') ∧ system_ok s'.
Proof.
  intros Hs Hmax. pose proof (rd_ok _ _ _ _ _ Hs) as Hok. destruct (ready_state s Hs) as [Hrun Hpid].
  destruct (ready_list start v c sp s Hs) as (_ & _ & Esp). pose proof (ready_cwd start v c sp s Hs) as Hcw.
  pose proof (current_not_next s Hs) as Hne. destruct (sok_spaces _ _ _ Hok) as [F Hsp].
  pose proof (sok_table _ _ _ Hok) as Ht. pose proof (spc_kmem _ _ _ _ _ Hsp) as Hk.
  pose proof (spc_each _ _ _ _ _ Hsp c sp (rd_slot _ _ _ _ _ Hs) (rd_space _ _ _ _ _ Hs)) as Hin.
  unfold sys_fork. rewrite Esp. set (k := sy_kernel s) in *.
  destruct (user_space_clone v zero_space sp (memory k)) as [[rc child] m] eqn:Ec.
  destruct (user_space_clone_spec start v F (memory k) sp Hin zero_space rc child m Hk Ec)
    as [[-> (F' & Hk' & Hin' & HF & Hcnt & Ho & _)]|(-> & _ & Hk' & Ho & _)]; cbn [Z.ltb Z.compare].
  2:{ eexists _, _. split; [reflexivity|]. by eapply ok_free_memory. }
  set (k1 := k <| memory := m |>).
  destruct (task_fork_from_trap task_stacks tf (u64 (trap_epc_read (csrs k1) + 4)) child k1) as [r k'] eqn:Ef.
  assert (kernel_ok k1) as Hok1 by by apply ok_memory.
  pose proof (task_fork_ok task_stacks tf (u64 (trap_epc_read (csrs k1) + 4)) child k1 Hok1 Hrun Hmax) as Hk2.
  rewrite Ef in Hk2. cbn [snd] in Hk2.
  assert (∃ m2, user_space_destroy child m = (zero_space, m2) ∧ kmem start v F m2 ∧
    same_outside (elements F) (ram (memory k)) (ram m2)) as (m2 & Ed & Hkd & Hod).
  { destruct (user_space_destroy_spec start v F' m child Hk' (proj2 Hin')) as (m2 & Ed & Hkd & Hod).
    { rewrite Hcnt. apply (sl_count _ (so_list _ _ _ (proj1 Hin))). }
    exists m2. rewrite <- HF in Hkd. split; [exact Ed|]. split; [exact Hkd|]. etrans; [exact Ho|].
    eapply same_outside_mono; [|exact Hod]. intros p Hp. rewrite elem_of_elements, HF. set_solver. }
  destruct (fork_slotted _ _ _ _ _ _ _ Hok1 Hrun Ef) as [[-> ->]|(Em & i & Hsl%slotted_memory)].
  - cbn [Z.ltb Z.compare]. change (memory k1) with m. rewrite Ed.
    eexists _, _. split; [reflexivity|]. by eapply (ok_free_memory s m2).
  - rewrite Em. change (memory k1) with m. destruct (r <? 0).
    + rewrite Ed. eexists _, _. split; [reflexivity|]. eapply (forked_ok s k' m2 i None F); [done..| |done|].
      * exact Hsl.
      * by eapply (slotted_spaces F F m2 k k' i None).
    + eexists _, _. split; [reflexivity|]. assert (k' <| memory := m |> = k') as Ek by (rewrite <- (Em : memory k' = m); by destruct k').
      rewrite <- Ek. eapply (forked_ok s k' m i (Some child) F'); [done..|exact Hsl|done|].
      eapply (slotted_spaces F F' m k k' i (Some child)); try done; [rewrite HF; set_solver|].
      intros ? [= <-]. split; [exact Hin'|]. intros p Hp. rewrite HF. set_solver.
Qed.
(** *** execve *)

Definition strings (l : list (list Z)) : Prop := Forall (λ str, bytes str) l.

Lemma calls_vector n i vec total : calls c sp (vector_loop n i vec total) (λ r, ∀ l t, r = Some (l, t) → strings l).
Proof.
  revert i total. induction n as [|n IH]; intros i total; cbn [vector_loop].
  - eapply calls_bind; [apply calls_copy_in; [apply u64_range|done]|]. intros [t|] _; apply calls_ret; [|done].
    intros l t'. destruct (_ =? 0); [|done]. intros [= <- _]. constructor.
  - eapply calls_bind; [apply calls_copy_in; [apply u64_range|done]|]. intros [p|] Hp; [|by apply calls_ret].
    destruct (Hp p eq_refl) as [Hb Hlen]. destruct (_ =? 0); [apply calls_ret; intros ? ? [= <- _]; constructor|].
    eapply calls_bind.
    { apply calls_string. pose proof (le_decode_range p Hb) as Hr. replace (length p) with 8%nat in Hr by lia. exact Hr. }
    intros [str|] Hs; [|by apply calls_ret]. destruct (_ <? _); [by apply calls_ret|].
    eapply calls_bind; [apply IH|]. intros [[l t]|] Hl; apply calls_ret; [|done].
    intros ? ? [= <- _]. constructor; [by apply Hs|by eapply Hl].
Qed.

Lemma calls_vectors vec maximum total :
  calls c sp (copy_string_vector vec maximum total) (λ r, ∀ l t, r = Some (l, t) → strings l).
Proof.
  unfold copy_string_vector. destruct (_ =? 0); [apply calls_ret; intros ? ? [= <- _]; constructor|apply calls_vector].
Qed.

Lemma executed_ok s F k' f' argv envp p nm :
  ready c sp s → spaces_ok start v F (memory (sy_kernel s)) (own_space (sy_kernel s)) →
  replaced start v F (sy_kernel s) k' c argv envp p → fs_good f' → bytes nm →
  system_ok (s <| sy_kernel := task_set_current_name (Some nm)
      (k' <| fds := minifs_close_exec_fds (task_current_pid k') (fds k') |>) |> <| sy_fs := f' |>).
Proof.
  intros Hr Hs [Ro (Rc & En & Ru) [Rt Rf] Rout _ (F' & Hk & Hin & HF) _ _] Hf Hnm.
  pose proof (rd_ok _ _ _ _ _ Hr) as Hok. destruct Hok as [Ht Hg _ Hta Hb]. pose proof (rd_slot _ _ _ _ _ Hr) as Hc.
  pose proof (rd_space _ _ _ _ _ Hr) as Hsp. set (k := sy_kernel s) in *.
  assert (kernel_ok k') as Hk' by by apply (ok_same k). pose proof (ok_len _ Hk') as Hl.
  assert (current k' = Some c) as Ec.
  { injection Rt as _ E _ _. rewrite E. apply (rd_current _ _ _ _ _ Hr). }
  set (k1 := k' <| fds := _ |>). unfold task_set_current_name. change (current k1) with (current k'). rewrite Ec.
  set (k2 := upd_task c _ k1).
  assert (∀ i, in_table i → get_task k2 i = if decide (i = c)
    then (get_task k' c) <| name := copy_name (name (get_task k' c)) (Some nm) |> else get_task k' i) as Hg2
    by (intros i Hi; exact (get_task_upd k1 c _ i Hl Hc Hi)).
  pose proof (Hg2 c Hc) as Hgc. rewrite decide_True in Hgc by done.
  assert (own_space k c = Some (address_space (get_task k c))) as Eo.
  { unfold own_space in *. by destruct (has_user_space (get_task k c)). }
  assert (own_space k2 c = Some (address_space (get_task k' c))) as Eo2.
  { unfold own_space. rewrite Hgc. change (has_user_space (_ <| name := _ |>)) with (has_user_space (get_task k' c)).
    by rewrite Ru. }
  split.
  - change (kernel_ok k2). apply ok_upd_same; [done|done|done].
  - change (files_good (MkFiles f' (minifs_close_exec_fds (task_current_pid k') (fds k')) (sy_out s) (sy_keys s))).
    rewrite Rf. destruct Hg as [_ G2 G3]. split; [exact Hf|by apply minifs_close_exec_fds_inv|].
    eapply quiet_offsets; [apply quiet_close_exec|exact G3].
  - exists F'. change (spaces_ok start v F' (memory k') (own_space k2)).
    eapply (spaces_change start v F F' _ _ _ _ c (space_pages (address_space (get_task k c)) ++ elements F));
      [exact Hs|exact Hk| | | | |exact Rout|]; rewrite ?Eo.
    + left. apply elem_of_seqZ. unfold in_table in Hc. lia.
    + intros i Hi Hne. unfold own_space. rewrite Hg2, decide_False by done. by rewrite Ro.
    + intros sp' _ E. rewrite Eo2 in E. injection E as <-. split; [exact Hin|]. intros q Hq.
      apply (exchanged _ _ _ _ q HF). by left.
    + intros q Hq. apply (exchanged _ _ _ _ q HF). by right.
    + intros q [Hq|Hq]%elem_of_app; [by right|left; by apply elem_of_elements].
  - intros i Hi. change (sane (get_task k2 i)). rewrite Hg2 by done. case_decide as E.
    + split; [change (0 ≤ cwd_inode (get_task k' c)); rewrite Rc; by apply Hta|].
      apply copy_name_bytes; [rewrite En; by apply Hta|exact Hnm].
    + rewrite Ro by done. by apply Hta.
  - exact Hb.
Qed.
(** What [sys_execve] does once its strings are in the kernel. *)
Definition load_and_go (tf path : list Z) (argv envp : list (list Z)) : sys_m D (option (list Z)) := λ s,
  let '(rc, tf, k, f) := user_execve v tf path argv envp (sy_kernel s) (sy_fs s) in
  if rc <? 0 then inr (None, s <| sy_kernel := k |> <| sy_fs := f |>)
  else
    let k := k <| fds := minifs_close_exec_fds (task_current_pid k) (fds k) |> in
    let k := task_set_current_name (Some (path ++ [0])) k in
    inr (Some tf, s <| sy_kernel := k |> <| sy_fs := f |>).

Lemma ends_load tf path argv envp : bytes path → strings argv → strings envp → ends (load_and_go tf path argv envp).
Proof.
  intros Hp Ha He s Hs. pose proof (rd_ok _ _ _ _ _ Hs) as Hok. destruct (sok_spaces _ _ _ Hok) as [F Hsp].
  pose proof (fg_fs _ (sok_files _ _ _ Hok)) as Hfs. pose proof (rd_space _ _ _ _ _ Hs) as Ho.
  pose proof (spc_each _ _ _ _ _ Hsp c sp (rd_slot _ _ _ _ _ Hs) Ho) as Hin.
  assert (has_user_space (get_task (sy_kernel s) c) = true ∧ address_space (get_task (sy_kernel s) c) = sp) as [Hu Ea].
  { unfold own_space in Ho. destruct (has_user_space _); [|done]. by injection Ho. }
  unfold load_and_go. destruct (user_execve v tf path argv envp (sy_kernel s) (sy_fs s)) as [[[rc tf'] k'] f'] eqn:E.
  destruct (user_execve_outcome start v F (sy_fs s) tf path argv envp (sy_kernel s) c rc tf' k' f') as [Hlike Hr].
  - apply Hsp.
  - exact Hfs.
  - apply (rd_current _ _ _ _ _ Hs).
  - apply (rd_slot _ _ _ _ _ Hs).
  - apply (ok_len _ (sok_table _ _ _ Hok)).
  - exact Hu.
  - by rewrite Ea.
  - by eapply ready_cwd.
  - exact Ha.
  - exact He.
  - exact E.
  - destruct (good_like _ _ Hfs Hlike) as [Hfs' _].
    destruct Hr as [(-> & -> & Ek & Hk & Hso)|(-> & p & -> & Hrep)]; cbn [Z.ltb Z.compare].
    + eexists _, _. split; [reflexivity|]. rewrite Ek.
      pose proof (ok_free_memory s (memory k') F Hok Hsp Hk Hso) as [O1 O2 O3 O4 O5].
      split; [exact O1|by destruct O2|exact O3|exact O4|exact O5].
    + eexists _, _. split; [reflexivity|]. eapply executed_ok; [exact Hs|exact Hsp|exact Hrep|exact Hfs'|].
      apply Forall_app_2; [exact Hp|by apply byte_list].
Qed.

Lemma ends_execve tf path argv envp : is_u64 path → ends (sys_execve v tf path argv envp).
Proof.
  intros Hp. eapply ends_bind; [by apply calls_path|]. intros [q|] Hq; [|eapply calls_ends; by apply (calls_ret _ _ _ _ _ (λ _, True))].
  eapply ends_bind; [apply calls_vectors|]. intros [[a t]|] Ha; [|eapply calls_ends; by apply (calls_ret _ _ _ _ _ (λ _, True))].
  eapply ends_bind; [apply calls_vectors|]. intros [[e t']|] He; [|eapply calls_ends; by apply (calls_ret _ _ _ _ _ (λ _, True))].
  apply (ends_load tf q (match a with [] => [q] | _ => a end) e); [by apply Hq| |by eapply He].
  destruct a; [|by eapply Ha]. constructor; [by apply Hq|constructor].
Qed.

(** ** Every call *)

(** A process is created only while there are pids left. *)
Definition pids_left (tf : list Z) s : Prop := aget 0 tf 17 = SYS_FORK → next_pid (sy_kernel s) < 2 ^ 31 - 1.

Lemma ends_answer tf call : ends call → ends (answer tf call).
Proof. apply ends_then. Qed.

Lemma dispatch_ends tf s : frame_ok tf → ready c sp s → pids_left tf s →
  ∃ a s', syscall_dispatch key task_stacks v tf s = inr (a, s') ∧ system_ok s'.
Proof.
  intros Hf Hs Hpids. pose proof (frame_reg tf 10 Hf) as H10.
  destruct (decide (ordinary (aget 0 tf 17))) as [Ho|Ho].
  { by apply (calls_ends _ _ (dispatch_ordinary start v key c sp task_stacks tf Hf Ho)). }
  unfold ordinary in Ho. apply dec_stable in Ho. unfold syscall_dispatch. unfold pids_left in Hpids.
  rewrite !elem_of_cons, elem_of_nil in Ho.
  destruct Ho as [E|[E|[E|[E|[E|[E|[E|[]]]]]]]]; rewrite E in *.
  - exact (ends_then _ (λ _, (0, tf)) (ends_exit (aget 0 tf 10)) s Hs).
  - exact (ends_answer tf _ (ends_waitpid (2 ^ 64 - 1) 0 0) s Hs).
  - exact (ends_answer tf _ (ends_waitpid (aget 0 tf 10) (aget 0 tf 11) (aget 0 tf 12)) s Hs).
  - destruct (ends_fork tf s Hs (Hpids eq_refl)) as (a & s' & Ef & Hok). exists (0, aset tf reg_a0 a), s'.
    split; [|exact Hok]. change (answer tf (sys_fork task_stacks v tf) s = inr (0, aset tf reg_a0 a, s')).
    unfold answer, bind. by rewrite Ef.
  - destruct (ends_execve tf (aget 0 tf 10) (aget 0 tf 11) (aget 0 tf 12) H10 s Hs) as (r & s' & Ex & Hok).
    exists (match r with Some tf => (1, tf) | None => (0, aset tf reg_a0 FAIL) end), s'. split; [|exact Hok].
    change (bind (sys_execve v tf (aget 0 tf 10) (aget 0 tf 11) (aget 0 tf 12)) (λ r,
      match r with Some tf => ret (1, tf) | None => ret (0, aset tf reg_a0 FAIL) end) s =
      inr (match r with Some tf => (1, tf) | None => (0, aset tf reg_a0 FAIL) end, s')).
    unfold bind. rewrite Ex. by destruct r.
  - exists (2, tf), s. split; [reflexivity|apply (rd_ok _ _ _ _ _ Hs)].
  - exact (ends_answer tf _ (ends_kill (aget 0 tf 10) (aget 0 tf 11)) s Hs).
Qed.
End caller.
End ends.
