(* ===== verification/TrapSpec.v ===== *)
(** * Every trap keeps the system consistent

    [system_step] is what happens on the machine once the first process runs: a process
    runs in user mode, it traps, an interrupt or another exception arrives.
    [system_consistent] is the invariant of all of it, and says that the handler always
    returns; [ordinary_call_effect] is what a process sees of one of its calls. *)

From S2P Require Import Prelude Csr Mem Vm Device CpuType Console Block FdTable MiniFs FsLayout FsFile FsWrite FsOps FsInv.
From S2P Require Import FsFiles AddrSpace UserMem Task Process Lifecycle Exec ExecSpec Isolation Syscall SyscallSpec Trap.
From S2P Require Import SystemSpec.

Section traps.
Context {D : Type} `{HD : BlockDriver D}.
Context (start : Z) (v : vm_state) (key : Z → Z) (task_stacks : Z).
Implicit Types (s : system D).
Local Abbreviation system_ok := (system_ok start v).
Local Abbreviation ready := (ready start v).

(** ** Running a handler *)

Definition runs {A} (P : system D → Prop) (m : sys_m D A) (Q : A → system D → Prop) : Prop :=
  ∀ s, P s → ∃ a s', m s = inr (a, s') ∧ Q a s'.

Lemma runs_ret {A} (P : system D → Prop) (a : A) : runs P (ret a) (λ b s, b = a ∧ P s).
Proof. intros s Hs. by exists a, s. Qed.

Lemma runs_bind {A B} P (m : sys_m D A) (f : A → sys_m D B) R Q :
  runs P m R → (∀ a, runs (R a) (f a) Q) → runs P (bind m f) Q.
Proof.
  intros Hm Hf s Hs. destruct (Hm s Hs) as (a & s1 & E & Ha). unfold bind. rewrite E. by apply Hf.
Qed.

Lemma runs_conseq {A} P (m : sys_m D A) (R Q : A → system D → Prop) :
  runs P m R → (∀ a s, R a s → Q a s) → runs P m Q.
Proof. intros Hm HQ s Hs. destruct (Hm s Hs) as (a & s' & E & Ha). exists a, s'. auto. Qed.

(** Printing changes the console alone. *)
Definition printable (P : system D → Prop) : Prop := ∀ s out, P s → P (s <| sy_out := out |>).

Lemma runs_say P b fmt args : printable P → runs P (say_if b fmt args) (λ _, P).
Proof.
  intros HP s Hs. unfold say_if. destruct b; [|by exists tt, s]. eexists tt, _. split; [reflexivity|]. by apply HP.
Qed.

Lemma runs_banner P b cause epc tval : printable P → runs P (trap_banner b cause epc tval) (λ _, P).
Proof.
  intros HP. unfold trap_banner. do 3 (eapply runs_bind; [by apply runs_say|intros ?; cbn beta]). by apply runs_say.
Qed.

Lemma printable_ok : printable system_ok.
Proof. intros s out [O1 O2 O3 O4 O5]. split; try done. by destruct O2. Qed.

Lemma runs_kernel {A} (m : kernel → A * kernel) :
  (∀ k, kernel_ok k → kernel_ok (m k).2 ∧ look (m k).2 = look k) → runs system_ok (on_kernel m) (λ _, system_ok).
Proof.
  intros Hm s Hs. unfold on_kernel. destruct (Hm (sy_kernel s) (sok_table _ _ _ Hs)) as [Hk El].
  destruct (m (sy_kernel s)) as [a k']. exists a, (s <| sy_kernel := k' |>). split; [done|]. by apply ok_look.
Qed.

Lemma runs_csrs f : runs system_ok (on_csrs f) (λ _, system_ok).
Proof. apply (runs_kernel (λ k, (tt, k <| csrs := f (csrs k) |>))). intros k Hk. split; [by apply ok_csrs|done]. Qed.
Lemma runs_return : runs system_ok prepare_return (λ _, system_ok).
Proof. apply (runs_kernel (λ k, (tt, task_prepare_trap_return k))). intros k Hk. split; [by apply ok_csrs|done]. Qed.

Lemma runs_finish b (tf : list Z) :
  runs system_ok (let& _ := say_if b "=== TRAP END ===" [] in let& _ := prepare_return in ret tf) (λ _, system_ok).
Proof.
  eapply runs_bind; [apply runs_say, printable_ok|]. intros ?. eapply runs_bind; [apply runs_return|]. intros ?.
  eapply runs_conseq; [apply runs_ret|]. by intros ? s [_ ?].
Qed.

Context (now : clock).

Lemma runs_interrupt cause epc tval tf : runs system_ok (handle_interrupt now cause epc tval tf) (λ _, system_ok).
Proof.
  unfold handle_interrupt. eapply (runs_bind _ _ _ (λ _, system_ok)); [intros s Hs; by eexists _, s|]. intros silent. cbn beta.
  eapply runs_bind; [apply runs_banner, printable_ok|]. intros ?. destruct (_ =? 5).
  - do 2 (eapply runs_bind; [apply runs_say, printable_ok|intros ?; cbn beta]).
    eapply (runs_bind _ _ _ (λ _, system_ok)).
    { intros s [O1 O2 O3 O4 O5]. eexists tt, _. split; [reflexivity|]. by split. }
    intros ?. cbn beta. eapply runs_bind; [|intros tf'; apply runs_finish].
    apply runs_kernel. intros k Hk. pose proof (sched_tick_ok k (ck_start now) (ck_stop now) tf Hk) as Hk'.
    pose proof (look_tick (ck_start now) (ck_stop now) tf k) as El.
    destruct (sched_tick (ck_start now) (ck_stop now) tf k) as [[b tf'] k']. done.
  - do 2 (eapply runs_bind; [apply (runs_say _ true), printable_ok|intros ?; cbn beta]). apply runs_finish.
Qed.

(** The process [c] with the space [sp] has trapped with a call. *)
Definition calling (c : Z) (sp : task_address_space) (tf : list Z) s : Prop := ready c sp s ∧ pids_left tf s.

Lemma printable_calling c sp tf : printable (calling c sp tf).
Proof. intros s out [[O1 O2 O3 O4 O5] Hp]. split; [|done]. split; try done. by apply printable_ok. Qed.

Lemma runs_ecall c sp epc tf : frame_ok tf →
  runs (calling c sp tf) (environment_call key task_stacks v now epc tf) (λ _, system_ok).
Proof.
  intros Hf. unfold environment_call. eapply (runs_bind _ _ _ (λ _, system_ok)).
  { intros s [Hs Hp]. by eapply dispatch_ends. }
  intros [code tf']. eapply (runs_bind _ _ _ (λ _, system_ok)); [intros s Hs; by eexists _, s|]. intros st. cbn beta.
  destruct (_ || _).
  - eapply (runs_bind _ _ _ (λ _, system_ok)).
    { destruct (_ && _); [apply runs_csrs|]. eapply runs_conseq; [apply runs_ret|]. by intros ? s [_ ?]. }
    intros ?. cbn beta. eapply (runs_bind _ _ _ (λ _, system_ok)).
    + apply runs_kernel. intros k Hk. pose proof (task_reschedule_ok k (ck_start now) (ck_stop now) tf' Hk) as Hk'.
      pose proof (look_reschedule (ck_start now) (ck_stop now) tf' k) as El.
      destruct (task_reschedule (ck_start now) (ck_stop now) tf' k) as [[b tf2] k']. done.
    + intros [r tf2]. eapply runs_conseq; [apply runs_ret|]. by intros ? s [_ ?].
  - eapply runs_conseq; [apply runs_ret|]. by intros ? s [_ ?].
Qed.

(** What comes after the two cases of the switch. *)
Lemma runs_exception_end (m : sys_m D (bool * list Z)) P epc loud :
  runs P m (λ _, system_ok) →
  runs P (let& (resumed, tf) := m in
    let& _ := say_if loud "=== TRAP END ===" [] in
    let& _ := (if resumed then ret tt else on_csrs (trap_epc_write (u64 (epc + 4)))) in
    let& _ := prepare_return in ret tf) (λ _, system_ok).
Proof.
  intros Hm. eapply runs_bind; [exact Hm|]. intros [resumed tf]. eapply runs_bind; [apply runs_say, printable_ok|].
  intros ?. eapply (runs_bind _ _ _ (λ _, system_ok)).
  { destruct resumed; [|apply runs_csrs]. eapply runs_conseq; [apply runs_ret|]. by intros ? s [_ ?]. }
  intros ?. eapply runs_bind; [apply runs_return|]. intros ?. eapply runs_conseq; [apply runs_ret|]. by intros ? s [_ ?].
Qed.

Definition is_ecall (cause : Z) : Prop := cause = 8 ∨ cause = 9.

Lemma runs_exception P cause epc tval tf :
  printable P → (is_ecall cause → runs P (environment_call key task_stacks v now epc tf) (λ _, system_ok)) →
  (¬ is_ecall cause → ∀ s, P s → system_ok s) →
  runs P (handle_exception key task_stacks v now cause epc tval tf) (λ _, system_ok).
Proof.
  intros HP He Ho. unfold handle_exception. eapply (runs_bind _ _ _ (λ _, P)); [intros s Hs; by eexists _, s|].
  intros silent. cbn beta zeta. eapply runs_bind; [by apply runs_banner|]. intros ?.
  eapply runs_bind; [by apply runs_say|]. intros ?. apply runs_exception_end.
  destruct (cause =? 8) eqn:E8; [|destruct (cause =? 9) eqn:E9]; bsimp.
  - eapply runs_bind; [by apply runs_say|]. intros ?. apply He. by left.
  - eapply runs_bind; [by apply runs_say|]. intros ?. apply He. by right.
  - eapply runs_bind; [by apply (runs_say _ true)|]. intros ?. eapply runs_conseq; [apply runs_ret|].
    intros ? s [_ Hs]. apply (Ho ltac:(by intros [|])). done.
Qed.

(** A trap of a process, with a call, or any other trap. *)
Definition cause_of s : Z := trap_cause_read (csrs (sy_kernel s)).
Definition trapped (tf : list Z) s : Prop :=
  system_ok s ∧ (is_ecall (cause_of s) → frame_ok tf ∧ ∃ c sp, calling c sp tf s).

Lemma trap_ends tf s : trapped tf s → ∃ tf' s', trap_handler key task_stacks v now tf s = inr (tf', s') ∧ system_ok s'.
Proof.
  intros [Hs Hc]. unfold trap_handler, bind, ask. fold (cause_of s). destruct (Z.testbit (cause_of s) 63) eqn:Eb.
  { by apply runs_interrupt. }
  destruct (decide (cause_of s = 8 ∨ cause_of s = 9)) as [He|He].
  - destruct (Hc He) as (Hf & c & sp & Hcall). apply (runs_exception (calling c sp tf)); [|intros ?|done|exact Hcall].
    + apply printable_calling.
    + by apply runs_ecall.
  - apply (runs_exception system_ok); [apply printable_ok|done|auto|exact Hs].
Qed.
(** ** One call, seen from the process *)

Definition user_process (c : Z) (sp : task_address_space) s : Prop :=
  current (sy_kernel s) = Some c ∧ state (get_task (sy_kernel s) c) = TASK_RUNNING ∧
  pid (get_task (sy_kernel s) c) ≠ 0 ∧ own_space (sy_kernel s) c = Some sp.

Lemma process_ready c sp s : system_ok s → user_process c sp s → ready c sp s.
Proof.
  intros Hs (Hc & Hr & Hp & Hsp). destruct (ok_current _ (sok_table _ _ _ Hs)) as (c' & Hc' & Hi & _).
  rewrite Hc in Hc'. injection Hc' as <-. by split.
Qed.

(** [s1] differs from [s] by what an ordinary call of [c] may change. *)
Definition within (c : Z) (sp : task_address_space) s s1 : Prop := own c sp s s1 ∧ ready c sp s1.

Lemma printable_within c sp s : printable (within c sp s).
Proof.
  intros s1 out [[O1 O2 O3] [R1 R2 R3 R4 R5 R6]]. split; [by split|]. split; try done. by apply printable_ok.
Qed.

Lemma within_call c sp s epc tf : ready c sp s → frame_ok tf → ordinary (aget 0 tf 17) →
  runs (within c sp s) (environment_call key task_stacks v now epc tf)
    (λ r s1, within c sp s s1 ∧ ∃ a0, r = (false, aset tf reg_a0 a0)).
Proof.
  intros Hs Hf Ho s1 [Hown Hr]. destruct (dispatch_ordinary start v key c sp task_stacks tf Hf Ho s1 Hr) as (r & s2 & E & Ho2 & Hr2 & a0 & ->).
  unfold environment_call, bind. rewrite E. unfold current_state, ask.
  destruct (ready_state start v c sp s2 Hr2) as [-> _].
  rewrite !bool_decide_false by done. cbn [orb Z.eqb negb]. exists (false, aset tf reg_a0 a0), s2.
  split; [done|]. split; [|by exists a0]. split; [|done]. by eapply own_trans.
Qed.

(** The processor state an ordinary call returns with. *)
Record returned (c : Z) (sp : task_address_space) s s' : Prop := {
  rt_epc : trap_epc_read (csrs (sy_kernel s')) = u64 (trap_epc_read (csrs (sy_kernel s)) + 4);
  rt_space : csr_load SATP (csrs (sy_kernel s')) = csr_load SATP (csrs (sy_kernel s));
  rt_others : ∀ j, in_table j → j ≠ c → get_task (sy_kernel s') j = get_task (sy_kernel s) j;
  rt_process : user_process c sp s';
  rt_memory : same_outside (mapped_pages sp) (ram_of s) (ram_of s');
}.

Lemma within_end c sp s s1 scratch :
  system_ok s → user_process c sp s → within c sp s s1 →
  returned c sp s (s1 <| sy_kernel := (sy_kernel s1) <| csrs :=
    trap_scratch_write scratch (trap_epc_write (u64 (trap_epc_read (csrs (sy_kernel s)) + 4)) (csrs (sy_kernel s1))) |> |>).
Proof.
  intros Hok Hp [Hown Hr]. pose proof (process_ready c sp s Hok Hp) as Hs.
  pose proof (own_rest _ _ _ _ Hown) as R. unfold rest in R. injection R as _ _ _ _ _ _ Ec _.
  set (s' := s1 <| sy_kernel := _ |>).
  assert (csrs (sy_kernel s') = trap_scratch_write scratch (trap_epc_write (u64 (trap_epc_read (csrs (sy_kernel s)) + 4)) (csrs (sy_kernel s)))) as Es.
  { change (csrs (sy_kernel s')) with (trap_scratch_write scratch (trap_epc_write (u64 (trap_epc_read (csrs (sy_kernel s)) + 4)) (csrs (sy_kernel s1)))).
    by rewrite Ec. }
  split.
  - rewrite Es. unfold trap_epc_read, trap_scratch_write, trap_epc_write.
    by rewrite csr_load_store_plain_ne, csr_load_store_plain_eq.
  - rewrite Es. unfold trap_epc_read, trap_scratch_write, trap_epc_write. by rewrite !csr_load_store_plain_ne.
  - intros j Hj Hne. change (get_task (sy_kernel s') j) with (get_task (sy_kernel s1) j).
    destruct (own_get start v c sp s s1 j Hs Hown Hj) as (n & _ & _ & E). by apply E.
  - by destruct Hr.
  - destruct (own_memory _ _ _ _ Hown) as (m & Em & Ho & _).
    change (ram_of s') with (ram (memory (sy_kernel s1))). by rewrite Em.
Qed.

(** C2: a process that makes a call other than exit, wait, fork, execve, yield and kill
    gets the processor back at the next instruction with only register a0 changed and
    its own page table installed; no other process has changed, and of the memory only
    pages of the caller. *)
Theorem ordinary_call_effect c sp tf s :
  system_ok s → user_process c sp s → cause_of s = 8 → frame_ok tf → ordinary (aget 0 tf 17) →
  ∃ a0 s', trap_handler key task_stacks v now tf s = inr (aset tf reg_a0 a0, s') ∧ returned c sp s s' ∧ system_ok s'.
Proof.
  intros Hok Hp Hc Hf Ho. pose proof (process_ready c sp s Hok Hp) as Hs.
  set (epc := trap_epc_read (csrs (sy_kernel s))).
  assert (runs (within c sp s) (handle_exception key task_stacks v now 8 epc (trap_tval_read (csrs (sy_kernel s))) tf)
    (λ tf' s', (∃ a0, tf' = aset tf reg_a0 a0) ∧ returned c sp s s' ∧ system_ok s')) as Hrun.
  { unfold handle_exception. eapply (runs_bind _ _ _ (λ _, within c sp s)); [intros s1 H1; by eexists _, s1|].
    intros silent. cbn beta zeta. eapply runs_bind; [apply runs_banner, printable_within|]. intros ?.
    eapply runs_bind; [apply runs_say, printable_within|]. intros ?. cbn [Z.eqb Pos.eqb].
    eapply runs_bind; [eapply runs_bind; [apply runs_say, printable_within|intros ?; by apply within_call]|].
    intros [resumed tf']. eapply runs_bind.
    { apply (runs_say (λ s1, within c sp s s1 ∧ ∃ a0, (resumed, tf') = (false, aset tf reg_a0 a0))).
      intros s1 out [H1 H2]. split; [by apply printable_within|done]. }
    intros ? s1 [Hw (x & [= -> ->])]. unfold bind, on_csrs, prepare_return, on_kernel. eexists _, _. split; [reflexivity|].
    split; [by exists x|].
    split; [exact (within_end c sp s s1 (task_current_kernel_stack_top (sy_kernel s1)) Hok Hp Hw)|].
    pose proof (rd_ok _ _ _ _ _ (proj2 Hw)) as Hok1. pose proof (sok_table _ _ _ Hok1) as Ht1.
    exact (ok_look start v s1 (task_prepare_trap_return ((sy_kernel s1) <| csrs := trap_epc_write (u64 (epc + 4)) (csrs (sy_kernel s1)) |>))
      Hok1 (ok_csrs _ _ (ok_csrs _ _ Ht1)) eq_refl). }
  unfold trap_handler, bind, ask. change (trap_cause_read (csrs (sy_kernel s))) with (cause_of s). rewrite Hc.
  change (Z.testbit 8 63) with false. cbv iota.
  destruct (Hrun s) as (tf' & s' & E & (a0 & ->) & Hret & Hok'); [split; [by apply (own_refl start v)|exact Hs]|].
  exists a0, s'. done.
Qed.

(** ** Sequences *)

Definition may_trap (tf : list Z) s : Prop := is_ecall (cause_of s) →
  frame_ok tf ∧ pids_left tf s ∧ ∃ c sp, user_process c sp s.
End traps.

Section sequences.
Context {D : Type} `{HD : BlockDriver D}.
Context (start : Z) (v : vm_state) (key : Z → Z) (task_stacks : Z).
Implicit Types (s : system D).

(** A trap is handled, or a process runs in user mode: it writes its own pages, and
    the processor its control registers. *)
Inductive system_step : system D → system D → Prop :=
| step_trap s now tf tf' s' :
    may_trap tf s → trap_handler key task_stacks v now tf s = inr (tf', s') → system_step s s'
| step_user s c sp m cs :
    user_process c sp s → same_outside (mapped_pages sp) (ram_of s) m → ram_ok m →
    system_step s (put_memory m (s <| sy_kernel := (sy_kernel s) <| csrs := cs |> |>)).

Lemma may_trap_trapped tf s : system_ok start v s → may_trap tf s → trapped start v tf s.
Proof.
  intros Hs Hm. split; [done|]. intros He. destruct (Hm He) as (Hf & Hp & c & sp & Hu). split; [done|].
  exists c, sp. split; [by apply process_ready|done].
Qed.

Lemma system_step_ok s s' : system_step s s' → system_ok start v s → system_ok start v s'.
Proof.
  intros Hst Hs. destruct Hst as [s now tf tf' s' Hm E|s c sp m cs Hu Ho Hram].
  - destruct (trap_ends start v key task_stacks now tf s) as (tf2 & s2 & E2 & Hok); [by apply may_trap_trapped|].
    rewrite E in E2. injection E2 as _ <-. exact Hok.
  - pose proof (process_ready start v c sp s Hs Hu) as Hr. destruct Hs as [Ht Hf [F Hsp] Hta Hb].
    split; [by apply (ok_same (sy_kernel s))|exact Hf| |exact Hta|exact Hb]. exists F.
    exact (spaces_write start v F _ (own_space (sy_kernel s)) c sp m Hsp (rd_slot _ _ _ _ _ Hr) (rd_space _ _ _ _ _ Hr) Ho Hram).
Qed.

Lemma system_steps_ok s s' : rtc system_step s s' → system_ok start v s → system_ok start v s'.
Proof. induction 1; eauto using system_step_ok. Qed.

End sequences.

(** ** Yielding *)

Section yield.
Context {D : Type} `{HD : BlockDriver D}.
Context (start : Z) (v : vm_state) (key : Z → Z) (task_stacks : Z) (now : clock).
Implicit Types (s : system D).

(** A process that yields is sent back to the instruction that made the call, with the
    same registers: it makes the call again for ever. *)
Lemma yield_repeats c sp tf s :
  system_ok start v s → user_process c sp s → cause_of s = 8 → aget 0 tf 17 = SYS_YIELD →
  ∃ s', trap_handler key task_stacks v now tf s = inr (tf, s') ∧
    trap_epc_read (csrs (sy_kernel s')) = trap_epc_read (csrs (sy_kernel s)) ∧ user_process c sp s'.
Proof.
  intros Hok Hp Hc Hn. pose proof (process_ready start v c sp s Hok Hp) as Hs.
  set (epc := trap_epc_read (csrs (sy_kernel s))).
  assert (runs (within start v c sp s) (handle_exception key task_stacks v now 8 epc (trap_tval_read (csrs (sy_kernel s))) tf)
    (λ tf' s', tf' = tf ∧ trap_epc_read (csrs (sy_kernel s')) = epc ∧ user_process c sp s')) as Hrun.
  { unfold handle_exception. eapply (runs_bind _ _ _ (λ _, within start v c sp s)); [intros s1 H1; by eexists _, s1|].
    intros silent. cbn beta zeta. eapply runs_bind; [apply runs_banner, printable_within|]. intros ?.
    eapply runs_bind; [apply runs_say, printable_within|]. intros ?. cbn [Z.eqb Pos.eqb].
    eapply (runs_bind _ _ _ (λ r s1, within start v c sp s s1 ∧ r = (true, tf))).
    { eapply runs_bind; [apply runs_say, printable_within|]. intros ? s1 Hw.
      unfold environment_call, bind, syscall_dispatch. rewrite Hn. change (ret (2, tf) s1) with (@inr stop _ ((2, tf), s1)).
      unfold current_state, ask. destruct (ready_state start v c sp s1 (proj2 Hw)) as [Est _].
      exists (true, tf), s1. split; [|done]. cbn [fst snd]. change (SYS_YIELD =? SYS_READ) with false. cbv iota.
      unfold ret. cbn. rewrite Est. reflexivity. }
    intros [resumed tf']. eapply runs_bind.
    { apply (runs_say (λ s1, within start v c sp s s1 ∧ (resumed, tf') = (true, tf))).
      intros s1 out [H1 H2]. split; [by apply printable_within|done]. }
    intros ? s1 [Hw [= -> ->]]. unfold bind, ret at 1, prepare_return, on_kernel. eexists _, _. split; [reflexivity|].
    split; [done|]. pose proof (own_rest _ _ _ _ (proj1 Hw)) as R. unfold rest in R. injection R as _ _ _ _ _ _ Ec _.
    destruct (proj2 Hw) as [_ R2 _ R4 R5 R6]. split; [|done].
    change (csr_load SEPC (csr_store SSCRATCH (task_current_kernel_stack_top (sy_kernel s1)) (csrs (sy_kernel s1))) = epc).
    rewrite csr_load_store_plain_ne by done. by rewrite Ec. }
  unfold trap_handler, bind, ask. change (trap_cause_read (csrs (sy_kernel s))) with (cause_of s). rewrite Hc.
  change (Z.testbit 8 63) with false. cbv iota.
  destruct (Hrun s) as (tf' & s' & E & -> & Hret & Hu); [split; [by apply (own_refl start v)|exact Hs]|].
  exists s'. done.
Qed.
End yield.

(** ** A concrete machine *)

(** The process of [with_shell] in the space [demo_sp], with the disk of [demo_files],
    has made a call in user mode. *)
Definition demo_csrs : csr_file := csr_store SCAUSE 8 (csr_store SEPC 0x10000 (csr_store SATP (as_satp demo_sp) ∅)).
Definition demo_kernel : kernel :=
  (task_attach_address_space demo_sp with_shell).2 <| csrs := demo_csrs |> <| fds := (minifs_process_init 1 demo_fd).2 |>
    <| memory := demo_s |>.
Definition demo_system : system block_device :=
  MkSystem demo_kernel root_fs [] 0 (MkTimer 0 0 TIMER_INTERVAL TIMER_DEFAULT_SLICE_MS) true (replicate 56 0)
    (replicate 16 (replicate 16 0)).
Definition demo_frame (number : Z) : list Z :=
  aset (aset (aset (aset (replicate 32 0) 10 1) 11 0x10ffe) 12 2) 17 number.
Definition demo_trap (number : Z) : stop + list Z * system block_device :=
  trap_handler (λ _, 10) stacks demo_vm (MkClock 0 0 0) (demo_frame number) demo_system.
Definition after_trap (r : stop + list Z * system block_device) : system block_device :=
  match r with inr (_, s) => s | inl _ => demo_system end.

Lemma demo_tasks : Forall (λ t, has_user_space t = false ∧ sane t) (tasks with_shell).
Proof.
  apply (Forall_impl (λ t, (negb (has_user_space t) && (0 <=? cwd_inode t) && forallb (λ b, (0 <=? b) && (b <? 256)) (name t)) = true)).
  - apply Forall_forall. intros t Ht%list_elem_of_In.
    assert (forallb (λ t, negb (has_user_space t) && (0 <=? cwd_inode t) && forallb (λ b, (0 <=? b) && (b <? 256)) (name t))
      (tasks with_shell) = true) as E by (vm_compute; reflexivity).
    by apply (proj1 (forallb_forall _ _) E).
  - intros t Ht. bsimp. split; [done|]. split; [lia|by apply byte_list].
Qed.

Lemma attach_get k sp i : length (tasks k) = 16%nat → in_table i → current k = Some 1 →
  get_task (task_attach_address_space sp k).2 i = if decide (i = 1) then
    (get_task k 1) <| address_space := sp |> <| has_user_space := true |>
      <| trap_ctx := (trap_ctx (get_task k 1)) <| tc_satp := as_satp sp |> |>
  else get_task k i.
Proof. intros Hl Hi Hc. unfold task_attach_address_space. rewrite Hc. by apply get_task_upd. Qed.

Lemma with_shell_current : current with_shell = Some 1 ∧ length (tasks with_shell) = 16%nat ∧
  state (get_task with_shell 1) = TASK_RUNNING ∧ pid (get_task with_shell 1) = 1.
Proof. vm_compute. done. Qed.

Lemma attached_spaces k sp i : length (tasks k) = 16%nat → current k = Some 1 →
  Forall (λ t, has_user_space t = false ∧ sane t) (tasks k) → in_table i → let k' := (task_attach_address_space sp k).2 in
  (i = 1 → own_space k' i = Some sp) ∧ (i ≠ 1 → own_space k' i = None) ∧ sane (get_task k' i).
Proof.
  intros Hl Hc Hf Hi. cbv zeta.
  assert (∀ j, in_table j → has_user_space (get_task k j) = false ∧ sane (get_task k j)) as Ht.
  { intros j Hj. unfold in_table in Hj. apply (Forall_lookup_1 _ _ (Z.to_nat j) _ Hf). apply lookup_aget. lia. }
  pose proof (attach_get k sp i Hl Hi Hc) as Hg. unfold own_space. rewrite Hg.
  destruct (decide (i = 1)) as [->|Hne].
  - split; [done|]. split; [by intros []|]. apply (Ht 1). done.
  - destruct (Ht i Hi) as [-> Hs]. split; [by intros ->|]. split; [done|exact Hs].
Qed.

Lemma attached_get i : in_table i → let k' := (task_attach_address_space demo_sp with_shell).2 in
  (i = 1 → own_space k' i = Some demo_sp) ∧ (i ≠ 1 → own_space k' i = None) ∧ sane (get_task k' i).
Proof.
  intros Hi. destruct with_shell_current as (Hc & Hl & _ & _).
  exact (attached_spaces with_shell demo_sp i Hl Hc demo_tasks Hi).
Qed.

Lemma with_process (f : fs block_device) fd out keys p :
  files_good (MkFiles f fd out keys) → files_good (MkFiles f (minifs_process_init p fd).2 out keys).
Proof.
  intros Hf. pose proof (file_step_good (λ _, 10) _ _ (step_process_init _ _ p) Hf) as Hg.
  rewrite on_fds_snd in Hg. exact Hg.
Qed.

Lemma assembled_ok {D} `{BlockDriver D} start v k cs fd m F (f : fs D) out keys t b d n :
  kernel_ok k → files_good (MkFiles f fd out keys) → spaces_ok start v F m (own_space k) →
  (∀ i, in_table i → sane (get_task k i)) → bytes d → Forall (λ l, bytes l) n →
  system_ok start v (MkSystem (k <| csrs := cs |> <| fds := fd |> <| memory := m |>) f out keys t b d n).
Proof. intros Hk Hf Hs Ht Hd Hn. split; [by apply (ok_same k)|exact Hf|by exists F|exact Ht|by split]. Qed.

Lemma single_space start v F m sp (sps : Z → option task_address_space) :
  kmem start v F m → space_in start v F (ram m) sp →
  (∀ i, in_table i → (i = 1 → sps i = Some sp) ∧ (i ≠ 1 → sps i = None)) → spaces_ok start v F m sps.
Proof.
  intros Hk Hin Hs. split; [exact Hk| |].
  - intros i sp' Hi E. destruct (Hs i Hi) as (H1 & H2). destruct (decide (i = 1)) as [Hi1|Hi1]; [|by rewrite H2 in E].
    rewrite H1 in E by done. injection E as <-. exact Hin.
  - intros i j p Hi Hj Hij Hp. destruct (Hs i Hi) as (_ & H2). destruct (Hs j Hj) as (_ & H3).
    destruct (decide (i = 1)) as [Hi1|Hi1]; [rewrite H3 by congruence; apply not_elem_of_nil|].
    rewrite H2 in Hp by done. by apply not_elem_of_nil in Hp.
Qed.

Lemma demo_system_ok : system_ok 0x80300000 demo_vm demo_system.
Proof.
  destruct demo_kmem as (F & Hk & Hin).
  exact (assembled_ok 0x80300000 demo_vm _ demo_csrs _ demo_s F root_fs [] 0 _ true _ _
    (kstep_ok stacks _ _ (reachable_ok _ with_shell_reachable) (step_attach stacks with_shell demo_sp))
    (with_process root_fs demo_fd [] 0 1 demo_files_good) 
    (single_space 0x80300000 demo_vm F demo_s demo_sp _ Hk Hin (λ i Hi, conj (proj1 (attached_get i Hi)) (proj1 (proj2 (attached_get i Hi)))))
    (λ i Hi, proj2 (proj2 (attached_get i Hi)))
    (Forall_replicate _ _ _ (conj (Z.le_refl 0) eq_refl))
    (Forall_replicate _ _ _ (Forall_replicate _ _ _ (conj (Z.le_refl 0) eq_refl)))).
Qed.

Lemma assembled_user {D} k sp cs fd m (f : fs D) out keys t b d n :
  length (tasks k) = 16%nat → current k = Some 1 → state (get_task k 1) = TASK_RUNNING → pid (get_task k 1) ≠ 0 →
  user_process 1 sp (MkSystem ((task_attach_address_space sp k).2 <| csrs := cs |> <| fds := fd |> <| memory := m |>)
    f out keys t b d n).
Proof.
  intros Hl Hc Hr Hp. pose proof (attach_get k sp 1 Hl ltac:(done) Hc) as Hg. rewrite decide_True in Hg by done.
  set (k' := (task_attach_address_space sp k).2) in *.
  assert (current k' = Some 1) as Hc' by (unfold k', task_attach_address_space; by rewrite Hc). clearbody k'.
  set (k2 := k' <| csrs := cs |> <| fds := fd |> <| memory := m |>).
  assert (get_task k2 1 = get_task k' 1) as E by done. unfold user_process, own_space. cbn [sy_kernel].
  rewrite E, Hg. split; [exact Hc'|done].
Qed.

Lemma demo_user : user_process 1 demo_sp demo_system.
Proof.
  destruct with_shell_current as (Hc & Hl & Hr & Hp).
  apply assembled_user; [exact Hl|exact Hc|exact Hr|rewrite Hp; discriminate].
Qed.

Lemma demo_frame_ok number : is_u64 number → frame_ok (demo_frame number).
Proof. intros Hn. split; [done|]. unfold demo_frame. repeat (apply Forall_insert; [|lia]). by apply Forall_replicate. Qed.

Lemma demo_frame_number number : aget 0 (demo_frame number) 17 = number.
Proof. reflexivity. Qed.

(** The process writes two characters to its standard output. *)
Lemma ordinary_call_effect_witness :
  sy_out (after_trap (demo_trap SYS_WRITE)) = [0; 0] ∧
  ∃ a0 s', demo_trap SYS_WRITE = inr (aset (demo_frame SYS_WRITE) reg_a0 a0, s') ∧ returned 1 demo_sp demo_system s'.
Proof.
  split; [vm_compute; reflexivity|].
  assert (ordinary (aget 0 (demo_frame SYS_WRITE) 17)) as Ho by (rewrite demo_frame_number; vm_compute; set_solver).
  destruct (ordinary_call_effect 0x80300000 demo_vm (λ _, 10) stacks (MkClock 0 0 0) 1 demo_sp (demo_frame SYS_WRITE)
    demo_system demo_system_ok demo_user eq_refl (demo_frame_ok SYS_WRITE ltac:(by unfold SYS_WRITE)) Ho) as (a0 & s' & E & Hr & _).
  exists a0, s'. split; [exact E|exact Hr].
Defined.

Lemma demo_pids : next_pid demo_kernel < 2 ^ 31 - 1.
Proof. vm_compute. reflexivity. Qed.

Lemma demo_fork_step : system_step demo_vm (λ _, 10) stacks demo_system (after_trap (demo_trap SYS_FORK)).
Proof.
  assert (may_trap (demo_frame SYS_FORK) demo_system) as Hm.
  { intros _. split; [by apply demo_frame_ok|]. split; [intros _; exact demo_pids|]. exists 1, demo_sp. exact demo_user. }
  destruct (trap_ends 0x80300000 demo_vm (λ _, 10) stacks (MkClock 0 0 0) (demo_frame SYS_FORK) demo_system)
    as (tf' & s' & E & _); [by apply may_trap_trapped, Hm; apply demo_system_ok|].
  pose proof (step_trap demo_vm (λ _, 10) stacks demo_system _ _ tf' s' Hm E) as Hst.
  fold (demo_trap SYS_FORK) in E. rewrite E. exact Hst.
Qed.

