(* ===== verification/Kernel.v ===== *)
(** * Kernel start and the idle loop (os/kernel/kernel.c)

    [kernel_main] is the body of the C function up to the endless loop at its end;
    [idle_round] is one turn of that loop, [user_task_entry] the function the first
    process starts in.  MINIOS_BOOT_DIAGNOSTICS is 0 and MINIOS_BOOT_COLOR is 1, as in
    the defaults of the file.  A store to the power register ends the run. *)

From S2P Require Import Prelude Csr Mem Vm Device Console FdTable Block MiniFs.
From S2P Require Import AddrSpace Task Exec Syscall Trap.

Definition COLOR_GREEN : list Z := 27 :: chars "[32m".
Definition COLOR_RED : list Z := 27 :: chars "[31m".
Definition COLOR_RESET : list Z := 27 :: chars "[0m".

Section kernel_start.
Context {D : Type} `{BlockOps D}.
Implicit Types (s : system D).
(** The addresses the linker gives, and the value of [mtime] during the start. *)
Context (task_stacks kernel_end entry mtime : Z).

(** [printk], with a format that need not end in a line feed. *)
Definition print (fmt : list Z) (args : list va) : sys_m D unit := λ s,
  inr (tt, s <| sy_out := sy_out s ++ default [] (printk fmt args) |>).

Definition boot_banner : sys_m D unit :=
  let& _ := say "" [] in
  let& _ := say "  __  __ _       _  ___  ____" [] in
  let& _ := say " |  \/  (_)_ __ (_)/ _ \/ ___|" [] in
  let& _ := say " | |\/| | | '_ \| | | | \___ \" [] in
  let& _ := say " | |  | | | | | | | |_| |___) |" [] in
  let& _ := say " |_|  |_|_|_| |_|_|\___/|____/" [] in
  let& _ := say "" [] in
  let& _ := say " MiniOS | RV64I | S-mode | Sv39" [] in
  say "" [].

Definition status_color (ok : bool) : list Z := if ok then COLOR_GREEN else COLOR_RED.
Definition status_label (ok : bool) : list Z := chars (if ok then " OK " else "FAIL").

Definition boot_status (ok : bool) (component detail : String.string) : sys_m D unit :=
  say " %s[%s]%s %s%s" [VaStr (Some (status_color ok)); VaStr (Some (status_label ok)); VaStr (Some COLOR_RESET);
    VaStr (Some (chars component)); VaStr (Some (chars detail))].
Definition boot_status_pages (ok : bool) (pages : Z) : sys_m D unit :=
  say " %s[%s]%s Physical memory    %ld pages free"
    [VaStr (Some (status_color ok)); VaStr (Some (status_label ok)); VaStr (Some COLOR_RESET); VaLong pages].

(** The calls of kernel_main as steps on the whole state. *)
Definition start_memory : sys_m D Z := λ s,
  let k := sy_kernel s in
  let m := mem_init kernel_end (memory k) in
  inr (mem_free_pages m, s <| sy_kernel := k <| memory := m |> |>).
Definition start_paging : sys_m D vm_state := λ s,
  let k := sy_kernel s in
  let '(m, v, c) := vm_init (memory k) (MkVm 0 0 0) (csrs k) in
  inr (v, s <| sy_kernel := k <| memory := m |> <| csrs := c |> |>).
(** The descriptor tables are cleared whether the disk is valid or not. *)
Definition start_minifs : sys_m D bool := λ s,
  let '(r, f) := minifs_init (sy_fs s) in
  inr (bool_decide (is_Some r), s <| sy_kernel := (sy_kernel s) <| fds := fd_init |> |> <| sy_fs := f |>).
Definition on_timer (f : timer_state → csr_file → timer_state * csr_file) : sys_m D unit := λ s,
  let '(t, c) := f (sy_timer s) (csrs (sy_kernel s)) in
  inr (tt, s <| sy_kernel := (sy_kernel s) <| csrs := c |> |> <| sy_timer := t |>).
Definition kernel_step (f : kernel → kernel) : sys_m D unit := on_kernel (λ k, (tt, f k)).

Definition start_shell : sys_m D Z :=
  let& _ := on_csrs local_irq_disable in
  let& _ := kernel_step (task_set_scheduler SCHED_RR) in
  let& _ := kernel_step task_init in
  let& _ := kernel_step (task_set_quantum 1) in
  let& _ := on_timer (λ t c, (timer_set_timeslice_ms mtime TIMER_DEFAULT_SLICE_MS t, c)) in
  let& shell_pid := on_kernel (task_create task_stacks entry (Some str_shell)) in
  if shell_pid <? 0 then ret (-1)
  else
    let& _ := on_timer (timer_init mtime) in
    let& _ := trap_set_silent 1 in
    ret shell_pid.

(** The kernel's tables and the pid of the shell. *)
Definition kernel_main : sys_m D (vm_state * Z) :=
  let& _ := boot_banner in
  let& free := start_memory in
  let& _ := boot_status_pages (0 <? free) free in
  let& v := start_paging in
  let& _ := boot_status (negb (kernel_l2 v =? 0)) "Virtual memory     " "Sv39, 128 MiB mapped" in
  let& fs_ready := start_minifs in
  let& _ := boot_status fs_ready "MiniFS             " "8 MiB persistent disk" in
  if negb fs_ready then
    let& _ := say "Invalid disk image; refusing to overwrite it." [] in halt PowerOff
  else
    let& shell_pid := start_shell in
    let& _ := boot_status (0 <=? shell_pid) "Scheduler          " "RR, 10 ms quantum" in
    if shell_pid <? 0 then
      let& _ := boot_status false "User shell         " "creation failed" in halt PowerOff
    else
      let& _ := print (chars " ") [] in
      let& _ := print COLOR_GREEN [] in
      let& _ := print (chars "[ OK ]") [] in
      let& _ := print COLOR_RESET [] in
      let& _ := say " User shell         pid %d" [VaInt shell_pid] in
      let& _ := print (10 :: chars "Welcome to MiniOS." ++ [10]) [] in
      let& _ := say "Type 'help' for commands." [] in
      let& _ := on_csrs local_irq_enable in
      ret (v, shell_pid).

(** One turn of the loop of the idle task. *)
Definition idle_round (shell_pid : Z) : sys_m D unit :=
  let& p := on_kernel (λ k, let '(r, _, k) := task_waitpid shell_pid true k in (r, k)) in
  if p =? shell_pid then
    let& _ := print (10 :: chars "Shell exited, halting MiniOS." ++ [10]) [] in halt PowerOff
  else ret tt.

(** The registers sp, a0, a1 and a2 the process starts user mode with; [None] when it
    has exited instead and spins until the next interrupt. *)
Definition user_task_entry (v : vm_state) : sys_m D (option (Z * Z * Z * Z)) :=
  let& rc := (λ s,
    let '(rc, out, k, f) := user_init v (sy_kernel s) (sy_fs s) in
    inr (rc, s <| sy_kernel := k |> <| sy_fs := f |> <| sy_out := sy_out s ++ out |>)) in
  if rc <? 0 then
    let& _ := kernel_step (task_exit 127) in ret None
  else λ s,
    match enter_user (sy_kernel s) with
    | None => inl Stray
    | Some (sp, a0, a1, a2, c) =>
        inr (Some (sp, a0, a1, a2), s <| sy_kernel := (sy_kernel s) <| csrs := c |> |>)
    end.
End kernel_start.
