(* ===== verification/KernelSpec.v ===== *)
(** * From power-on to the shell

    [boot_consistent] starts where the other invariants end: it derives [system_ok]
    from a machine whose static variables are zero and whose disk holds a consistent
    file system, and carries it through the start of the shell and every turn of the
    idle loop. *)

From S2P Require Import Prelude Csr Mem Vm Device CpuType Console Block FdTable MiniFs FsLayout FsFile FsWrite FsOps FsInv.
From S2P Require Import FsFiles AddrSpace UserMem Task Process Lifecycle Exec ExecSpec Isolation Syscall SyscallSpec Trap.
From S2P Require Import SystemSpec TrapSpec Kernel.

(** ** The disk *)

(** What [minifs_init] asks of the superblock. *)
Definition super_valid (super : list Z) : bool :=
  (word_at 0 super =? MINIFS_MAGIC) && (word_at 1 super =? MINIFS_VERSION) &&
  (word_at 2 super =? MINIFS_BLOCK_COUNT) && (word_at 3 super =? MINIFS_MAX_INODES) &&
  (word_at 10 super =? MINIFS_DATA_START) && (word_at 11 super =? MINIFS_MAX_FILE_SIZE).

(** Two bitmaps with the same four sectors. *)
Lemma bitmap_ext (b c : list Z) : length b = 2048%nat → length c = 2048%nat →
  (∀ k, 0 ≤ k < 4 → slice (k * 512) 512 b = slice (k * 512) 512 c) → b = c.
Proof.
  intros Hb Hc Hs. apply list_eq. intros i. destruct (decide (i < 2048)%nat) as [Hi|Hi].
  - set (q := Z.of_nat i / 512). assert (0 ≤ q < 4 ∧ Z.of_nat i = q * 512 + Z.of_nat i mod 512 ∧ 0 ≤ Z.of_nat i mod 512 < 512) as (Hq & E & Hr)
      by (unfold q; Z.div_mod_to_equations; lia).
    assert (∀ l : list Z, slice (q * 512) 512 l !! Z.to_nat (Z.of_nat i mod 512) = l !! i) as Hl.
    { intros l. unfold slice. rewrite lookup_take_lt by lia. rewrite lookup_drop. f_equal. lia. }
    rewrite <- (Hl b), <- (Hl c). by rewrite Hs.
  - by rewrite !lookup_ge_None_2 by lia.
Qed.

Section mount.
Context {D : Type} `{HD : BlockDriver D}.
Implicit Types (d : D) (b : list Z).

Definition same_sectors d d' : Prop := dev_ok d' ∧ ∀ m, 0 ≤ m < BLOCK_SECTOR_COUNT → sector_at d' m = sector_at d m.

Lemma read_sector d b n : dev_ok d → 0 ≤ n < BLOCK_SECTOR_COUNT →
  ∃ d', read_block n (MkFs d b) = (Some (sector_at d n), MkFs d' b) ∧ same_sectors d d'.
Proof.
  intros Hd Hn. destruct (bread_ok d n Hd Hn) as (Hr & Hd' & Hm). unfold read_block. cbn [dev].
  destruct (bread n d) as [r d']. cbn in Hr, Hd', Hm. subst r. by exists d'.
Qed.

Lemma load_bitmap_ok n d b0 i b :
  dev_ok d → 0 ≤ i → i + Z.of_nat n ≤ 4 → length b = 2048%nat →
  (∀ k, 0 ≤ k < i → slice (k * 512) 512 b = sector_at d (2 + k)) →
  ∃ d' b', load_bitmap n 2 i b (MkFs d b0) = (Some b', MkFs d' b0) ∧ same_sectors d d' ∧ length b' = 2048%nat ∧
    ∀ k, 0 ≤ k < i + Z.of_nat n → slice (k * 512) 512 b' = sector_at d (2 + k).
Proof.
  revert d i b. induction n as [|n IH]; intros d i b Hd Hi Hn Hl Hs; cbn [load_bitmap].
  { exists d, b. split; [done|]. split; [done|]. split; [done|]. intros k Hk. apply Hs. lia. }
  assert (0 ≤ 2 + i < BLOCK_SECTOR_COUNT) as Hr by (unfold BLOCK_SECTOR_COUNT; lia).
  destruct (read_sector d b0 (2 + i) Hd Hr) as (d1 & E & Hd1 & Hm). unfold and_then. rewrite E.
  destruct (sector_at_ok d (2 + i) Hd Hr) as [Hlen _].
  assert (Z.of_nat (length (sector_at d (2 + i))) = 512) as Hz by (rewrite Hlen; done).
  destruct (IH d1 (i + 1) (splice (i * 512) (sector_at d (2 + i)) b) Hd1) as (d' & b' & E' & [Hd' Hm'] & Hl' & Hs'); [lia|lia|..].
  - rewrite length_splice; lia.
  - intros k Hk. rewrite Hm by (unfold BLOCK_SECTOR_COUNT; lia). destruct (decide (k = i)) as [->|Hne].
    + pose proof (slice_splice_eq (i * 512) (sector_at d (2 + i)) b) as Hx. rewrite Hz in Hx. apply Hx; lia.
    + rewrite slice_splice_ne by lia. apply Hs. lia.
  - exists d', b'. rewrite E'. split; [done|]. split; [split; [done|]|split; [done|]].
    + intros m Hmr. by rewrite Hm', Hm.
    + intros k Hk. rewrite Hs' by lia. apply Hm. unfold BLOCK_SECTOR_COUNT. lia.
Qed.

(** A consistent disk image: some bitmap in memory goes with it. *)
Definition mountable (f : fs D) : Prop := length (bitmap f) = 2048%nat ∧ ∃ b, fs_good (MkFs (dev f) b).

Lemma minifs_init_ok f : mountable f →
  ∃ r f', minifs_init f = (r, f') ∧
    if super_valid (sector_at (dev f) 0) then r = Some tt ∧ fs_good f' else r = None.
Proof using HD.
  intros [Hl [b Hg]]. pose proof (good_ok _ Hg) as Hok. destruct f as [d b0]. cbn [dev bitmap] in *.
  pose proof (fo_dev _ Hok : dev_ok d) as Hd. unfold minifs_init, and_then at 1.
  destruct (read_sector d b0 0 Hd ltac:(done)) as (d1 & E & Hd1 & Hm). rewrite E. unfold and_then.
  fold (super_valid (sector_at d 0)). unfold guard_m.
  destruct (super_valid (sector_at d 0)); [|by eexists _, _].
  destruct (load_bitmap_ok 4 d1 b0 0 b0 Hd1) as (d2 & b' & E2 & [Hd2 Hm2] & Hl2 & Hs2); [lia|lia|done|intros; lia|].
  unfold ok. cbn [bitmap]. change MINIFS_DATA_BITMAP_START with 2. rewrite E2. eexists _, _. split; [reflexivity|]. split; [done|].
  assert (b' = b) as ->.
  { apply bitmap_ext; [done|apply (fo_len _ Hok)|]. intros k Hk. rewrite Hs2 by lia.
    rewrite Hm by (unfold BLOCK_SECTOR_COUNT; lia). apply (fo_synced _ Hok k Hk). }
  assert (∀ m, 0 ≤ m < BLOCK_SECTOR_COUNT → sector_at d2 m = sector_at d m) as Hsec.
  { intros m Hmr. by rewrite Hm2, Hm. }
  apply (good_like (MkFs d b)); [exact Hg|]. split; [|done|exact Hsec].
  destruct Hok as [_ H1 H2 H3]. split; [exact Hd2|exact H1|exact H2|].
  intros k Hk. etrans; [|exact (H3 k Hk)]. apply Hsec. unfold BLOCK_SECTOR_COUNT. lia.
Qed.
End mount.

(** ** kernel_main *)

Section outcomes.
Context {D : Type}.

Definition outcome {A} (P : system D → Prop) (m : sys_m D A) (Q : stop + A * system D → Prop) : Prop := ∀ s, P s → Q (m s).

Lemma outcome_bind {A B} P (m : sys_m D A) (f : A → sys_m D B) R Q :
  runs P m R → (∀ a, outcome (R a) (f a) Q) → outcome P (bind m f) Q.
Proof. intros Hm Hf s Hs. destruct (Hm s Hs) as (a & s' & E & Ha). unfold bind. rewrite E. by apply Hf. Qed.

Lemma runs_say_all (P : system D → Prop) fmt args : printable P → runs P (say fmt args) (λ _, P).
Proof. intros HP. exact (runs_say P true fmt args HP). Qed.
Lemma runs_print (P : system D → Prop) fmt args : printable P → runs P (print fmt args) (λ _, P).
Proof. intros HP s Hs. eexists tt, _. split; [reflexivity|]. by apply HP. Qed.

Lemma runs_boot_banner (P : system D → Prop) : printable P → runs P boot_banner (λ _, P).
Proof.
  intros HP. unfold boot_banner.
  do 8 (eapply runs_bind; [by apply runs_say_all|intros ?; cbn beta]). by apply runs_say_all.
Qed.
End outcomes.

Section boot.
Context {D : Type} `{HD : BlockDriver D}.
Context (task_stacks kernel_end entry mtime : Z).
Implicit Types (s : system D).

(** The machine when it is switched on. *)
Record powered_on s : Prop := {
  po_tasks : tasks (sy_kernel s) = replicate 16 zero_task;
  po_ram : ram_ok (ram (memory (sy_kernel s)));
  po_disk : mountable (sy_fs s);
  po_buffers : buffers_ok s;
}.

(** The free memory starts at the page after the kernel's image, and holds at least
    the three pages of the kernel's tables. *)
Definition heap_start : Z := align_up kernel_end PAGE_SIZE.
Definition room : Prop := _kernel_start ≤ kernel_end ∧ kernel_end + 3 * PAGE_SIZE ≤ _stack_top - STACK_GUARD.

Lemma room_heap m : room →
  mem_rep heap_start (heap_pages heap_start) (mem_init kernel_end m) ∧ (3 ≤ size (heap_pages heap_start))%nat.
Proof.
  intros [H1 H2]. destruct (mem_init_inv kernel_end m) as [_ Hrep]; [unfold PAGE_SIZE in *; lia|].
  cbn [fst snd] in Hrep. rewrite difference_empty_L in Hrep. split; [exact Hrep|].
  unfold heap_pages. rewrite size_list_to_set by apply pages_between_NoDup. rewrite length_pages_between.
  unfold heap_start. rewrite align_up_spec by (unfold _kernel_start, _stack_top, STACK_GUARD, PAGE_SIZE in *; lia).
  unfold _kernel_start, _stack_top, STACK_GUARD, PAGE_SIZE in *. Z.div_mod_to_equations. lia.
Qed.

(** *** The three parts that can fail *)

(** The machine before and after its memory is set up. *)
Definition with_memory (Q : mem_state → Prop) s : Prop := powered_on s ∧ Q (memory (sy_kernel s)).
Definition heap_ready (m : mem_state) : Prop :=
  mem_rep heap_start (heap_pages heap_start) m ∧ (3 ≤ size (heap_pages heap_start))%nat ∧ ram_ok (ram m).
Definition paged (v : vm_state) (m : mem_state) : Prop := ∃ F, kmem heap_start v F m.

Lemma printable_with Q : printable (with_memory Q).
Proof. intros s out [[O1 O2 O3 O4] HQ]. split; [by split|exact HQ]. Qed.

Lemma runs_start_memory : room → runs powered_on (start_memory kernel_end) (λ _, with_memory heap_ready).
Proof.
  intros Hr s [O1 O2 O3 O4]. eexists _, _. split; [reflexivity|].
  destruct (room_heap (memory (sy_kernel s)) Hr) as [Hm Hs]. split; [by split|]. by split.
Qed.

Lemma runs_start_paging : runs (with_memory heap_ready) start_paging (λ v, with_memory (paged v)).
Proof.
  intros s [[O1 O2 O3 O4] (Hm & Hs & Hram)]. unfold start_paging.
  pose proof (vm_init_ram_ok (memory (sy_kernel s)) (MkVm 0 0 0) (csrs (sy_kernel s)) Hram) as Hok.
  destruct (vm_init_spec _ _ (memory (sy_kernel s)) (MkVm 0 0 0) (csrs (sy_kernel s)) Hm Hs)
    as (F & m & v & c & E & Ht & _ & Hrep & _ & N1 & N2 & N3). rewrite E in Hok |- *. cbn [fst] in Hok.
  assert (kmem heap_start v F m) as Hk by (split; [done..|]; by repeat constructor).
  exists v. eexists. split; [reflexivity|]. split; [|by exists F]. split; [exact O1|apply Hk|exact O3|exact O4].
Qed.

(** After [minifs_init]: the file system is there or the disk is refused. *)
Definition mounted (v : vm_state) (ready : bool) s : Prop :=
  if ready then
    tasks (sy_kernel s) = replicate 16 zero_task ∧ paged v (memory (sy_kernel s)) ∧ fs_good (sy_fs s) ∧
    fds (sy_kernel s) = fd_init ∧ buffers_ok s
  else True.

Lemma printable_mounted v ready : printable (mounted v ready).
Proof. intros s out Hs. by destruct ready. Qed.

Lemma runs_start_minifs v f :
  runs (λ s, with_memory (paged v) s ∧ sy_fs s = f) start_minifs
    (λ ready s, ready = super_valid (sector_at (dev f) 0) ∧ mounted v ready s).
Proof.
  intros s [[[O1 O2 O3 O4] Hp] <-]. unfold start_minifs. destruct (minifs_init_ok (sy_fs s) O3) as (r & f' & E & Hr).
  rewrite E. eexists _, _. split; [reflexivity|]. destruct (super_valid _).
  - destruct Hr as [-> Hg]. split; [done|]. rewrite bool_decide_true by done. by split.
  - rewrite Hr. by rewrite bool_decide_false by by intros [].
Qed.

(** *** The idle task and the shell *)

Definition before_shell (cs : csr_file) (k : kernel) : kernel := (task_set_quantum 1 (task_init k)) <| csrs := cs |>.
Definition shell_start (cs : csr_file) (k : kernel) : Z * kernel :=
  task_create task_stacks entry (Some str_shell) (before_shell cs k).
(** The tables afterwards, which do not depend on what the machine was started with. *)
Definition boot_views : list (Z * list Z * bool * task_address_space) :=
  view <$> tasks (task_create 0 1 (Some str_shell) (before_shell ∅ boot)).2.
Definition boot_fds : fd_state := (minifs_process_init 1 (minifs_process_init 0 fd_init).2).2.

Lemma before_shell_running cs k : tasks k = replicate 16 zero_task →
  kernel_ok (before_shell cs k) ∧ task_current_state (before_shell cs k) = TASK_RUNNING ∧ next_pid (before_shell cs k) = 1.
Proof.
  intros Ht. split; [|split].
  - apply ok_csrs, task_set_quantum_ok, task_init_ok. by rewrite Ht.
  - destruct k as [t c n p o pol q a b cs' f m cp]. cbn in Ht. subst t. vm_compute. reflexivity.
  - destruct k as [t c n p o pol q a b cs' f m cp]. cbn in Ht. subst t. vm_compute. reflexivity.
Qed.

Lemma shell_started cs k : tasks k = replicate 16 zero_task → fds k = fd_init → entry ≠ 0 →
  let r := shell_start cs k in
  r.1 = 1 ∧ look r.2 = (boot_views, memory k, boot_fds) ∧ current r.2 = Some 0 ∧ next_pid r.2 = 2.
Proof.
  intros Ht Hf He. destruct k as [t c n p o pol q a b cs' f m cp]. cbn in Ht, Hf. subst t f.
  unfold shell_start, task_create. rewrite (proj2 (Z.eqb_neq entry 0)) by done. vm_compute. done.
Qed.

Lemma boot_views_sane i : in_table i → let '(cwd, nm, user, _) := aget (view zero_task) boot_views i in
  0 ≤ cwd ∧ bytes nm ∧ user = false.
Proof.
  intros Hi. assert (forallb (λ w, let '(cwd, nm, user, _) := w in
    (0 <=? cwd) && forallb (λ b, (0 <=? b) && (b <? 256)) nm && negb user) boot_views = true) as Hb by (vm_compute; reflexivity).
  assert (length boot_views = 16%nat) as Hl by (vm_compute; reflexivity).
  assert (boot_views !! Z.to_nat i = Some (aget (view zero_task) boot_views i)) as El.
  { apply lookup_aget. unfold in_table in Hi. lia. }
  destruct (aget _ boot_views i) as [[[cwd nm] user] sp]. apply list_elem_of_lookup_2, list_elem_of_In in El.
  apply (proj1 (forallb_forall _ _) Hb) in El. cbn beta iota in El. bsimp. split; [lia|]. split; [by apply byte_list|done].
Qed.

(** The shell is process 1 and everything is consistent. *)
Definition shell_ready (v : vm_state) s : Prop :=
  system_ok heap_start v s ∧ current (sy_kernel s) = Some 0 ∧ next_pid (sy_kernel s) = 2.

Lemma printable_shell v : printable (shell_ready v).
Proof. intros s out [Hs Hc]. split; [by apply printable_ok|done]. Qed.

Lemma fresh_files (f : fs D) out keys : fs_good f → files_good (MkFiles f fd_init out keys).
Proof.
  intros Hf. split; [exact Hf|apply fd_init_inv|]. intros k Hu. exfalso. revert Hu.
  unfold get_of, fd_init, aget. cbn [open_files f_fds].
  destruct (replicate 64 of_zero !! Z.to_nat k) eqn:Ek; [|done]. by apply lookup_replicate in Ek as [-> _].
Qed.

Lemma process_files (f : fs D) fd out keys p :
  files_good (MkFiles f fd out keys) → files_good (MkFiles f (minifs_process_init p fd).2 out keys).
Proof using HD.
  intros Hf. pose proof (file_step_good (λ _, 0) _ _ (step_process_init _ _ p) Hf) as Hg.
  rewrite on_fds_snd in Hg. exact Hg.
Qed.

Lemma boot_files (f : fs D) out keys : fs_good f → files_good (MkFiles f boot_fds out keys).
Proof using HD. intros Hf. exact (process_files f _ out keys 1 (process_files f _ out keys 0 (fresh_files f out keys Hf))). Qed.

(** A kernel whose tasks have no memory yet, in a system. *)
Lemma shell_system v s k' (views : list (Z * list Z * bool * task_address_space)) fd :
  paged v (memory (sy_kernel s)) → buffers_ok s → kernel_ok k' → look k' = (views, memory (sy_kernel s), fd) →
  (∀ i, in_table i → let '(cwd, nm, user, _) := aget (view zero_task) views i in 0 ≤ cwd ∧ bytes nm ∧ user = false) →
  files_good (MkFiles (sy_fs s) fd (sy_out s) (sy_keys s)) → system_ok heap_start v (s <| sy_kernel := k' |>).
Proof.
  intros [F Hk] Hb Hok El Hs Hf. unfold look in El. apply pair_equal_spec in El as [[Ev Em]%pair_equal_spec Ef].
  assert (∀ i, view (get_task k' i) = aget (view zero_task) views i) as Hv.
  { intros i. rewrite <- Ev. unfold get_task, aget. rewrite list_lookup_fmap. by destruct (tasks k' !! _). }
  assert (∀ i, in_table i → own_space k' i = None ∧ sane (get_task k' i)) as Ht.
  { intros i Hi. pose proof (Hs i Hi) as Hx. rewrite <- Hv in Hx. unfold view in Hx.
    destruct Hx as (Hc & Hn & Hu). unfold own_space. by rewrite Hu. }
  split; [exact Hok| | |intros i Hi; by apply Ht|exact Hb].
  - rewrite <- Ef in Hf. exact Hf.
  - exists F. cbn [sy_kernel set_field]. change (spaces_ok heap_start v F (memory k') (own_space k')). rewrite Em. split; [exact Hk| |].
    + intros i sp Hi. by rewrite (proj1 (Ht i Hi)).
    + intros i j p Hi Hj _. rewrite (proj1 (Ht i Hi)). by intros ?%not_elem_of_nil.
Qed.

(** The tables [start_shell] leaves, whatever they are. *)
Definition fresh_tables (m : mem_state) (k' : kernel) : Prop := ∃ views fd, look k' = (views, m, fd) ∧
  (∀ i, in_table i → let '(cwd, nm, user, _) := aget (view zero_task) views i in 0 ≤ cwd ∧ bytes nm ∧ user = false) ∧
  ∀ (f : fs D) out keys, fs_good f → files_good (MkFiles f fd out keys).

Lemma shell_tables cs k : tasks k = replicate 16 zero_task → fds k = fd_init → entry ≠ 0 →
  ∃ k', shell_start cs k = (1, k') ∧ kernel_ok k' ∧ fresh_tables (memory k) k' ∧ current k' = Some 0 ∧ next_pid k' = 2.
Proof using HD.
  intros Ht Hf He. destruct (before_shell_running cs k Ht) as (Hok & Hrun & Hpid).
  destruct (shell_started cs k Ht Hf He) as (Er & El & Ec & En).
  pose proof (task_create_ok task_stacks entry (Some str_shell) _ Hok Hrun) as Hk. rewrite Hpid in Hk. specialize (Hk ltac:(done)).
  change (task_create task_stacks entry (Some str_shell) (before_shell cs k)) with (shell_start cs k) in Hk.
  exists (shell_start cs k).2. split; [by rewrite <- Er; apply surjective_pairing|]. split; [exact Hk|].
  split; [|exact (conj Ec En)]. exists boot_views, boot_fds. split; [exact El|]. split; [exact boot_views_sane|exact boot_files].
Qed.

Lemma runs_start_shell v : entry ≠ 0 →
  runs (mounted v true) (start_shell task_stacks entry mtime) (λ pid s, pid = 1 ∧ shell_ready v s).
Proof using HD.
  intros He s Hs. pose proof Hs as (Ht & Hp & Hfs & Hf & Hb).
  set (k0 := (sy_kernel s) <| csrs := local_irq_disable (csrs (sy_kernel s)) |> <| scheduler_policy := SCHED_RR |>).
  set (cs := csrs (task_set_quantum 1 (task_init k0))).
  destruct (shell_tables cs k0 Ht Hf He) as (k' & E & Hk & (views & fd & El & Hv & Hfd) & Ec & En).
  set (t1 := timer_set_timeslice_ms mtime TIMER_DEFAULT_SLICE_MS (sy_timer s)).
  exists 1, (s <| sy_kernel := k' <| csrs := csr_set SIE SIE_STIE (csrs k') |> |>
    <| sy_timer := (timer_init mtime t1 (csrs k')).1 |> <| sy_silent := true |>).
  split.
  - unfold start_shell, bind, on_csrs, kernel_step, on_timer, on_kernel.
    change (task_create task_stacks entry (Some str_shell) _) with (shell_start cs k0). rewrite E. reflexivity.
  - split; [done|].
    pose proof (shell_system v s _ views fd Hp Hb (ok_csrs _ (csr_set SIE SIE_STIE (csrs k')) Hk) El Hv
      (Hfd (sy_fs s) (sy_out s) (sy_keys s) Hfs)) as [S1 S2 S3 S4 S5].
    split; [by split; [exact S1|by destruct S2|exact S3|exact S4|exact S5]|done].
Qed.

(** Printing and enabling the interrupts. *)
Lemma runs_shell_irq v f : runs (shell_ready v) (on_csrs f) (λ _, shell_ready v).
Proof.
  intros s [[S1 S2 S3 S4 S5] Hc]. eexists tt, _. split; [reflexivity|].
  split; [|exact Hc]. split; [by apply ok_csrs|exact S2|exact S3|exact S4|exact S5].
Qed.

(** The two ways [kernel_main] goes. *)
Definition boot_outcome (valid : bool) (o : stop + (vm_state * Z) * system D) : Prop :=
  if valid then ∃ v s', o = inr ((v, 1), s') ∧ shell_ready v s' else o = inl PowerOff.

Lemma outcome_shell v : entry ≠ 0 →
  outcome (mounted v true) (let& shell_pid := start_shell task_stacks entry mtime in
    let& _ := boot_status (0 <=? shell_pid) "Scheduler          " "RR, 10 ms quantum" in
    if shell_pid <? 0 then let& _ := boot_status false "User shell         " "creation failed" in halt PowerOff
    else
      let& _ := print (chars " ") [] in let& _ := print COLOR_GREEN [] in
      let& _ := print (chars "[ OK ]") [] in let& _ := print COLOR_RESET [] in
      let& _ := say " User shell         pid %d" [VaInt shell_pid] in
      let& _ := print (10 :: chars "Welcome to MiniOS." ++ [10]) [] in
      let& _ := say "Type 'help' for commands." [] in
      let& _ := on_csrs local_irq_enable in ret (v, shell_pid)) (boot_outcome true).
Proof using HD.
  intros He. eapply outcome_bind; [by apply runs_start_shell|]. intros pid s [-> Hs]. revert s Hs.
  eapply outcome_bind; [apply runs_say_all, printable_shell|]. intros ?. change (1 <? 0) with false. cbv iota.
  do 4 (eapply outcome_bind; [apply runs_print, printable_shell|intros ?; cbn beta]).
  eapply outcome_bind; [apply runs_say_all, printable_shell|]. intros ?.
  eapply outcome_bind; [apply runs_print, printable_shell|]. intros ?.
  eapply outcome_bind; [apply runs_say_all, printable_shell|]. intros ?.
  eapply outcome_bind; [apply runs_shell_irq|]. intros ? s Hs. by exists v, s.
Qed.

Lemma kernel_main_outcome f : room → entry ≠ 0 →
  outcome (λ s, powered_on s ∧ sy_fs s = f) (kernel_main task_stacks kernel_end entry mtime)
    (boot_outcome (super_valid (sector_at (dev f) 0))).
Proof using HD.
  intros Hr He.
  assert (∀ Q, printable (λ s, with_memory Q s ∧ sy_fs s = f)) as Hp.
  { intros Q s out [Hs Ef]. split; [by apply printable_with|exact Ef]. }
  assert (∀ v ready b, printable (λ s, ready = b ∧ mounted v ready s)) as Hp2.
  { intros v ready b s out [E Hs]. split; [exact E|by apply printable_mounted]. }
  unfold kernel_main. eapply outcome_bind.
  { apply runs_boot_banner. intros s out [[O1 O2 O3 O4] E]. split; [by split|exact E]. }
  intros ?. cbn beta. eapply (outcome_bind _ _ _ (λ _ s, with_memory heap_ready s ∧ sy_fs s = f)).
  { intros s [Hs Ef]. destruct (runs_start_memory Hr s Hs) as (a0 & s' & E & H1). exists a0, s'. split; [exact E|].
    split; [exact H1|]. injection E as _ <-. exact Ef. }
  intros ?. cbn beta. eapply outcome_bind; [apply runs_say_all, Hp|]. intros ?. cbn beta.
  eapply (outcome_bind _ _ _ (λ v s, with_memory (paged v) s ∧ sy_fs s = f)).
  { intros s [Hs Ef]. destruct (runs_start_paging s Hs) as (v & s' & E & H1). exists v, s'. split; [exact E|].
    split; [exact H1|]. revert E. unfold start_paging. destruct (vm_init _ _ _) as [[m v0] c]. by intros [= _ <-]. }
  intros v. cbn beta. eapply outcome_bind; [apply runs_say_all, Hp|]. intros ?. cbn beta.
  eapply outcome_bind; [apply runs_start_minifs|]. intros ready. cbn beta.
  eapply outcome_bind; [apply runs_say_all, Hp2|]. intros ? s [<- Hs].
  destruct ready; cbn [negb]; [by apply outcome_shell|reflexivity].
Qed.
End boot.

(** ** The first process *)

Section first_process.
Context {D : Type} `{HD : BlockDriver D}.
Context (start : Z) (v : vm_state).
Implicit Types (s : system D).

(** The shell's program [p] in the task [c], whose pages were free. *)
Record installed (F : gset Z) (k k' : kernel) (c : Z) (p : loaded_program) : Prop := {
  il_others : ∀ i, in_table i → i ≠ c → get_task k' i = get_task k i;
  il_task : cwd_inode (get_task k' c) = cwd_inode (get_task k c) ∧ name (get_task k' c) = name (get_task k c) ∧
    has_user_space (get_task k' c) = true;
  il_rest : table k' = table k ∧ fds k' = fds k ∧ current k' = Some c;
  il_outside : same_outside (elements F) (ram (memory k)) (ram (memory k'));
  il_csrs : csrs k' = csr_store SATP (as_satp (address_space (get_task k' c))) (csrs k);
  il_pages : ∃ F', kmem start v F' (memory k') ∧
    space_in start v F' (ram (memory k')) (address_space (get_task k' c)) ∧
    list_to_set (space_pages (address_space (get_task k' c))) ∪ F' = F;
  il_context : tc_regs (trap_ctx (get_task k' c)) = start_registers p (tc_regs (trap_ctx (get_task k c))) ∧
    tc_epc (trap_ctx (get_task k' c)) = lp_entry p;
  il_entry : executable (address_space (get_task k' c)) (lp_entry p);
  il_stack : initial_stack [shell_path] shell_envp p (address_space (get_task k' c)) (ram (memory k'));
}.

Lemma shell_strings : Forall (λ str, bytes str) [shell_path] ∧ Forall (λ str, bytes str) shell_envp.
Proof. split; repeat (apply Forall_cons_2; [by apply byte_list|]); apply Forall_nil_2. Qed.

Lemma user_init_outcome (F : gset Z) (f : fs D) k c rc out k' f' :
  kmem start v F (memory k) → fs_good f → current k = Some c → in_table c → length (tasks k) = 16%nat →
  0 ≤ task_current_cwd k → user_init v k f = (rc, out, k', f') →
  like f f' ∧
  ((rc = -1 ∧ k' = k <| memory := memory k' |> ∧ kmem start v F (memory k') ∧
      same_outside (elements F) (ram (memory k)) (ram (memory k')))
   ∨ (rc = 0 ∧ ∃ p, installed F k k' c p)).
Proof using HD.
  intros Hk Hf Hcur Hc Hlen Hcwd. unfold user_init.
  assert (idle start v F (ram (memory k)) f (MkLd f (memory k) zero_space)) as Hi.
  { split; [apply like_refl, good_ok, Hf|done|reflexivity]. }
  destruct shell_strings as [Ha He].
  destruct (prepare_ok start v F _ f (task_current_cwd k) shell_path [shell_path] shell_envp _ Hf Hi Hcwd Ha He) as (r & s & E & Hr).
  rewrite E. destruct r as [p|]; [|intros [= <- <- <- <-]; destruct Hr as [Hl Hk' Hs]; split; [done|]; by left].
  destruct Hr as ([Hl (F1 & Hk1 & Hin1 & HF) Hs] & Hx & Hst).
  set (k1 := k <| memory := ld_mem s |>). unfold task_attach_address_space. change (current k1) with (current k). rewrite Hcur.
  cbn [Z.ltb Z.compare]. set (sp := ld_space s) in *.
  match goal with |- context [upd_task c ?f k1] => set (f1 := f) end.
  set (k2 := (upd_task c f1 k1) <| csrs := _ |>). change (current k2) with (current k). rewrite Hcur.
  match goal with |- context [upd_task c ?f k2] => set (f2 := f) end. set (k3 := upd_task c f2 k2).
  unfold task_set_current_entry. change (current k3) with (current k). rewrite Hcur.
  match goal with |- context [upd_task c ?f k3] => set (f3 := f) end. set (k4 := upd_task c f3 k3).
  intros [= <- <- <- <-]. split; [done|]. right. split; [done|]. exists p.
  assert (length (tasks (upd_task c f1 k1)) = 16%nat ∧ length (tasks k3) = 16%nat) as [Hl1 Hl3].
  { pose proof (length_tasks_upd_16 k1 c f1 Hlen) as Hl0. split; [exact Hl0|]. exact (length_tasks_upd_16 k2 c f2 Hl0). }
  assert (∀ i, in_table i → get_task k4 i = if decide (i = c) then f3 (f2 (f1 (get_task k c))) else get_task k i) as Hg.
  { intros i Hit. unfold k4. rewrite get_task_upd by done.
    assert (∀ j, in_table j → get_task k3 j = if decide (j = c) then f2 (f1 (get_task k c)) else get_task k j) as Hg3.
    { intros j Hj. unfold k3. rewrite (get_task_upd k2) by done. change (get_task k2) with (get_task (upd_task c f1 k1)).
      rewrite !(get_task_upd k1) by done. destruct (decide (j = c)) as [->|]; [by rewrite decide_True by done|done]. }
    rewrite !Hg3 by done. destruct (decide (i = c)) as [->|]; [by rewrite decide_True by done|done]. }
  pose proof (Hg c Hc) as Hgc. rewrite decide_True in Hgc by done.
  assert (address_space (get_task k4 c) = sp) as Esp by by rewrite Hgc.
  assert (table k4 = table k) as Et.
  { unfold k4. rewrite (table_upd_same k3 c f3) by done. unfold k3. rewrite (table_upd_same k2 c f2) by done.
    change (table k2) with (table (upd_task c f1 k1)). by rewrite (table_upd_same k1 c f1) by done. }
  split; rewrite ?Esp; try done.
  - intros i Hit Hne. by rewrite Hg, decide_False.
  - by rewrite Hgc.
  - by exists F1.
  - by rewrite Hgc.
Qed.

(** A task that [task_create] made and that has not run yet. *)
Record newborn (c : Z) s : Prop := {
  nb_current : current (sy_kernel s) = Some c;
  nb_running : state (get_task (sy_kernel s) c) = TASK_RUNNING;
  nb_pid : pid (get_task (sy_kernel s) c) ≠ 0;
  nb_space : own_space (sy_kernel s) c = None;
  nb_frame : length (tc_regs (trap_ctx (get_task (sy_kernel s) c))) = 32%nat;
}.

(** The processor enters the program in user mode: [sret] goes to [sepc] with the
    privilege in bit 8 of the status register. *)
Record entered (c : Z) (p : loaded_program) (sp : task_address_space) s : Prop := {
  en_process : user_process c sp s;
  en_entry : executable sp (lp_entry p);
  en_stack : initial_stack [shell_path] shell_envp p sp (ram_of s);
  en_epc : csr_load SEPC (csrs (sy_kernel s)) = lp_entry p;
  en_satp : csr_load SATP (csrs (sy_kernel s)) = as_satp sp;
  en_mode : Z.testbit (trap_status_read (csrs (sy_kernel s))) 8 = false;
}.

Lemma status_user c0 : Z.testbit (trap_status_read (csr_store SSTATUS
  (Z.lor (Z.land (csr_load SSTATUS c0) (u64 (Z.lnot SSTATUS_SPP))) SSTATUS_SPIE) c0)) 8 = false.
Proof.
  change (csr_store SSTATUS) with trap_status_write. rewrite status_store_load, Z.land_spec, Z.lor_spec, Z.land_spec.
  change (Z.testbit (u64 (Z.lnot SSTATUS_SPP)) 8) with false. change (Z.testbit SSTATUS_SPIE 8) with false.
  by rewrite andb_false_r.
Qed.

Lemma start_register regs p : length regs = 32%nat →
  aget 0 (start_registers p regs) 2 = lp_stack_pointer p ∧ aget 0 (start_registers p regs) 10 = lp_argc p ∧
  aget 0 (start_registers p regs) 11 = lp_argv_pointer p ∧ aget 0 (start_registers p regs) 12 = lp_envp_pointer p.
Proof. intros Hl. unfold start_registers. do 32 (destruct regs as [|? regs]; [done|]). by destruct regs. Qed.

Lemma enter_user_ok c p k : current k = Some c →
  (∃ regs, length regs = 32%nat ∧ tc_regs (trap_ctx (get_task k c)) = start_registers p regs) →
  tc_epc (trap_ctx (get_task k c)) = lp_entry p →
  ∃ cs, enter_user k = Some (lp_stack_pointer p, lp_argc p, lp_argv_pointer p, lp_envp_pointer p, cs) ∧
    csr_load SEPC cs = lp_entry p ∧ csr_load SATP cs = csr_load SATP (csrs k) ∧
    Z.testbit (trap_status_read cs) 8 = false.
Proof.
  intros Hc (regs & Hl & Er) Ee. unfold enter_user, task_current_initial_trap_context, task_current_entry. rewrite Hc.
  cbn [fmap option_fmap option_map]. rewrite Er, Ee. destruct (start_register regs p Hl) as (-> & -> & -> & ->).
  eexists. split; [reflexivity|]. unfold trap_scratch_write, trap_status_read.
  split; [|split].
  - rewrite csr_load_store_plain_ne by done. by rewrite csr_load_store_plain_eq.
  - rewrite !csr_load_store_plain_ne by done. by rewrite csr_load_store_status_ne.
  - rewrite !csr_load_store_plain_ne by done. apply status_user.
Qed.

(** The state after the program is in place. *)
Lemma installed_ok c p s F k' f' :
  system_ok start v s → in_table c → own_space (sy_kernel s) c = None →
  spaces_ok start v F (memory (sy_kernel s)) (own_space (sy_kernel s)) → like (sy_fs s) f' →
  installed F (sy_kernel s) k' c p → system_ok start v (s <| sy_kernel := k' |> <| sy_fs := f' |>).
Proof using HD.
  intros [Ht Hg _ Hta Hb] Hc Ho Hs Hl [Lo (Lc & Ln & Lu) (Lt & Lf & _) Lout _ (F' & Hk & Hin & HF) _ _ _].
  split.
  - by apply (ok_same (sy_kernel s)).
  - change (files_good (MkFiles f' (fds k') (sy_out s) (sy_keys s))). rewrite Lf. destruct Hg as [G1 G2 G3].
    split; [exact (proj1 (good_like _ _ G1 Hl))|exact G2|exact G3].
  - exists F'. change (spaces_ok start v F' (memory k') (own_space k')).
    assert (own_space k' c = Some (address_space (get_task k' c))) as Eo by (unfold own_space; by rewrite Lu).
    eapply (spaces_change start v F F' _ _ _ _ c (elements F)); [exact Hs|exact Hk| | | | |exact Lout|].
    + left. apply elem_of_seqZ. unfold in_table in Hc. lia.
    + intros i Hi Hne. unfold own_space. by rewrite Lo.
    + intros sp _ E. rewrite Eo in E. injection E as <-. split; [exact Hin|]. intros q Hq. left. rewrite <- HF.
      apply elem_of_union. left. by apply elem_of_list_to_set.
    + intros q Hq. left. rewrite <- HF. apply elem_of_union. by right.
    + intros q Hq%elem_of_elements. by left.
  - intros i Hi. change (sane (get_task k' i)). destruct (decide (i = c)) as [->|Hne]; [|rewrite Lo by done; by apply Hta].
    unfold sane. rewrite Lc, Ln. by apply Hta.
  - exact Hb.
Qed.

Definition after_entry (c : Z) (r : option (Z * Z * Z * Z)) s : Prop :=
  match r with
  | Some (sp, a0, a1, a2) => ∃ p space, entered c p space s ∧
      (sp, a0, a1, a2) = (lp_stack_pointer p, lp_argc p, lp_argv_pointer p, lp_envp_pointer p)
  | None => state (get_task (sy_kernel s) c) = TASK_ZOMBIE
  end.

Lemma entry_outcome c s : system_ok start v s → newborn c s →
  ∃ r s', user_task_entry v s = inr (r, s') ∧ system_ok start v s' ∧ after_entry c r s'.
Proof using HD.
  intros Hok [Hcur Hrun Hpid Hno Hfr]. pose proof (sok_table _ _ _ Hok) as Ht. destruct (sok_spaces _ _ _ Hok) as [F Hsp].
  destruct (ok_current _ Ht) as (c' & Hc' & Hc & _). rewrite Hcur in Hc'. injection Hc' as <-.
  pose proof (fg_fs _ (sok_files _ _ _ Hok)) as Hfs.
  assert (0 ≤ task_current_cwd (sy_kernel s)) as Hcwd by (unfold task_current_cwd; rewrite Hcur; by apply (sok_tasks _ _ _ Hok c)).
  unfold user_task_entry, bind. destruct (user_init v (sy_kernel s) (sy_fs s)) as [[[rc out] k'] f'] eqn:E.
  destruct (user_init_outcome F (sy_fs s) (sy_kernel s) c rc out k' f' (spc_kmem _ _ _ _ _ Hsp) Hfs Hcur Hc (ok_len _ Ht) Hcwd E)
    as [Hl [(-> & Ek & Hk & Ho)|(-> & p & Hil)]]; cbn [Z.ltb Z.compare].
  - set (s1 := s <| sy_kernel := k' |> <| sy_fs := f' |> <| sy_out := sy_out s ++ out |>).
    assert (system_ok start v s1) as H1.
    { pose proof (ok_free_memory start v s (memory k') F Hok Hsp Hk Ho) as [O1 O2 O3 O4 O5]. rewrite <- Ek in *.
      split; [exact O1| |exact O3|exact O4|exact O5]. destruct O2 as [G1 G2 G3].
      split; [exact (proj1 (good_like _ _ G1 Hl))|exact G2|exact G3]. }
    eexists None, _. split; [reflexivity|]. destruct (look_exit 127 (sy_kernel s1)) as (fd & Hf & El).
    split; [exact (ok_step start v s1 _ fd H1 (task_exit_ok _ 127 (sok_table _ _ _ H1)) Hf El)|].
    assert (current k' = Some c) as Hcur' by (rewrite Ek; exact Hcur).
    apply (task_exit_dead k' 127 c (sok_table _ _ _ H1) Hcur'). intros ->. apply Hpid, (ok_idle _ Ht).
  - pose proof (installed_ok c p s F k' f' Hok Hc Hno Hsp Hl Hil) as H1.
    destruct Hil as [_ (_ & _ & Lu) (Lt & _ & Lcur) _ Lcs _ [Lr Le] Lx Lst].
    destruct (enter_user_ok c p k' Lcur ltac:(by eexists) Le) as (cs & Een & C1 & C2 & C3).
    unfold on_kernel. cbn [sy_kernel set_field]. eexists _, _. split; [rewrite Een; reflexivity|].
    set (s1 := s <| sy_kernel := k' |> <| sy_fs := f' |>) in *.
    assert (slot_of (get_task k' c) = slot_of (get_task (sy_kernel s) c)) as Es.
    { rewrite <- !slot_of_get. by rewrite Lt. }
    injection Es as E1 E2 _. split.
    + destruct H1 as [O1 O2 O3 O4 O5]. split; [by apply ok_csrs|by destruct O2|exact O3|exact O4|exact O5].
    + exists p, (address_space (get_task k' c)). split; [|done]. split; [|exact Lx|exact Lst|exact C1| |exact C3].
      * split; [exact Lcur|]. change (get_task (sy_kernel _) c) with (get_task k' c). rewrite E1, E2.
        split; [done|]. split; [done|]. unfold own_space. change (get_task (sy_kernel _) c) with (get_task k' c). by rewrite Lu.
      * etrans; [exact C2|]. rewrite Lcs. by rewrite csr_load_store_plain_eq.
Qed.
End first_process.

(** ** From power-on *)

Section start.
Context {D : Type} `{HD : BlockDriver D}.
Context (key : Z → Z) (task_stacks kernel_end entry mtime : Z) (v : vm_state).
Implicit Types (s : system D).
Local Abbreviation system_ok := (system_ok (heap_start kernel_end) v).

(** The shell is process 1; it has ended. *)
Definition shell_over s : Prop :=
  ∃ i, in_table i ∧ state (get_task (sy_kernel s) i) = TASK_ZOMBIE ∧ pid (get_task (sy_kernel s) i) = 1.

Lemma idle_outcome s : system_ok s → current (sy_kernel s) = Some 0 →
  (idle_round 1 s = inl PowerOff ∧ shell_over s) ∨ ∃ s', idle_round 1 s = inr (tt, s') ∧ system_ok s'.
Proof.
  intros Hok Hc. pose proof (sok_table _ _ _ Hok) as Ht.
  pose proof (task_waitpid_spec (sy_kernel s) 1 true 0 Ht Hc) as Hw. unfold idle_round, bind, on_kernel.
  destruct (task_waitpid 1 true (sy_kernel s)) as [[r st] k'].
  destruct Hw as [(i & (Hi & _ & _ & _ & Hp) & Hz & _ & -> & _ & _)|[(_ & _ & _ & -> & ->)|(_ & -> & _ & ->)]].
  - left. rewrite Hp by lia. split; [reflexivity|]. exists i. split; [done|]. split; [done|by apply Hp].
  - right. eexists. split; [reflexivity|]. by apply ok_look.
  - right. eexists. split; [reflexivity|]. by apply ok_look.
Qed.

(** What happens once the interrupts are on: a process runs or traps, the first process
    is entered, the processor writes its control registers when an interrupt arrives in
    the kernel, the idle task looks for the shell. *)
Inductive machine_step : system D → system D → Prop :=
| machine_system s s' : system_step v key task_stacks s s' → machine_step s s'
| machine_entry s c r s' : newborn c s → user_task_entry v s = inr (r, s') → machine_step s s'
| machine_trap s cs : machine_step s (s <| sy_kernel := (sy_kernel s) <| csrs := cs |> |>)
| machine_idle s s' : current (sy_kernel s) = Some 0 → idle_round 1 s = inr (tt, s') → machine_step s s'.

Lemma machine_steps_ok s s' : rtc machine_step s s' → system_ok s → system_ok s'.
Proof.
  induction 1 as [|s s1 s' Hst _ IH]; [done|]. intros Hs. apply IH. destruct Hst as [s s1 H1|s c r s1 Hn E|s cs|s s1 Hc E].
  - exact (system_step_ok (heap_start kernel_end) v key task_stacks _ _ H1 Hs).
  - destruct (entry_outcome (heap_start kernel_end) v c s Hs Hn) as (r' & s2 & E2 & H2 & _). rewrite E in E2. by injection E2 as _ <-.
  - apply ok_look; [exact Hs|apply ok_csrs, Hs|reflexivity].
  - destruct (idle_outcome s Hs Hc) as [[E2 _]|(s2 & E2 & H2)]; rewrite E in E2; [done|by injection E2 as <-].
Qed.

(** The machine never gets stuck in the kernel. *)
Definition served s : Prop :=
  (∀ now tf, may_trap tf s → ∃ tf' s', trap_handler key task_stacks v now tf s = inr (tf', s')) ∧
  (∀ c, newborn c s → ∃ r s', user_task_entry v s = inr (r, s') ∧ after_entry c r s') ∧
  (current (sy_kernel s) = Some 0 →
     (idle_round 1 s = inl PowerOff ∧ shell_over s) ∨ ∃ s', idle_round 1 s = inr (tt, s')).

Lemma ok_served s : system_ok s → served s.
Proof using HD.
  intros Hs. split; [|split].
  - intros now tf Hm. destruct (trap_ends (heap_start kernel_end) v key task_stacks now tf s) as (tf' & s' & E & _); [by apply may_trap_trapped|].
    by exists tf', s'.
  - intros c Hn. destruct (entry_outcome (heap_start kernel_end) v c s Hs Hn) as (r & s' & E & _ & Ha). by exists r, s'.
  - intros Hc. destruct (idle_outcome s Hs Hc) as [Hp|(s' & E & _)]; [by left|right; by exists s'].
Qed.
End start.

(** C3: on a machine that is switched on with a consistent file system on its disk,
    [kernel_main] refuses a disk whose superblock is not that of MiniFS and otherwise
    reaches the idle loop with the shell as process 1.  Whatever happens from then on,
    every state is consistent; every trap is handled; the first process enters its
    program in user mode, at the entry point and on the stack that hold in the program's
    own space, or exits; and the idle loop goes on until the shell has ended, which
    switches the machine off. *)
Theorem boot_consistent {D : Type} `{HD : BlockDriver D} (key : Z → Z) task_stacks kernel_end entry mtime (s0 : system D) :
  powered_on s0 → room kernel_end → entry ≠ 0 →
  let boot := kernel_main task_stacks kernel_end entry mtime s0 in
  if super_valid (sector_at (dev (sy_fs s0)) 0) then
    ∃ v s1, boot = inr ((v, 1), s1) ∧ ∀ s, rtc (machine_step key task_stacks v) s1 s →
      system_ok (heap_start kernel_end) v s ∧ served key task_stacks v s
  else boot = inl PowerOff.
Proof.
  intros Hp Hr He. cbv zeta.
  pose proof (kernel_main_outcome task_stacks kernel_end entry mtime (sy_fs s0) Hr He s0 (conj Hp eq_refl)) as Ho.
  unfold boot_outcome in Ho. destruct (super_valid _); [|exact Ho]. destruct Ho as (v & s1 & E & Hs & _).
  exists v, s1. split; [exact E|]. intros s Hst. pose proof (machine_steps_ok key task_stacks kernel_end v s1 s Hst Hs) as Hok.
  split; [exact Hok|]. by apply (ok_served key task_stacks kernel_end v).
Qed.

(** ** A concrete machine *)

Section image.
Context {D : Type} `{HD : BlockDriver D}.
Implicit Types (s : fs D) (f : files D).

(** A disk with a directory and a program in it. *)
Definition with_sector (n : Z) (bs : list Z) s : fs D := (write_block n bs s).2.
Definition with_program (dir path image : list Z) f : files D :=
  (minifs_write 7 3 image (minifs_open 7 0 path (Z.lor 2 MINIFS_O_CREATE) (on_fs (minifs_mkdir 0 dir) f).2).2).2.
Definition with_mode (n mode : Z) s : fs D := (write_inode n ((inode_at s n) <| i_mode := mode |>) s).2.

Lemma with_sector_good s n bs : fs_good s → 0 ≤ n < 2 → is_sector bs → fs_good (with_sector n bs s).
Proof.
  intros Hg Hn Hb. unfold with_sector. by destruct (keeps_low n bs Hn Hb s Hg) as (r & s' & -> & Hg' & _).
Qed.
Lemma with_program_good dir path image f : files_good f → bytes dir → bytes path → bytes image →
  files_good (with_program dir path image f).
Proof using HD.
  intros Hf Hd Hp Hi. apply written_good; [|exact Hi]. apply open_good; [|done|exact Hp].
  exact (file_step_good (λ _, 0) _ _ (step_mkdir (λ _, 0) f 0 dir (Z.le_refl 0) Hd) Hf).
Qed.

Lemma mountable_with s b : fs_good s → length b = 2048%nat → mountable (MkFs (dev s) b).
Proof. intros Hg Hb. split; [exact Hb|]. exists (bitmap s). by destruct s. Qed.
End image.

Definition demo_super : list Z :=
  splice 40 (le32 MINIFS_DATA_START ++ le32 MINIFS_MAX_FILE_SIZE)
    (splice 0 (le32 MINIFS_MAGIC ++ le32 MINIFS_VERSION ++ le32 MINIFS_BLOCK_COUNT ++ le32 MINIFS_MAX_INODES) (replicate 512 0)).
Definition shell_files : files block_device := with_program (chars "/bin") (chars "/bin/shell") demo_elf demo_files.
Definition shell_fs : fs block_device := with_mode 2 (Z.lor 1 MINIFS_MODE_EXEC) (f_fs shell_files).
Definition shell_disk : fs block_device := with_sector 0 demo_super shell_fs.
Definition cold : system block_device :=
  MkSystem boot (MkFs (dev shell_disk) (replicate 2048 0)) [] 0 (MkTimer 0 0 TIMER_INTERVAL TIMER_DEFAULT_SLICE_MS) false
    (replicate 56 0) (replicate 16 (replicate 16 0)).

Lemma demo_super_sector : is_sector demo_super.
Proof. split; [reflexivity|]. apply byte_list. vm_compute. reflexivity. Qed.

Lemma shell_files_good : files_good shell_files.
Proof.
  exact (with_program_good (chars "/bin") (chars "/bin/shell") demo_elf demo_files demo_files_good
    (byte_list (chars "/bin") eq_refl) (byte_list (chars "/bin/shell") eq_refl) demo_elf_bytes).
Qed.

Lemma shell_fs_good : fs_good shell_fs.
Proof.
  unfold shell_fs, with_mode. apply remode_good.
  - exact (fg_fs _ shell_files_good).
  - unfold is_inode. lia.
  - vm_compute. split; [discriminate|reflexivity].
  - vm_compute. discriminate.
Qed.

Lemma shell_disk_good : fs_good shell_disk.
Proof. exact (with_sector_good shell_fs 0 demo_super shell_fs_good (conj (Z.le_refl 0) eq_refl) demo_super_sector). Qed.

Lemma cold_powered : powered_on cold.
Proof.
  split; [reflexivity|exact ram_ok_empty| |].
  - exact (mountable_with shell_disk (replicate 2048 0) shell_disk_good eq_refl).
  - split; [exact (Forall_replicate _ _ _ (conj (Z.le_refl 0) eq_refl))|].
    exact (Forall_replicate _ _ _ (Forall_replicate _ _ _ (conj (Z.le_refl 0) eq_refl))).
Qed.

(** The machine boots, a timer interrupt arrives, the shell's task runs and enters its
    program. *)
Local Abbreviation booted := (kernel_main stacks 0x80300000 0x80201000 0 cold).
Definition run_state {E A S} (d : S) (o : E + A * S) : S := match o with inr (_, s) => s | inl _ => d end.
Definition run_tables {E B S} (o : E + vm_state * B * S) : vm_state := match o with inr (v, _, _) => v | inl _ => MkVm 0 0 0 end.
Local Abbreviation boot_state := (run_state cold booted).
Local Abbreviation boot_vm := (run_tables booted).
Definition demo_cause : csr_file := csr_store SCAUSE (2 ^ 63 + 5) (csrs (sy_kernel boot_state)).
Local Abbreviation interrupted := (boot_state <| sy_kernel := (sy_kernel boot_state) <| csrs := demo_cause |> |>).
Local Abbreviation ticked := (trap_handler (λ _, 10) stacks boot_vm (MkClock 50000 0 0) (replicate 32 0) interrupted).
Local Abbreviation switched := (run_state cold ticked).

Lemma interrupt_steps {D} `{BlockOps D} (key : Z → Z) ts v (s : system D) cs now tf tf' s' :
  let si := s <| sy_kernel := (sy_kernel s) <| csrs := cs |> |> in
  ¬ is_ecall (cause_of si) → trap_handler key ts v now tf si = inr (tf', s') → rtc (machine_step key ts v) s s'.
Proof.
  intros si Hc E. eapply rtc_l; [apply (machine_trap key ts v s cs)|]. apply rtc_once, machine_system.
  by apply (step_trap v key ts si now tf tf' s').
Qed.

(** The value and the state of a run that does not stop. *)
Lemma run_result {E A S} (o : E + A * S) (d : S) : match o with inr _ => true | inl _ => false end = true →
  ∃ a, o = inr (a, run_state d o).
Proof. destruct o as [|[a s]]; [done|]. by exists a. Qed.
Lemma run_pair {E S} (o : E + (vm_state * Z) * S) (d : S) : match o with inr (_, p, _) => p | inl _ => 0 end = 1 →
  o = inr ((run_tables o, 1), run_state d o).
Proof. destruct o as [|[[a p] s]]; [done|]. by intros ->. Qed.

Lemma run_some {E A S} (o : E + option A * S) r s : o = inr (r, s) →
  match o with inr (Some _, _) => true | _ => false end = true → ∃ a, r = Some a.
Proof. intros ->. destruct r as [a|]; [by exists a|done]. Qed.

Lemma switched_run : ∃ tf, ticked = inr (tf, switched).
Proof. apply (run_result ticked cold). vm_compute. reflexivity. Qed.

Lemma booted_run : booted = inr ((boot_vm, 1), boot_state).
Proof. apply (run_pair booted cold). vm_compute. reflexivity. Qed.

Lemma switched_newborn : newborn 1 switched.
Proof. split; vm_compute; (reflexivity || discriminate). Qed.

Lemma boot_consistent_witness :
  length (sy_out boot_state) = 500%nat ∧
  ∃ r s, user_task_entry boot_vm switched = inr (Some r, s) ∧ after_entry 1 (Some r) s.
Proof.
  split; [vm_compute; reflexivity|].
  assert (room 0x80300000) as Hr by (unfold room, _kernel_start, _stack_top, STACK_GUARD, PAGE_SIZE; lia).
  assert (0x80201000 ≠ 0) as He by lia.
  pose proof (boot_consistent (λ _, 10) stacks 0x80300000 0x80201000 0 cold cold_powered Hr He) as Hb.
  cbv zeta in Hb.
  assert (super_valid (sector_at (dev (sy_fs cold)) 0) = true) as Hv by (vm_compute; reflexivity).
  rewrite Hv, booted_run in Hb. destruct Hb as (v & s1 & Eb & Hall).
  apply (inj inr), pair_equal_spec in Eb as [[Ev _]%pair_equal_spec Es]. rewrite <- Ev, <- Es in Hall. clear Ev Es v s1.
  destruct switched_run as [tf E].
  assert (¬ is_ecall (cause_of interrupted)) as Hi by (intros [Hx|Hx]; vm_compute in Hx; discriminate Hx).
  destruct (Hall switched) as [_ (_ & Hent & _)].
  - exact (interrupt_steps (λ _, 10) stacks boot_vm boot_state demo_cause (MkClock 50000 0 0) (replicate 32 0) tf switched Hi E).
  - destruct (Hent 1 switched_newborn) as (r & s & Er & Ha).
    destruct (run_some _ r s Er) as [x ->]; [vm_compute; reflexivity|]. exists x, s. exact (conj Er Ha).
Defined.
